(** * gibgoGame: the software GPU-emulation layer

    A shallow embedding of the allocator, the command ring and the software
    rasterization pipeline of the repository, with the properties of its
    design specification stated and settled against the code.

    Conventions.
    - [u32], [u64] and [i32] values are integers of [Z]; every C operation
      that can wrap has its reduction modulo 2^32 or 2^64 written out.
    - [f32] is the repository's own 32-bit float type (types.h): a word of
      raw [bits].  Arithmetic goes through [f32_to_native] and
      [f32_from_native] exactly as math.h does; the native [float] is an
      IEEE-754 binary32 number ([spec_float] at precision 24, emax 128),
      every operation rounded to nearest-even and never contracted into a
      fused multiply-add, as the build the repository documents has it
      (gcc -std=c99 on x86-64).  NaN payloads are not tracked: a NaN result
      is re-encoded as [F32_NAN].
    - Memory reached through a pointer ([u32* framebuffer],
      [float* depth_buffer], [u32* command_buffer], the CPU heap) is a
      store indexed by element offset from the pointer; the extent of the
      underlying allocation is stated separately where a property needs it. *)

From Stdlib Require Import ZArith Lia Bool List.
From Stdlib Require Import Floats.SpecFloat.
From stdpp Require Import base list.

Local Open Scope Z_scope.

(* ===================================================================== *)
(** ** Machine integers (types.h) *)
(* ===================================================================== *)

Definition u32_modulus : Z := 2 ^ 32.
Definition u64_modulus : Z := 2 ^ 64.

Definition wrap32 (z : Z) : Z := z mod u32_modulus.
Definition wrap64 (z : Z) : Z := z mod u64_modulus.

(** [b32] is a 32-bit boolean; [B32_TRUE] is 1 and [B32_FALSE] is 0. *)
Definition b32 := bool.
Definition B32_TRUE : b32 := true.
Definition B32_FALSE : b32 := false.

(** Word-addressed stores: the memory behind a C pointer, indexed by element. *)
Definition store (A : Type) := Z -> A.

Definition store_set {A : Type} (m : store A) (i : Z) (v : A) : store A :=
  fun j => if j =? i then v else m j.

(* ===================================================================== *)
(** ** The custom float type (types.h, math.h) *)
(* ===================================================================== *)

(** The native C [float]: IEEE-754 binary32. *)
Definition float := spec_float.

Definition prec32 : Z := 24.
Definition emax32 : Z := 128.

Definition float_add : float -> float -> float := SFadd prec32 emax32.
Definition float_sub : float -> float -> float := SFsub prec32 emax32.
Definition float_mul : float -> float -> float := SFmul prec32 emax32.
Definition float_div : float -> float -> float := SFdiv prec32 emax32.
Definition float_neg : float -> float := SFopp.
Definition float_lt : float -> float -> bool := SFltb.
Definition float_gt (a b : float) : bool := SFltb b a.
Definition float_le : float -> float -> bool := SFleb.
Definition float_ge (a b : float) : bool := SFleb b a.

(** Integer-to-float conversion, [(float)value], rounded to nearest-even. *)
Definition float_of_Z (z : Z) : float := binary_normalize prec32 emax32 z 0 false.

(** Truncation of a float toward zero, as an unbounded integer; [None] for
    NaN and the infinities. *)
Definition float_trunc (x : float) : option Z :=
  match x with
  | S754_zero _ => Some 0
  | S754_finite s m e =>
      let mag := if 0 <=? e then Z.pos m * 2 ^ e else Z.pos m / 2 ^ (- e) in
      Some (if s then - mag else mag)
  | S754_infinity _ | S754_nan => None
  end.

(** [(i32)x].  A value out of the range of [i32] has no defined result in C;
    the x86-64 conversion instruction the repository's target uses yields the
    "integer indefinite" value -2^31, which is what the model returns. *)
Definition float_to_i32 (x : float) : Z :=
  match float_trunc x with
  | Some z => if (- 2 ^ 31 <=? z) && (z <? 2 ^ 31) then z else - 2 ^ 31
  | None => - 2 ^ 31
  end.

(** [(u32)x], taken through the 64-bit conversion and reduced modulo 2^32
    (every use in the pipeline converts a value clamped to [0, 255]). *)
Definition float_to_u32 (x : float) : Z :=
  match float_trunc x with
  | Some z => if (- 2 ^ 63 <=? z) && (z <? 2 ^ 63) then wrap32 z else 0
  | None => 0
  end.

Definition float_is_nan (x : float) : bool :=
  match x with S754_nan => true | _ => false end.

(** [fminf], [fmaxf] and [fabsf] of the C library: a NaN argument is
    ignored in favour of the other one. *)
Definition fminf (a b : float) : float :=
  if float_is_nan a then b
  else if float_is_nan b then a
  else if float_lt b a then b else a.

Definition fmaxf (a b : float) : float :=
  if float_is_nan a then b
  else if float_is_nan b then a
  else if float_lt a b then b else a.

Definition fabsf : float -> float := SFabs.

(** The union [f32] of types.h, seen through its [bits] member. *)
Record f32 : Type := F32 { bits : Z }.

Definition F32_SIGN_MASK : Z := 0x80000000.
Definition F32_EXPONENT_MASK : Z := 0x7F800000.
Definition F32_MANTISSA_MASK : Z := 0x007FFFFF.
Definition F32_EXPONENT_SHIFT : Z := 23.

Definition F32_ZERO : f32 := F32 0x00000000.
Definition F32_ONE : f32 := F32 0x3F800000.
Definition F32_NEG_ONE : f32 := F32 0xBF800000.
Definition F32_NAN : f32 := F32 0x7FC00000.
Definition F32_HALF : f32 := F32 0x3F000000.

(** [f32_to_native]: the bit pattern read as a binary32 number. *)
Definition f32_to_native (custom : f32) : float :=
  let w := bits custom in
  let s := Z.testbit w 31 in
  let e := Z.shiftr (Z.land w F32_EXPONENT_MASK) F32_EXPONENT_SHIFT in
  let m := Z.land w F32_MANTISSA_MASK in
  if e =? 0 then
    if m =? 0 then S754_zero s else S754_finite s (Z.to_pos m) (-149)
  else if e =? 255 then
    if m =? 0 then S754_infinity s else S754_nan
  else S754_finite s (Z.to_pos (m + 2 ^ 23)) (e - 150).

Definition sign_word (s : bool) : Z := if s then F32_SIGN_MASK else 0.

(** [f32_from_native]: the bit pattern of a binary32 number. *)
Definition f32_from_native (native : float) : f32 :=
  F32 match native with
      | S754_zero s => sign_word s
      | S754_infinity s => sign_word s + F32_EXPONENT_MASK
      | S754_nan => bits F32_NAN
      | S754_finite s m e =>
          if Z.pos m <? 2 ^ 23 then sign_word s + Z.pos m
          else sign_word s + (e + 150) * 2 ^ 23 + (Z.pos m - 2 ^ 23)
      end.

Definition f32_add (a b : f32) : f32 :=
  f32_from_native (float_add (f32_to_native a) (f32_to_native b)).
Definition f32_sub (a b : f32) : f32 :=
  f32_from_native (float_sub (f32_to_native a) (f32_to_native b)).
Definition f32_mul (a b : f32) : f32 :=
  f32_from_native (float_mul (f32_to_native a) (f32_to_native b)).
Definition f32_div (a b : f32) : f32 :=
  f32_from_native (float_div (f32_to_native a) (f32_to_native b)).

(** [f32_neg] flips and [f32_abs] clears the sign bit of the word. *)
Definition f32_neg (a : f32) : f32 := F32 (Z.lxor (bits a) F32_SIGN_MASK).
Definition f32_abs (a : f32) : f32 := F32 (Z.land (bits a) 0x7FFFFFFF).

(** [f32_eq] compares the raw words; [f32_lt] and [f32_gt] compare the
    native values. *)
Definition f32_eq (a b : f32) : bool := bits a =? bits b.
Definition f32_lt (a b : f32) : bool := float_lt (f32_to_native a) (f32_to_native b).
Definition f32_gt (a b : f32) : bool := float_gt (f32_to_native a) (f32_to_native b).

(** The helpers gpu_commands.c adds to the math library. *)
Definition f32_from_u32 (value : Z) : f32 := f32_from_native (float_of_Z value).
Definition f32_from_i32 (value : Z) : f32 := f32_from_native (float_of_Z value).
Definition f32_from_float (value : float) : f32 := f32_from_native value.
Definition f32_min (a b : f32) : f32 := if f32_lt a b then a else b.
Definition f32_max (a b : f32) : f32 := if f32_gt a b then a else b.
Definition f32_clamp (value min_val max_val : f32) : f32 :=
  f32_min (f32_max value min_val) max_val.
Definition f32_le (a b : f32) : bool := f32_lt a b || f32_eq a b.
Definition f32_ge (a b : f32) : bool := f32_gt a b || f32_eq a b.

(** *** Valid binary32 numbers *)

(** The exponent the format gives a number of magnitude below [2 ^ e]. *)
Definition fexp32 (e : Z) : Z := fexp prec32 emax32 e.

(** [x] is a binary32 number in canonical form, and its exponent, when it
    is finite and not zero, is at least [k]. *)
Definition valid_above (k : Z) (x : float) : Prop :=
  match x with
  | S754_finite _ m e => fexp32 (Z.pos (digits2_pos m) + e) = e /\ k <= e <= 104
  | _ => True
  end.

(** What rounding a mantissa of sign [s] gives: a zero or an infinity of
    that sign, or a finite number in canonical form of that sign whose
    exponent is at least [low]. *)
Definition rounding_result (s : bool) (low : Z) (x : float) : Prop :=
  match x with
  | S754_zero s' => s' = s
  | S754_infinity s' => s' = s
  | S754_nan => False
  | S754_finite s' m' e' =>
      s' = s /\ fexp32 (Z.pos (digits2_pos m') + e') = e' /\ e' <= 104 /\ low <= e'
  end.

(** A word of [f32] that is the encoding of such a number. *)
Definition f32_valid_above (k : Z) (t : f32) : Prop :=
  f32_from_native (f32_to_native t) = t /\ valid_above k (f32_to_native t).

(** A word that is not -0.0. *)
Definition not_negative_zero (t : f32) : Prop := f32_to_native t <> S754_zero true.

(* ===================================================================== *)
(** ** Vectors and matrices (math.h) *)
(* ===================================================================== *)

Record Vec3f : Type := mkVec3f { v3x : f32; v3y : f32; v3z : f32; v3_padding : f32 }.
Record Vec4f : Type := mkVec4f { v4x : f32; v4y : f32; v4z : f32; v4w : f32 }.

(** A 4x4 matrix, column major: [cols[0]] .. [cols[3]]. *)
Record Mat4f : Type := mkMat4f { col0 : Vec4f; col1 : Vec4f; col2 : Vec4f; col3 : Vec4f }.

Definition vec3f_create (x y z : f32) : Vec3f := mkVec3f x y z F32_ZERO.
Definition vec4f_create (x y z w : f32) : Vec4f := mkVec4f x y z w.

Definition mat4f_identity : Mat4f :=
  mkMat4f (mkVec4f F32_ONE F32_ZERO F32_ZERO F32_ZERO)
          (mkVec4f F32_ZERO F32_ONE F32_ZERO F32_ZERO)
          (mkVec4f F32_ZERO F32_ZERO F32_ONE F32_ZERO)
          (mkVec4f F32_ZERO F32_ZERO F32_ZERO F32_ONE).

Definition mat4f_mul_vec4f (m : Mat4f) (v : Vec4f) : Vec4f :=
  vec4f_create
    (f32_add (f32_add (f32_mul (v4x (col0 m)) (v4x v)) (f32_mul (v4x (col1 m)) (v4y v)))
             (f32_add (f32_mul (v4x (col2 m)) (v4z v)) (f32_mul (v4x (col3 m)) (v4w v))))
    (f32_add (f32_add (f32_mul (v4y (col0 m)) (v4x v)) (f32_mul (v4y (col1 m)) (v4y v)))
             (f32_add (f32_mul (v4y (col2 m)) (v4z v)) (f32_mul (v4y (col3 m)) (v4w v))))
    (f32_add (f32_add (f32_mul (v4z (col0 m)) (v4x v)) (f32_mul (v4z (col1 m)) (v4y v)))
             (f32_add (f32_mul (v4z (col2 m)) (v4z v)) (f32_mul (v4z (col3 m)) (v4w v))))
    (f32_add (f32_add (f32_mul (v4w (col0 m)) (v4x v)) (f32_mul (v4w (col1 m)) (v4y v)))
             (f32_add (f32_mul (v4w (col2 m)) (v4z v)) (f32_mul (v4w (col3 m)) (v4w v)))).

Definition rgb_create (r g b : f32) : Vec3f := vec3f_create r g b.
Definition RGB_RED : Vec3f := rgb_create F32_ONE F32_ZERO F32_ZERO.
Definition RGB_GREEN : Vec3f := rgb_create F32_ZERO F32_ONE F32_ZERO.
Definition RGB_BLUE : Vec3f := rgb_create F32_ZERO F32_ZERO F32_ONE.

(* ===================================================================== *)
(** ** Counted loops *)
(* ===================================================================== *)

(** The values a loop [for (i = lo; i <= hi; i++)] takes, in order. *)
Definition zrange (lo hi : Z) : list Z :=
  List.map (fun k => lo + Z.of_nat k) (List.seq 0 (Z.to_nat (hi - lo + 1))).

(** [for (i = lo; i <= hi; i++) s = body i s]. *)
Definition for_range {S : Type} (lo hi : Z) (body : Z -> S -> S) (s : S) : S :=
  List.fold_left (fun acc i => body i acc) (zrange lo hi) s.

(** Two nested loops over the pixels of a box, rows outermost:
    [for (y = lo_y; y <= hi_y; y++) for (x = lo_x; x <= hi_x; x++) body]. *)
Definition raster {S : Type} (body : Z -> Z -> S -> S) (lo_x hi_x lo_y hi_y : Z) (s : S) : S :=
  for_range lo_y hi_y (fun y => for_range lo_x hi_x (fun x => body x y)) s.

(* ===================================================================== *)
(** ** The 3D pipeline of directDrm/basic/rotating_cube/gpu_commands.c *)
(* ===================================================================== *)

Module DirectDrm.

Record GibgoVertex : Type := mkVertex { position : Vec3f; color : Vec3f }.

Record TransformedVertex : Type := mkTransformed {
  tv_position : Vec3f;   (* screen x, y and NDC depth z *)
  tv_color : Vec3f;
  is_valid : b32
}.

(** [TransformedVertex result = {0}]. *)
Definition zero_vec3f : Vec3f := mkVec3f F32_ZERO F32_ZERO F32_ZERO F32_ZERO.
Definition zero_transformed : TransformedVertex :=
  mkTransformed zero_vec3f zero_vec3f B32_FALSE.

(** Step 1 and 2 of [transform_vertex_to_screen]: the clip-space coordinate. *)
Definition clip_space_of (vertex : GibgoVertex) (mvp : Mat4f) : Vec4f :=
  let vertex_pos :=
    vec4f_create (v3x (position vertex)) (v3y (position vertex)) (v3z (position vertex)) F32_ONE in
  mat4f_mul_vec4f mvp vertex_pos.

(** Step 3: the frustum test as the code evaluates it. *)
Definition inside_frustum (clip_space : Vec4f) : b32 :=
  let w_abs := f32_abs (v4w clip_space) in
  f32_gt w_abs F32_ZERO
  && f32_le (f32_abs (v4x clip_space)) w_abs
  && f32_le (f32_abs (v4y clip_space)) w_abs.

Definition transform_vertex_to_screen
    (vertex : GibgoVertex) (mvp : Mat4f) (screen_width screen_height : Z)
  : TransformedVertex :=
  let clip_space := clip_space_of vertex mvp in
  if inside_frustum clip_space then
    (* Step 4: perspective divide *)
    let w_inv := f32_div F32_ONE (v4w clip_space) in
    let ndc_x := f32_mul (v4x clip_space) w_inv in
    let ndc_y := f32_mul (v4y clip_space) w_inv in
    let ndc_z := f32_mul (v4z clip_space) w_inv in
    (* Step 5: viewport transform *)
    let screen_x :=
      f32_mul (f32_add (f32_mul ndc_x F32_HALF) F32_HALF) (f32_from_u32 screen_width) in
    let screen_y :=
      f32_mul (f32_sub F32_ONE (f32_add (f32_mul ndc_y F32_HALF) F32_HALF))
              (f32_from_u32 screen_height) in
    mkTransformed (vec3f_create screen_x screen_y ndc_z) (color vertex) B32_TRUE
  else
    zero_transformed.

(** The constant [0.000001f]. *)
Definition degenerate_epsilon : f32 := F32 0x358637BD.

(** The weights [(u, v, w)] that [point_in_triangle_barycentric] computes
    for a non-degenerate triangle, and the determinant it divides by. *)
Definition barycentric_denom (x1 y1 x2 y2 x3 y3 : f32) : f32 :=
  let v0x := f32_sub x3 x1 in
  let v0y := f32_sub y3 y1 in
  let v1x := f32_sub x2 x1 in
  let v1y := f32_sub y2 y1 in
  let dot00 := f32_add (f32_mul v0x v0x) (f32_mul v0y v0y) in
  let dot01 := f32_add (f32_mul v0x v1x) (f32_mul v0y v1y) in
  let dot11 := f32_add (f32_mul v1x v1x) (f32_mul v1y v1y) in
  f32_sub (f32_mul dot00 dot11) (f32_mul dot01 dot01).

Definition barycentric_weights (px py x1 y1 x2 y2 x3 y3 : f32) : f32 * f32 * f32 :=
  let v0x := f32_sub x3 x1 in
  let v0y := f32_sub y3 y1 in
  let v1x := f32_sub x2 x1 in
  let v1y := f32_sub y2 y1 in
  let v2x := f32_sub px x1 in
  let v2y := f32_sub py y1 in
  let dot00 := f32_add (f32_mul v0x v0x) (f32_mul v0y v0y) in
  let dot01 := f32_add (f32_mul v0x v1x) (f32_mul v0y v1y) in
  let dot02 := f32_add (f32_mul v0x v2x) (f32_mul v0y v2y) in
  let dot11 := f32_add (f32_mul v1x v1x) (f32_mul v1y v1y) in
  let dot12 := f32_add (f32_mul v1x v2x) (f32_mul v1y v2y) in
  let denom := f32_sub (f32_mul dot00 dot11) (f32_mul dot01 dot01) in
  let inv_denom := f32_div F32_ONE denom in
  let u := f32_mul (f32_sub (f32_mul dot11 dot02) (f32_mul dot01 dot12)) inv_denom in
  let v := f32_mul (f32_sub (f32_mul dot00 dot12) (f32_mul dot01 dot02)) inv_denom in
  let w := f32_sub F32_ONE (f32_add u v) in
  (u, v, w).

(** [point_in_triangle_barycentric]: [Some (u, v, w)] when the function
    returns true (the out-parameters are written only then). *)
Definition point_in_triangle_barycentric (px py x1 y1 x2 y2 x3 y3 : f32)
  : option (f32 * f32 * f32) :=
  let denom := barycentric_denom x1 y1 x2 y2 x3 y3 in
  if f32_le (f32_abs denom) (f32_from_float (f32_to_native degenerate_epsilon)) then
    None
  else
    let '(u, v, w) := barycentric_weights px py x1 y1 x2 y2 x3 y3 in
    let inside := f32_ge u F32_ZERO && f32_ge v F32_ZERO && f32_ge w F32_ZERO in
    if inside then Some (u, v, w) else None.

(** Color = u*c3 + v*c2 + w*c1. *)
Definition interpolate_triangle_color (c1 c2 c3 : Vec3f) (u v w : f32) : Vec3f :=
  mkVec3f
    (f32_add (f32_add (f32_mul u (v3x c3)) (f32_mul v (v3x c2))) (f32_mul w (v3x c1)))
    (f32_add (f32_add (f32_mul u (v3y c3)) (f32_mul v (v3y c2))) (f32_mul w (v3y c1)))
    (f32_add (f32_add (f32_mul u (v3z c3)) (f32_mul v (v3z c2))) (f32_mul w (v3z c1)))
    F32_ZERO.

(** [(u32)(f32_to_native(f32_clamp(c, 0, 1)) * 255.0f)]. *)
Definition color_channel (c : f32) : Z :=
  float_to_u32 (float_mul (f32_to_native (f32_clamp c F32_ZERO F32_ONE)) (float_of_Z 255)).

(** The packed pixel 0xAARRGGBB of an interpolated color. *)
Definition pack_color (pixel_color : Vec3f) : Z :=
  let r := color_channel (v3x pixel_color) in
  let g := color_channel (v3y pixel_color) in
  let b := color_channel (v3z pixel_color) in
  Z.lor (Z.lor (Z.lor 0xFF000000 (wrap32 (Z.shiftl r 16))) (wrap32 (Z.shiftl g 8))) b.

(** [y * width + x] in [u32] arithmetic. *)
Definition pixel_index_of (width x y : Z) : Z := wrap32 (y * width + x).

(** The color the loop body computes for pixel [(x, y)], when it is covered. *)
Definition shade_pixel (v1 v2 v3 : TransformedVertex) (x y : Z) : option Z :=
  let pixel_x := f32_from_i32 x in
  let pixel_y := f32_from_i32 y in
  match point_in_triangle_barycentric pixel_x pixel_y
          (v3x (tv_position v1)) (v3y (tv_position v1))
          (v3x (tv_position v2)) (v3y (tv_position v2))
          (v3x (tv_position v3)) (v3y (tv_position v3)) with
  | Some (u, v, w) =>
      Some (pack_color (interpolate_triangle_color (tv_color v1) (tv_color v2) (tv_color v3) u v w))
  | None => None
  end.

(** The body of the two nested loops of [rasterize_triangle]. *)
Definition rasterize_pixel (width height : Z) (v1 v2 v3 : TransformedVertex)
    (x y : Z) (framebuffer : store Z) : store Z :=
  match shade_pixel v1 v2 v3 x y with
  | Some final_color =>
      let pixel_index := pixel_index_of width x y in
      if pixel_index <? wrap32 (width * height)
      then store_set framebuffer pixel_index final_color
      else framebuffer
  | None => framebuffer
  end.

(** The integer bounding box [(start_x, end_x, start_y, end_y)]. *)
Definition bounding_box (width height : Z) (v1 v2 v3 : TransformedVertex) : Z * Z * Z * Z :=
  let p1 := tv_position v1 in
  let p2 := tv_position v2 in
  let p3 := tv_position v3 in
  let min_x := f32_min (f32_min (v3x p1) (v3x p2)) (v3x p3) in
  let max_x := f32_max (f32_max (v3x p1) (v3x p2)) (v3x p3) in
  let min_y := f32_min (f32_min (v3y p1) (v3y p2)) (v3y p3) in
  let max_y := f32_max (f32_max (v3y p1) (v3y p2)) (v3y p3) in
  let start_x := float_to_i32 (f32_to_native (f32_max min_x F32_ZERO)) in
  let end_x := float_to_i32 (f32_to_native (f32_min max_x (f32_from_u32 (wrap32 (width - 1))))) in
  let start_y := float_to_i32 (f32_to_native (f32_max min_y F32_ZERO)) in
  let end_y := float_to_i32 (f32_to_native (f32_min max_y (f32_from_u32 (wrap32 (height - 1))))) in
  (start_x, end_x, start_y, end_y).

Definition rasterize_triangle (framebuffer : store Z) (width height : Z)
    (v1 v2 v3 : TransformedVertex) : store Z :=
  let '(start_x, end_x, start_y, end_y) := bounding_box width height v1 v2 v3 in
  raster (rasterize_pixel width height v1 v2 v3) start_x end_x start_y end_y framebuffer.

(** The sign of the 2D cross product of the edges leaving the first vertex. *)
Definition cross_product_z (v1 v2 v3 : TransformedVertex) : f32 :=
  let edge1_x := f32_sub (v3x (tv_position v2)) (v3x (tv_position v1)) in
  let edge1_y := f32_sub (v3y (tv_position v2)) (v3y (tv_position v1)) in
  let edge2_x := f32_sub (v3x (tv_position v3)) (v3x (tv_position v1)) in
  let edge2_y := f32_sub (v3y (tv_position v3)) (v3y (tv_position v1)) in
  f32_sub (f32_mul edge1_x edge2_y) (f32_mul edge1_y edge2_x).

Definition is_triangle_back_facing (v1 v2 v3 : TransformedVertex) : b32 :=
  f32_lt (cross_product_z v1 v2 v3) F32_ZERO.

(** Steps 4 to 7 of the triangle loop of [render_3d_cube_software]. *)
Definition render_triangle (framebuffer : store Z) (width height : Z) (mvp : Mat4f)
    (face_culling_enabled : b32) (v1 v2 v3 : GibgoVertex) : store Z :=
  let tv1 := transform_vertex_to_screen v1 mvp width height in
  let tv2 := transform_vertex_to_screen v2 mvp width height in
  let tv3 := transform_vertex_to_screen v3 mvp width height in
  if negb (is_valid tv1) || negb (is_valid tv2) || negb (is_valid tv3) then framebuffer
  else if face_culling_enabled && is_triangle_back_facing tv1 tv2 tv3 then framebuffer
  else rasterize_triangle framebuffer width height tv1 tv2 tv3.

(** The triangle loop, [for (i = first_vertex; i < vertex_count; i += 3)];
    [fuel] bounds the number of iterations. *)
Fixpoint render_loop (fuel : nat) (framebuffer : store Z) (width height : Z)
    (vertices : store GibgoVertex) (mvp : Mat4f) (vertex_count i : Z)
    (face_culling_enabled : b32) : store Z :=
  match fuel with
  | O => framebuffer
  | S fuel' =>
      if i <? vertex_count then
        if vertex_count <=? wrap32 (i + 2) then framebuffer
        else
          let framebuffer' :=
            render_triangle framebuffer width height mvp face_culling_enabled
              (vertices i) (vertices (wrap32 (i + 1))) (vertices (wrap32 (i + 2))) in
          render_loop fuel' framebuffer' width height vertices mvp vertex_count
            (wrap32 (i + 3)) face_culling_enabled
      else framebuffer
  end.

(** [render_3d_cube_software] after its two buffers are mapped: [vertices]
    is the mapped vertex buffer and [mvp] the matrix of the mapped uniform
    buffer.  Every iteration but the last advances [i] by three, so
    [vertex_count] iterations suffice whenever [i + 3] does not wrap, that is
    for every [vertex_count] below 2^32 - 2. *)
Definition render_3d_cube_software (framebuffer : store Z) (width height : Z)
    (vertices : store GibgoVertex) (mvp : Mat4f) (vertex_count first_vertex : Z)
    (face_culling_enabled : b32) : store Z :=
  render_loop (Z.to_nat vertex_count) framebuffer width height vertices mvp
    vertex_count first_vertex face_culling_enabled.

(** *** Notions and sample inputs of the properties below *)

(** The vertex at the origin, with any color. *)
Definition origin_vertex (c : Vec3f) : GibgoVertex :=
  mkVertex (vec3f_create F32_ZERO F32_ZERO F32_ZERO) c.

(** A projection-style matrix whose clip-space w is -z, and a vertex
    behind the camera (z = 1) at x = y = 0.5. *)
Definition negating_w_matrix : Mat4f :=
  mkMat4f (mkVec4f F32_ONE F32_ZERO F32_ZERO F32_ZERO)
          (mkVec4f F32_ZERO F32_ONE F32_ZERO F32_ZERO)
          (mkVec4f F32_ZERO F32_ZERO F32_ONE F32_NEG_ONE)
          (mkVec4f F32_ZERO F32_ZERO F32_ZERO F32_ZERO).

Definition vertex_behind_camera : GibgoVertex :=
  mkVertex (vec3f_create F32_HALF F32_HALF F32_ONE) RGB_RED.

(** What [rasterize_pixel] leaves in the cell of pixel [(x, y)], given the
    cell's previous content. *)
Definition pixel_after (width height : Z) (v1 v2 v3 : TransformedVertex)
    (x y : Z) (old : Z) : Z :=
  match shade_pixel v1 v2 v3 x y with
  | Some final_color =>
      if pixel_index_of width x y <? wrap32 (width * height) then final_color else old
  | None => old
  end.

(** A transformed vertex at pixel [(x, y)], depth 0, and the triangle of the
    coverage property: (400,150) red, (200,450) green, (600,450) blue. *)
Definition screen_vertex (x y : Z) (c : Vec3f) : TransformedVertex :=
  mkTransformed (vec3f_create (f32_from_u32 x) (f32_from_u32 y) F32_ZERO) c B32_TRUE.

Definition coverage_v1 : TransformedVertex := screen_vertex 400 150 RGB_RED.
Definition coverage_v2 : TransformedVertex := screen_vertex 200 450 RGB_GREEN.
Definition coverage_v3 : TransformedVertex := screen_vertex 600 450 RGB_BLUE.

(** The weights the rasterizer computes for pixel [(x, y)] of that triangle. *)
Definition coverage_weights (x y : Z) : f32 * f32 * f32 :=
  barycentric_weights (f32_from_i32 x) (f32_from_i32 y)
    (v3x (tv_position coverage_v1)) (v3y (tv_position coverage_v1))
    (v3x (tv_position coverage_v2)) (v3y (tv_position coverage_v2))
    (v3x (tv_position coverage_v3)) (v3y (tv_position coverage_v3)).

Definition coverage_raster (fb : store Z) : store Z :=
  rasterize_triangle fb 800 600 coverage_v1 coverage_v2 coverage_v3.

(** The 8-bit channels of a packed pixel 0xAARRGGBB. *)
Definition red_of (pixel : Z) : Z := Z.land (Z.shiftr pixel 16) 0xFF.
Definition green_of (pixel : Z) : Z := Z.land (Z.shiftr pixel 8) 0xFF.
Definition blue_of (pixel : Z) : Z := Z.land pixel 0xFF.

(** A binary32 number [m * 2^-25] with [|3 m - 2^25| <= 4]: one third up to
    rounding, less than 2^-24 away from 1/3. *)
Definition about_a_third (t : f32) : Prop :=
  exists m : positive,
    f32_to_native t = S754_finite false m (-25) /\ Z.abs (3 * Z.pos m - 2 ^ 25) <= 4.

(** All three barycentric weights are >= 0, as numbers: the comparison of
    IEEE-754, for which -0.0 >= 0 holds. *)
Definition weights_nonnegative (u v w : f32) : bool :=
  float_ge (f32_to_native u) (f32_to_native F32_ZERO)
  && float_ge (f32_to_native v) (f32_to_native F32_ZERO)
  && float_ge (f32_to_native w) (f32_to_native F32_ZERO).

(** A counter-clockwise triangle whose first vertex gets the weight -0.0:
    (10,10), (2,12), (5,4). *)
Definition corner_v1 : TransformedVertex := screen_vertex 10 10 RGB_RED.
Definition corner_v2 : TransformedVertex := screen_vertex 2 12 RGB_GREEN.
Definition corner_v3 : TransformedVertex := screen_vertex 5 4 RGB_BLUE.

(** The coverage triangle, given in normalized device coordinates and wound
    clockwise on screen: (0, 0.5), (-0.5, -0.5), (0.5, -0.5). *)
Definition clockwise_vertices : store GibgoVertex :=
  fun i =>
    if i =? 0 then mkVertex (vec3f_create F32_ZERO F32_HALF F32_ZERO) RGB_RED
    else if i =? 1 then mkVertex (vec3f_create (f32_neg F32_HALF) (f32_neg F32_HALF) F32_ZERO) RGB_GREEN
    else mkVertex (vec3f_create F32_HALF (f32_neg F32_HALF) F32_ZERO) RGB_BLUE.

End DirectDrm.

(* ===================================================================== *)
(** ** The depth-tested rasterizer of gibgoGraphics/basic/rotating_cube *)
(* ===================================================================== *)

Module GibgoGraphics.

Record CubeVertex : Type := mkCubeVertex { position : Vec3f; color : Vec3f }.

(** The color and depth attachments the rasterizer writes through
    [u32* framebuffer] and [float* depth_buffer]. *)
Record Targets : Type := mkTargets {
  framebuffer : store Z;
  depth_buffer : store float
}.

Definition float_0 : float := float_of_Z 0.
Definition float_1 : float := float_of_Z 1.
Definition float_255 : float := float_of_Z 255.
Definition float_1000 : float := float_of_Z 1000.
(** [150.0f], the scale factor, and [1e-6f], the degeneracy threshold. *)
Definition scale : float := float_of_Z 150.
Definition float_1e_6 : float := f32_to_native (F32 0x358637BD).

(** [transform_vertex]: a rotation read off the model matrix; the view and
    projection matrices are unused. *)
Definition transform_vertex (vertex : CubeVertex) (model view projection : Mat4f) : Vec3f :=
  let x := f32_to_native (v3x (position vertex)) in
  let y := f32_to_native (v3y (position vertex)) in
  let z := f32_to_native (v3z (position vertex)) in
  let cos_angle := f32_to_native (v4x (col0 model)) in
  let sin_angle := f32_to_native (v4x (col1 model)) in
  let x_rot := float_sub (float_mul x cos_angle) (float_mul y sin_angle) in
  let y_rot := float_add (float_mul x sin_angle) (float_mul y cos_angle) in
  let z_rot := z in
  mkVec3f (f32_from_native x_rot) (f32_from_native y_rot) (f32_from_native z_rot) F32_ZERO.

(** A triangle after the screen mapping: three points [(x, y, z)] and the
    colors of the three input vertices. *)
Record ScreenTriangle : Type := mkScreenTriangle {
  x0 : float; y0 : float; z0 : float;
  x1 : float; y1 : float; z1 : float;
  x2 : float; y2 : float; z2 : float;
  c0 : Vec3f; c1 : Vec3f; c2 : Vec3f
}.

Definition screen_x (width : Z) (tv : Vec3f) : float :=
  float_add (float_mul (f32_to_native (v3x tv)) scale) (float_of_Z (width / 2)).
Definition screen_y (height : Z) (tv : Vec3f) : float :=
  float_add (float_mul (float_neg (f32_to_native (v3y tv))) scale) (float_of_Z (height / 2)).

Definition to_screen (width height : Z) (v0 v1 v2 : CubeVertex)
    (model view projection : Mat4f) : ScreenTriangle :=
  let tv0 := transform_vertex v0 model view projection in
  let tv1 := transform_vertex v1 model view projection in
  let tv2 := transform_vertex v2 model view projection in
  mkScreenTriangle
    (screen_x width tv0) (screen_y height tv0) (f32_to_native (v3z tv0))
    (screen_x width tv1) (screen_y height tv1) (f32_to_native (v3z tv1))
    (screen_x width tv2) (screen_y height tv2) (f32_to_native (v3z tv2))
    (color v0) (color v1) (color v2).

(** The integer bounding box [(min_x, max_x, min_y, max_y)]. *)
Definition bounding_box (width height : Z) (t : ScreenTriangle) : Z * Z * Z * Z :=
  let min_x := float_to_i32 (fmaxf float_0 (fminf (fminf (x0 t) (x1 t)) (x2 t))) in
  let max_x := float_to_i32 (fminf (float_of_Z (wrap32 (width - 1))) (fmaxf (fmaxf (x0 t) (x1 t)) (x2 t))) in
  let min_y := float_to_i32 (fmaxf float_0 (fminf (fminf (y0 t) (y1 t)) (y2 t))) in
  let max_y := float_to_i32 (fminf (float_of_Z (wrap32 (height - 1))) (fmaxf (fmaxf (y0 t) (y1 t)) (y2 t))) in
  (min_x, max_x, min_y, max_y).

(** [(u32)(fminf(fmaxf(c * 255.0f, 0.0f), 255.0f))]. *)
Definition color_byte (c : float) : Z :=
  float_to_u32 (fminf (fmaxf (float_mul c float_255) float_0) float_255).

(** [w0*a + w1*b + w2*c], evaluated left to right. *)
Definition blend (w0 w1 w2 a b c : float) : float :=
  float_add (float_add (float_mul w0 a) (float_mul w1 b)) (float_mul w2 c).

(** What the loop body computes for pixel [(x, y)] before the depth test:
    [None] when the triangle is degenerate or the pixel lies outside it,
    otherwise the interpolated depth and the packed color. *)
Definition fragment (t : ScreenTriangle) (x y : Z) : option (float * Z) :=
  let fx := float_of_Z x in
  let fy := float_of_Z y in
  let denom :=
    float_add (float_mul (float_sub (y1 t) (y2 t)) (float_sub (x0 t) (x2 t)))
              (float_mul (float_sub (x2 t) (x1 t)) (float_sub (y0 t) (y2 t))) in
  if float_lt (fabsf denom) float_1e_6 then None
  else
    let w0 :=
      float_div
        (float_add (float_mul (float_sub (y1 t) (y2 t)) (float_sub fx (x2 t)))
                   (float_mul (float_sub (x2 t) (x1 t)) (float_sub fy (y2 t))))
        denom in
    let w1 :=
      float_div
        (float_add (float_mul (float_sub (y2 t) (y0 t)) (float_sub fx (x2 t)))
                   (float_mul (float_sub (x0 t) (x2 t)) (float_sub fy (y2 t))))
        denom in
    let w2 := float_sub (float_sub float_1 w0) w1 in
    if float_ge w0 float_0 && float_ge w1 float_0 && float_ge w2 float_0 then
      let z := blend w0 w1 w2 (z0 t) (z1 t) (z2 t) in
      let r := blend w0 w1 w2 (f32_to_native (v3x (c0 t))) (f32_to_native (v3x (c1 t)))
                     (f32_to_native (v3x (c2 t))) in
      let g := blend w0 w1 w2 (f32_to_native (v3y (c0 t))) (f32_to_native (v3y (c1 t)))
                     (f32_to_native (v3y (c2 t))) in
      let b := blend w0 w1 w2 (f32_to_native (v3z (c0 t))) (f32_to_native (v3z (c1 t)))
                     (f32_to_native (v3z (c2 t))) in
      let red := color_byte r in
      let green := color_byte g in
      let blue := color_byte b in
      Some (z, Z.lor (Z.lor (Z.lor 0xFF000000 (wrap32 (Z.shiftl red 16)))
                            (wrap32 (Z.shiftl green 8))) blue)
    else None.

Definition pixel_index_of (width x y : Z) : Z := wrap32 (y * width + x).

(** The depth test and the two writes of the loop body. *)
Definition rasterize_pixel (width : Z) (t : ScreenTriangle) (x y : Z) (s : Targets) : Targets :=
  match fragment t x y with
  | Some (z, pixel) =>
      let pixel_index := pixel_index_of width x y in
      if float_lt z (depth_buffer s pixel_index) then
        mkTargets (store_set (framebuffer s) pixel_index pixel)
                  (store_set (depth_buffer s) pixel_index z)
      else s
  | None => s
  end.

Definition rasterize_screen_triangle (s : Targets) (width height : Z) (t : ScreenTriangle)
  : Targets :=
  let '(min_x, max_x, min_y, max_y) := bounding_box width height t in
  raster (rasterize_pixel width t) min_x max_x min_y max_y s.

Definition rasterize_triangle (s : Targets) (width height : Z) (v0 v1 v2 : CubeVertex)
    (model view projection : Mat4f) : Targets :=
  rasterize_screen_triangle s width height (to_screen width height v0 v1 v2 model view projection).

(** The clear loop of [gpu_execute_indexed_drawing]: every pixel of the
    frame gets the background color and the far depth. *)
Definition clear_targets (s : Targets) (width height : Z) : Targets :=
  for_range 0 (wrap32 (width * height) - 1)
    (fun i acc => mkTargets (store_set (framebuffer acc) i 0xFF000033)
                            (store_set (depth_buffer acc) i float_1000)) s.

(** *** Notions and sample inputs of the properties below *)

(** The color and the depth stored for one pixel. *)
Definition cell_of (s : Targets) (j : Z) : Z * float := (framebuffer s j, depth_buffer s j).

(** What [rasterize_pixel] leaves in the cell of pixel [(x, y)]. *)
Definition cell_after (t : ScreenTriangle) (x y : Z) (old : Z * float) : Z * float :=
  match fragment t x y with
  | Some (z, pixel) => if float_lt z (snd old) then (pixel, z) else old
  | None => old
  end.

(** Pixel [(x, y)] is one the loops of [rasterize_triangle] visit, and the
    box they range over lies inside the frame. *)
Definition visits (width height : Z) (t : ScreenTriangle) (x y : Z) : Prop :=
  let '(min_x, max_x, min_y, max_y) := bounding_box width height t in
  (0 <= min_x /\ min_x <= x <= max_x /\ max_x < width)
  /\ (0 <= min_y /\ min_y <= y <= max_y /\ max_y < height).

(** Two screen-filling triangles over the same pixels: a green one at depth
    0.2 and a red one at depth 0.8. *)
Definition depth_vertex (x y z : f32) (c : Vec3f) : CubeVertex :=
  mkCubeVertex (vec3f_create x y z) c.

Definition f32_0_2 : f32 := F32 0x3E4CCCCD.

Definition f32_0_8 : f32 := F32 0x3F4CCCCD.

Definition near_v0 : CubeVertex := depth_vertex F32_NEG_ONE F32_NEG_ONE f32_0_2 RGB_GREEN.

Definition near_v1 : CubeVertex := depth_vertex F32_ONE F32_NEG_ONE f32_0_2 RGB_GREEN.

Definition near_v2 : CubeVertex := depth_vertex F32_ZERO F32_ONE f32_0_2 RGB_GREEN.

Definition far_v0 : CubeVertex := depth_vertex F32_NEG_ONE F32_NEG_ONE f32_0_8 RGB_RED.

Definition far_v1 : CubeVertex := depth_vertex F32_ONE F32_NEG_ONE f32_0_8 RGB_RED.

Definition far_v2 : CubeVertex := depth_vertex F32_ZERO F32_ONE f32_0_8 RGB_RED.

(** The attachments after the clear loop of a draw call. *)
Definition cleared_targets : Targets :=
  clear_targets (mkTargets (fun _ => 0) (fun _ => float_0)) 800 600.

End GibgoGraphics.

(* ===================================================================== *)
(** ** Result codes (gpu_device.h) *)
(* ===================================================================== *)

Inductive GibgoResult : Type :=
| GIBGO_RESULT_SUCCESS
| GIBGO_RESULT_ERROR_DEVICE_NOT_FOUND
| GIBGO_RESULT_ERROR_DEVICE_ACCESS_DENIED
| GIBGO_RESULT_ERROR_MEMORY_MAP_FAILED
| GIBGO_RESULT_ERROR_OUT_OF_MEMORY
| GIBGO_RESULT_ERROR_INVALID_PARAMETER
| GIBGO_RESULT_ERROR_GPU_TIMEOUT
| GIBGO_RESULT_ERROR_COMMAND_FAILED
| GIBGO_RESULT_ERROR_DISPLAY_FAILED.

(* ===================================================================== *)
(** ** The pool allocator: allocate, free, map, unmap *)
(* ===================================================================== *)

Module GpuMemory.

(** One slot of [memory_pool.allocations]. *)
Record GibgoAllocation : Type := mkAllocation {
  gpu_address : Z;    (* u64 *)
  cpu_pointer : Z;    (* u8*, as an address *)
  size : Z;           (* u64 *)
  in_use : b32
}.

(** The fields of [GibgoGPUDevice] the memory functions use.  The slot table
    [allocations] is the array of [ALLOCATION_SLOTS] entries; the functions
    take a non-null device and non-null out-parameters. *)
Record GibgoGPUDevice : Type := mkDevice {
  vram_physical_address : Z;   (* device->vram.physical_address, u64 *)
  vram_allocation_offset : Z;  (* u64 *)
  pool_memory : Z;             (* memory_pool.pool_memory, u8* *)
  pool_size : Z;               (* u64 *)
  pool_used : Z;               (* u64 *)
  allocation_count : Z;        (* u32 *)
  allocations : list GibgoAllocation
}.

Definition ALLOCATION_SLOTS : Z := 256.
Definition GPU_MEMORY_ALIGNMENT : Z := 256.

Definition empty_slot : GibgoAllocation := mkAllocation 0 0 0 B32_FALSE.

(** A device whose pool holds no allocation yet. *)
Definition fresh_device (physical_address memory size : Z) : GibgoGPUDevice :=
  mkDevice physical_address 0 memory size 0 0
           (replicate (Z.to_nat ALLOCATION_SLOTS) empty_slot).

(** The slots the loops [for (u32 i = 0; i < 256; i++)] visit. *)
Definition slots (device : GibgoGPUDevice) : list GibgoAllocation :=
  take (Z.to_nat ALLOCATION_SLOTS) (allocations device).

(** [(size + alignment - 1) & ~(alignment - 1)] on [u64]. *)
Definition align_gpu_memory (size alignment : Z) : Z :=
  Z.land (wrap64 (size + alignment - 1)) (wrap64 (Z.lnot (alignment - 1))).

(** The slot search: the first slot not in use, slot 0 when there is none. *)
Definition find_unused_slot (slots : list GibgoAllocation) : nat :=
  match list_find (fun a => in_use a = false) slots with
  | Some (i, _) => i
  | None => 0%nat
  end.

Definition gibgo_allocate_gpu_memory (device : GibgoGPUDevice) (size : Z)
  : GibgoResult * GibgoGPUDevice * option Z :=
  if size =? 0 then (GIBGO_RESULT_ERROR_INVALID_PARAMETER, device, None)
  else
    let aligned_size := align_gpu_memory size GPU_MEMORY_ALIGNMENT in
    if pool_size device <? wrap64 (pool_used device + aligned_size) then
      (GIBGO_RESULT_ERROR_OUT_OF_MEMORY, device, None)
    else if ALLOCATION_SLOTS <=? allocation_count device then
      (GIBGO_RESULT_ERROR_OUT_OF_MEMORY, device, None)
    else
      let slot_index := find_unused_slot (slots device) in
      let address := wrap64 (vram_physical_address device + vram_allocation_offset device) in
      let pointer := pool_memory device + pool_used device in
      let device' :=
        mkDevice (vram_physical_address device)
                 (wrap64 (vram_allocation_offset device + aligned_size))
                 (pool_memory device)
                 (pool_size device)
                 (wrap64 (pool_used device + aligned_size))
                 (wrap32 (allocation_count device + 1))
                 (<[slot_index := mkAllocation address pointer aligned_size B32_TRUE]>
                    (allocations device)) in
      (GIBGO_RESULT_SUCCESS, device', Some address).

(** [gibgo_free_gpu_memory] only logs. *)
Definition gibgo_free_gpu_memory (device : GibgoGPUDevice) (address size : Z)
  : GibgoResult * GibgoGPUDevice :=
  (GIBGO_RESULT_SUCCESS, device).

(** The slot the map loop stops at: the first one in use whose [gpu_address]
    is the requested address. *)
Definition find_allocation (device : GibgoGPUDevice) (address : Z)
  : option (nat * GibgoAllocation) :=
  list_find (fun a => in_use a = true /\ gpu_address a = address) (slots device).

Definition gibgo_map_gpu_memory (device : GibgoGPUDevice) (address size_req : Z)
  : GibgoResult * option Z :=
  if size_req =? 0 then (GIBGO_RESULT_ERROR_INVALID_PARAMETER, None)
  else
    match find_allocation device address with
    | Some (_, a) =>
        if size a <? size_req then (GIBGO_RESULT_ERROR_INVALID_PARAMETER, None)
        else (GIBGO_RESULT_SUCCESS, Some (cpu_pointer a))
    | None => (GIBGO_RESULT_ERROR_INVALID_PARAMETER, None)
    end.

(** The CPU memory the pool pointers point into, byte by byte. *)
Definition heap := store Z.

(** The state the memory functions run in: the device and the CPU heap. *)
Record World : Type := mkWorld { device_of : GibgoGPUDevice; heap_of : heap }.

(** [gibgo_unmap_gpu_memory]: validates the pointer and leaves both the
    device and the memory as they are. *)
Definition gibgo_unmap_gpu_memory (w : World) (cpu_address size_req : Z)
  : GibgoResult * World :=
  if cpu_address =? 0 then (GIBGO_RESULT_ERROR_INVALID_PARAMETER, w)
  else
    match list_find (fun a => in_use a = true /\ cpu_pointer a = cpu_address)
                    (slots (device_of w)) with
    | Some _ => (GIBGO_RESULT_SUCCESS, w)
    | None => (GIBGO_RESULT_ERROR_INVALID_PARAMETER, w)
    end.

(** [memcpy(dst, data, n)] and reading [n] bytes back. *)
Fixpoint memcpy (h : heap) (dst : Z) (data : list Z) : heap :=
  match data with
  | [] => h
  | b :: rest => memcpy (store_set h dst b) (dst + 1) rest
  end.

Fixpoint read_bytes (h : heap) (src : Z) (n : nat) : list Z :=
  match n with
  | O => []
  | S n' => h src :: read_bytes h (src + 1) n'
  end.

(** The upload idiom of the callers ([gibgo_upload_vertices],
    [gibgo_load_shaders]) followed by a second map and a read:
    map, write through the pointer, unmap, map again, read. *)
Definition write_then_read_back (w : World) (address size_req : Z) (data : list Z)
  : option (list Z) :=
  match gibgo_map_gpu_memory (device_of w) address size_req with
  | (GIBGO_RESULT_SUCCESS, Some p) =>
      let w1 := mkWorld (device_of w) (memcpy (heap_of w) p data) in
      match gibgo_unmap_gpu_memory w1 p size_req with
      | (GIBGO_RESULT_SUCCESS, w2) =>
          match gibgo_map_gpu_memory (device_of w2) address size_req with
          | (GIBGO_RESULT_SUCCESS, Some q) => Some (read_bytes (heap_of w2) q (length data))
          | _ => None
          end
      | _ => None
      end
  | _ => None
  end.

(** A run of allocation requests on one device: the result and the address
    of each call, in order, and the device after the last one. *)
Fixpoint allocate_all (device : GibgoGPUDevice) (sizes : list Z)
  : list (GibgoResult * option Z) * GibgoGPUDevice :=
  match sizes with
  | [] => ([], device)
  | size_req :: rest =>
      let '(r, device', out) := gibgo_allocate_gpu_memory device size_req in
      let '(results, final) := allocate_all device' rest in
      ((r, out) :: results, final)
  end.

(** *** Notions and sample inputs of the properties below *)

(** Slot [i], holding [a], is the one the map loop stops at for [address]:
    it is in use with that very [gpu_address], and no earlier slot is. *)
Definition selected (device : GibgoGPUDevice) (address : Z) (i : nat) (a : GibgoAllocation)
  : Prop :=
  slots device !! i = Some a
  /\ in_use a = true /\ gpu_address a = address
  /\ (forall (j : nat) (b : GibgoAllocation),
        slots device !! j = Some b -> (j < i)%nat ->
        ~ (in_use b = true /\ gpu_address b = address)).

(** A pool of one MiB at GPU address 0x1000000. *)
Definition small_device : GibgoGPUDevice := fresh_device 0x1000000 0x7F0000000000 0x100000.

(** [small_device] after one allocation of 256 bytes. *)
Definition one_allocation_device : GibgoGPUDevice := snd (allocate_all small_device [256]).

(** [small_device] after allocations of 100 and 300 bytes. *)
Definition two_allocation_device : GibgoGPUDevice :=
  snd (allocate_all small_device [100; 300]).

(** The state of a pool no request has wrapped: the two bump pointers agree
    and lie inside the pool, and the pool's GPU addresses fit in 64 bits. *)
Definition pool_ok (device : GibgoGPUDevice) : Prop :=
  0 <= pool_used device <= pool_size device
  /\ vram_allocation_offset device = pool_used device
  /\ 0 <= vram_physical_address device
  /\ vram_physical_address device + pool_size device < 2 ^ 64.

(** A request that cannot wrap on this pool. *)
Definition request_ok (device : GibgoGPUDevice) (size_req : Z) : Prop :=
  0 < size_req /\ size_req + 255 + pool_size device < 2 ^ 64.

(** The size a request is recorded with. *)
Definition rounded (size_req : Z) : Z := 256 * ((size_req + 255) / 256).

(** The address and recorded size of every successful call of a run. *)
Fixpoint granted_ranges (sizes : list Z) (results : list (GibgoResult * option Z))
  : list (Z * Z) :=
  match sizes, results with
  | size_req :: sizes', (GIBGO_RESULT_SUCCESS, Some address) :: results' =>
      (address, align_gpu_memory size_req GPU_MEMORY_ALIGNMENT)
      :: granted_ranges sizes' results'
  | _ :: sizes', _ :: results' => granted_ranges sizes' results'
  | _, _ => []
  end.

(** Ranges laid out one after the other between [lo] and [hi]. *)
Fixpoint chained (lo hi : Z) (ranges : list (Z * Z)) : Prop :=
  match ranges with
  | [] => True
  | (address, n) :: rest =>
      lo <= address /\ 0 < n /\ n mod 256 = 0 /\ address + n <= hi
      /\ chained (address + n) hi rest
  end.

(** The device a successful call away from wrap-around leaves. *)
Definition device_after (device : GibgoGPUDevice) (size_req : Z) : GibgoGPUDevice :=
  mkDevice (vram_physical_address device)
           (pool_used device + rounded size_req)
           (pool_memory device)
           (pool_size device)
           (pool_used device + rounded size_req)
           (wrap32 (allocation_count device + 1))
           (<[find_unused_slot (slots device) :=
                mkAllocation (vram_physical_address device + pool_used device)
                             (pool_memory device + pool_used device)
                             (rounded size_req) B32_TRUE]>
              (allocations device)).

(** Slots in use laid out one after the other between [lo] and [hi], each
    with the CPU pointer that mirrors its GPU address. *)
Fixpoint slots_chained (base memory lo hi : Z) (used : list GibgoAllocation) : Prop :=
  match used with
  | [] => lo <= hi
  | a :: rest =>
      in_use a = true /\ lo <= gpu_address a /\ 0 < size a
      /\ cpu_pointer a = memory + (gpu_address a - base)
      /\ slots_chained base memory (gpu_address a + size a) hi rest
  end.

(** The slot table of a pool no request has wrapped: the slots [used] come
    first, in allocation order, and every other slot is free. *)
Definition table_ok (device : GibgoGPUDevice) (used : list GibgoAllocation) : Prop :=
  allocations device
    = used ++ replicate (Z.to_nat ALLOCATION_SLOTS - length used) empty_slot
  /\ (length used <= Z.to_nat ALLOCATION_SLOTS)%nat
  /\ allocation_count device = Z.of_nat (length used)
  /\ slots_chained (vram_physical_address device) (pool_memory device)
                   (vram_physical_address device)
                   (vram_physical_address device + pool_used device) used.

End GpuMemory.

(* ===================================================================== *)
(** ** The command ring (rotating_cube/gpu_device.c, gpu_commands.c) *)
(* ===================================================================== *)

Module CommandRing.

(** [GibgoGPUCommand]: four 32-bit words. *)
Record GibgoGPUCommand : Type := mkCommand {
  command_type : Z; param0 : Z; param1 : Z; param2 : Z
}.

Record GibgoCommandRing : Type := mkRing {
  command_buffer : store Z;   (* u32*, indexed by word *)
  buffer_size : Z;            (* size of the allocation behind it, in bytes *)
  head_offset : Z;
  tail_offset : Z;
  capacity : Z
}.

Definition sizeof_u32 : Z := 4.

(** The ring as [gibgo_create_device] sets it up; [contents] is whatever the
    freshly allocated memory holds. *)
Definition create_ring (contents : store Z) : GibgoCommandRing :=
  let capacity := 1024 in
  mkRing contents (wrap64 (capacity * sizeof_u32)) 0 0 capacity.

(** The part of the device a submission reads and writes: the ring, the
    command-processor registers GPU_HEAD_PTR, GPU_TAIL_PTR and
    GPU_COMMAND_START, and the statistics counter.  Nothing in the
    submission loop writes GPU_HEAD_PTR: without a consumer, every read of it
    returns [gpu_head_ptr]. *)
Record GibgoGPUDevice : Type := mkDevice {
  cmd_ring : GibgoCommandRing;
  gpu_head_ptr : Z;
  gpu_tail_ptr : Z;
  gpu_command_start : Z;
  commands_submitted : Z
}.

(** The messages of the submission loop. *)
Inductive LogEvent : Type :=
| LOG_RING_FULL                 (* "Command ring buffer full, waiting for GPU..." *)
| LOG_COMMAND (i : Z)           (* "Command %u: ..." *)
| LOG_TIMEOUT.                  (* "GPU command submission timeout" *)

Definition SUBMIT_TIMEOUT : nat := Z.to_nat 1000000.

(** [while (next_tail == head_offset && timeout > 0)
       { head_offset = GPU_HEAD_PTR; timeout--; }]:
    the head offset and the timeout left when the loop ends. *)
Fixpoint wait_for_gpu (timeout : nat) (next_tail head head_reg : Z) : Z * nat :=
  match timeout with
  | O => (head, O)
  | S timeout' =>
      if next_tail =? head then wait_for_gpu timeout' next_tail head_reg head_reg
      else (head, timeout)
  end.

(** The word indices the four stores of one command go to. *)
Definition command_words (ring_index : Z) : list Z :=
  [wrap32 (ring_index * 4 + 0); wrap32 (ring_index * 4 + 1);
   wrap32 (ring_index * 4 + 2); wrap32 (ring_index * 4 + 3)].

Definition write_command (buffer : store Z) (ring_index : Z) (cmd : GibgoGPUCommand)
  : store Z :=
  let b0 := store_set buffer (wrap32 (ring_index * 4 + 0)) (command_type cmd) in
  let b1 := store_set b0 (wrap32 (ring_index * 4 + 1)) (param0 cmd) in
  let b2 := store_set b1 (wrap32 (ring_index * 4 + 2)) (param1 cmd) in
  store_set b2 (wrap32 (ring_index * 4 + 3)) (param2 cmd).

(** The full-ring condition the loop tests before each command. *)
Definition next_tail_of (ring : GibgoCommandRing) : Z :=
  wrap32 (tail_offset ring + 1) mod capacity ring.

Definition ring_full (ring : GibgoCommandRing) : bool :=
  next_tail_of ring =? head_offset ring.

(** The loop [for (i = 0; i < command_count; i++)] of
    [submit_commands_to_hardware], from iteration [i] on. *)
Fixpoint write_commands (ring : GibgoCommandRing) (head_reg : Z)
    (commands : list GibgoGPUCommand) (i : Z)
  : GibgoResult * GibgoCommandRing * list LogEvent :=
  match commands with
  | [] => (GIBGO_RESULT_SUCCESS, ring, [])
  | cmd :: rest =>
      let next_tail := next_tail_of ring in
      let '(head, timeout, waited) :=
        if ring_full ring then
          let '(h, t) := wait_for_gpu SUBMIT_TIMEOUT next_tail (head_offset ring) head_reg in
          (h, t, [LOG_RING_FULL])
        else (head_offset ring, SUBMIT_TIMEOUT, []) in
      let ring1 :=
        mkRing (command_buffer ring) (buffer_size ring) head (tail_offset ring) (capacity ring) in
      match timeout with
      | O => (GIBGO_RESULT_ERROR_GPU_TIMEOUT, ring1, waited ++ [LOG_TIMEOUT])
      | S _ =>
          let ring_index := tail_offset ring1 in
          let ring2 :=
            mkRing (write_command (command_buffer ring1) ring_index cmd)
                   (buffer_size ring1) head next_tail (capacity ring1) in
          let '(r, ring3, events) := write_commands ring2 head_reg rest (i + 1) in
          (r, ring3, waited ++ LOG_COMMAND i :: events)
      end
  end.

(** [submit_commands_to_hardware], the part after the software rasterizer
    has run (which always reports success): the ring loop, then the tail
    and start registers and the counter. *)
Definition submit_commands_to_hardware (device : GibgoGPUDevice)
    (commands : list GibgoGPUCommand)
  : GibgoResult * GibgoGPUDevice * list LogEvent :=
  let '(r, ring, events) := write_commands (cmd_ring device) (gpu_head_ptr device) commands 0 in
  match r with
  | GIBGO_RESULT_SUCCESS =>
      (r,
       mkDevice ring (gpu_head_ptr device) (tail_offset ring) 1
                (wrap64 (commands_submitted device + Z.of_nat (length commands))),
       events)
  | _ =>
      (r,
       mkDevice ring (gpu_head_ptr device) (gpu_tail_ptr device) (gpu_command_start device)
                (commands_submitted device),
       events)
  end.

(** A word of [command_buffer] lies inside the allocation of [buffer_size]
    bytes made for it. *)
Definition in_command_buffer (ring : GibgoCommandRing) (word_index : Z) : Prop :=
  0 <= word_index /\ (word_index + 1) * sizeof_u32 <= buffer_size ring.

(** *** Notions and sample inputs of the properties below *)

(** Offsets inside the ring, and a capacity an [u32] can hold. *)
Definition ring_ok (ring : GibgoCommandRing) : Prop :=
  0 < capacity ring < u32_modulus
  /\ 0 <= head_offset ring < capacity ring
  /\ 0 <= tail_offset ring < capacity ring.

(** How many records fit before the producer catches up with the head. *)
Definition free_slots (ring : GibgoCommandRing) : Z :=
  if tail_offset ring <? head_offset ring
  then head_offset ring - tail_offset ring - 1
  else capacity ring - 1 - (tail_offset ring - head_offset ring).

(** The ring after one record is written without waiting. *)
Definition ring_after_write (ring : GibgoCommandRing) (cmd : GibgoGPUCommand)
  : GibgoCommandRing :=
  mkRing (write_command (command_buffer ring) (tail_offset ring) cmd)
         (buffer_size ring) (head_offset ring) (next_tail_of ring) (capacity ring).

(** The messages of [n] commands written without waiting, from index [i]. *)
Definition command_log (i : Z) (n : nat) : list LogEvent :=
  List.map (fun k => LOG_COMMAND (i + Z.of_nat k)) (List.seq 0 n).

(** The ring [gibgo_create_device] sets up, in a device whose head register
    reads [head_reg]. *)
Definition created_device (contents : store Z) (head_reg : Z) : GibgoGPUDevice :=
  mkDevice (create_ring contents) head_reg 0 0 0.

Definition nop_command : GibgoGPUCommand := mkCommand 0 0 0 0.

Definition fence_command : GibgoGPUCommand := mkCommand 0x0B 7 0 0.

End CommandRing.

(* ===================================================================== *)
(** ** Runs of pool calls (notions of the allocator properties) *)
(* ===================================================================== *)

Module PoolCalls.
Import GpuMemory.

(** A call of the allocator interface. *)
Inductive PoolCall : Type :=
| Allocate (size_req : Z)
| Free (address size_req : Z).

Definition call (device : GibgoGPUDevice) (c : PoolCall) : GibgoResult * GibgoGPUDevice :=
  match c with
  | Allocate size_req =>
      let '(r, device', _) := gibgo_allocate_gpu_memory device size_req in (r, device')
  | Free address size_req => gibgo_free_gpu_memory device address size_req
  end.

(** The results of a run of calls, in order, and the device it leaves. *)
Fixpoint run (device : GibgoGPUDevice) (calls : list PoolCall)
  : list GibgoResult * GibgoGPUDevice :=
  match calls with
  | [] => ([], device)
  | c :: rest =>
      let '(r, device') := call device c in
      let '(results, final) := run device' rest in
      (r :: results, final)
  end.

(** How many allocations of a run succeeded. *)
Fixpoint granted (calls : list PoolCall) (results : list GibgoResult) : nat :=
  match calls, results with
  | Allocate _ :: calls', GIBGO_RESULT_SUCCESS :: results' => S (granted calls' results')
  | _ :: calls', _ :: results' => granted calls' results'
  | _, _ => O
  end.

(** A pool no request has wrapped, with slots [used] taken, non-null pool
    memory, and room for a request of [size_req] bytes that cannot wrap. *)
Definition ready (device : GibgoGPUDevice) (used : list GibgoAllocation) (size_req : Z)
  : Prop :=
  pool_ok device /\ table_ok device used /\ request_ok device size_req
  /\ pool_used device + rounded size_req <= pool_size device
  /\ allocation_count device < ALLOCATION_SLOTS
  /\ 0 < pool_memory device.

(** The slot a successful call records. *)
Definition new_slot (device : GibgoGPUDevice) (size_req : Z) : GibgoAllocation :=
  mkAllocation (vram_physical_address device + pool_used device)
               (pool_memory device + pool_used device)
               (rounded size_req) B32_TRUE.

End PoolCalls.

(* ===================================================================== *)
(** ** The device (gpu_device.h, gpu_device.c) *)
(* ===================================================================== *)

Module Device.

(** The fields of [GibgoGPUDevice] the functions below use.  [registers] is
    the memory behind [regs.registers], indexed by word, and
    [registers_address] the pointer itself (0 is NULL); [gibgo_create_device]
    stores the mapped DRM framebuffer there.  [memory] is the part the pool
    allocator works on and [cmd_ring] the command ring. *)
Record GibgoGPUDevice : Type := mkDevice {
  registers_address : Z;
  registers : store Z;
  register_space_size : Z;            (* u64, in bytes *)
  command_processor_offset : Z;       (* u32 *)
  memory : GpuMemory.GibgoGPUDevice;
  cmd_ring : CommandRing.GibgoCommandRing;
  fence_counter : Z;                  (* u32 *)
  commands_submitted : Z;             (* u64 *)
  frames_rendered : Z                 (* u64 *)
}.

Definition with_registers (device : GibgoGPUDevice) (r : store Z) : GibgoGPUDevice :=
  mkDevice (registers_address device) r (register_space_size device)
           (command_processor_offset device) (memory device) (cmd_ring device)
           (fence_counter device) (commands_submitted device) (frames_rendered device).

(** [gibgo_write_gpu_register]: the bound is on the byte offset, the store
    goes to word [offset / sizeof(u32)]. *)
Definition gibgo_write_gpu_register (device : GibgoGPUDevice) (offset value : Z)
  : GibgoResult * GibgoGPUDevice :=
  if registers_address device =? 0 then (GIBGO_RESULT_ERROR_INVALID_PARAMETER, device)
  else if register_space_size device <=? offset then
    (GIBGO_RESULT_ERROR_INVALID_PARAMETER, device)
  else
    (GIBGO_RESULT_SUCCESS,
     with_registers device (store_set (registers device) (offset / 4) value)).

(** [gibgo_read_gpu_register]; the out-parameter is written on success only. *)
Definition gibgo_read_gpu_register (device : GibgoGPUDevice) (offset : Z)
  : GibgoResult * option Z :=
  if registers_address device =? 0 then (GIBGO_RESULT_ERROR_INVALID_PARAMETER, None)
  else if register_space_size device <=? offset then
    (GIBGO_RESULT_ERROR_INVALID_PARAMETER, None)
  else (GIBGO_RESULT_SUCCESS, Some (registers device (offset / 4))).

(** [clear_framebuffer_to_color]:
    [for (u32 i = 0; i < width * height; i++) framebuffer[i] = color]. *)
Definition clear_framebuffer_to_color (framebuffer : store Z) (width height color : Z)
  : store Z :=
  for_range 0 (wrap32 (width * height) - 1) (fun i fb => store_set fb i color) framebuffer.

Inductive GibgoGPUVendor : Type :=
| GPU_VENDOR_UNKNOWN
| GPU_VENDOR_INTEL
| GPU_VENDOR_AMD
| GPU_VENDOR_NVIDIA.

(** The register offsets [gibgo_create_device] picks for a vendor. *)
Definition command_processor_offset_of (vendor : GibgoGPUVendor) : Z :=
  match vendor with
  | GPU_VENDOR_INTEL => 0x2000
  | GPU_VENDOR_AMD => 0x8000
  | GPU_VENDOR_NVIDIA => 0x10000
  | GPU_VENDOR_UNKNOWN => 0x1000
  end.

(** Word index of [cmd_regs[k]], where
    [cmd_regs = &regs.registers[command_processor_offset / sizeof(u32)]]. *)
Definition cmd_reg (device : GibgoGPUDevice) (k : Z) : Z :=
  command_processor_offset device / 4 + k.

Definition GPU_COMMAND_START : Z := 0x00.
Definition GPU_HEAD_PTR : Z := 0x04.
Definition GPU_TAIL_PTR : Z := 0x08.

(** Word index of [fence_register], which [gibgo_create_device] sets to
    [&regs.registers[command_processor_offset / sizeof(u32) + 0x100]]. *)
Definition fence_register (device : GibgoGPUDevice) : Z :=
  command_processor_offset device / 4 + 0x100.

Definition FRAME_WIDTH : Z := 800.
Definition FRAME_HEIGHT : Z := 600.

(** The device [gibgo_create_device] returns once the DRM framebuffer
    [framebuffer] of [fb_size] bytes is mapped at [fb_address] and the ring
    buffer is allocated: the framebuffer doubles as the register space and
    is cleared to dark gray, and VRAM is placed 16 MiB past BAR0.  The
    function does not touch the bookkeeping of the memory pool, which is
    taken from [pool]. *)
Definition created_device (vendor : GibgoGPUVendor) (bar0_base fb_address fb_size : Z)
    (framebuffer ring_contents : store Z) (pool : GpuMemory.GibgoGPUDevice)
  : GibgoGPUDevice :=
  mkDevice fb_address
           (clear_framebuffer_to_color framebuffer FRAME_WIDTH FRAME_HEIGHT 0xFF222222)
           fb_size
           (command_processor_offset_of vendor)
           (GpuMemory.mkDevice (wrap64 (bar0_base + 0x01000000)) 0
              (GpuMemory.pool_memory pool) (GpuMemory.pool_size pool)
              (GpuMemory.pool_used pool) (GpuMemory.allocation_count pool)
              (GpuMemory.allocations pool))
           (CommandRing.create_ring ring_contents)
           1 0 0.

End Device.

(* ===================================================================== *)
(** ** Command recording (directDrm/basic/rotating_cube/gpu_commands.c) *)
(* ===================================================================== *)

Module Commands.
Import GpuMemory.

(** [GibgoGPUCommandType]. *)
Definition GPU_CMD_NOP : Z := 0x00.
Definition GPU_CMD_SET_VIEWPORT : Z := 0x01.
Definition GPU_CMD_SET_VERTEX_BUFFER : Z := 0x02.
Definition GPU_CMD_SET_VERTEX_SHADER : Z := 0x03.
Definition GPU_CMD_SET_FRAGMENT_SHADER : Z := 0x04.
Definition GPU_CMD_SET_UNIFORM_BUFFER : Z := 0x05.
Definition GPU_CMD_ENABLE_DEPTH_TEST : Z := 0x06.
Definition GPU_CMD_ENABLE_FACE_CULLING : Z := 0x07.
Definition GPU_CMD_CLEAR_FRAMEBUFFER : Z := 0x08.
Definition GPU_CMD_DRAW_PRIMITIVES : Z := 0x09.
Definition GPU_CMD_PRESENT_FRAME : Z := 0x0A.
Definition GPU_CMD_FENCE : Z := 0x0B.

(** The three file-scope variables of the recorder: the array
    [current_commands] (NULL, or the memory [malloc] returned), the number of
    commands in it and its length. *)
Record Recording : Type := mkRecording {
  current_commands : option (store CommandRing.GibgoGPUCommand);
  current_command_count : Z;   (* u32 *)
  max_commands : Z             (* u32 *)
}.

(** The variables as the program starts. *)
Definition no_recording : Recording := mkRecording None 0 0.

Definition add_command (rec : Recording) (type param0 param1 param2 : Z)
  : GibgoResult * Recording :=
  match current_commands rec with
  | None => (GIBGO_RESULT_ERROR_INVALID_PARAMETER, rec)
  | Some buffer =>
      if max_commands rec <=? current_command_count rec then
        (GIBGO_RESULT_ERROR_COMMAND_FAILED, rec)
      else
        (GIBGO_RESULT_SUCCESS,
         mkRecording
           (Some (store_set buffer (current_command_count rec)
                    (CommandRing.mkCommand type param0 param1 param2)))
           (wrap32 (current_command_count rec + 1))
           (max_commands rec))
  end.

(** [gibgo_begin_commands]; [allocated] is what [malloc] returns. *)
Definition gibgo_begin_commands (allocated : option (store CommandRing.GibgoGPUCommand))
    (rec : Recording) : GibgoResult * Recording :=
  match allocated with
  | None => (GIBGO_RESULT_ERROR_OUT_OF_MEMORY, mkRecording None (current_command_count rec) 256)
  | Some buffer => (GIBGO_RESULT_SUCCESS, mkRecording (Some buffer) 0 256)
  end.

Definition gibgo_end_commands (rec : Recording) : GibgoResult :=
  match current_commands rec with
  | None => GIBGO_RESULT_ERROR_INVALID_PARAMETER
  | Some _ => GIBGO_RESULT_SUCCESS
  end.

(** The array and count a submission passes on:
    [current_commands[0 .. current_command_count - 1]]. *)
Definition recorded (rec : Recording) : list CommandRing.GibgoGPUCommand :=
  match current_commands rec with
  | None => []
  | Some buffer => List.map buffer (zrange 0 (current_command_count rec - 1))
  end.

(** [GibgoContext], with the fields the rotating-cube commands add. *)
Record GibgoContext : Type := mkContext {
  framebuffer_width : Z;
  framebuffer_height : Z;
  framebuffer_address : Z;       (* u64 *)
  framebuffer_format : Z;
  vertex_shader_address : Z;     (* u64 *)
  fragment_shader_address : Z;   (* u64 *)
  vertex_buffer_address : Z;     (* u64 *)
  vertex_buffer_stride : Z;
  vertex_count : Z;
  uniform_buffer_address : Z;    (* u64 *)
  uniform_buffer_size : Z;
  depth_test_enabled : b32;
  depth_near : f32;
  depth_far : f32;
  frame_fence : Z;
  current_frame_index : Z
}.

Definition with_viewport (c : GibgoContext) (width height : Z) : GibgoContext :=
  mkContext width height (framebuffer_address c) (framebuffer_format c)
    (vertex_shader_address c) (fragment_shader_address c)
    (vertex_buffer_address c) (vertex_buffer_stride c) (vertex_count c)
    (uniform_buffer_address c) (uniform_buffer_size c)
    (depth_test_enabled c) (depth_near c) (depth_far c)
    (frame_fence c) (current_frame_index c).

Definition with_shaders (c : GibgoContext) (vs fs : Z) : GibgoContext :=
  mkContext (framebuffer_width c) (framebuffer_height c) (framebuffer_address c)
    (framebuffer_format c) vs fs
    (vertex_buffer_address c) (vertex_buffer_stride c) (vertex_count c)
    (uniform_buffer_address c) (uniform_buffer_size c)
    (depth_test_enabled c) (depth_near c) (depth_far c)
    (frame_fence c) (current_frame_index c).

Definition with_vertex_buffer (c : GibgoContext) (address stride count : Z) : GibgoContext :=
  mkContext (framebuffer_width c) (framebuffer_height c) (framebuffer_address c)
    (framebuffer_format c) (vertex_shader_address c) (fragment_shader_address c)
    address stride count
    (uniform_buffer_address c) (uniform_buffer_size c)
    (depth_test_enabled c) (depth_near c) (depth_far c)
    (frame_fence c) (current_frame_index c).

Definition with_uniform_buffer (c : GibgoContext) (address n : Z) : GibgoContext :=
  mkContext (framebuffer_width c) (framebuffer_height c) (framebuffer_address c)
    (framebuffer_format c) (vertex_shader_address c) (fragment_shader_address c)
    (vertex_buffer_address c) (vertex_buffer_stride c) (vertex_count c)
    address n
    (depth_test_enabled c) (depth_near c) (depth_far c)
    (frame_fence c) (current_frame_index c).

Definition with_depth_test (c : GibgoContext) (enable : b32) (near far : f32) : GibgoContext :=
  mkContext (framebuffer_width c) (framebuffer_height c) (framebuffer_address c)
    (framebuffer_format c) (vertex_shader_address c) (fragment_shader_address c)
    (vertex_buffer_address c) (vertex_buffer_stride c) (vertex_count c)
    (uniform_buffer_address c) (uniform_buffer_size c)
    enable near far
    (frame_fence c) (current_frame_index c).

Definition with_frame (c : GibgoContext) (fence index : Z) : GibgoContext :=
  mkContext (framebuffer_width c) (framebuffer_height c) (framebuffer_address c)
    (framebuffer_format c) (vertex_shader_address c) (fragment_shader_address c)
    (vertex_buffer_address c) (vertex_buffer_stride c) (vertex_count c)
    (uniform_buffer_address c) (uniform_buffer_size c)
    (depth_test_enabled c) (depth_near c) (depth_far c)
    fence index.

(** [(u32)(address & 0xFFFFFFFF)] and [(u32)(address >> 32)]. *)
Definition low_word (address : Z) : Z := wrap32 (Z.land address 0xFFFFFFFF).
Definition high_word (address : Z) : Z := wrap32 (Z.shiftr address 32).

(** [enable ? 1 : 0]. *)
Definition flag (enable : b32) : Z := if enable then 1 else 0.

Definition gibgo_set_viewport (c : GibgoContext) (rec : Recording) (width height : Z)
  : GibgoResult * GibgoContext * Recording :=
  let '(r, rec') := add_command rec GPU_CMD_SET_VIEWPORT width height 0 in
  (r, with_viewport c width height, rec').

Definition gibgo_draw_primitives_internal (c : GibgoContext) (rec : Recording)
    (count first_vertex : Z) : GibgoResult * Recording :=
  let rec1 := snd (add_command rec GPU_CMD_SET_VERTEX_BUFFER
                     (low_word (vertex_buffer_address c))
                     (high_word (vertex_buffer_address c))
                     (vertex_buffer_stride c)) in
  let rec2 := snd (add_command rec1 GPU_CMD_CLEAR_FRAMEBUFFER 0 0 0) in
  let rec3 := snd (add_command rec2 GPU_CMD_DRAW_PRIMITIVES count first_vertex 0) in
  (GIBGO_RESULT_SUCCESS, rec3).

Definition gibgo_set_uniform_buffer (c : GibgoContext) (rec : Recording)
    (buffer_address buffer_size : Z) : GibgoResult * GibgoContext * Recording :=
  let '(r, rec') := add_command rec GPU_CMD_SET_UNIFORM_BUFFER
                      (low_word buffer_address) (high_word buffer_address) buffer_size in
  (r, with_uniform_buffer c buffer_address buffer_size, rec').

Definition gibgo_enable_depth_test (c : GibgoContext) (rec : Recording)
    (enable : b32) (near_plane far_plane : f32) : GibgoResult * GibgoContext * Recording :=
  let '(r, rec') := add_command rec GPU_CMD_ENABLE_DEPTH_TEST
                      (flag enable) (bits near_plane) (bits far_plane) in
  (r, with_depth_test c enable near_plane far_plane, rec').

Definition gibgo_enable_face_culling (rec : Recording) (enable : b32)
  : GibgoResult * Recording :=
  add_command rec GPU_CMD_ENABLE_FACE_CULLING (flag enable) 0 0.

(** [gibgo_present_frame]: the present and fence commands, the fence and
    frame counters of the device and the context. *)
Definition gibgo_present_frame (c : GibgoContext) (device : Device.GibgoGPUDevice)
    (rec : Recording) : GibgoResult * GibgoContext * Device.GibgoGPUDevice * Recording :=
  let rec1 := snd (add_command rec GPU_CMD_PRESENT_FRAME
                     (low_word (framebuffer_address c))
                     (high_word (framebuffer_address c))
                     (framebuffer_format c)) in
  let fence := wrap32 (Device.fence_counter device + 1) in
  let rec2 := snd (add_command rec1 GPU_CMD_FENCE fence 0 0) in
  let device' :=
    Device.mkDevice (Device.registers_address device) (Device.registers device)
      (Device.register_space_size device) (Device.command_processor_offset device)
      (Device.memory device) (Device.cmd_ring device)
      fence (Device.commands_submitted device)
      (wrap64 (Device.frames_rendered device + 1)) in
  (GIBGO_RESULT_SUCCESS, with_frame c fence (wrap32 (current_frame_index c + 1)), device', rec2).

(** [n] bytes starting at a source pointer, as [memcpy] reads them. *)
Definition bytes_of (source : store Z) (n : Z) : list Z := read_bytes source 0 (Z.to_nat n).

(** The upload idiom: map, and on success copy and unmap.  The unmap
    changes nothing and its result is discarded. *)
Definition upload_bytes (device : GpuMemory.GibgoGPUDevice) (h : heap)
    (address n : Z) (source : store Z) : heap :=
  match gibgo_map_gpu_memory device address n with
  | (GIBGO_RESULT_SUCCESS, Some mapped) => memcpy h mapped (bytes_of source n)
  | _ => h
  end.

(** [gibgo_load_shaders]: two allocations, two uploads, two commands whose
    results are not looked at. *)
Definition gibgo_load_shaders (c : GibgoContext) (w : World) (rec : Recording)
    (vertex_spirv : store Z) (vertex_size : Z)
    (fragment_spirv : store Z) (fragment_size : Z)
  : GibgoResult * GibgoContext * World * Recording :=
  match gibgo_allocate_gpu_memory (device_of w) vertex_size with
  | (GIBGO_RESULT_SUCCESS, device1, Some vs) =>
      let c1 := with_shaders c vs (fragment_shader_address c) in
      match gibgo_allocate_gpu_memory device1 fragment_size with
      | (GIBGO_RESULT_SUCCESS, device2, Some fs) =>
          let c2 := with_shaders c1 vs fs in
          let heap1 := upload_bytes device2 (heap_of w) vs vertex_size vertex_spirv in
          let heap2 := upload_bytes device2 heap1 fs fragment_size fragment_spirv in
          let rec1 := snd (add_command rec GPU_CMD_SET_VERTEX_SHADER
                             (low_word vs) (high_word vs) vertex_size) in
          let rec2 := snd (add_command rec1 GPU_CMD_SET_FRAGMENT_SHADER
                             (low_word fs) (high_word fs) fragment_size) in
          (GIBGO_RESULT_SUCCESS, c2, mkWorld device2 heap2, rec2)
      | (r, device2, _) => (r, c1, mkWorld device2 (heap_of w), rec)
      end
  | (r, device1, _) => (r, c, mkWorld device1 (heap_of w), rec)
  end.

(** [gibgo_upload_vertices] (part_001); [buffer_size] is the product of two
    [u32] values, taken in [u32] before it is widened. *)
Definition gibgo_upload_vertices (c : GibgoContext) (w : World)
    (vertex_data : store Z) (count stride : Z) : GibgoResult * GibgoContext * World :=
  if (count =? 0) || (stride =? 0) then (GIBGO_RESULT_ERROR_INVALID_PARAMETER, c, w)
  else
    let buffer_size := wrap32 (count * stride) in
    let '(r, c1, device1) :=
      if vertex_buffer_address c =? 0 then
        match gibgo_allocate_gpu_memory (device_of w) buffer_size with
        | (GIBGO_RESULT_SUCCESS, device', Some address) =>
            (GIBGO_RESULT_SUCCESS,
             with_vertex_buffer c address (vertex_buffer_stride c) (vertex_count c),
             device')
        | (r, device', _) => (r, c, device')
        end
      else (GIBGO_RESULT_SUCCESS, c, device_of w) in
    match r with
    | GIBGO_RESULT_SUCCESS =>
        match gibgo_map_gpu_memory device1 (vertex_buffer_address c1) buffer_size with
        | (GIBGO_RESULT_SUCCESS, Some mapped_buffer) =>
            (GIBGO_RESULT_SUCCESS,
             with_vertex_buffer c1 (vertex_buffer_address c1) stride count,
             mkWorld device1 (memcpy (heap_of w) mapped_buffer (bytes_of vertex_data buffer_size)))
        | (r', _) => (r', c1, mkWorld device1 (heap_of w))
        end
    | _ => (r, c1, mkWorld device1 (heap_of w))
    end.

(** The public result codes (gibgo_graphics.h) and [convert_result]. *)
Inductive GibgoGraphicsResult : Type :=
| GIBGO_SUCCESS
| GIBGO_ERROR_INITIALIZATION_FAILED
| GIBGO_ERROR_DEVICE_LOST
| GIBGO_ERROR_OUT_OF_MEMORY
| GIBGO_ERROR_INVALID_PARAMETER.

Definition convert_result (internal_result : GibgoResult) : GibgoGraphicsResult :=
  match internal_result with
  | GIBGO_RESULT_SUCCESS => GIBGO_SUCCESS
  | GIBGO_RESULT_ERROR_DEVICE_NOT_FOUND
  | GIBGO_RESULT_ERROR_DEVICE_ACCESS_DENIED
  | GIBGO_RESULT_ERROR_MEMORY_MAP_FAILED => GIBGO_ERROR_INITIALIZATION_FAILED
  | GIBGO_RESULT_ERROR_OUT_OF_MEMORY => GIBGO_ERROR_OUT_OF_MEMORY
  | GIBGO_RESULT_ERROR_GPU_TIMEOUT
  | GIBGO_RESULT_ERROR_COMMAND_FAILED => GIBGO_ERROR_DEVICE_LOST
  | _ => GIBGO_ERROR_INVALID_PARAMETER
  end.

(** [gibgo_set_uniform_buffer_data] (part_001) on an initialized system with
    non-null [data]: a new allocation on every call, an upload, and the
    uniform-buffer command. *)
Definition gibgo_set_uniform_buffer_data (c : GibgoContext) (w : World) (rec : Recording)
    (data : store Z) (n : Z) : GibgoGraphicsResult * GibgoContext * World * Recording :=
  match gibgo_allocate_gpu_memory (device_of w) n with
  | (GIBGO_RESULT_SUCCESS, device1, Some uniform_buffer_address) =>
      let heap1 := upload_bytes device1 (heap_of w) uniform_buffer_address n data in
      let '(r, c1, rec1) := gibgo_set_uniform_buffer c rec uniform_buffer_address n in
      (convert_result r, c1, mkWorld device1 heap1, rec1)
  | (r, device1, _) => (convert_result r, c, mkWorld device1 (heap_of w), rec)
  end.

(** *** Executing a submission *)

(** Little-endian reads of the mapped buffers: an [f32] word, the 16-byte
    [Vec3f] and [Vec4f], the 64-byte [Mat4f], the 32-byte [GibgoVertex]. *)
Definition read_u32 (h : heap) (p : Z) : Z :=
  h p + 2 ^ 8 * h (p + 1) + 2 ^ 16 * h (p + 2) + 2 ^ 24 * h (p + 3).

Definition read_f32 (h : heap) (p : Z) : f32 := F32 (read_u32 h p).

Definition read_vec3f (h : heap) (p : Z) : Vec3f :=
  mkVec3f (read_f32 h p) (read_f32 h (p + 4)) (read_f32 h (p + 8)) (read_f32 h (p + 12)).

Definition read_vec4f (h : heap) (p : Z) : Vec4f :=
  mkVec4f (read_f32 h p) (read_f32 h (p + 4)) (read_f32 h (p + 8)) (read_f32 h (p + 12)).

Definition read_mat4f (h : heap) (p : Z) : Mat4f :=
  mkMat4f (read_vec4f h p) (read_vec4f h (p + 16)) (read_vec4f h (p + 32))
          (read_vec4f h (p + 48)).

Definition sizeof_GibgoVertex : Z := 32.
Definition sizeof_GibgoUniformBuffer : Z := 288.
Definition offsetof_mvp_matrix : Z := 192.

Definition read_vertex (h : heap) (p : Z) : DirectDrm.GibgoVertex :=
  DirectDrm.mkVertex (read_vec3f h p) (read_vec3f h (p + 16)).

(** [vertices[i]] for [vertices = (GibgoVertex* )vertex_memory]. *)
Definition mapped_vertices (h : heap) (vertex_memory : Z) : store DirectDrm.GibgoVertex :=
  fun i => read_vertex h (vertex_memory + sizeof_GibgoVertex * i).

(** [render_3d_cube_software]: both buffers are mapped first, and the
    function returns without drawing when either map fails.  The unmap calls
    at the end change nothing. *)
Definition render_3d_cube_software (device : GpuMemory.GibgoGPUDevice) (h : heap)
    (framebuffer : store Z) (width height : Z)
    (vertex_buffer_addr uniform_buffer_addr : Z) (count first_vertex : Z)
    (face_culling_enabled : b32) : store Z :=
  let vertex_buffer_size := wrap64 (count * sizeof_GibgoVertex) in
  match gibgo_map_gpu_memory device vertex_buffer_addr vertex_buffer_size with
  | (GIBGO_RESULT_SUCCESS, Some vertex_memory) =>
      if vertex_memory =? 0 then framebuffer
      else
        match gibgo_map_gpu_memory device uniform_buffer_addr sizeof_GibgoUniformBuffer with
        | (GIBGO_RESULT_SUCCESS, Some uniform_memory) =>
            if uniform_memory =? 0 then framebuffer
            else
              DirectDrm.render_3d_cube_software framebuffer width height
                (mapped_vertices h vertex_memory)
                (read_mat4f h (uniform_memory + offsetof_mvp_matrix))
                count first_vertex face_culling_enabled
        | _ => framebuffer
        end
  | _ => framebuffer
  end.

(** The rendering state [execute_3d_cube_rendering] extracts from the
    commands, and the framebuffer its clear command writes. *)
Record RenderState : Type := mkRenderState {
  rs_vertex_buffer_address : Z;
  rs_uniform_buffer_address : Z;
  rs_vertex_count : Z;
  rs_first_vertex : Z;
  rs_face_culling_enabled : b32;
  rs_framebuffer : store Z
}.

Definition initial_state (framebuffer : store Z) : RenderState :=
  mkRenderState 0 0 0 0 B32_TRUE framebuffer.

(** [((u64)cmd->param1 << 32) | cmd->param0]. *)
Definition join_words (cmd : CommandRing.GibgoGPUCommand) : Z :=
  Z.lor (wrap64 (Z.shiftl (CommandRing.param1 cmd) 32)) (CommandRing.param0 cmd).

(** One iteration of the command loop: the [switch]. *)
Definition parse_command (st : RenderState) (cmd : CommandRing.GibgoGPUCommand) : RenderState :=
  let type := CommandRing.command_type cmd in
  if type =? GPU_CMD_SET_UNIFORM_BUFFER then
    mkRenderState (rs_vertex_buffer_address st) (join_words cmd)
      (rs_vertex_count st) (rs_first_vertex st) (rs_face_culling_enabled st)
      (rs_framebuffer st)
  else if type =? GPU_CMD_SET_VERTEX_BUFFER then
    mkRenderState (join_words cmd) (rs_uniform_buffer_address st)
      (rs_vertex_count st) (rs_first_vertex st) (rs_face_culling_enabled st)
      (rs_framebuffer st)
  else if type =? GPU_CMD_DRAW_PRIMITIVES then
    mkRenderState (rs_vertex_buffer_address st) (rs_uniform_buffer_address st)
      (CommandRing.param0 cmd) (CommandRing.param1 cmd) (rs_face_culling_enabled st)
      (rs_framebuffer st)
  else if type =? GPU_CMD_ENABLE_FACE_CULLING then
    mkRenderState (rs_vertex_buffer_address st) (rs_uniform_buffer_address st)
      (rs_vertex_count st) (rs_first_vertex st)
      (negb (CommandRing.param0 cmd =? 0))
      (rs_framebuffer st)
  else if type =? GPU_CMD_CLEAR_FRAMEBUFFER then
    mkRenderState (rs_vertex_buffer_address st) (rs_uniform_buffer_address st)
      (rs_vertex_count st) (rs_first_vertex st) (rs_face_culling_enabled st)
      (Device.clear_framebuffer_to_color (rs_framebuffer st)
         Device.FRAME_WIDTH Device.FRAME_HEIGHT 0xFF111111)
  else st.

Definition parse_commands (commands : list CommandRing.GibgoGPUCommand) (st : RenderState) : RenderState :=
  List.fold_left parse_command commands st.

(** [execute_3d_cube_rendering]: the commands are parsed first, the draw
    happens once, after the loop, on an 800x600 frame. *)
Definition execute_3d_cube_rendering (device : GpuMemory.GibgoGPUDevice) (h : heap)
    (framebuffer : store Z) (commands : list CommandRing.GibgoGPUCommand) : store Z :=
  let st := parse_commands commands (initial_state framebuffer) in
  if negb (rs_vertex_buffer_address st =? 0) && (0 <? rs_vertex_count st) then
    render_3d_cube_software device h (rs_framebuffer st)
      Device.FRAME_WIDTH Device.FRAME_HEIGHT
      (rs_vertex_buffer_address st) (rs_uniform_buffer_address st)
      (rs_vertex_count st) (rs_first_vertex st) (rs_face_culling_enabled st)
  else rs_framebuffer st.

(** *** Submission and completion *)

(** [submit_commands_to_hardware] in full: the software rasterizer runs on
    the register space (the DRM framebuffer), then the ring loop, whose wait
    reads GPU_HEAD_PTR from that same memory, then the stores to
    GPU_TAIL_PTR and GPU_COMMAND_START and the counter. *)
Definition submit_commands_to_hardware (device : Device.GibgoGPUDevice) (h : heap)
    (commands : list CommandRing.GibgoGPUCommand)
  : GibgoResult * Device.GibgoGPUDevice * list CommandRing.LogEvent :=
  let executed :=
    execute_3d_cube_rendering (Device.memory device) h (Device.registers device) commands in
  let head_reg := executed (Device.cmd_reg device Device.GPU_HEAD_PTR) in
  let '(r, ring, events) :=
    CommandRing.write_commands (Device.cmd_ring device) head_reg commands 0 in
  match r with
  | GIBGO_RESULT_SUCCESS =>
      let regs1 :=
        store_set executed (Device.cmd_reg device Device.GPU_TAIL_PTR)
                  (CommandRing.tail_offset ring) in
      let regs2 := store_set regs1 (Device.cmd_reg device Device.GPU_COMMAND_START) 1 in
      (r,
       Device.mkDevice (Device.registers_address device) regs2
         (Device.register_space_size device) (Device.command_processor_offset device)
         (Device.memory device) ring (Device.fence_counter device)
         (wrap64 (Device.commands_submitted device + Z.of_nat (length commands)))
         (Device.frames_rendered device),
       events)
  | _ =>
      (r,
       Device.mkDevice (Device.registers_address device) executed
         (Device.register_space_size device) (Device.command_processor_offset device)
         (Device.memory device) ring (Device.fence_counter device)
         (Device.commands_submitted device) (Device.frames_rendered device),
       events)
  end.

(** [gibgo_submit_commands]: the recorded commands are submitted and the
    recorder is reset whatever the outcome. *)
Definition gibgo_submit_commands (device : Device.GibgoGPUDevice) (h : heap)
    (rec : Recording)
  : GibgoResult * Device.GibgoGPUDevice * Recording * list CommandRing.LogEvent :=
  match current_commands rec with
  | None => (GIBGO_RESULT_ERROR_INVALID_PARAMETER, device, rec, [])
  | Some _ =>
      let '(r, device', events) := submit_commands_to_hardware device h (recorded rec) in
      (r, device', no_recording, events)
  end.

Definition FENCE_TIMEOUT : nat := Z.to_nat 1000000.

(** [while ( *fence_register < fence_value && timeout > 0) timeout--;]:
    the timeout left when the loop ends.  [reads k] is what the [k]-th read
    of the volatile register returns. *)
Fixpoint wait_for_fence (timeout : nat) (reads : nat -> Z) (k : nat) (fence_value : Z)
  : nat :=
  match timeout with
  | O => O
  | S timeout' =>
      if reads k <? fence_value then wait_for_fence timeout' reads (S k) fence_value
      else timeout
  end.

Definition gibgo_wait_for_completion (reads : nat -> Z) (fence_value : Z) : GibgoResult :=
  match wait_for_fence FENCE_TIMEOUT reads 0 fence_value with
  | O => GIBGO_RESULT_ERROR_GPU_TIMEOUT
  | S _ => GIBGO_RESULT_SUCCESS
  end.

(** [gibgo_end_frame_and_present] (part_001) on an initialized system:
    present, end of recording, submission; [current_frame] is the counter of
    the graphics system. *)
Definition gibgo_end_frame_and_present (c : GibgoContext) (device : Device.GibgoGPUDevice)
    (h : heap) (rec : Recording) (current_frame : Z)
  : GibgoGraphicsResult * GibgoContext * Device.GibgoGPUDevice * Recording * Z :=
  let '(r1, c1, device1, rec1) := gibgo_present_frame c device rec in
  match r1 with
  | GIBGO_RESULT_SUCCESS =>
      match gibgo_end_commands rec1 with
      | GIBGO_RESULT_SUCCESS =>
          let '(r3, device3, rec3, _) := gibgo_submit_commands device1 h rec1 in
          match r3 with
          | GIBGO_RESULT_SUCCESS =>
              (GIBGO_SUCCESS, c1, device3, rec3, wrap32 (current_frame + 1))
          | _ => (convert_result r3, c1, device3, rec3, current_frame)
          end
      | r2 => (convert_result r2, c1, device1, rec1, current_frame)
      end
  | _ => (convert_result r1, c1, device1, rec1, current_frame)
  end.

(** The reads of a fence register nothing writes during the wait. *)
Definition steady_fence (device : Device.GibgoGPUDevice) : nat -> Z :=
  fun _ => Device.registers device (Device.fence_register device).

(** *** Notions of the properties below *)

(** A recording in progress: an array and a count within its length. *)
Definition recording_ok (rec : Recording) : Prop :=
  current_commands rec <> None
  /\ 0 <= current_command_count rec <= max_commands rec
  /\ max_commands rec < u32_modulus.

(** How many more commands the array takes. *)
Definition room (rec : Recording) : nat :=
  Z.to_nat (max_commands rec - current_command_count rec).

(** A list of commands recorded by one [add_command] each, results dropped. *)
Definition record_all (rec : Recording) (commands : list CommandRing.GibgoGPUCommand) : Recording :=
  List.fold_left
    (fun r cmd =>
       snd (add_command r (CommandRing.command_type cmd) (CommandRing.param0 cmd)
              (CommandRing.param1 cmd) (CommandRing.param2 cmd)))
    commands rec.

(** The commands the executor acts on; it skips all others. *)
Definition is_state_command (cmd : CommandRing.GibgoGPUCommand) : bool :=
  let type := CommandRing.command_type cmd in
  (type =? GPU_CMD_SET_UNIFORM_BUFFER) || (type =? GPU_CMD_SET_VERTEX_BUFFER)
  || (type =? GPU_CMD_DRAW_PRIMITIVES) || (type =? GPU_CMD_ENABLE_FACE_CULLING)
  || (type =? GPU_CMD_CLEAR_FRAMEBUFFER).

Definition is_clear_command (cmd : CommandRing.GibgoGPUCommand) : bool :=
  CommandRing.command_type cmd =? GPU_CMD_CLEAR_FRAMEBUFFER.

Definition is_draw_command (cmd : CommandRing.GibgoGPUCommand) : bool :=
  CommandRing.command_type cmd =? GPU_CMD_DRAW_PRIMITIVES.

(** The frame after the executor's clear. *)
Definition cleared (framebuffer : store Z) : store Z :=
  Device.clear_framebuffer_to_color framebuffer Device.FRAME_WIDTH Device.FRAME_HEIGHT
    0xFF111111.

(** Two rendering states that differ at most in the draw parameters. *)
Definition same_but_draw (s s' : RenderState) : Prop :=
  rs_vertex_buffer_address s = rs_vertex_buffer_address s'
  /\ rs_uniform_buffer_address s = rs_uniform_buffer_address s'
  /\ rs_face_culling_enabled s = rs_face_culling_enabled s'
  /\ rs_framebuffer s = rs_framebuffer s'.

(** Two rendering states that differ at most in the framebuffer. *)
Definition same_but_framebuffer (s s' : RenderState) : Prop :=
  rs_vertex_buffer_address s = rs_vertex_buffer_address s'
  /\ rs_uniform_buffer_address s = rs_uniform_buffer_address s'
  /\ rs_vertex_count s = rs_vertex_count s'
  /\ rs_first_vertex s = rs_first_vertex s'
  /\ rs_face_culling_enabled s = rs_face_culling_enabled s'.

Definition not_clear_command (cmd : CommandRing.GibgoGPUCommand) : bool := negb (is_clear_command cmd).

(** *** A sample frame *)

(** The heap that holds the 32-bit [words], little-endian, from [base] on
    and is [h] elsewhere. *)
Definition heap_of_words (base : Z) (words : list Z) (h : heap) : heap :=
  fun p =>
    let k := p - base in
    if (0 <=? k) && (k <? 4 * Z.of_nat (length words))
    then (nth (Z.to_nat (k / 4)) words 0 / 2 ^ (8 * (k mod 4))) mod 256
    else h p.

(** Three [GibgoVertex] (position and color, each a padded [Vec3f]): the
    counter-clockwise triangle (0, 0.5, 0) red, (0.5, -0.5, 0) green,
    (-0.5, -0.5, 0) blue. *)
Definition triangle_words : list Z :=
  [0; 0x3F000000; 0; 0;  0x3F800000; 0; 0; 0;
   0x3F000000; 0xBF000000; 0; 0;  0; 0x3F800000; 0; 0;
   0xBF000000; 0xBF000000; 0; 0;  0; 0; 0x3F800000; 0].

(** The identity matrix. *)
Definition identity_words : list Z :=
  [0x3F800000; 0; 0; 0;  0; 0x3F800000; 0; 0;  0; 0; 0x3F800000; 0;  0; 0; 0; 0x3F800000].

(** The memory of a frame on [two_allocation_device]: the triangle in the
    first allocation, and in the second one a uniform buffer whose MVP
    matrix is the identity. *)
Definition frame_heap : heap :=
  heap_of_words 0x7F0000000000 triangle_words
    (heap_of_words (0x7F0000000100 + offsetof_mvp_matrix) identity_words (fun _ => 0)).

(** The triangle of [frame_heap] on an 800x600 screen. *)
Definition frame_v1 : DirectDrm.TransformedVertex := DirectDrm.screen_vertex 400 150 RGB_RED.
Definition frame_v2 : DirectDrm.TransformedVertex := DirectDrm.screen_vertex 600 450 RGB_GREEN.
Definition frame_v3 : DirectDrm.TransformedVertex := DirectDrm.screen_vertex 200 450 RGB_BLUE.

(** The commands that draw it. *)
Definition frame_commands : list CommandRing.GibgoGPUCommand :=
  [CommandRing.mkCommand GPU_CMD_SET_VERTEX_BUFFER (low_word 0x1000000) (high_word 0x1000000) 32;
   CommandRing.mkCommand GPU_CMD_SET_UNIFORM_BUFFER (low_word 0x1000100) (high_word 0x1000100) 288;
   CommandRing.mkCommand GPU_CMD_DRAW_PRIMITIVES 3 0 0].

End Commands.

(* ===================================================================== *)
(** ** The command processor of gibgoGraphics
       (gibgoGraphics/basic/rotating_cube, the gpu_commands part) *)
(* ===================================================================== *)

Module GraphicsRing.

(** [GibgoGPUCommandType] as this file numbers it. *)
Definition GPU_CMD_NOP : Z := 0x00.
Definition GPU_CMD_SET_VIEWPORT : Z := 0x01.
Definition GPU_CMD_SET_VERTEX_BUFFER : Z := 0x02.
Definition GPU_CMD_SET_VERTEX_SHADER : Z := 0x03.
Definition GPU_CMD_SET_FRAGMENT_SHADER : Z := 0x04.
Definition GPU_CMD_CLEAR_FRAMEBUFFER : Z := 0x05.
Definition GPU_CMD_DRAW_PRIMITIVES : Z := 0x06.
Definition GPU_CMD_PRESENT_FRAME : Z := 0x07.
Definition GPU_CMD_FENCE : Z := 0x08.
Definition GPU_CMD_SET_DEPTH_BUFFER : Z := 0x09.
Definition GPU_CMD_CLEAR_DEPTH_BUFFER : Z := 0x0A.
Definition GPU_CMD_ENABLE_DEPTH_TEST : Z := 0x0B.
Definition GPU_CMD_SET_DEPTH_COMPARE : Z := 0x0C.
Definition GPU_CMD_SET_MATRICES : Z := 0x0D.
Definition GPU_CMD_SET_INDEX_BUFFER : Z := 0x0E.
Definition GPU_CMD_DRAW_INDEXED : Z := 0x0F.

(** [GibgoGPUState], the file-scope [gpu_state]; [depth_test_enabled] holds
    the word the command carried. *)
Record GibgoGPUState : Type := mkGPUState {
  vertex_buffer_address : Z;     (* u64 *)
  index_buffer_address : Z;      (* u64 *)
  index_format : Z;
  vertex_shader_address : Z;     (* u64 *)
  fragment_shader_address : Z;   (* u64 *)
  matrix_buffer_address : Z;     (* u64 *)
  depth_test_enabled : Z;
  depth_compare_op : Z
}.

(** What the command processor works on: the fields of [GibgoGPUDevice] it
    uses, and [gpu_state].  [registers] is the memory behind
    [regs.registers], indexed by word, which is also where the indexed
    drawing puts its pixels when no other framebuffer is mapped;
    [fence_register] is the word index the pointer of that name refers to,
    or [None] for NULL. *)
Record Machine : Type := mkMachine {
  registers : store Z;
  command_processor_offset : Z;      (* u32 *)
  fence_register : option Z;
  cmd_ring : CommandRing.GibgoCommandRing;
  fence_counter : Z;                 (* u32 *)
  commands_submitted : Z;            (* u64 *)
  frames_rendered : Z;               (* u64 *)
  gpu_state : GibgoGPUState
}.

Definition with_registers (m : Machine) (r : store Z) : Machine :=
  mkMachine r (command_processor_offset m) (fence_register m) (cmd_ring m)
    (fence_counter m) (commands_submitted m) (frames_rendered m) (gpu_state m).

Definition with_ring (m : Machine) (ring : CommandRing.GibgoCommandRing) : Machine :=
  mkMachine (registers m) (command_processor_offset m) (fence_register m) ring
    (fence_counter m) (commands_submitted m) (frames_rendered m) (gpu_state m).

Definition with_state (m : Machine) (s : GibgoGPUState) : Machine :=
  mkMachine (registers m) (command_processor_offset m) (fence_register m) (cmd_ring m)
    (fence_counter m) (commands_submitted m) (frames_rendered m) s.

Definition with_frames (m : Machine) (n : Z) : Machine :=
  mkMachine (registers m) (command_processor_offset m) (fence_register m) (cmd_ring m)
    (fence_counter m) (commands_submitted m) n (gpu_state m).

(** [((u64)param1 << 32) | param0]. *)
Definition join (param0 param1 : Z) : Z := Z.lor (wrap64 (Z.shiftl param1 32)) param0.

Section Drawing.

(** [gpu_execute_indexed_drawing] computes its rotation with [cosf] and
    [sinf] from variables of other files; all it writes is the framebuffer.
    The command processor is described for any such drawing: a function
    from the memory, the index count and the first index to the memory. *)
Variable gpu_execute_indexed_drawing : store Z -> Z -> Z -> store Z.

(** The [switch] of [gpu_execute_command_ring]. *)
Definition execute_command (m : Machine) (command_type param0 param1 param2 : Z) : Machine :=
  let s := gpu_state m in
  if command_type =? GPU_CMD_SET_VERTEX_BUFFER then
    with_state m (mkGPUState (join param0 param1) (index_buffer_address s) (index_format s)
                    (vertex_shader_address s) (fragment_shader_address s)
                    (matrix_buffer_address s) (depth_test_enabled s) (depth_compare_op s))
  else if command_type =? GPU_CMD_SET_INDEX_BUFFER then
    with_state m (mkGPUState (vertex_buffer_address s) (join param0 param1) param2
                    (vertex_shader_address s) (fragment_shader_address s)
                    (matrix_buffer_address s) (depth_test_enabled s) (depth_compare_op s))
  else if command_type =? GPU_CMD_SET_VERTEX_SHADER then
    with_state m (mkGPUState (vertex_buffer_address s) (index_buffer_address s) (index_format s)
                    (join param0 param1) (fragment_shader_address s)
                    (matrix_buffer_address s) (depth_test_enabled s) (depth_compare_op s))
  else if command_type =? GPU_CMD_SET_FRAGMENT_SHADER then
    with_state m (mkGPUState (vertex_buffer_address s) (index_buffer_address s) (index_format s)
                    (vertex_shader_address s) (join param0 param1)
                    (matrix_buffer_address s) (depth_test_enabled s) (depth_compare_op s))
  else if command_type =? GPU_CMD_SET_MATRICES then
    with_state m (mkGPUState (vertex_buffer_address s) (index_buffer_address s) (index_format s)
                    (vertex_shader_address s) (fragment_shader_address s)
                    (join param0 param1) (depth_test_enabled s) (depth_compare_op s))
  else if command_type =? GPU_CMD_ENABLE_DEPTH_TEST then
    with_state m (mkGPUState (vertex_buffer_address s) (index_buffer_address s) (index_format s)
                    (vertex_shader_address s) (fragment_shader_address s)
                    (matrix_buffer_address s) param0 (depth_compare_op s))
  else if command_type =? GPU_CMD_SET_DEPTH_COMPARE then
    with_state m (mkGPUState (vertex_buffer_address s) (index_buffer_address s) (index_format s)
                    (vertex_shader_address s) (fragment_shader_address s)
                    (matrix_buffer_address s) (depth_test_enabled s) param0)
  else if command_type =? GPU_CMD_DRAW_INDEXED then
    if negb (vertex_buffer_address s =? 0) && negb (index_buffer_address s =? 0) then
      with_registers m (gpu_execute_indexed_drawing (registers m) param0 param1)
    else m
  else if command_type =? GPU_CMD_PRESENT_FRAME then
    with_frames m (wrap64 (frames_rendered m + 1))
  else if command_type =? GPU_CMD_FENCE then
    match fence_register m with
    | Some r => with_registers m (store_set (registers m) r param0)
    | None => m
    end
  else m.

(** Command [head_index] of the ring:
    [command_buffer[head_index * 4 + 0 .. 3]]. *)
Definition read_command (buffer : store Z) (head_index : Z) : CommandRing.GibgoGPUCommand :=
  CommandRing.mkCommand (buffer (wrap32 (head_index * 4 + 0)))
                        (buffer (wrap32 (head_index * 4 + 1)))
                        (buffer (wrap32 (head_index * 4 + 2)))
                        (buffer (wrap32 (head_index * 4 + 3))).

Definition with_head (ring : CommandRing.GibgoCommandRing) (head : Z)
  : CommandRing.GibgoCommandRing :=
  CommandRing.mkRing (CommandRing.command_buffer ring) (CommandRing.buffer_size ring)
    head (CommandRing.tail_offset ring) (CommandRing.capacity ring).

(** [gpu_execute_command_ring]:
    [while (head_offset != tail_offset) { ...; head_offset = (head_offset + 1) % capacity; }].
    [fuel] bounds the number of iterations; [None] is a loop still running
    when it is used up. *)
Fixpoint gpu_execute_command_ring (fuel : nat) (m : Machine) : option Machine :=
  let ring := cmd_ring m in
  if CommandRing.head_offset ring =? CommandRing.tail_offset ring then Some m
  else
    match fuel with
    | O => None
    | S fuel' =>
        let cmd := read_command (CommandRing.command_buffer ring) (CommandRing.head_offset ring) in
        let m1 := execute_command m (CommandRing.command_type cmd) (CommandRing.param0 cmd)
                    (CommandRing.param1 cmd) (CommandRing.param2 cmd) in
        let ring1 := cmd_ring m1 in
        let m2 :=
          with_ring m1
            (with_head ring1
               (wrap32 (CommandRing.head_offset ring1 + 1) mod CommandRing.capacity ring1)) in
        gpu_execute_command_ring fuel' m2
    end.

Definition cmd_reg (m : Machine) (k : Z) : Z := command_processor_offset m / 4 + k.

(** [submit_commands_to_hardware] of this file: the ring loop (the same
    text as in directDrm), the stores to GPU_TAIL_PTR and GPU_COMMAND_START,
    then the command processor, then the counter. *)
Definition submit_commands_to_hardware (fuel : nat) (m : Machine)
    (commands : list CommandRing.GibgoGPUCommand)
  : option (GibgoResult * Machine * list CommandRing.LogEvent) :=
  let head_reg := registers m (cmd_reg m Device.GPU_HEAD_PTR) in
  let '(r, ring, events) := CommandRing.write_commands (cmd_ring m) head_reg commands 0 in
  match r with
  | GIBGO_RESULT_SUCCESS =>
      let regs1 := store_set (registers m) (cmd_reg m Device.GPU_TAIL_PTR)
                     (CommandRing.tail_offset ring) in
      let regs2 := store_set regs1 (cmd_reg m Device.GPU_COMMAND_START) 1 in
      match gpu_execute_command_ring fuel (with_ring (with_registers m regs2) ring) with
      | None => None
      | Some m' =>
          Some (r,
                mkMachine (registers m') (command_processor_offset m') (fence_register m')
                  (cmd_ring m') (fence_counter m')
                  (wrap64 (commands_submitted m' + Z.of_nat (length commands)))
                  (frames_rendered m') (gpu_state m'),
                events)
      end
  | _ => Some (r, with_ring m ring, events)
  end.

(** [gibgo_submit_commands]. *)
Definition gibgo_submit_commands (fuel : nat) (m : Machine) (rec : Commands.Recording)
  : option (GibgoResult * Machine * Commands.Recording) :=
  match Commands.current_commands rec with
  | None => Some (GIBGO_RESULT_ERROR_INVALID_PARAMETER, m, rec)
  | Some _ =>
      match submit_commands_to_hardware fuel m (Commands.recorded rec) with
      | None => None
      | Some (r, m', _) => Some (r, m', Commands.no_recording)
      end
  end.

End Drawing.

(** [gibgo_present_frame] of this file; the recorder ([add_command] and its
    three variables) has the same text as in directDrm. *)
Definition gibgo_present_frame (c : Commands.GibgoContext) (m : Machine)
    (rec : Commands.Recording)
  : GibgoResult * Commands.GibgoContext * Machine * Commands.Recording :=
  let rec1 := snd (Commands.add_command rec GPU_CMD_PRESENT_FRAME
                     (Commands.low_word (Commands.framebuffer_address c))
                     (Commands.high_word (Commands.framebuffer_address c))
                     (Commands.framebuffer_format c)) in
  let fence := wrap32 (fence_counter m + 1) in
  let rec2 := snd (Commands.add_command rec1 GPU_CMD_FENCE fence 0 0) in
  let m' :=
    mkMachine (registers m) (command_processor_offset m) (fence_register m) (cmd_ring m)
      fence (commands_submitted m) (wrap64 (frames_rendered m + 1)) (gpu_state m) in
  (GIBGO_RESULT_SUCCESS,
   Commands.with_frame c fence (wrap32 (Commands.current_frame_index c + 1)), m', rec2).

(** *** Notions of the properties below *)

Section Running.
Variable gpu_execute_indexed_drawing : store Z -> Z -> Z -> store Z.

(** The commands of a list executed one after the other. *)
Definition run_commands (m : Machine) (commands : list CommandRing.GibgoGPUCommand) : Machine :=
  List.fold_left
    (fun acc cmd =>
       execute_command gpu_execute_indexed_drawing acc (CommandRing.command_type cmd)
         (CommandRing.param0 cmd) (CommandRing.param1 cmd) (CommandRing.param2 cmd))
    commands m.

End Running.

(** The ring slots from [start] on hold the commands of a list. *)
Fixpoint holds (buffer : store Z) (capacity start : Z)
    (commands : list CommandRing.GibgoGPUCommand) : Prop :=
  match commands with
  | [] => True
  | cmd :: rest =>
      read_command buffer start = cmd /\ holds buffer capacity ((start + 1) mod capacity) rest
  end.

(** An empty ring small enough for its word indices not to wrap. *)
Definition ring_ready (ring : CommandRing.GibgoCommandRing) : Prop :=
  CommandRing.ring_ok ring
  /\ CommandRing.head_offset ring = CommandRing.tail_offset ring
  /\ 4 * CommandRing.capacity ring <= u32_modulus.

Definition is_present_command (cmd : CommandRing.GibgoGPUCommand) : bool :=
  CommandRing.command_type cmd =? GPU_CMD_PRESENT_FRAME.

End GraphicsRing.

(* ===================================================================== *)
(** * Properties *)
(* ===================================================================== *)

(** ** Stores *)

Lemma store_set_eq {A : Type} (m : store A) i v : store_set m i v i = v.
Proof. unfold store_set. now rewrite Z.eqb_refl. Qed.

Lemma store_set_ne {A : Type} (m : store A) i j v :
  j <> i -> store_set m i v j = m j.
Proof. unfold store_set. intros Hne. now apply Z.eqb_neq in Hne as ->. Qed.

(** ** Loops that touch one cell per iteration *)

Lemma in_zrange (lo hi x : Z) : In x (zrange lo hi) <-> lo <= x <= hi.
Proof.
  unfold zrange. rewrite in_map_iff. split.
  - intros (k & <- & Hk). apply in_seq in Hk. lia.
  - intros Hx. exists (Z.to_nat (x - lo)). split; [lia|].
    apply in_seq. lia.
Qed.

Lemma NoDup_zrange (lo hi : Z) : List.NoDup (zrange lo hi).
Proof.
  unfold zrange. apply Finite.Injective_map_NoDup.
  - intros a b Hab. lia.
  - apply List.seq_NoDup.
Qed.

Section FoldFrame.
Context {St A C : Type}.
Variable obs : St -> Z -> A.
Variable stp : C -> St -> St.
Variable touches : C -> Z -> Prop.
Hypothesis stp_frame : forall c s j, ~ touches c j -> obs (stp c s) j = obs s j.

(** Cells no iteration touches keep their content. *)
Lemma fold_frame (l : list C) (s : St) (j : Z) :
  (forall c, In c l -> ~ touches c j) ->
  obs (List.fold_left (fun acc c => stp c acc) l s) j = obs s j.
Proof.
  revert s. induction l as [|a l IH]; intros s Hl; simpl; [reflexivity|].
  rewrite IH by (intros c Hc; apply Hl; now right).
  apply stp_frame, Hl. now left.
Qed.

(** A cell only iteration [c] touches holds what that iteration leaves. *)
Lemma fold_at (l : list C) (c : C) (j : Z) (F : A -> A) (s : St) :
  List.NoDup l -> In c l ->
  (forall c', In c' l -> c' <> c -> ~ touches c' j) ->
  (forall s', obs (stp c s') j = F (obs s' j)) ->
  obs (List.fold_left (fun acc c => stp c acc) l s) j = F (obs s j).
Proof.
  intros Hnd Hin Hothers HF. revert s.
  induction l as [|a l IH]; intros s; [destruct Hin|].
  inversion Hnd as [|a' l' Hnotin Hnd']; subst. simpl.
  destruct Hin as [-> | Hin].
  - rewrite fold_frame; [apply HF|].
    intros c' Hc'. apply Hothers; [now right|].
    intros ->. contradiction.
  - rewrite IH; auto.
    + f_equal. apply stp_frame, Hothers; [now left|].
      intros ->. contradiction.
    + intros c' Hc' Hne. apply Hothers; [now right|assumption].
Qed.
End FoldFrame.

Section Raster.
Context {St A : Type}.
Variable obs : St -> Z -> A.
Variable idx : Z -> Z -> Z.
Variable local : Z -> Z -> A -> A.
Variable body : Z -> Z -> St -> St.
Hypothesis body_obs : forall x y s j,
  obs (body x y s) j = if j =? idx x y then local x y (obs s j) else obs s j.

Variables lo_x hi_x lo_y hi_y : Z.

Lemma row_frame (y : Z) (s : St) (j : Z) :
  ~ (exists x, lo_x <= x <= hi_x /\ idx x y = j) ->
  obs (for_range lo_x hi_x (fun x => body x y) s) j = obs s j.
Proof.
  intros Hno. unfold for_range.
  apply (fold_frame obs (fun x => body x y) (fun x j' => idx x y = j')).
  - intros c s' j' Hne. rewrite body_obs.
    destruct (Z.eqb_spec j' (idx c y)); [congruence|reflexivity].
  - intros c Hc Heq. apply Hno. exists c. split; [now apply in_zrange|assumption].
Qed.

(** A cell that is the index of no pixel of the box is left alone. *)
Lemma raster_frame (s : St) (j : Z) :
  (forall x y, lo_x <= x <= hi_x /\ lo_y <= y <= hi_y -> idx x y <> j) ->
  obs (raster body lo_x hi_x lo_y hi_y s) j = obs s j.
Proof.
  intros Hno. unfold raster, for_range at 1.
  apply (fold_frame obs (fun y => for_range lo_x hi_x (fun x => body x y))
           (fun y j' => exists x, lo_x <= x <= hi_x /\ idx x y = j')).
  - intros c s' j'. apply row_frame.
  - intros c Hc (x & Hx & Heq). apply in_zrange in Hc.
    now apply (Hno x c).
Qed.

(** The cell of a pixel of the box holds what the body computes for that
    pixel from the cell's initial content, when no other pixel of the box
    shares its index. *)
Lemma raster_at (s : St) (x y : Z) :
  lo_x <= x <= hi_x /\ lo_y <= y <= hi_y ->
  (forall x' y', lo_x <= x' <= hi_x /\ lo_y <= y' <= hi_y ->
                 idx x' y' = idx x y -> x' = x /\ y' = y) ->
  obs (raster body lo_x hi_x lo_y hi_y s) (idx x y) = local x y (obs s (idx x y)).
Proof.
  intros [Hx Hy] Hinj. unfold raster, for_range at 1.
  apply (fold_at obs (fun y => for_range lo_x hi_x (fun x => body x y))
           (fun y j' => exists x, lo_x <= x <= hi_x /\ idx x y = j')
           ltac:(intros c s' j'; apply row_frame) _ y).
  - apply NoDup_zrange.
  - now apply in_zrange.
  - intros y' Hy' Hne (x' & Hx' & Heq). apply in_zrange in Hy'.
    destruct (Hinj x' y') as [_ ?]; [split; assumption|assumption|contradiction].
  - intros s'. unfold for_range.
    assert (Hframe : forall c s'' j', idx c y <> j' ->
              obs (body c y s'') j' = obs s'' j').
    { intros c s'' j' Hne. rewrite body_obs.
      destruct (Z.eqb_spec j' (idx c y)); [congruence|reflexivity]. }
    apply (fold_at obs (fun x => body x y) (fun x j' => idx x y = j') Hframe _ x).
    + apply NoDup_zrange.
    + now apply in_zrange.
    + intros x' Hx' Hne Heq. apply in_zrange in Hx'.
      destruct (Hinj x' y) as [? _]; [split; assumption|assumption|contradiction].
    + intros s''. rewrite body_obs. now rewrite Z.eqb_refl.
Qed.
End Raster.

(** Row-major pixel indices of a frame that fits the index type are distinct. *)
Lemma pixel_index_inj (width height x y x' y' : Z) :
  width * height <= u32_modulus ->
  0 <= x < width -> 0 <= y < height ->
  0 <= x' < width -> 0 <= y' < height ->
  wrap32 (y' * width + x') = wrap32 (y * width + x) ->
  x' = x /\ y' = y.
Proof.
  intros Hfit Hx Hy Hx' Hy' Heq. unfold wrap32 in Heq.
  assert (Hb : forall a b, 0 <= a < width -> 0 <= b < height ->
                           0 <= b * width + a < u32_modulus) by (intros; nia).
  rewrite !Z.mod_small in Heq by (apply Hb; assumption).
  assert (y' = y) by nia. subst. split; lia.
Qed.

(* ===================================================================== *)
(** ** Vertex transform and clipping (directDrm pipeline) *)
(* ===================================================================== *)

Section TransformProperties.
Import DirectDrm.

(** A vertex the transform marks valid went through the perspective divide
    and the viewport mapping. *)
Lemma transform_of_valid_vertex (vertex : GibgoVertex) (mvp : Mat4f) (width height : Z) :
  is_valid (transform_vertex_to_screen vertex mvp width height) = true ->
  transform_vertex_to_screen vertex mvp width height
  = let clip := clip_space_of vertex mvp in
    let w_inv := f32_div F32_ONE (v4w clip) in
    mkTransformed
      (vec3f_create
         (f32_mul (f32_add (f32_mul (f32_mul (v4x clip) w_inv) F32_HALF) F32_HALF)
                  (f32_from_u32 width))
         (f32_mul (f32_sub F32_ONE (f32_add (f32_mul (f32_mul (v4y clip) w_inv) F32_HALF)
                                            F32_HALF))
                  (f32_from_u32 height))
         (f32_mul (v4z clip) w_inv))
      (color vertex) B32_TRUE.
Proof.
  unfold transform_vertex_to_screen.
  destruct (inside_frustum (clip_space_of vertex mvp)); [reflexivity|].
  intros H. discriminate H.
Qed.

(** C7.  The vertex at the origin, transformed with the identity MVP matrix
    for an 800x600 viewport, is valid and lands on screen coordinates
    (400, 300) with NDC depth 0; and every vertex that passes the frustum
    test gets screen_x = (ndc_x*0.5+0.5)*width,
    screen_y = (1-(ndc_y*0.5+0.5))*height and keeps ndc_z, where
    ndc = clip * (1/clip.w). *)
Theorem origin_maps_to_screen_center :
  (forall c : Vec3f,
     transform_vertex_to_screen (origin_vertex c) mat4f_identity 800 600
     = mkTransformed (vec3f_create (f32_from_u32 400) (f32_from_u32 300) F32_ZERO)
                     c B32_TRUE)
  /\ (forall (vertex : GibgoVertex) (mvp : Mat4f) (width height : Z),
        let clip := clip_space_of vertex mvp in
        let w_inv := f32_div F32_ONE (v4w clip) in
        let ndc_x := f32_mul (v4x clip) w_inv in
        let ndc_y := f32_mul (v4y clip) w_inv in
        let ndc_z := f32_mul (v4z clip) w_inv in
        let tv := transform_vertex_to_screen vertex mvp width height in
        is_valid tv = true ->
        v3x (tv_position tv)
          = f32_mul (f32_add (f32_mul ndc_x F32_HALF) F32_HALF) (f32_from_u32 width)
        /\ v3y (tv_position tv)
          = f32_mul (f32_sub F32_ONE (f32_add (f32_mul ndc_y F32_HALF) F32_HALF))
                    (f32_from_u32 height)
        /\ v3z (tv_position tv) = ndc_z
        /\ tv_color tv = color vertex).
Proof.
  split.
  - intros c. vm_compute. reflexivity.
  - intros vertex mvp width height clip w_inv ndc_x ndc_y ndc_z tv Hvalid.
    subst tv. rewrite (transform_of_valid_vertex _ _ _ _ Hvalid).
    repeat split; reflexivity.
Qed.

Lemma origin_maps_to_screen_center_witness :
  let tv := transform_vertex_to_screen (origin_vertex RGB_RED) mat4f_identity 800 600 in
  is_valid tv = true
  /\ bits (v3x (tv_position tv)) = 0x43C80000     (* 400.0f *)
  /\ bits (v3y (tv_position tv)) = 0x43960000     (* 300.0f *)
  /\ bits (v3z (tv_position tv)) = 0.
Proof.
  pose proof (proj2 origin_maps_to_screen_center
                (origin_vertex RGB_RED) mat4f_identity 800 600) as H.
  cbv zeta in H.
  assert (Hv : is_valid (transform_vertex_to_screen (origin_vertex RGB_RED)
                           mat4f_identity 800 600) = true) by (vm_compute; reflexivity).
  destruct (H Hv) as (Hx & Hy & Hz & _).
  cbv zeta. rewrite Hx, Hy, Hz.
  split; [exact Hv|]. vm_compute. repeat split; reflexivity.
Defined.

(** C1 (the code departs from the claim).  The vertex (0.5, 0.5, 1) under
    [negating_w_matrix] has clip-space w = -1 <= 0, yet the transform marks
    it valid: the frustum test compares |w|, not w, with zero. *)
Theorem negative_w_vertex_is_marked_valid :
  let clip := clip_space_of vertex_behind_camera negating_w_matrix in
  v4w clip = F32_NEG_ONE
  /\ f32_le (v4w clip) F32_ZERO = true
  /\ is_valid (transform_vertex_to_screen vertex_behind_camera negating_w_matrix 800 600)
     = true.
Proof. vm_compute. repeat split; reflexivity. Qed.

(** What the test does reject on w alone: a clip-space w that is a zero of
    either sign. *)
Lemma zero_w_vertex_is_rejected (clip : Vec4f) :
  bits (v4w clip) = 0 \/ bits (v4w clip) = F32_SIGN_MASK ->
  inside_frustum clip = false.
Proof.
  intros H. unfold inside_frustum.
  replace (f32_gt (f32_abs (v4w clip)) F32_ZERO) with false; [reflexivity|].
  unfold f32_abs. destruct H as [-> | ->]; vm_compute; reflexivity.
Qed.
End TransformProperties.

(* ===================================================================== *)
(** ** Rounding of binary32 numbers *)
(* ===================================================================== *)

(** What the arithmetic of [spec_float] at precision 24 gives: the number of
    digits of a mantissa, the right shift and the rounding of
    [binary_round_aux], and from them the sign of a zero result and a lower
    bound on the exponent of a sum, a difference and a product. *)

Ltac hide_pows :=
  repeat match goal with
         | |- context [2 ^ ?e] =>
             let v := fresh "pw" in set (v := 2 ^ e) in *; clearbody v
         | H : context [2 ^ ?e] |- _ =>
             let v := fresh "pw" in set (v := 2 ^ e) in *; clearbody v
         end.

Lemma fexp32_eq (z : Z) : fexp32 z = Z.max (z - 24) (-149).
Proof. reflexivity. Qed.

Lemma digits_bounds (m : positive) :
  2 ^ (Z.pos (digits2_pos m) - 1) <= Z.pos m < 2 ^ Z.pos (digits2_pos m).
Proof.
  induction m as [p IH|p IH|]; cbn [digits2_pos].
  - rewrite Pos2Z.inj_succ. change (Z.pos p~1) with (2 * Z.pos p + 1).
    replace (Z.succ (Z.pos (digits2_pos p)) - 1) with (Z.succ (Z.pos (digits2_pos p) - 1)) by lia.
    rewrite !Z.pow_succ_r by lia. hide_pows. lia.
  - rewrite Pos2Z.inj_succ. change (Z.pos p~0) with (2 * Z.pos p).
    replace (Z.succ (Z.pos (digits2_pos p)) - 1) with (Z.succ (Z.pos (digits2_pos p) - 1)) by lia.
    rewrite !Z.pow_succ_r by lia. hide_pows. lia.
  - cbn. lia.
Qed.

Lemma digits_unique (m : positive) (d : Z) :
  2 ^ (d - 1) <= Z.pos m < 2 ^ d -> Z.pos (digits2_pos m) = d.
Proof.
  intros [Hlo Hhi]. destruct (digits_bounds m) as [Dlo Dhi].
  destruct (Z.lt_trichotomy (Z.pos (digits2_pos m)) d) as [H|[H|H]]; [|exact H|].
  - pose proof (Z.pow_le_mono_r 2 (Z.pos (digits2_pos m)) (d - 1) ltac:(lia) ltac:(lia)). lia.
  - pose proof (Z.pow_le_mono_r 2 d (Z.pos (digits2_pos m) - 1) ltac:(lia) ltac:(lia)). lia.
Qed.

Lemma pow2_split (a b : Z) : 0 <= a -> 0 <= b -> 2 ^ (a + b) = 2 ^ a * 2 ^ b.
Proof. intros. apply Z.pow_add_r; assumption. Qed.

Lemma div_pow2_bounds (m d n : Z) :
  2 ^ (d - 1) <= m < 2 ^ d -> 0 <= n < d ->
  2 ^ (d - n - 1) <= m / 2 ^ n < 2 ^ (d - n).
Proof.
  intros [Hlo Hhi] Hn.
  assert (Hp : 0 < 2 ^ n) by (apply Z.pow_pos_nonneg; lia).
  split.
  - apply Z.div_le_lower_bound; [exact Hp|].
    rewrite <- pow2_split by lia. replace (n + (d - n - 1)) with (d - 1) by lia. exact Hlo.
  - apply Z.div_lt_upper_bound; [exact Hp|].
    rewrite <- pow2_split by lia. replace (n + (d - n)) with d by lia. exact Hhi.
Qed.

Lemma div_pow2_small (m d n : Z) : 0 <= m < 2 ^ d -> d <= n -> m / 2 ^ n = 0.
Proof.
  intros [Hlo Hhi] Hn. apply Z.div_small. split; [exact Hlo|].
  pose proof (Z.pow_le_mono_r 2 d n ltac:(lia) Hn). lia.
Qed.

Lemma shr_1_m (mrs : shr_record) : 0 <= shr_m mrs -> shr_m (shr_1 mrs) = shr_m mrs / 2.
Proof.
  destruct mrs as [m r s]. cbn [shr_m]. intros Hm.
  destruct m as [|[p|p|]|p]; cbn [shr_1 shr_m]; try lia; try reflexivity.
  - apply Z.div_unique with 1; lia.
  - apply Z.div_unique with 0; lia.
Qed.

Lemma div_nonneg (a b : Z) : 0 <= a -> 0 < b -> 0 <= a / b.
Proof. intros. apply Z.div_pos; assumption. Qed.

Lemma iter_shr_m (p : positive) : forall mrs : shr_record,
  0 <= shr_m mrs -> shr_m (SpecFloat.iter_pos shr_1 p mrs) = shr_m mrs / 2 ^ Z.pos p.
Proof.
  induction p as [p IH|p IH|]; intros mrs Hm; cbn [SpecFloat.iter_pos].
  - assert (H1 : 0 <= shr_m (shr_1 mrs)) by (rewrite shr_1_m by exact Hm; apply div_nonneg; lia).
    assert (Hp : 0 < 2 ^ Z.pos p) by (apply Z.pow_pos_nonneg; lia).
    assert (H2 : 0 <= shr_m (SpecFloat.iter_pos shr_1 p (shr_1 mrs)))
      by (rewrite IH by exact H1; apply div_nonneg; [exact H1|exact Hp]).
    rewrite IH by exact H2. rewrite IH by exact H1. rewrite shr_1_m by exact Hm.
    rewrite !Z.div_div by lia. f_equal.
    change (Z.pos p~1) with (2 * Z.pos p + 1). replace (2 * Z.pos p + 1) with (1 + Z.pos p + Z.pos p) by lia.
    rewrite !pow2_split by lia. change (2 ^ 1) with 2. lia.
  - assert (Hp : 0 < 2 ^ Z.pos p) by (apply Z.pow_pos_nonneg; lia).
    assert (H2 : 0 <= shr_m (SpecFloat.iter_pos shr_1 p mrs))
      by (rewrite IH by exact Hm; apply div_nonneg; [exact Hm|exact Hp]).
    rewrite IH by exact H2. rewrite IH by exact Hm.
    rewrite !Z.div_div by lia. f_equal.
    change (Z.pos p~0) with (2 * Z.pos p). replace (2 * Z.pos p) with (Z.pos p + Z.pos p) by lia.
    rewrite !pow2_split by lia. lia.
  - rewrite shr_1_m by exact Hm. reflexivity.
Qed.

(** [shr_fexp] on an exact mantissa divides it by the power of two that
    brings the exponent up to the canonical one. *)
Lemma shr_fexp_spec (m e : Z) : 0 <= m ->
  exists mrs : shr_record,
    shr_fexp prec32 emax32 m e loc_Exact
    = (mrs, Z.max e (fexp32 (Zdigits2 m + e)))
    /\ shr_m mrs = m / 2 ^ (Z.max e (fexp32 (Zdigits2 m + e)) - e).
Proof.
  intros Hm. unfold shr_fexp, shr. fold (fexp32 (Zdigits2 m + e)).
  set (f := fexp32 (Zdigits2 m + e)).
  destruct (f - e) as [|p|p] eqn:Hn.
  - exists (shr_record_of_loc m loc_Exact). split.
    + f_equal. lia.
    + replace (Z.max e f - e) with 0 by lia. cbn [shr_record_of_loc shr_m].
      rewrite Z.pow_0_r, Z.div_1_r. reflexivity.
  - exists (SpecFloat.iter_pos shr_1 p (shr_record_of_loc m loc_Exact)). split.
    + f_equal. lia.
    + rewrite iter_shr_m by exact Hm. cbn [shr_record_of_loc shr_m].
      replace (Z.max e f - e) with (Z.pos p) by lia. reflexivity.
  - exists (shr_record_of_loc m loc_Exact). split.
    + f_equal. lia.
    + replace (Z.max e f - e) with 0 by lia. cbn [shr_record_of_loc shr_m].
      rewrite Z.pow_0_r, Z.div_1_r. reflexivity.
Qed.

Lemma round_nearest_even_cases (m : Z) (l : location) :
  round_nearest_even m l = m \/ round_nearest_even m l = m + 1.
Proof.
  destruct l as [|[]]; cbn [round_nearest_even]; auto.
  destruct (Z.even m); auto.
Qed.


Lemma Zdigits2_pos (m : positive) : Zdigits2 (Z.pos m) = Z.pos (digits2_pos m).
Proof. reflexivity. Qed.

(** Rounding to nearest-even a mantissa [m] at an exponent [e] that is not
    above the canonical one: the result is a zero, an infinity or a finite
    number in canonical form, of the sign given, with an exponent not below
    the canonical exponent of [m * 2^e]; and it is not a zero when
    [m * 2^e] is at least 2^-149. *)
Lemma binary_round_aux_spec (s : bool) (m : positive) (e : Z) :
  e <= fexp32 (Z.pos (digits2_pos m) + e) ->
  rounding_result s (fexp32 (Z.pos (digits2_pos m) + e))
    (binary_round_aux prec32 emax32 s (Z.pos m) e loc_Exact)
  /\ (-149 < Z.pos (digits2_pos m) + e ->
      forall s', binary_round_aux prec32 emax32 s (Z.pos m) e loc_Exact <> S754_zero s').
Proof.
  intros He. unfold binary_round_aux.
  destruct (shr_fexp_spec (Z.pos m) e ltac:(lia)) as (mrs1 & E1 & Hm1).
  rewrite E1. rewrite Zdigits2_pos in *.
  pose proof (digits_bounds m) as Hd.
  set (d := Z.pos (digits2_pos m)) in *.
  assert (Hd0 : 0 < d) by (subst d; lia).
  set (f := fexp32 (d + e)) in *.
  assert (Hf : f = Z.max (d + e - 24) (-149)) by (subst f; apply fexp32_eq).
  replace (Z.max e f) with f in * by lia.
  set (m1 := shr_m mrs1) in *.
  destruct (round_nearest_even_cases m1 (loc_of_shr_record mrs1)) as [R|R]; rewrite R; clear R.
  all: destruct (Z_lt_le_dec (f - e) d) as [Hn|Hn].
  all: try (pose proof (div_pow2_bounds (Z.pos m) d (f - e) Hd ltac:(lia)) as Hb;
            rewrite <- Hm1 in Hb).
  all: try (pose proof (div_pow2_small (Z.pos m) d (f - e) ltac:(lia) Hn) as Hb;
            rewrite <- Hm1 in Hb).
  - (* no increment, mantissa not lost *)
    assert (Hpos : 0 < m1).
    { destruct Hb as [Hb _]. pose proof (Z.pow_pos_nonneg 2 (d - (f - e) - 1) ltac:(lia) ltac:(lia)). lia. }
    destruct m1 as [|q|q] eqn:Hq; try lia.
    destruct (shr_fexp_spec (Z.pos q) f ltac:(lia)) as (mrs2 & E2 & Hm2).
    rewrite E2. rewrite Zdigits2_pos in *.
    pose proof (digits_unique q (d - (f - e)) Hb) as Hdq. rewrite Hdq in *.
    assert (Hf2 : fexp32 (d - (f - e) + f) = f).
    { rewrite fexp32_eq. lia. }
    rewrite Hf2 in *. replace (Z.max f f) with f in * by lia.
    replace (f - f) with 0 in Hm2 by lia. rewrite Z.pow_0_r, Z.div_1_r in Hm2.
    rewrite Hm2. change (emax32 - prec32) with 104.
    split.
    + destruct (f <=? 104) eqn:Hle; cbn [rounding_result]; [|reflexivity].
      apply Z.leb_le in Hle. rewrite Hdq. repeat split; try lia; try exact Hf2.
    + intros _ s'. destruct (f <=? 104); discriminate.
  - (* no increment, mantissa lost *)
    subst m1. rewrite Hb.
    destruct (shr_fexp_spec 0 f ltac:(lia)) as (mrs2 & E2 & Hm2).
    rewrite E2. rewrite Hm2. rewrite Z.div_0_l by (apply Z.pow_nonzero; [lia|]; cbn [Zdigits2]; rewrite fexp32_eq; lia).
    split; [reflexivity|]. intros Hlow. lia.
  - (* increment, mantissa not lost *)
    assert (Hpos : 0 < m1).
    { destruct Hb as [Hb _]. pose proof (Z.pow_pos_nonneg 2 (d - (f - e) - 1) ltac:(lia) ltac:(lia)). lia. }
    destruct (m1 + 1) as [|q|q] eqn:Hq; try lia.
    destruct (shr_fexp_spec (Z.pos q) f ltac:(lia)) as (mrs2 & E2 & Hm2).
    rewrite E2. rewrite Zdigits2_pos in *.
    set (d1 := d - (f - e)) in *.
    assert (Hd1 : 1 <= d1 <= 24) by (subst d1; lia).
    assert (Hf1 : f = Z.max (d1 + f - 24) (-149)) by (subst d1; lia).
    destruct (Z_lt_le_dec (Z.pos q) (2 ^ d1)) as [Hlt|Hge].
    + (* same number of digits *)
      assert (Hdq : Z.pos (digits2_pos q) = d1) by (apply digits_unique; lia).
      rewrite Hdq in *.
      assert (Hf2 : fexp32 (d1 + f) = f) by (rewrite fexp32_eq; lia).
      rewrite Hf2 in *. replace (Z.max f f) with f in * by lia.
      replace (f - f) with 0 in Hm2 by lia. rewrite Z.pow_0_r, Z.div_1_r in Hm2.
      rewrite Hm2. change (emax32 - prec32) with 104.
      split.
      * destruct (f <=? 104) eqn:Hle; cbn [rounding_result]; [|reflexivity].
        apply Z.leb_le in Hle. rewrite Hdq. repeat split; try lia; try exact Hf2.
      * intros _ s'. destruct (f <=? 104); discriminate.
    + (* the mantissa became 2^d1 *)
      assert (Hq2 : Z.pos q = 2 ^ d1) by lia.
      assert (Hdq : Z.pos (digits2_pos q) = d1 + 1).
      { apply digits_unique. replace (d1 + 1 - 1) with d1 by lia. rewrite Hq2.
        split; [lia|]. apply Z.pow_lt_mono_r; lia. }
      rewrite Hdq in *.
      destruct (Z.eq_dec d1 24) as [H24|H24].
      * assert (Hf2 : fexp32 (d1 + 1 + f) = f + 1) by (rewrite fexp32_eq; lia).
        rewrite Hf2 in *. replace (Z.max f (f + 1)) with (f + 1) in * by lia.
        replace (f + 1 - f) with 1 in Hm2 by lia.
        rewrite Hq2, H24 in Hm2. change (2 ^ 24 / 2 ^ 1) with (Z.pos (2 ^ 23)) in Hm2.
        rewrite Hm2. change (emax32 - prec32) with 104.
        split.
        -- destruct (f + 1 <=? 104) eqn:Hle; cbn [rounding_result]; [|reflexivity].
           apply Z.leb_le in Hle.
           change (Z.pos (digits2_pos (2 ^ 23))) with 24.
           repeat split; try lia; try (rewrite fexp32_eq; lia).
        -- intros _ s'. destruct (f + 1 <=? 104); discriminate.
      * assert (Hf2 : fexp32 (d1 + 1 + f) = f) by (rewrite fexp32_eq; lia).
        rewrite Hf2 in *. replace (Z.max f f) with f in * by lia.
        replace (f - f) with 0 in Hm2 by lia. rewrite Z.pow_0_r, Z.div_1_r in Hm2.
        rewrite Hm2. change (emax32 - prec32) with 104.
        split.
        -- destruct (f <=? 104) eqn:Hle; cbn [rounding_result]; [|reflexivity].
           apply Z.leb_le in Hle. rewrite Hdq. repeat split; try lia; try exact Hf2.
        -- intros _ s'. destruct (f <=? 104); discriminate.
  - (* increment of a lost mantissa *)
    subst m1. rewrite Hb. change (0 + 1) with 1.
    destruct (shr_fexp_spec 1 f ltac:(lia)) as (mrs2 & E2 & Hm2).
    rewrite E2. change (Zdigits2 1) with 1 in *.
    assert (Hf2 : fexp32 (1 + f) = f) by (rewrite fexp32_eq; lia).
    rewrite Hf2 in *. replace (Z.max f f) with f in * by lia.
    replace (f - f) with 0 in Hm2 by lia. rewrite Z.pow_0_r, Z.div_1_r in Hm2.
    rewrite Hm2. change (emax32 - prec32) with 104.
    split.
    + destruct (f <=? 104) eqn:Hle; cbn [rounding_result]; [|reflexivity].
      apply Z.leb_le in Hle. change (Z.pos (digits2_pos 1)) with 1.
      repeat split; try lia; try exact Hf2.
    + intros _ s'. destruct (f <=? 104); discriminate.
Qed.

Lemma iter_xO (m p : positive) : Z.pos (Pos.iter xO m p) = Z.pos m * 2 ^ Z.pos p.
Proof.
  induction p as [|p IH] using Pos.peano_ind.
  - cbn. lia.
  - rewrite Pos.iter_succ. change (Z.pos (Pos.iter xO m p)~0) with (2 * Z.pos (Pos.iter xO m p)).
    rewrite IH, Pos2Z.inj_succ, Z.pow_succ_r by lia. lia.
Qed.

Lemma digits_shift (m p : positive) :
  Z.pos (digits2_pos (Pos.iter xO m p)) = Z.pos (digits2_pos m) + Z.pos p.
Proof.
  apply digits_unique. rewrite iter_xO.
  destruct (digits_bounds m) as [Hlo Hhi].
  replace (Z.pos (digits2_pos m) + Z.pos p - 1) with (Z.pos (digits2_pos m) - 1 + Z.pos p) by lia.
  rewrite !pow2_split by lia.
  pose proof (Z.pow_pos_nonneg 2 (Z.pos p) ltac:(lia) ltac:(lia)).
  split; [apply Z.mul_le_mono_nonneg_r; lia | apply Z.mul_lt_mono_pos_r; lia].
Qed.

(** The same for [binary_round], which first shifts the mantissa left to
    the canonical exponent. *)
Lemma binary_round_spec (s : bool) (m : positive) (e : Z) :
  rounding_result s (fexp32 (Z.pos (digits2_pos m) + e)) (binary_round prec32 emax32 s m e)
  /\ (-149 < Z.pos (digits2_pos m) + e ->
      forall s', binary_round prec32 emax32 s m e <> S754_zero s').
Proof.
  unfold binary_round, shl_align. fold (fexp32 (Z.pos (digits2_pos m) + e)).
  set (f := fexp32 (Z.pos (digits2_pos m) + e)).
  destruct (f - e) as [|p|p] eqn:Hn.
  - apply binary_round_aux_spec. fold f. lia.
  - apply binary_round_aux_spec. fold f. lia.
  - pose proof (binary_round_aux_spec s (Pos.iter xO m p) f) as H.
    rewrite digits_shift in H.
    replace (Z.pos (digits2_pos m) + Z.pos p + f) with (Z.pos (digits2_pos m) + e) in H by lia.
    fold f in H. apply H. lia.
Qed.

(** The sum of two aligned mantissas, rounded. *)
Lemma binary_normalize_spec (m e : Z) :
  -149 <= e ->
  match binary_normalize prec32 emax32 m e false with
  | S754_zero s => m = 0 /\ s = false
  | S754_infinity _ => True
  | S754_nan => False
  | S754_finite s m' e' =>
      s = (m <? 0) /\ fexp32 (Z.pos (digits2_pos m') + e') = e' /\ e - 23 <= e' <= 104
  end.
Proof.
  intros He. unfold binary_normalize. destruct m as [|p|p].
  - split; reflexivity.
  - destruct (binary_round_spec false p e) as [H1 H2].
    assert (Hlow : -149 < Z.pos (digits2_pos p) + e) by lia. specialize (H2 Hlow).
    destruct (binary_round prec32 emax32 false p e) as [s'|s'|  |s' m' e']; cbn [rounding_result] in H1;
      try exact I; try contradiction.
    + exfalso. exact (H2 s' eq_refl).
    + destruct H1 as (-> & Hc & Hhi & Hlo). rewrite fexp32_eq in Hlo.
      repeat split; try assumption; try lia.
  - destruct (binary_round_spec true p e) as [H1 H2].
    assert (Hlow : -149 < Z.pos (digits2_pos p) + e) by lia. specialize (H2 Hlow).
    destruct (binary_round prec32 emax32 true p e) as [s'|s'|  |s' m' e']; cbn [rounding_result] in H1;
      try exact I; try contradiction.
    + exfalso. exact (H2 s' eq_refl).
    + destruct H1 as (-> & Hc & Hhi & Hlo). rewrite fexp32_eq in Hlo.
      repeat split; try assumption; try lia.
Qed.

Lemma valid_above_weaken (k k' : Z) (x : float) : k' <= k -> valid_above k x -> valid_above k' x.
Proof. intros Hk. destruct x; cbn [valid_above]; try tauto. intros (Hc & Hlo). split; [exact Hc|lia]. Qed.

Lemma valid_above_exponent (k : Z) s m e : valid_above k (S754_finite s m e) -> -149 <= e.
Proof. cbn [valid_above]. intros [Hc _]. rewrite fexp32_eq in Hc. lia. Qed.

Lemma valid_above_normal (k : Z) s m e :
  valid_above k (S754_finite s m e) -> -149 < k -> Z.pos (digits2_pos m) = 24.
Proof. cbn [valid_above]. intros [Hc Hk] Hlow. rewrite fexp32_eq in Hc. lia. Qed.

(** Addition and subtraction. *)
Lemma float_add_valid (k : Z) (x y : float) :
  valid_above k x -> valid_above k y ->
  valid_above (k - 23) (float_add x y)
  /\ (float_add x y = S754_zero true -> x = S754_zero true /\ y = S754_zero true).
Proof.
  intros Hx Hy. unfold float_add.
  destruct x as [sx|sx| |sx mx ex], y as [sy|sy| |sy my ey]; cbn [SFadd]; try (split; [exact I|discriminate]).
  - destruct sx, sy; (split; [exact I|]); try discriminate. auto.
  - split; [apply (valid_above_weaken k); [lia|exact Hy] | discriminate].
  - destruct sx, sy; (split; [exact I|discriminate]).
  - split; [apply (valid_above_weaken k); [lia|exact Hx] | discriminate].
  - pose proof (valid_above_exponent _ _ _ _ Hx) as Hex. pose proof (valid_above_exponent _ _ _ _ Hy) as Hey.
    destruct Hx as [_ Hkx], Hy as [_ Hky].
    match goal with |- context [binary_normalize _ _ ?m ?e false] =>
      pose proof (binary_normalize_spec m e ltac:(lia)) as H;
      destruct (binary_normalize prec32 emax32 m e false) as [s|s| |s m' e']
    end.
    + destruct H as [_ ->]. split; [exact I|discriminate].
    + split; [exact I|discriminate].
    + contradiction.
    + destruct H as (_ & Hc & Hlo). split; [|discriminate]. split; [exact Hc|lia].
Qed.

Lemma float_sub_valid (k : Z) (x y : float) :
  valid_above k x -> valid_above k y ->
  valid_above (k - 23) (float_sub x y)
  /\ (float_sub x y = S754_zero true -> x = S754_zero true /\ y = S754_zero false).
Proof.
  intros Hx Hy. unfold float_sub.
  destruct x as [sx|sx| |sx mx ex], y as [sy|sy| |sy my ey]; cbn [SFsub]; try (split; [exact I|discriminate]).
  - destruct sx, sy; (split; [exact I|]); try discriminate. auto.
  - split; [|discriminate]. destruct Hy as [Hc Hk]. split; [exact Hc|lia].
  - destruct sx, sy; (split; [exact I|discriminate]).
  - split; [apply (valid_above_weaken k); [lia|exact Hx] | discriminate].
  - pose proof (valid_above_exponent _ _ _ _ Hx) as Hex. pose proof (valid_above_exponent _ _ _ _ Hy) as Hey.
    destruct Hx as [_ Hkx], Hy as [_ Hky].
    match goal with |- context [binary_normalize _ _ ?m ?e false] =>
      pose proof (binary_normalize_spec m e ltac:(lia)) as H;
      destruct (binary_normalize prec32 emax32 m e false) as [s|s| |s m' e']
    end.
    + destruct H as [_ ->]. split; [exact I|discriminate].
    + split; [exact I|discriminate].
    + contradiction.
    + destruct H as (_ & Hc & Hlo). split; [|discriminate]. split; [exact Hc|lia].
Qed.

(** Multiplication of two normal numbers whose product does not underflow. *)
Lemma float_mul_valid (k1 k2 : Z) (x y : float) :
  valid_above k1 x -> valid_above k2 y -> -149 < k1 -> -149 < k2 -> -149 <= k1 + k2 + 23 ->
  valid_above (k1 + k2 + 23) (float_mul x y)
  /\ (forall s, float_mul x y = S754_zero s ->
        (exists sx, x = S754_zero sx) \/ (exists sy, y = S754_zero sy)).
Proof.
  intros Hx Hy Hk1 Hk2 Hk. unfold float_mul.
  destruct x as [sx|sx| |sx mx ex], y as [sy|sy| |sy my ey]; cbn [SFmul];
    try (split; [exact I|]; intros s Hs; try discriminate; eauto).
  pose proof (valid_above_normal _ _ _ _ Hx Hk1) as Hdx. pose proof (valid_above_normal _ _ _ _ Hy Hk2) as Hdy.
  destruct Hx as [_ Hex], Hy as [_ Hey].
  pose proof (digits_bounds mx) as Bx. pose proof (digits_bounds my) as By.
  rewrite Hdx in Bx. rewrite Hdy in By.
  pose proof (digits_bounds (mx * my)) as Bxy.
  set (d := Z.pos (digits2_pos (mx * my))) in *.
  assert (Hd : 47 <= d).
  { destruct (Z_lt_le_dec d 47) as [Hlt|Hge]; [exfalso|exact Hge].
    pose proof (Z.pow_le_mono_r 2 d 46 ltac:(lia) ltac:(lia)) as Hpow.
    rewrite Pos2Z.inj_mul in Bxy.
    change (2 ^ (24 - 1)) with (2 ^ 23) in *.
    assert (2 ^ 23 * 2 ^ 23 <= Z.pos mx * Z.pos my) by (apply Z.mul_le_mono_nonneg; lia).
    change (2 ^ 23 * 2 ^ 23) with (2 ^ 46) in *. lia. }
  destruct (binary_round_aux_spec (xorb sx sy) (mx * my) (ex + ey)) as [H1 H2].
  { fold d. rewrite fexp32_eq. lia. }
  fold d in H1, H2. specialize (H2 ltac:(lia)).
  destruct (binary_round_aux prec32 emax32 (xorb sx sy) (Z.pos (mx * my)) (ex + ey) loc_Exact)
    as [s'|s'| |s' m' e']; cbn [rounding_result] in H1.
  - exfalso. exact (H2 s' eq_refl).
  - split; [exact I|discriminate].
  - contradiction.
  - destruct H1 as (_ & Hc & Hhi & Hlo). rewrite fexp32_eq in Hlo.
    split; [|discriminate]. split; [exact Hc|lia].
Qed.

Lemma float_mul_positive_l (k1 k2 : Z) (mx : positive) (ex : Z) (y : float) :
  valid_above k1 (S754_finite false mx ex) -> valid_above k2 y ->
  -149 < k1 -> -149 < k2 -> -149 <= k1 + k2 + 23 ->
  float_mul (S754_finite false mx ex) y = S754_zero true -> y = S754_zero true.
Proof.
  intros Hx Hy Hk1 Hk2 Hk Hz.
  destruct (float_mul_valid k1 k2 _ _ Hx Hy Hk1 Hk2 Hk) as [_ H].
  destruct (H true Hz) as [[sx Hsx]|[sy ->]]; [discriminate|].
  cbn in Hz. congruence.
Qed.

Lemma float_mul_positive_r (k1 k2 : Z) (x : float) (my : positive) (ey : Z) :
  valid_above k1 x -> valid_above k2 (S754_finite false my ey) ->
  -149 < k1 -> -149 < k2 -> -149 <= k1 + k2 + 23 ->
  float_mul x (S754_finite false my ey) = S754_zero true -> x = S754_zero true.
Proof.
  intros Hx Hy Hk1 Hk2 Hk Hz.
  destruct (float_mul_valid k1 k2 _ _ Hx Hy Hk1 Hk2 Hk) as [_ H].
  destruct (H true Hz) as [[sx ->]|[sy Hsy]]; [|discriminate].
  cbn in Hz. destruct sx; [reflexivity|discriminate].
Qed.

(** Integer conversion. *)
Lemma float_of_Z_valid (z : Z) :
  128 <= z -> valid_above (-16) (float_of_Z z) /\ forall s, float_of_Z z <> S754_zero s.
Proof.
  intros Hz. unfold float_of_Z, binary_normalize. destruct z as [|p|p]; try lia.
  destruct (binary_round_spec false p 0) as [H1 H2].
  pose proof (digits_bounds p) as Bp.
  set (d := Z.pos (digits2_pos p)) in *.
  assert (Hd : 8 <= d).
  { destruct (Z_lt_le_dec d 8) as [Hlt|Hge]; [exfalso|exact Hge].
    pose proof (Z.pow_le_mono_r 2 d 7 ltac:(lia) ltac:(lia)) as Hpow.
    change (2 ^ 7) with 128 in Hpow. lia. }
  specialize (H2 ltac:(lia)). split; [|exact H2].
  destruct (binary_round prec32 emax32 false p 0) as [s'|s'| |s' m' e']; cbn [rounding_result] in H1;
    try exact I.
  destruct H1 as (_ & Hc & Hhi & Hlo). rewrite fexp32_eq in Hlo. split; [exact Hc|lia].
Qed.

(** The fields of an encoded word. *)
Lemma decode_fields (sgn : bool) (E M : Z) :
  0 <= E < 256 -> 0 <= M < 2 ^ 23 ->
  let w := sign_word sgn + E * 2 ^ 23 + M in
  Z.testbit w 31 = sgn
  /\ Z.shiftr (Z.land w F32_EXPONENT_MASK) F32_EXPONENT_SHIFT = E
  /\ Z.land w F32_MANTISSA_MASK = M.
Proof.
  intros HE HM w.
  assert (Hw : w = (if sgn then 1 else 0) * 2 ^ 31 + E * 2 ^ 23 + M).
  { subst w. destruct sgn; reflexivity. }
  change (2 ^ 23) with 8388608 in *. change (2 ^ 31) with 2147483648 in *.
  split; [|split].
  - rewrite Z.testbit_odd, Z.shiftr_div_pow2 by lia. change (2 ^ 31) with 2147483648.
    replace (w / 2147483648) with (if sgn then 1 else 0)
      by (apply Z.div_unique with (E * 8388608 + M); destruct sgn; lia).
    destruct sgn; reflexivity.
  - unfold F32_EXPONENT_MASK, F32_EXPONENT_SHIFT. rewrite Z.shiftr_land.
    change (Z.shiftr 0x7F800000 23) with (Z.ones 8).
    rewrite Z.land_ones, Z.shiftr_div_pow2 by lia.
    change (2 ^ 23) with 8388608. change (2 ^ 8) with 256.
    replace (w / 8388608) with ((if sgn then 1 else 0) * 256 + E)
      by (apply Z.div_unique with M; destruct sgn; lia).
    symmetry. apply Z.mod_unique with (if sgn then 1 else 0); destruct sgn; lia.
  - unfold F32_MANTISSA_MASK. change 0x007FFFFF with (Z.ones 23).
    rewrite Z.land_ones by lia. change (2 ^ 23) with 8388608.
    symmetry. apply Z.mod_unique with ((if sgn then 1 else 0) * 256 + E); destruct sgn; lia.
Qed.

(** Decoding the encoding of a number in canonical form gives it back. *)
Lemma decode_encode (k : Z) (r : float) :
  valid_above k r -> f32_to_native (f32_from_native r) = r.
Proof.
  intros Hr. destruct r as [s|s| |s m e].
  - destruct s; reflexivity.
  - destruct s; reflexivity.
  - reflexivity.
  - destruct Hr as [Hc [_ Hhi]]. rewrite fexp32_eq in Hc.
    pose proof (digits_bounds m) as Bm.
    set (d := Z.pos (digits2_pos m)) in *.
    assert (Hd : d <= 24) by lia.
    assert (Hm24 : Z.pos m < 2 ^ 24).
    { pose proof (Z.pow_le_mono_r 2 d 24 ltac:(lia) Hd). lia. }
    unfold f32_from_native, f32_to_native. cbn [bits].
    destruct (Z.pos m <? 2 ^ 23) eqn:Hsub.
    + apply Z.ltb_lt in Hsub.
      assert (He : e = -149).
      { destruct (Z.eq_dec d 24) as [H24|H24]; [|lia]. exfalso.
        rewrite H24 in Bm. change (2 ^ (24 - 1)) with (2 ^ 23) in Bm. lia. }
      destruct (decode_fields s 0 (Z.pos m) ltac:(lia) ltac:(lia)) as (Hs & HE & HM).
      cbv zeta in Hs, HE, HM. change (0 * 2 ^ 23) with 0 in Hs, HE, HM.
      rewrite Z.add_0_r in Hs, HE, HM. rewrite Hs, HE, HM.
      change (0 =? 0) with true. cbv iota.
      replace (Z.pos m =? 0) with false by (symmetry; apply Z.eqb_neq; lia).
      subst e. reflexivity.
    + apply Z.ltb_ge in Hsub.
      destruct (decode_fields s (e + 150) (Z.pos m - 2 ^ 23) ltac:(lia) ltac:(lia))
        as (Hs & HE & HM).
      cbv zeta in Hs, HE, HM. rewrite Hs, HE, HM.
      replace (e + 150 =? 0) with false by (symmetry; apply Z.eqb_neq; lia).
      replace (e + 150 =? 255) with false by (symmetry; apply Z.eqb_neq; lia).
      replace (Z.pos m - 2 ^ 23 + 2 ^ 23) with (Z.pos m) by lia.
      replace (e + 150 - 150) with e by lia. reflexivity.
Qed.


Lemma encode_valid (k : Z) (r : float) : valid_above k r -> f32_valid_above k (f32_from_native r).
Proof.
  intros Hr. unfold f32_valid_above. rewrite (decode_encode k r Hr). split; [reflexivity|exact Hr].
Qed.

Lemma f32_valid_weaken (k k' : Z) (t : f32) : k' <= k -> f32_valid_above k t -> f32_valid_above k' t.
Proof. intros Hk [He Hb]. split; [exact He|exact (valid_above_weaken k k' _ Hk Hb)]. Qed.

Lemma f32_from_i32_valid (z : Z) :
  128 <= z -> f32_valid_above (-16) (f32_from_i32 z) /\ not_negative_zero (f32_from_i32 z).
Proof.
  intros Hz. destruct (float_of_Z_valid z Hz) as [Hb Hnz]. unfold f32_from_i32.
  split; [exact (encode_valid _ _ Hb)|].
  unfold not_negative_zero. rewrite (decode_encode _ _ Hb). apply Hnz.
Qed.

(** The operations of math.h on valid words: the result is a valid word,
    with a bound on its exponent, and it is -0.0 only in the cases IEEE-754
    names. *)
Lemma f32_add_valid (k : Z) (a b : f32) :
  f32_valid_above k a -> f32_valid_above k b ->
  f32_valid_above (k - 23) (f32_add a b)
  /\ (not_negative_zero a \/ not_negative_zero b -> not_negative_zero (f32_add a b)).
Proof.
  intros [_ Ha] [_ Hb]. destruct (float_add_valid k _ _ Ha Hb) as [Hr Hz]. unfold f32_add.
  split; [exact (encode_valid _ _ Hr)|].
  unfold not_negative_zero. rewrite (decode_encode _ _ Hr). intros Hn Hzero.
  destruct (Hz Hzero) as [Hza Hzb]. destruct Hn as [Hn|Hn]; contradiction.
Qed.

Lemma f32_sub_valid (k : Z) (a b : f32) :
  f32_valid_above k a -> f32_valid_above k b ->
  f32_valid_above (k - 23) (f32_sub a b)
  /\ (not_negative_zero a -> not_negative_zero (f32_sub a b)).
Proof.
  intros [_ Ha] [_ Hb]. destruct (float_sub_valid k _ _ Ha Hb) as [Hr Hz]. unfold f32_sub.
  split; [exact (encode_valid _ _ Hr)|].
  unfold not_negative_zero. rewrite (decode_encode _ _ Hr). intros Hn Hzero.
  destruct (Hz Hzero) as [Hza Hzb]. contradiction.
Qed.

Lemma f32_mul_valid (k1 k2 : Z) (a b : f32) :
  f32_valid_above k1 a -> f32_valid_above k2 b -> -149 < k1 -> -149 < k2 -> -149 <= k1 + k2 + 23 ->
  f32_valid_above (k1 + k2 + 23) (f32_mul a b)
  /\ (forall m e, f32_to_native a = S754_finite false m e ->
        not_negative_zero b -> not_negative_zero (f32_mul a b))
  /\ (forall m e, f32_to_native b = S754_finite false m e ->
        not_negative_zero a -> not_negative_zero (f32_mul a b)).
Proof.
  intros [_ Ha] [_ Hb] Hk1 Hk2 Hk.
  destruct (float_mul_valid k1 k2 _ _ Ha Hb Hk1 Hk2 Hk) as [Hr _]. unfold f32_mul.
  split; [exact (encode_valid _ _ Hr)|].
  unfold not_negative_zero. rewrite (decode_encode _ _ Hr). split.
  - intros m e Hpos Hn Hzero. apply Hn. rewrite Hpos in Ha, Hzero.
    exact (float_mul_positive_l k1 k2 m e _ Ha Hb Hk1 Hk2 Hk Hzero).
  - intros m e Hpos Hn Hzero. apply Hn. rewrite Hpos in Hb, Hzero.
    exact (float_mul_positive_r k1 k2 _ m e Ha Hb Hk1 Hk2 Hk Hzero).
Qed.

(** The comparison of the code and the comparison of the numbers agree on
    every word but -0.0. *)
Lemma f32_ge_zero (k : Z) (t : f32) :
  f32_valid_above k t -> not_negative_zero t ->
  f32_ge t F32_ZERO = float_ge (f32_to_native t) (f32_to_native F32_ZERO).
Proof.
  intros [He _] Hn. unfold f32_ge, f32_gt, f32_eq, float_ge, float_gt, SFleb, SFltb.
  change (f32_to_native F32_ZERO) with (S754_zero false).
  assert (Hbits : bits t = 0 -> f32_to_native t = S754_zero false).
  { intros H0. destruct t as [w]. cbn [bits] in H0. subst w. reflexivity. }
  change (bits F32_ZERO) with 0.
  destruct (f32_to_native t) as [s|s| |s m e] eqn:Hnat.
  - destruct s; [contradiction|]. rewrite <- He. reflexivity.
  - cbn [SFcompare]. destruct s; cbn [orb]; [|reflexivity].
    destruct (Z.eqb_spec (bits t) 0) as [H0|H0]; [|reflexivity].
    specialize (Hbits H0). discriminate.
  - cbn [SFcompare orb].
    destruct (Z.eqb_spec (bits t) 0) as [H0|H0]; [|reflexivity].
    specialize (Hbits H0). discriminate.
  - cbn [SFcompare]. destruct s; cbn [orb]; [|reflexivity].
    destruct (Z.eqb_spec (bits t) 0) as [H0|H0]; [|reflexivity].
    specialize (Hbits H0). discriminate.
Qed.

(* ===================================================================== *)
(** ** Triangle fill and back-face culling (directDrm pipeline) *)
(* ===================================================================== *)

Section RasterProperties.
Import DirectDrm.

Lemma rasterize_pixel_obs width height v1 v2 v3 x y (fb : store Z) j :
  rasterize_pixel width height v1 v2 v3 x y fb j
  = if j =? pixel_index_of width x y
    then pixel_after width height v1 v2 v3 x y (fb j) else fb j.
Proof.
  unfold rasterize_pixel, pixel_after.
  destruct (shade_pixel v1 v2 v3 x y) as [c|].
  - destruct (pixel_index_of width x y <? wrap32 (width * height)).
    + unfold store_set. reflexivity.
    + destruct (j =? pixel_index_of width x y); reflexivity.
  - destruct (j =? pixel_index_of width x y); reflexivity.
Qed.

Lemma rasterize_triangle_raster (fb : store Z) width height v1 v2 v3 sx ex sy ey :
  bounding_box width height v1 v2 v3 = (sx, ex, sy, ey) ->
  rasterize_triangle fb width height v1 v2 v3
  = raster (rasterize_pixel width height v1 v2 v3) sx ex sy ey fb.
Proof. intros Hbox. unfold rasterize_triangle. rewrite Hbox. reflexivity. Qed.

(** Cells that are the index of no pixel of the bounding box are not written. *)
Lemma rasterize_triangle_frame (fb : store Z) width height v1 v2 v3 sx ex sy ey j :
  bounding_box width height v1 v2 v3 = (sx, ex, sy, ey) ->
  (forall x y, sx <= x <= ex /\ sy <= y <= ey -> pixel_index_of width x y <> j) ->
  rasterize_triangle fb width height v1 v2 v3 j = fb j.
Proof.
  intros Hbox Hno. rewrite (rasterize_triangle_raster _ _ _ _ _ _ _ _ _ _ Hbox).
  apply (raster_frame (fun (s : store Z) i => s i) (pixel_index_of width)
           (pixel_after width height v1 v2 v3) (rasterize_pixel width height v1 v2 v3)).
  - intros. apply rasterize_pixel_obs.
  - exact Hno.
Qed.

(** The pixel of a box inside the frame holds what the loop body computes
    for that very pixel. *)
Lemma rasterize_triangle_at (fb : store Z) width height v1 v2 v3 sx ex sy ey x y :
  bounding_box width height v1 v2 v3 = (sx, ex, sy, ey) ->
  width * height <= u32_modulus ->
  0 <= sx -> ex < width -> 0 <= sy -> ey < height ->
  sx <= x <= ex -> sy <= y <= ey ->
  rasterize_triangle fb width height v1 v2 v3 (pixel_index_of width x y)
  = pixel_after width height v1 v2 v3 x y (fb (pixel_index_of width x y)).
Proof.
  intros Hbox Hfit Hsx Hex Hsy Hey Hx Hy.
  rewrite (rasterize_triangle_raster _ _ _ _ _ _ _ _ _ _ Hbox).
  apply (raster_at (fun (s : store Z) i => s i) (pixel_index_of width)
           (pixel_after width height v1 v2 v3) (rasterize_pixel width height v1 v2 v3)).
  - intros. apply rasterize_pixel_obs.
  - split; assumption.
  - intros x' y' [Hx' Hy'] Heq. unfold pixel_index_of in Heq.
    apply (pixel_index_inj width height); try assumption; lia.
Qed.

(** *** The coverage triangle *)

Lemma coverage_box : bounding_box 800 600 coverage_v1 coverage_v2 coverage_v3
                     = (200, 600, 150, 450).
Proof. vm_compute. reflexivity. Qed.

Lemma coverage_not_degenerate :
  f32_le (f32_abs (barycentric_denom
                     (v3x (tv_position coverage_v1)) (v3y (tv_position coverage_v1))
                     (v3x (tv_position coverage_v2)) (v3y (tv_position coverage_v2))
                     (v3x (tv_position coverage_v3)) (v3y (tv_position coverage_v3))))
         (f32_from_float (f32_to_native degenerate_epsilon)) = false.
Proof. vm_compute. reflexivity. Qed.

Lemma coverage_index (x y : Z) :
  0 <= x < 800 -> 0 <= y < 600 ->
  pixel_index_of 800 x y = y * 800 + x /\ y * 800 + x < wrap32 (800 * 600).
Proof.
  intros Hx Hy. unfold pixel_index_of, wrap32, u32_modulus.
  rewrite Z.mod_small by lia. rewrite (Z.mod_small (800 * 600)) by lia. lia.
Qed.

Lemma coverage_raster_at (fb : store Z) (x y : Z) :
  200 <= x <= 600 -> 150 <= y <= 450 ->
  coverage_raster fb (y * 800 + x)
  = pixel_after 800 600 coverage_v1 coverage_v2 coverage_v3 x y (fb (y * 800 + x)).
Proof.
  intros Hx Hy.
  destruct (coverage_index x y) as [Hidx _]; [lia|lia|].
  rewrite <- Hidx. unfold coverage_raster.
  apply (rasterize_triangle_at fb 800 600 _ _ _ 200 600 150 450);
    try lia; [exact coverage_box | unfold u32_modulus; lia].
Qed.

(** The loop body on the coverage triangle, in terms of the weights. *)
Lemma coverage_shade (x y : Z) :
  shade_pixel coverage_v1 coverage_v2 coverage_v3 x y
  = let '(u, v, w) := coverage_weights x y in
    if f32_ge u F32_ZERO && f32_ge v F32_ZERO && f32_ge w F32_ZERO
    then Some (pack_color (interpolate_triangle_color RGB_RED RGB_GREEN RGB_BLUE u v w))
    else None.
Proof.
  unfold shade_pixel, point_in_triangle_barycentric.
  rewrite coverage_not_degenerate. unfold coverage_weights.
  destruct (barycentric_weights _ _ _ _ _ _ _ _) as [[u v] w].
  destruct (f32_ge u F32_ZERO && f32_ge v F32_ZERO && f32_ge w F32_ZERO); reflexivity.
Qed.

(** *** No weight of the coverage triangle is -0.0 *)

Ltac valid_literal :=
  match goal with
  | |- f32_valid_above ?k ?c =>
      let r := eval vm_compute in (f32_to_native c) in
      let Hr := fresh "Hr" in
      assert (Hr : f32_to_native c = r) by (vm_compute; reflexivity);
      split; [vm_compute; reflexivity | rewrite Hr; cbn [valid_above]; split; [reflexivity|lia]]
  end.

Ltac positive_literal :=
  match goal with
  | |- exists m e, f32_to_native ?c = S754_finite false m e =>
      let r := eval vm_compute in (f32_to_native c) in
      match r with
      | S754_finite false ?m ?e => exists m, e; vm_compute; reflexivity
      end
  end.

(** For every pixel of the bounding box the three weights are valid words
    and none is -0.0: the exponents stay far above the underflow threshold
    through the whole computation, so that a zero is always an exact zero,
    and the zeros of the computation are +0.0. *)
Lemma coverage_weights_valid (x y : Z) :
  200 <= x <= 600 -> 150 <= y <= 450 ->
  let '(u, v, w) := coverage_weights x y in
  (f32_valid_above (-149) u /\ not_negative_zero u)
  /\ (f32_valid_above (-149) v /\ not_negative_zero v)
  /\ (f32_valid_above (-149) w /\ not_negative_zero w).
Proof.
  intros Hx Hy. unfold coverage_weights, barycentric_weights.
  destruct (f32_from_i32_valid x ltac:(lia)) as [Fpx Npx].
  destruct (f32_from_i32_valid y ltac:(lia)) as [Fpy Npy].
  set (px := f32_from_i32 x) in *. set (py := f32_from_i32 y) in *.
  set (x1 := v3x (tv_position coverage_v1)). set (y1 := v3y (tv_position coverage_v1)).
  set (x2 := v3x (tv_position coverage_v2)). set (y2 := v3y (tv_position coverage_v2)).
  set (x3 := v3x (tv_position coverage_v3)). set (y3 := v3y (tv_position coverage_v3)).
  set (v0x := f32_sub x3 x1). set (v0y := f32_sub y3 y1).
  set (v1x := f32_sub x2 x1). set (v1y := f32_sub y2 y1).
  set (dot00 := f32_add (f32_mul v0x v0x) (f32_mul v0y v0y)).
  set (dot01 := f32_add (f32_mul v0x v1x) (f32_mul v0y v1y)).
  set (dot11 := f32_add (f32_mul v1x v1x) (f32_mul v1y v1y)).
  set (inv_denom := f32_div F32_ONE (f32_sub (f32_mul dot00 dot11) (f32_mul dot01 dot01))).
  cbv zeta.
  assert (Fx1 : f32_valid_above (-16) x1) by valid_literal.
  assert (Fy1 : f32_valid_above (-16) y1) by valid_literal.
  assert (Fv0x : f32_valid_above (-16) v0x) by valid_literal.
  assert (Fv0y : f32_valid_above (-16) v0y) by valid_literal.
  assert (Fv1x : f32_valid_above (-16) v1x) by valid_literal.
  assert (Fv1y : f32_valid_above (-16) v1y) by valid_literal.
  assert (F00 : f32_valid_above (-8) dot00) by valid_literal.
  assert (F01 : f32_valid_above (-8) dot01) by valid_literal.
  assert (F11 : f32_valid_above (-8) dot11) by valid_literal.
  assert (Finv : f32_valid_above (-57) inv_denom) by valid_literal.
  assert (Fone : f32_valid_above (-120) F32_ONE) by valid_literal.
  assert (None : not_negative_zero F32_ONE) by (vm_compute; discriminate).
  assert (Pv0y : exists m e, f32_to_native v0y = S754_finite false m e) by positive_literal.
  assert (Pv1y : exists m e, f32_to_native v1y = S754_finite false m e) by positive_literal.
  assert (P00 : exists m e, f32_to_native dot00 = S754_finite false m e) by positive_literal.
  assert (P11 : exists m e, f32_to_native dot11 = S754_finite false m e) by positive_literal.
  assert (Pinv : exists m e, f32_to_native inv_denom = S754_finite false m e)
    by positive_literal.
  destruct Pv0y as (? & ? & Pv0y), Pv1y as (? & ? & Pv1y), P00 as (? & ? & P00),
    P11 as (? & ? & P11), Pinv as (? & ? & Pinv).
  set (v2x := f32_sub px x1). set (v2y := f32_sub py y1).
  assert (Fv2x : f32_valid_above (-39) v2x) by exact (proj1 (f32_sub_valid (-16) px x1 Fpx Fx1)).
  assert (Fv2y : f32_valid_above (-39) v2y) by exact (proj1 (f32_sub_valid (-16) py y1 Fpy Fy1)).
  assert (Nv2y : not_negative_zero v2y)
    by exact (proj2 (f32_sub_valid (-16) py y1 Fpy Fy1) Npy).
  (* the four products of the two dot products *)
  set (A0 := f32_mul v0x v2x). set (B0 := f32_mul v0y v2y).
  set (A1 := f32_mul v1x v2x). set (B1 := f32_mul v1y v2y).
  pose proof (f32_mul_valid (-16) (-39) v0x v2x Fv0x Fv2x ltac:(lia) ltac:(lia) ltac:(lia))
    as [FA0 _].
  pose proof (f32_mul_valid (-16) (-39) v0y v2y Fv0y Fv2y ltac:(lia) ltac:(lia) ltac:(lia))
    as (FB0 & NB0 & _).
  specialize (NB0 _ _ Pv0y Nv2y).
  pose proof (f32_mul_valid (-16) (-39) v1x v2x Fv1x Fv2x ltac:(lia) ltac:(lia) ltac:(lia))
    as [FA1 _].
  pose proof (f32_mul_valid (-16) (-39) v1y v2y Fv1y Fv2y ltac:(lia) ltac:(lia) ltac:(lia))
    as (FB1 & NB1 & _).
  specialize (NB1 _ _ Pv1y Nv2y).
  fold A0 in FA0. fold B0 in FB0, NB0. fold A1 in FA1. fold B1 in FB1, NB1.
  change (-16 + -39 + 23) with (-32) in *.
  (* the dot products *)
  set (dot02 := f32_add A0 B0). set (dot12 := f32_add A1 B1).
  pose proof (f32_add_valid (-32) A0 B0 FA0 FB0) as [F02 N02].
  specialize (N02 (or_intror NB0)).
  pose proof (f32_add_valid (-32) A1 B1 FA1 FB1) as [F12 N12].
  specialize (N12 (or_intror NB1)).
  fold dot02 in F02, N02. fold dot12 in F12, N12.
  change (-32 - 23) with (-55) in *.
  (* the numerators *)
  set (a_u := f32_mul dot11 dot02). set (b_u := f32_mul dot01 dot12).
  set (a_v := f32_mul dot00 dot12). set (b_v := f32_mul dot01 dot02).
  pose proof (f32_mul_valid (-8) (-55) dot11 dot02 F11 F02 ltac:(lia) ltac:(lia) ltac:(lia))
    as (Fau & Nau & _).
  specialize (Nau _ _ P11 N02).
  pose proof (f32_mul_valid (-8) (-55) dot01 dot12 F01 F12 ltac:(lia) ltac:(lia) ltac:(lia))
    as [Fbu _].
  pose proof (f32_mul_valid (-8) (-55) dot00 dot12 F00 F12 ltac:(lia) ltac:(lia) ltac:(lia))
    as (Fav & Nav & _).
  specialize (Nav _ _ P00 N12).
  pose proof (f32_mul_valid (-8) (-55) dot01 dot02 F01 F02 ltac:(lia) ltac:(lia) ltac:(lia))
    as [Fbv _].
  fold a_u in Fau, Nau. fold b_u in Fbu. fold a_v in Fav, Nav. fold b_v in Fbv.
  change (-8 + -55 + 23) with (-40) in *.
  set (n_u := f32_sub a_u b_u). set (n_v := f32_sub a_v b_v).
  pose proof (f32_sub_valid (-40) a_u b_u Fau Fbu) as [Fnu Nnu]. specialize (Nnu Nau).
  pose proof (f32_sub_valid (-40) a_v b_v Fav Fbv) as [Fnv Nnv]. specialize (Nnv Nav).
  fold n_u in Fnu, Nnu. fold n_v in Fnv, Nnv.
  change (-40 - 23) with (-63) in *.
  (* the weights *)
  set (u := f32_mul n_u inv_denom). set (v := f32_mul n_v inv_denom).
  pose proof (f32_mul_valid (-63) (-57) n_u inv_denom Fnu Finv ltac:(lia) ltac:(lia) ltac:(lia))
    as (Fu & _ & Nu).
  specialize (Nu _ _ Pinv Nnu).
  pose proof (f32_mul_valid (-63) (-57) n_v inv_denom Fnv Finv ltac:(lia) ltac:(lia) ltac:(lia))
    as (Fv & _ & Nv).
  specialize (Nv _ _ Pinv Nnv).
  fold u in Fu, Nu. fold v in Fv, Nv.
  change (-63 + -57 + 23) with (-97) in *.
  pose proof (f32_add_valid (-97) u v Fu Fv) as [Fs _].
  pose proof (f32_sub_valid (-120) F32_ONE (f32_add u v) Fone Fs) as [Fw Nw].
  specialize (Nw None).
  split; [|split]; (split; [|assumption]).
  - exact (f32_valid_weaken (-97) (-149) u ltac:(lia) Fu).
  - exact (f32_valid_weaken (-97) (-149) v ltac:(lia) Fv).
  - exact (f32_valid_weaken (-120 - 23) (-149) _ ltac:(lia) Fw).
Qed.

(** C5.  On an 800x600 framebuffer, rasterizing the triangle (400,150) red,
    (200,450) green, (600,450) blue
    - writes to the centroid pixel (400,350) the blend u*blue + v*green +
      w*red of the three vertex colors in which each weight is one third up
      to the rounding of binary32 (less than 2^-24 away from 1/3), so that
      alpha is 0xFF and each color channel is within one unit of 255/3 = 85;
    - leaves every pixel of the frame outside the bounding box
      [200,600] x [150,450] as it was, and so every word of the framebuffer
      memory that is not a pixel of the box;
    - covers a pixel of the box exactly when all three of its barycentric
      weights are >= 0 as numbers, writes the interpolated color to the
      covered pixels and leaves the others as they were.  No weight of a
      pixel of the box is -0.0, the one value on which [f32_ge], the
      comparison the code uses, differs from >=. *)
Theorem rasterizer_coverage (fb : store Z) :
  (let '(u, v, w) := coverage_weights 400 350 in
   let pixel := coverage_raster fb (350 * 800 + 400) in
   pixel = pack_color (interpolate_triangle_color RGB_RED RGB_GREEN RGB_BLUE u v w)
   /\ about_a_third u /\ about_a_third v /\ about_a_third w
   /\ Z.shiftr pixel 24 = 0xFF
   /\ Z.abs (red_of pixel - 85) <= 1
   /\ Z.abs (green_of pixel - 85) <= 1
   /\ Z.abs (blue_of pixel - 85) <= 1)
  /\ (forall x y, 0 <= x < 800 -> 0 <= y < 600 ->
        ~ (200 <= x <= 600 /\ 150 <= y <= 450) ->
        coverage_raster fb (y * 800 + x) = fb (y * 800 + x))
  /\ (forall j : Z,
        (forall x y, 200 <= x <= 600 -> 150 <= y <= 450 -> y * 800 + x <> j) ->
        coverage_raster fb j = fb j)
  /\ (forall x y, 200 <= x <= 600 -> 150 <= y <= 450 ->
        let '(u, v, w) := coverage_weights x y in
        (not_negative_zero u /\ not_negative_zero v /\ not_negative_zero w)
        /\ shade_pixel coverage_v1 coverage_v2 coverage_v3 x y
           = (if weights_nonnegative u v w
              then Some (pack_color
                           (interpolate_triangle_color RGB_RED RGB_GREEN RGB_BLUE u v w))
              else None)
        /\ coverage_raster fb (y * 800 + x)
           = (if weights_nonnegative u v w
              then pack_color (interpolate_triangle_color RGB_RED RGB_GREEN RGB_BLUE u v w)
              else fb (y * 800 + x))).
Proof.
  split; [|split; [|split]].
  - assert (Hcw : coverage_weights 400 350
                  = (F32 0x3EAAAAAA, F32 0x3EAAAAAA, F32 0x3EAAAAAC))
      by (vm_compute; reflexivity).
    assert (Hpixel : coverage_raster fb (350 * 800 + 400) = 0xFF555454).
    { rewrite (coverage_raster_at fb 400 350) by lia.
      generalize (fb (350 * 800 + 400)). intros old. vm_compute. reflexivity. }
    rewrite Hcw. cbv beta iota zeta. rewrite Hpixel.
    split; [vm_compute; reflexivity|].
    split; [exists 11184810%positive; split; [vm_compute; reflexivity|lia]|].
    split; [exists 11184810%positive; split; [vm_compute; reflexivity|lia]|].
    split; [exists 11184812%positive; split; [vm_compute; reflexivity|lia]|].
    split; [reflexivity|].
    change (red_of 0xFF555454) with 85. change (green_of 0xFF555454) with 84.
    change (blue_of 0xFF555454) with 84. lia.
  - intros x y Hx Hy Hout. unfold coverage_raster.
    apply (rasterize_triangle_frame fb 800 600 _ _ _ 200 600 150 450);
      [exact coverage_box|].
    intros x' y' [Hx' Hy'] Heq.
    destruct (coverage_index x' y') as [Hidx _]; [lia|lia|].
    rewrite Hidx in Heq. apply Hout. split; nia.
  - intros j Hout. unfold coverage_raster.
    apply (rasterize_triangle_frame fb 800 600 _ _ _ 200 600 150 450);
      [exact coverage_box|].
    intros x' y' [Hx' Hy'] Heq.
    destruct (coverage_index x' y') as [Hidx _]; [lia|lia|].
    rewrite Hidx in Heq. exact (Hout x' y' Hx' Hy' Heq).
  - intros x y Hx Hy. rewrite (coverage_raster_at fb x y Hx Hy).
    unfold pixel_after. rewrite coverage_shade.
    pose proof (coverage_weights_valid x y Hx Hy) as Hvalid.
    destruct (coverage_weights x y) as [[u v] w].
    destruct Hvalid as ((Fu & Nu) & (Fv & Nv) & (Fw & Nw)).
    rewrite (f32_ge_zero _ u Fu Nu), (f32_ge_zero _ v Fv Nv), (f32_ge_zero _ w Fw Nw).
    fold (weights_nonnegative u v w).
    split; [auto|]. split; [reflexivity|].
    destruct (weights_nonnegative u v w); [|reflexivity].
    destruct (coverage_index x y) as [Hidx Hlt]; [lia|lia|].
    rewrite Hidx. apply Z.ltb_lt in Hlt. rewrite Hlt. reflexivity.
Qed.

Lemma rasterizer_coverage_witness :
  coverage_raster (fun _ => 0) (0 * 800 + 0) = 0
  /\ coverage_raster (fun _ => 0) (350 * 800 + 400) = 0xFF555454
  /\ coverage_raster (fun _ => 0) (150 * 800 + 200) = 0
  /\ coverage_raster (fun _ => 0) (150 * 800 + 400) = 0xFFFF0000.
Proof.
  destruct (rasterizer_coverage (fun _ => 0)) as (_ & Hout & _ & Hin).
  split; [|split; [|split]].
  - apply (Hout 0 0); lia.
  - pose proof (Hin 400 350 ltac:(lia) ltac:(lia)) as H. revert H.
    replace (coverage_weights 400 350)
      with (F32 0x3EAAAAAA, F32 0x3EAAAAAA, F32 0x3EAAAAAC) by (vm_compute; reflexivity).
    intros (_ & _ & H). rewrite H. vm_compute. reflexivity.
  - pose proof (Hin 200 150 ltac:(lia) ltac:(lia)) as H. revert H.
    replace (coverage_weights 200 150)
      with (F32 0xBF000000, F32 0x3F000000, F32 0x3F800000) by (vm_compute; reflexivity).
    intros (_ & _ & H). rewrite H. vm_compute. reflexivity.
  - pose proof (Hin 400 150 ltac:(lia) ltac:(lia)) as H. revert H.
    replace (coverage_weights 400 150)
      with (F32 0, F32 0, F32 0x3F800000) by (vm_compute; reflexivity).
    intros (_ & _ & H). rewrite H. vm_compute. reflexivity.
Defined.

(** For every triangle whose bounding box lies inside a frame that fits the
    index type, rasterization leaves the pixels of the frame outside the box
    as they were. *)
Theorem rasterizer_writes_only_inside_bounding_box
    (fb : store Z) (width height : Z) (v1 v2 v3 : TransformedVertex)
    (sx ex sy ey x y : Z) :
  bounding_box width height v1 v2 v3 = (sx, ex, sy, ey) ->
  width * height <= u32_modulus ->
  0 <= sx -> ex < width -> 0 <= sy -> ey < height ->
  0 <= x < width -> 0 <= y < height ->
  ~ (sx <= x <= ex /\ sy <= y <= ey) ->
  rasterize_triangle fb width height v1 v2 v3 (pixel_index_of width x y)
  = fb (pixel_index_of width x y).
Proof.
  intros Hbox Hfit Hsx Hex Hsy Hey Hx Hy Hout.
  apply (rasterize_triangle_frame fb width height v1 v2 v3 sx ex sy ey); [exact Hbox|].
  intros x' y' [Hx' Hy'] Heq. apply Hout.
  assert (E : x' = x /\ y' = y).
  { apply (pixel_index_inj width height); try assumption; lia. }
  destruct E as [<- <-]. split; assumption.
Qed.

Lemma rasterizer_writes_only_inside_bounding_box_witness :
  rasterize_triangle (fun _ => 7) 800 600 corner_v1 corner_v2 corner_v3
    (pixel_index_of 800 13 4) = 7.
Proof.
  apply (rasterizer_writes_only_inside_bounding_box (fun _ => 7) 800 600
           corner_v1 corner_v2 corner_v3 2 10 4 12 13 4);
    try lia; [vm_compute; reflexivity | unfold u32_modulus; lia].
Defined.

(** The coverage test is the code's [f32_ge], "greater, or the same bits":
    a weight of -0.0 is not below zero and still fails it.  At the first
    vertex of the counter-clockwise triangle (10,10), (2,12), (5,4) the
    weights are (-0.0, +0.0, 1.0), and the pixel is not written. *)
Theorem negative_zero_weight_is_not_covered (fb : store Z) :
  is_triangle_back_facing corner_v1 corner_v2 corner_v3 = false
  /\ barycentric_weights (f32_from_i32 10) (f32_from_i32 10)
       (v3x (tv_position corner_v1)) (v3y (tv_position corner_v1))
       (v3x (tv_position corner_v2)) (v3y (tv_position corner_v2))
       (v3x (tv_position corner_v3)) (v3y (tv_position corner_v3))
     = (F32 0x80000000, F32_ZERO, F32_ONE)
  /\ float_ge (f32_to_native (F32 0x80000000)) (f32_to_native F32_ZERO) = true
  /\ f32_ge (F32 0x80000000) F32_ZERO = false
  /\ shade_pixel corner_v1 corner_v2 corner_v3 10 10 = None
  /\ rasterize_triangle fb 800 600 corner_v1 corner_v2 corner_v3 (10 * 800 + 10)
     = fb (10 * 800 + 10).
Proof.
  do 5 (split; [vm_compute; reflexivity|]).
  change (10 * 800 + 10) with (pixel_index_of 800 10 10).
  rewrite (rasterize_triangle_at fb 800 600 _ _ _ 2 10 4 12 10 10);
    try lia; [| vm_compute; reflexivity | unfold u32_modulus; lia].
  unfold pixel_after.
  replace (shade_pixel corner_v1 corner_v2 corner_v3 10 10) with (@None Z)
    by (vm_compute; reflexivity).
  reflexivity.
Qed.

(** *** Back-face culling *)

(** A draw of the single triangle stored at vertices 0, 1 and 2. *)
Lemma render_single_triangle (fb : store Z) width height
    (vertices : store GibgoVertex) (mvp : Mat4f) (culling : b32) :
  render_3d_cube_software fb width height vertices mvp 3 0 culling
  = render_triangle fb width height mvp culling (vertices 0) (vertices 1) (vertices 2).
Proof. reflexivity. Qed.

(** C6.  For a triangle whose three vertices pass the transform, if the 2D
    cross product of the screen-space edges leaving the first vertex is
    negative (clockwise winding), then
    - with face culling enabled the triangle step of the draw loop, and a
      whole draw of that one triangle, leave the framebuffer untouched;
    - with face culling disabled they are the rasterization of the triangle;
    - pixel by pixel, when the bounding box lies inside the frame: a pixel
      of the box that passes the barycentric test holds the interpolated
      color after the draw with culling disabled and its old content after
      the draw with culling enabled, and a pixel of the box that fails the
      test keeps its content in both. *)
Theorem back_face_is_culled_only_when_enabled
    (fb : store Z) (width height : Z) (mvp : Mat4f) (v1 v2 v3 : GibgoVertex) :
  let tv1 := transform_vertex_to_screen v1 mvp width height in
  let tv2 := transform_vertex_to_screen v2 mvp width height in
  let tv3 := transform_vertex_to_screen v3 mvp width height in
  is_valid tv1 = true -> is_valid tv2 = true -> is_valid tv3 = true ->
  f32_lt (cross_product_z tv1 tv2 tv3) F32_ZERO = true ->
  (render_triangle fb width height mvp B32_TRUE v1 v2 v3 = fb
   /\ render_triangle fb width height mvp B32_FALSE v1 v2 v3
      = rasterize_triangle fb width height tv1 tv2 tv3)
  /\ (forall vertices : store GibgoVertex,
        vertices 0 = v1 -> vertices 1 = v2 -> vertices 2 = v3 ->
        render_3d_cube_software fb width height vertices mvp 3 0 B32_TRUE = fb
        /\ render_3d_cube_software fb width height vertices mvp 3 0 B32_FALSE
           = rasterize_triangle fb width height tv1 tv2 tv3)
  /\ (forall (vertices : store GibgoVertex) (sx ex sy ey x y : Z),
        vertices 0 = v1 -> vertices 1 = v2 -> vertices 2 = v3 ->
        bounding_box width height tv1 tv2 tv3 = (sx, ex, sy, ey) ->
        width * height < u32_modulus ->
        0 <= sx -> ex < width -> 0 <= sy -> ey < height ->
        sx <= x <= ex -> sy <= y <= ey ->
        let pixel_index := pixel_index_of width x y in
        let disabled :=
          render_3d_cube_software fb width height vertices mvp 3 0 B32_FALSE in
        let enabled :=
          render_3d_cube_software fb width height vertices mvp 3 0 B32_TRUE in
        enabled pixel_index = fb pixel_index
        /\ (forall final_color, shade_pixel tv1 tv2 tv3 x y = Some final_color ->
               disabled pixel_index = final_color)
        /\ (shade_pixel tv1 tv2 tv3 x y = None -> disabled pixel_index = fb pixel_index)).
Proof.
  intros tv1 tv2 tv3 H1 H2 H3 Hcw.
  assert (Hstep : render_triangle fb width height mvp B32_TRUE v1 v2 v3 = fb
                  /\ render_triangle fb width height mvp B32_FALSE v1 v2 v3
                     = rasterize_triangle fb width height tv1 tv2 tv3).
  { unfold render_triangle. fold tv1 tv2 tv3. rewrite H1, H2, H3.
    unfold is_triangle_back_facing. rewrite Hcw. split; reflexivity. }
  split; [exact Hstep|]. split.
  - intros vertices E0 E1 E2. rewrite !render_single_triangle, E0, E1, E2. exact Hstep.
  - intros vertices sx ex sy ey x y E0 E1 E2 Hbox Hfit Hsx Hex Hsy Hey Hx Hy
      pixel_index disabled enabled.
    subst disabled enabled. rewrite !render_single_triangle, E0, E1, E2.
    destruct Hstep as [-> ->]. split; [reflexivity|].
    unfold pixel_index.
    rewrite (rasterize_triangle_at fb width height tv1 tv2 tv3 sx ex sy ey x y)
      by (assumption || lia).
    unfold pixel_after.
    assert (Hin : (pixel_index_of width x y <? wrap32 (width * height)) = true).
    { apply Z.ltb_lt. unfold pixel_index_of, wrap32, u32_modulus in *.
      assert (Hidx : 0 <= y * width + x < width * height) by nia.
      rewrite (Z.mod_small (y * width + x)) by lia.
      rewrite (Z.mod_small (width * height)) by lia. lia. }
    split.
    + intros final_color ->. rewrite Hin. reflexivity.
    + intros ->. reflexivity.
Qed.

Lemma back_face_is_culled_only_when_enabled_witness :
  let fb : store Z := fun _ => 0 in
  let enabled :=
    render_3d_cube_software fb 800 600 clockwise_vertices mat4f_identity 3 0 B32_TRUE in
  let disabled :=
    render_3d_cube_software fb 800 600 clockwise_vertices mat4f_identity 3 0 B32_FALSE in
  enabled = fb
  /\ enabled (pixel_index_of 800 400 350) = 0
  /\ disabled (pixel_index_of 800 400 350) = 0xFF555454
  /\ disabled (pixel_index_of 800 200 150) = 0.
Proof.
  intros fb enabled disabled.
  destruct (back_face_is_culled_only_when_enabled fb 800 600 mat4f_identity
              (clockwise_vertices 0) (clockwise_vertices 1) (clockwise_vertices 2)
              ltac:(vm_compute; reflexivity) ltac:(vm_compute; reflexivity)
              ltac:(vm_compute; reflexivity) ltac:(vm_compute; reflexivity))
    as (_ & Hdraw & Hpixel).
  destruct (Hdraw clockwise_vertices eq_refl eq_refl eq_refl) as [Hculled _].
  destruct (Hpixel clockwise_vertices 200 600 150 450 400 350 eq_refl eq_refl eq_refl
              coverage_box ltac:(unfold u32_modulus; lia) ltac:(lia) ltac:(lia)
              ltac:(lia) ltac:(lia) ltac:(lia) ltac:(lia)) as (Hold & Hcovered & _).
  destruct (Hpixel clockwise_vertices 200 600 150 450 200 150 eq_refl eq_refl eq_refl
              coverage_box ltac:(unfold u32_modulus; lia) ltac:(lia) ltac:(lia)
              ltac:(lia) ltac:(lia) ltac:(lia) ltac:(lia)) as (_ & _ & Hmissed).
  split; [exact Hculled|]. split; [exact Hold|]. split.
  - apply Hcovered. vm_compute. reflexivity.
  - apply Hmissed. vm_compute. reflexivity.
Defined.

End RasterProperties.

(* ===================================================================== *)
(** ** Depth test (gibgoGraphics rasterizer) *)
(* ===================================================================== *)

(** The float comparison [<] is asymmetric. *)
Lemma float_lt_asym (a b : float) : float_lt a b = true -> float_lt b a = false.
Proof.
  unfold float_lt, SFltb, SFcompare.
  destruct a as [sa|sa| |sa ma ea], b as [sb|sb| |sb mb eb];
    try destruct sa; try destruct sb; try discriminate; try reflexivity.
  - rewrite (Z.compare_antisym ea eb).
    destruct (ea ?= eb) eqn:He; simpl; try discriminate; try reflexivity.
    change (Pos.compare_cont Eq) with Pos.compare.
    rewrite (Pos.compare_antisym ma mb).
    destruct (ma ?= mb)%positive; simpl; try discriminate; reflexivity.
  - rewrite (Z.compare_antisym ea eb).
    destruct (ea ?= eb) eqn:He; simpl; try discriminate; try reflexivity.
    change (Pos.compare_cont Eq) with Pos.compare.
    rewrite (Pos.compare_antisym ma mb).
    destruct (ma ?= mb)%positive; simpl; try discriminate; reflexivity.
Qed.

Section DepthProperties.
Import GibgoGraphics.

Lemma rasterize_pixel_cell width t x y s j :
  cell_of (rasterize_pixel width t x y s) j
  = if j =? pixel_index_of width x y then cell_after t x y (cell_of s j) else cell_of s j.
Proof.
  unfold rasterize_pixel, cell_after, cell_of.
  destruct (fragment t x y) as [[z pixel]|]; simpl.
  - destruct (Z.eqb_spec j (pixel_index_of width x y)) as [->|Hne].
    + destruct (float_lt z (depth_buffer s (pixel_index_of width x y))); simpl;
        [now rewrite !store_set_eq | reflexivity].
    + destruct (float_lt z (depth_buffer s (pixel_index_of width x y))); simpl;
        [now rewrite !store_set_ne by assumption | reflexivity].
  - destruct (j =? pixel_index_of width x y); reflexivity.
Qed.

(** One triangle: the cell of a visited pixel is updated by the depth test
    of that pixel alone. *)
Lemma rasterize_screen_triangle_at (s : Targets) width height t x y :
  width * height <= u32_modulus ->
  visits width height t x y ->
  cell_of (rasterize_screen_triangle s width height t) (pixel_index_of width x y)
  = cell_after t x y (cell_of s (pixel_index_of width x y)).
Proof.
  intros Hfit Hvis. unfold visits in Hvis. unfold rasterize_screen_triangle.
  destruct (bounding_box width height t) as [[[min_x max_x] min_y] max_y].
  destruct Hvis as [(Hx0 & Hx & Hx1) (Hy0 & Hy & Hy1)].
  apply (raster_at cell_of (pixel_index_of width) (cell_after t) (rasterize_pixel width t)).
  - intros. apply rasterize_pixel_cell.
  - split; assumption.
  - intros x' y' [Hx' Hy'] Heq. unfold pixel_index_of in Heq.
    apply (pixel_index_inj width height); try assumption; lia.
Qed.

(** C4.  Two triangles cover pixel (x, y); the nearer one has the smaller
    interpolated depth there, and that depth passes against the stored one.
    Drawn far-then-near or near-then-far, the pixel ends with the color and
    the depth of the nearer triangle: a pixel is written only when its depth
    is smaller than the stored depth, which the write replaces. *)
Theorem depth_test_keeps_nearer_triangle
    (s : Targets) (width height : Z)
    (n0 n1 n2 f0 f1 f2 : CubeVertex) (model view projection : Mat4f)
    (x y : Z) (z_near z_far : float) (c_near c_far : Z) :
  let near := to_screen width height n0 n1 n2 model view projection in
  let far := to_screen width height f0 f1 f2 model view projection in
  let pixel_index := pixel_index_of width x y in
  width * height <= u32_modulus ->
  visits width height near x y ->
  visits width height far x y ->
  fragment near x y = Some (z_near, c_near) ->
  fragment far x y = Some (z_far, c_far) ->
  float_lt z_near z_far = true ->
  float_lt z_near (depth_buffer s pixel_index) = true ->
  let far_then_near :=
    rasterize_triangle
      (rasterize_triangle s width height f0 f1 f2 model view projection)
      width height n0 n1 n2 model view projection in
  let near_then_far :=
    rasterize_triangle
      (rasterize_triangle s width height n0 n1 n2 model view projection)
      width height f0 f1 f2 model view projection in
  cell_of far_then_near pixel_index = (c_near, z_near)
  /\ cell_of near_then_far pixel_index = (c_near, z_near).
Proof.
  intros near far pixel_index Hfit Hvn Hvf Hn Hf Hlt Hpass far_then_near near_then_far.
  subst far_then_near near_then_far. unfold rasterize_triangle.
  fold near far. subst pixel_index.
  rewrite !rasterize_screen_triangle_at by assumption.
  unfold cell_after. rewrite Hn, Hf. unfold cell_of at 1 2. simpl snd.
  rewrite Hpass. simpl snd.
  rewrite (float_lt_asym _ _ Hlt).
  destruct (float_lt z_far (depth_buffer s (pixel_index_of width x y))); simpl snd.
  - rewrite Hlt. split; reflexivity.
  - rewrite Hpass. split; reflexivity.
Qed.

Lemma depth_of_cell (s : Targets) (i : Z) : depth_buffer s i = snd (cell_of s i).
Proof. reflexivity. Qed.

(** After the clear loop every pixel of the frame is background at far depth. *)
Lemma clear_targets_at (s : Targets) (width height i : Z) :
  0 <= i < wrap32 (width * height) ->
  cell_of (clear_targets s width height) i = (0xFF000033, float_1000).
Proof.
  intros Hi. unfold clear_targets, for_range.
  apply (fold_at cell_of
           (fun i acc => mkTargets (store_set (framebuffer acc) i 0xFF000033)
                                   (store_set (depth_buffer acc) i float_1000))
           (fun i j => i = j)
           ltac:(intros c s' j Hne; unfold cell_of; simpl;
                 rewrite !store_set_ne by congruence; reflexivity)
           _ i i (fun _ => (0xFF000033, float_1000))).
  - apply NoDup_zrange.
  - apply in_zrange. lia.
  - intros c' _ Hne. exact Hne.
  - intros s'. unfold cell_of. simpl. now rewrite !store_set_eq.
Qed.

Lemma depth_test_keeps_nearer_triangle_witness :
  let pixel_index := pixel_index_of 800 400 300 in
  let far_then_near :=
    rasterize_triangle
      (rasterize_triangle cleared_targets 800 600 far_v0 far_v1 far_v2
         mat4f_identity mat4f_identity mat4f_identity)
      800 600 near_v0 near_v1 near_v2 mat4f_identity mat4f_identity mat4f_identity in
  let near_then_far :=
    rasterize_triangle
      (rasterize_triangle cleared_targets 800 600 near_v0 near_v1 near_v2
         mat4f_identity mat4f_identity mat4f_identity)
      800 600 far_v0 far_v1 far_v2 mat4f_identity mat4f_identity mat4f_identity in
  cell_of far_then_near pixel_index = (0xFF00FF00, f32_to_native f32_0_2)
  /\ cell_of near_then_far pixel_index = (0xFF00FF00, f32_to_native f32_0_2).
Proof.
  assert (Eidx : pixel_index_of 800 400 300 = 240400) by (vm_compute; reflexivity).
  assert (Esize : wrap32 (800 * 600) = 480000) by (vm_compute; reflexivity).
  apply (depth_test_keeps_nearer_triangle cleared_targets 800 600
           near_v0 near_v1 near_v2 far_v0 far_v1 far_v2
           mat4f_identity mat4f_identity mat4f_identity 400 300
           (f32_to_native f32_0_2) (f32_to_native f32_0_8) 0xFF00FF00 0xFFFF0000).
  - unfold u32_modulus. lia.
  - unfold visits.
    replace (bounding_box 800 600 _) with (250, 550, 150, 450) by (vm_compute; reflexivity).
    lia.
  - unfold visits.
    replace (bounding_box 800 600 _) with (250, 550, 150, 450) by (vm_compute; reflexivity).
    lia.
  - vm_compute. reflexivity.
  - vm_compute. reflexivity.
  - vm_compute. reflexivity.
  - rewrite depth_of_cell. unfold cleared_targets.
    rewrite clear_targets_at by (rewrite Eidx, Esize; lia).
    vm_compute. reflexivity.
Defined.

End DepthProperties.

(* ===================================================================== *)
(** ** The allocator: map, unmap and the bump pointer *)
(* ===================================================================== *)

Section MemoryProperties.
Import GpuMemory.

Lemma find_allocation_selected device address i a :
  find_allocation device address = Some (i, a) <-> selected device address i a.
Proof.
  unfold find_allocation, selected. rewrite list_find_Some. tauto.
Qed.

Lemma find_allocation_none device address :
  find_allocation device address = None
  <-> (forall a, In a (slots device) ->
                 ~ (in_use a = true /\ gpu_address a = address)).
Proof.
  unfold find_allocation. rewrite list_find_None, List.Forall_forall. reflexivity.
Qed.

(** Mapping the address a slot is selected for, with a size that fits. *)
Lemma map_of_selected device address size_req i a :
  selected device address i a -> size_req <> 0 -> size_req <= size a ->
  gibgo_map_gpu_memory device address size_req
  = (GIBGO_RESULT_SUCCESS, Some (cpu_pointer a)).
Proof.
  intros Hsel Hnz Hfits. apply find_allocation_selected in Hsel.
  unfold gibgo_map_gpu_memory. rewrite Hsel.
  apply Z.eqb_neq in Hnz as ->.
  replace (size a <? size_req) with false by (symmetry; apply Z.ltb_ge; lia).
  reflexivity.
Qed.

(** C8, as the code has it.  [gibgo_map_gpu_memory] succeeds exactly when
    the size is non-zero, some slot in use records the requested address as
    its own [gpu_address] (the first such slot is taken), and the size does
    not exceed that slot's size; it then returns that slot's CPU pointer.
    Every other call returns INVALID_PARAMETER: in particular a zero size,
    and an address that no slot in use records, wherever it lies. *)
Theorem map_succeeds_on_recorded_address
    (device : GibgoGPUDevice) (address size_req : Z) :
  (forall p,
     gibgo_map_gpu_memory device address size_req = (GIBGO_RESULT_SUCCESS, Some p)
     <-> size_req <> 0
         /\ exists i a, selected device address i a
                        /\ size_req <= size a /\ cpu_pointer a = p)
  /\ ((forall p, gibgo_map_gpu_memory device address size_req
                 <> (GIBGO_RESULT_SUCCESS, Some p)) ->
      gibgo_map_gpu_memory device address size_req
      = (GIBGO_RESULT_ERROR_INVALID_PARAMETER, None))
  /\ ((forall a, In a (slots device) ->
                 ~ (in_use a = true /\ gpu_address a = address)) ->
      gibgo_map_gpu_memory device address size_req
      = (GIBGO_RESULT_ERROR_INVALID_PARAMETER, None)).
Proof.
  unfold gibgo_map_gpu_memory. split; [|split].
  - intros p. destruct (Z.eqb_spec size_req 0) as [->|Hnz].
    + split; [discriminate|]. intros [[] _]. reflexivity.
    + destruct (find_allocation device address) as [[i a]|] eqn:Hfind.
      * apply find_allocation_selected in Hfind as Hsel.
        destruct (Z.ltb_spec (size a) size_req) as [Hbig|Hfits].
        -- split; [discriminate|]. intros (_ & i' & a' & Hsel' & Hle & _).
           apply find_allocation_selected in Hsel'. rewrite Hfind in Hsel'.
           injection Hsel' as <- <-. lia.
        -- split.
           ++ intros Heq. injection Heq as <-. split; [assumption|].
              exists i, a. auto.
           ++ intros (_ & i' & a' & Hsel' & _ & <-).
              apply find_allocation_selected in Hsel'. rewrite Hfind in Hsel'.
              injection Hsel' as <- <-. reflexivity.
      * split; [discriminate|]. intros (_ & i' & a' & Hsel' & _).
        apply find_allocation_selected in Hsel'. rewrite Hfind in Hsel'. discriminate.
  - intros Hno. destruct (size_req =? 0); [reflexivity|].
    destruct (find_allocation device address) as [[i a]|]; [|reflexivity].
    destruct (size a <? size_req); [reflexivity|].
    exfalso. now apply (Hno (cpu_pointer a)).
  - intros Hnone. apply find_allocation_none in Hnone. rewrite Hnone.
    destruct (size_req =? 0); reflexivity.
Qed.

Lemma map_succeeds_on_recorded_address_witness :
  gibgo_map_gpu_memory one_allocation_device 0x1000000 256
  = (GIBGO_RESULT_SUCCESS, Some 0x7F0000000000).
Proof.
  apply (proj1 (map_succeeds_on_recorded_address one_allocation_device 0x1000000 256)).
  split; [discriminate|].
  exists 0%nat, (mkAllocation 0x1000000 0x7F0000000000 256 true).
  split; [|split; [vm_compute; discriminate | reflexivity]].
  apply find_allocation_selected. vm_compute. reflexivity.
Defined.

(** C8, as the claim words it, fails: the address 0x1000010 lies inside the
    live allocation [0x1000000, 0x1000100) and 16 bytes from it fit, yet the
    map is refused, because no slot records 0x1000010 as a base address. *)
Lemma map_of_interior_address_is_refused :
  slots one_allocation_device !! 0%nat
    = Some (mkAllocation 0x1000000 0x7F0000000000 256 true)
  /\ 0x1000000 <= 0x1000010 /\ 0x1000010 + 16 <= 0x1000000 + 256
  /\ gibgo_map_gpu_memory one_allocation_device 0x1000010 16
     = (GIBGO_RESULT_ERROR_INVALID_PARAMETER, None).
Proof. vm_compute. repeat split; try reflexivity; discriminate. Qed.

(** *** Map, write, unmap, map, read *)

Lemma memcpy_below (data : list Z) (h : heap) (dst j : Z) :
  j < dst -> memcpy h dst data j = h j.
Proof.
  revert h dst. induction data as [|b rest IH]; intros h dst Hlt; simpl; [reflexivity|].
  rewrite IH by lia. apply store_set_ne. lia.
Qed.

Lemma read_back_memcpy (data : list Z) (h : heap) (p : Z) :
  read_bytes (memcpy h p data) p (length data) = data.
Proof.
  revert h p. induction data as [|b rest IH]; intros h p; simpl; [reflexivity|].
  rewrite memcpy_below by lia. rewrite store_set_eq. f_equal. apply IH.
Qed.

(** Unmapping the pointer of a slot in use. *)
Lemma unmap_of_recorded (w : World) (i : nat) (a : GibgoAllocation) (size_req : Z) :
  slots (device_of w) !! i = Some a -> in_use a = true -> cpu_pointer a <> 0 ->
  gibgo_unmap_gpu_memory w (cpu_pointer a) size_req = (GIBGO_RESULT_SUCCESS, w).
Proof.
  intros Hlook Huse Hptr.
  unfold gibgo_unmap_gpu_memory. apply Z.eqb_neq in Hptr as ->.
  destruct (list_find _ _) as [found|] eqn:Hfind; [reflexivity|].
  exfalso. apply list_find_None in Hfind.
  rewrite List.Forall_forall in Hfind.
  apply (Hfind a); [|split; [assumption|reflexivity]].
  apply list_elem_of_In. eapply list_elem_of_lookup_2. exact Hlook.
Qed.

(** The upload idiom, given that both maps and the unmap succeed. *)
Lemma read_back_of_map_unmap device (h : heap) address size_req p (data : list Z) :
  gibgo_map_gpu_memory device address size_req = (GIBGO_RESULT_SUCCESS, Some p) ->
  gibgo_unmap_gpu_memory (mkWorld device (memcpy h p data)) p size_req
  = (GIBGO_RESULT_SUCCESS, mkWorld device (memcpy h p data)) ->
  write_then_read_back (mkWorld device h) address size_req data = Some data.
Proof.
  intros Hmap Hunmap.
  unfold write_then_read_back. cbn [device_of heap_of]. rewrite Hmap, Hunmap.
  cbn [device_of heap_of]. rewrite Hmap. f_equal. apply read_back_memcpy.
Qed.

(** The round trip of C9 where the table is sound.  For an allocation [a]
    that is the slot the lookup selects for its address (the first slot in
    use that records it), with a non-zero size and a non-null pointer (every
    slot in use is such after allocations that do not wrap): data that fits
    in it, written
    through the pointer [map] returns and followed by [unmap], is read back
    unchanged through a second [map] of the same address and size; [unmap]
    of that pointer succeeds and changes neither the device nor the memory. *)
Theorem map_unmap_round_trip
    (device : GibgoGPUDevice) (h : heap) (i : nat) (a : GibgoAllocation) (data : list Z) :
  selected device (gpu_address a) i a ->
  size a <> 0 ->
  cpu_pointer a <> 0 ->
  Z.of_nat (length data) <= size a ->
  let written := mkWorld device (memcpy h (cpu_pointer a) data) in
  gibgo_map_gpu_memory device (gpu_address a) (size a)
    = (GIBGO_RESULT_SUCCESS, Some (cpu_pointer a))
  /\ gibgo_unmap_gpu_memory written (cpu_pointer a) (size a)
     = (GIBGO_RESULT_SUCCESS, written)
  /\ write_then_read_back (mkWorld device h) (gpu_address a) (size a) data = Some data.
Proof.
  intros Hsel Hsize Hptr Hfits written.
  assert (Hmap : gibgo_map_gpu_memory device (gpu_address a) (size a)
                 = (GIBGO_RESULT_SUCCESS, Some (cpu_pointer a))).
  { apply (map_of_selected device (gpu_address a) (size a) i a); [assumption|assumption|lia]. }
  assert (Hunmap : gibgo_unmap_gpu_memory written (cpu_pointer a) (size a)
                   = (GIBGO_RESULT_SUCCESS, written)).
  { destruct Hsel as (Hlook & Huse & _).
    apply (unmap_of_recorded written i a); assumption. }
  split; [exact Hmap|]. split; [exact Hunmap|].
  exact (read_back_of_map_unmap device h _ _ _ data Hmap Hunmap).
Qed.

Lemma map_unmap_round_trip_witness :
  write_then_read_back (mkWorld two_allocation_device (fun _ => 0)) 0x1000100 512 [1; 2; 3]
  = Some [1; 2; 3].
Proof.
  apply (proj2 (proj2
    (map_unmap_round_trip two_allocation_device (fun _ => 0) 1%nat
       (mkAllocation 0x1000100 0x7F0000000100 512 true) [1; 2; 3]
       ltac:(apply find_allocation_selected; vm_compute; reflexivity)
       ltac:(discriminate) ltac:(discriminate) ltac:(simpl; lia)))).
Defined.

(** C9 fails once the allocator has wrapped: a live allocation can no longer
    be mapped by its own address and size.  After the requests 256,
    2^64 - 256 and 512, all three successful (the second wraps the bump
    pointers back to 0), slot 2 is a live allocation of 512 bytes at
    0x1000000, the address slot 0 already records with 256 bytes.  The
    lookup stops at slot 0, the size check fails there, and the map of the
    live allocation is refused, so nothing is written or read back. *)
Lemma shadowed_allocation_is_not_mapped :
  let device := snd (allocate_all small_device [256; 2 ^ 64 - 256; 512]) in
  fst (allocate_all small_device [256; 2 ^ 64 - 256; 512])
  = [(GIBGO_RESULT_SUCCESS, Some 0x1000000);
     (GIBGO_RESULT_SUCCESS, Some 0x1000100);
     (GIBGO_RESULT_SUCCESS, Some 0x1000000)]
  /\ slots device !! 0%nat = Some (mkAllocation 0x1000000 0x7F0000000000 256 true)
  /\ slots device !! 2%nat = Some (mkAllocation 0x1000000 0x7F0000000000 512 true)
  /\ gibgo_map_gpu_memory device 0x1000000 512
     = (GIBGO_RESULT_ERROR_INVALID_PARAMETER, None)
  /\ write_then_read_back (mkWorld device (fun _ => 0)) 0x1000000 512 [1; 2; 3] = None.
Proof.
  cbv zeta. repeat split; vm_compute; reflexivity.
Qed.

(** *** The bump pointer *)

(** C2 (the code departs from the claim).  On a pool of one MiB, the
    requests 256, 2^64 - 256, 256 all succeed.  The second one exceeds the
    pool, but [pool_used + aligned_size] wraps around to 0 and passes the
    bound check; it moves the bump pointer back to 0, and the third call
    returns the address of the first again. *)
Theorem allocator_wraps_on_huge_request :
  pool_size small_device < 2 ^ 64 - 256
  /\ align_gpu_memory (2 ^ 64 - 256) GPU_MEMORY_ALIGNMENT = 2 ^ 64 - 256
  /\ fst (allocate_all small_device [256; 2 ^ 64 - 256; 256])
     = [(GIBGO_RESULT_SUCCESS, Some 0x1000000);
        (GIBGO_RESULT_SUCCESS, Some 0x1000100);
        (GIBGO_RESULT_SUCCESS, Some 0x1000000)]
  /\ pool_used (snd (allocate_all small_device [256; 2 ^ 64 - 256])) = 0
  /\ vram_allocation_offset (snd (allocate_all small_device [256; 2 ^ 64 - 256])) = 0.
Proof. vm_compute. repeat split; reflexivity. Qed.

(** The rounding itself wraps too: a request of 2^64 - 1 bytes is recorded
    with size 0 and succeeds without moving the bump pointer. *)
Lemma alignment_wraps_to_zero :
  align_gpu_memory (2 ^ 64 - 1) GPU_MEMORY_ALIGNMENT = 0
  /\ fst (allocate_all small_device [2 ^ 64 - 1; 100])
     = [(GIBGO_RESULT_SUCCESS, Some 0x1000000); (GIBGO_RESULT_SUCCESS, Some 0x1000000)].
Proof. vm_compute. split; reflexivity. Qed.

(** *** The allocator away from wrap-around *)

(** Without overflow the rounding is the next multiple of 256. *)
Lemma align_gpu_memory_no_wrap (size_req : Z) :
  0 < size_req -> size_req + 255 < 2 ^ 64 ->
  align_gpu_memory size_req GPU_MEMORY_ALIGNMENT = 256 * ((size_req + 255) / 256).
Proof.
  intros Hpos Hfit. unfold align_gpu_memory, GPU_MEMORY_ALIGNMENT, wrap64, u64_modulus.
  replace (size_req + 256 - 1) with (size_req + 255) by lia.
  rewrite (Z.mod_small (size_req + 255)) by lia.
  change ((Z.lnot (256 - 1)) mod 2 ^ 64) with (Z.shiftl (Z.ones 56) 8).
  set (x := size_req + 255) in *.
  replace (256 * (x / 256)) with (Z.shiftl (Z.shiftr x 8) 8)
    by (rewrite Z.shiftl_mul_pow2, Z.shiftr_div_pow2 by lia; change (2 ^ 8) with 256; lia).
  apply Z.bits_inj'. intros n Hn.
  rewrite Z.land_spec.
  destruct (Z.ltb_spec n 8) as [Hlow|Hhigh].
  - rewrite !Z.shiftl_spec_low by assumption. apply andb_false_r.
  - rewrite !Z.shiftl_spec by assumption.
    rewrite Z.testbit_ones by lia. rewrite Z.shiftr_spec by lia.
    replace (n - 8 + 8) with n by lia.
    destruct (Z.ltb_spec (n - 8) 56) as [Hin|Hout].
    + replace (0 <=? n - 8) with true by (symmetry; apply Z.leb_le; lia).
      apply andb_true_r.
    + rewrite andb_false_r, andb_false_r. symmetry.
      apply Z.bits_above_log2; [lia|].
      apply Z.log2_lt_pow2; [lia|].
      apply Z.lt_le_trans with (2 ^ 64); [lia|].
      apply Z.pow_le_mono_r; lia.
Qed.

Lemma rounded_bounds (size_req : Z) :
  0 < size_req -> size_req <= rounded size_req < size_req + 256 /\ rounded size_req mod 256 = 0.
Proof.
  intros Hpos. unfold rounded.
  pose proof (Z.div_mod (size_req + 255) 256 ltac:(lia)) as Hdm.
  pose proof (Z.mod_pos_bound (size_req + 255) 256 ltac:(lia)) as Hb.
  split; [lia|]. rewrite Z.mul_comm. apply Z.mod_mul. lia.
Qed.

(** One call away from wrap-around: either the request fits and the bump
    pointer advances by the rounded size, or the call reports out-of-memory
    and returns the device it was given. *)
Lemma allocate_step (device : GibgoGPUDevice) (size_req : Z) :
  pool_ok device -> request_ok device size_req ->
  (gibgo_allocate_gpu_memory device size_req
     = (GIBGO_RESULT_ERROR_OUT_OF_MEMORY, device, None)
   /\ (pool_size device < pool_used device + rounded size_req
       \/ ALLOCATION_SLOTS <= allocation_count device))
  \/ (gibgo_allocate_gpu_memory device size_req
        = (GIBGO_RESULT_SUCCESS, device_after device size_req,
           Some (vram_physical_address device + pool_used device))
      /\ pool_used device + rounded size_req <= pool_size device
      /\ allocation_count device < ALLOCATION_SLOTS
      /\ pool_ok (device_after device size_req)).
Proof.
  intros (Hused & Hoff & Hbase & Htop) [Hpos Hfit].
  destruct (rounded_bounds size_req Hpos) as [Hr _].
  unfold gibgo_allocate_gpu_memory.
  replace (size_req =? 0) with false by (symmetry; apply Z.eqb_neq; lia).
  rewrite align_gpu_memory_no_wrap by lia. fold (rounded size_req).
  unfold wrap64, u64_modulus.
  rewrite (Z.mod_small (pool_used device + rounded size_req)) by lia.
  destruct (Z.ltb_spec (pool_size device) (pool_used device + rounded size_req)) as [Hoom|Hok].
  - left. split; [reflexivity|]. left. assumption.
  - destruct (Z.leb_spec ALLOCATION_SLOTS (allocation_count device)) as [Hslots|Hfree].
    + left. split; [reflexivity|]. right. assumption.
    + right. rewrite Hoff.
      rewrite (Z.mod_small (vram_physical_address device + pool_used device)) by lia.
      rewrite (Z.mod_small (pool_used device + rounded size_req)) by lia.
      split; [reflexivity|]. split; [assumption|]. split; [assumption|].
      unfold pool_ok, device_after.
      cbn [pool_used pool_size vram_physical_address vram_allocation_offset]. lia.
Qed.

Lemma chained_weaken (lo lo' hi : Z) (ranges : list (Z * Z)) :
  lo' <= lo -> chained lo hi ranges -> chained lo' hi ranges.
Proof.
  destruct ranges as [|[address n] rest]; simpl; [trivial|].
  intros Hle (H1 & H2 & H3 & H4 & H5). repeat split; try assumption; lia.
Qed.

Lemma chained_lookup (ranges : list (Z * Z)) (lo hi : Z) (i : nat) (a n : Z) :
  chained lo hi ranges -> ranges !! i = Some (a, n) ->
  lo <= a /\ 0 < n /\ n mod 256 = 0 /\ a + n <= hi.
Proof.
  revert lo i. induction ranges as [|[address m] rest IH]; intros lo i Hch Hi.
  - destruct i; discriminate.
  - destruct Hch as (H1 & H2 & H3 & H4 & H5). destruct i as [|i]; simpl in Hi.
    + injection Hi as -> ->. auto.
    + destruct (IH _ _ H5 Hi) as (? & ? & ? & ?). repeat split; try assumption; lia.
Qed.

Lemma chained_ordered (ranges : list (Z * Z)) (lo hi : Z) (i j : nat) (a n b m : Z) :
  chained lo hi ranges -> (i < j)%nat ->
  ranges !! i = Some (a, n) -> ranges !! j = Some (b, m) ->
  a + n <= b.
Proof.
  revert lo i j. induction ranges as [|[address k] rest IH]; intros lo i j Hch Hij Hi Hj.
  - destruct i; discriminate.
  - destruct Hch as (H1 & H2 & H3 & H4 & H5).
    destruct j as [|j]; [lia|]. simpl in Hj. destruct i as [|i]; simpl in Hi.
    + injection Hi as -> ->. now destruct (chained_lookup _ _ _ _ _ _ H5 Hj).
    + apply (IH _ i j H5); [lia|assumption|assumption].
Qed.

Lemma granted_ranges_chained (sizes : list Z) (device : GibgoGPUDevice) :
  pool_ok device -> Forall (request_ok device) sizes ->
  chained (vram_physical_address device + pool_used device)
          (vram_physical_address device + pool_size device)
          (granted_ranges sizes (fst (allocate_all device sizes))).
Proof.
  revert device. induction sizes as [|size_req rest IH]; intros device Hok Hreq; [exact I|].
  apply Forall_cons in Hreq as [Hreq Hrest].
  cbn [allocate_all].
  destruct (allocate_step device size_req Hok Hreq)
    as [[Heq _] | (Heq & Hfits & _ & Hok')];
    rewrite Heq.
  - specialize (IH device Hok Hrest).
    destruct (allocate_all device rest) as [results final]. exact IH.
  - specialize (IH (device_after device size_req) Hok' Hrest).
    cbn [device_after pool_used pool_size vram_physical_address] in IH.
    destruct (allocate_all (device_after device size_req) rest) as [results final].
    cbn [fst granted_ranges].
    destruct Hreq as [Hpos Hfit]. destruct Hok as (Hu & _).
    rewrite align_gpu_memory_no_wrap by lia. fold (rounded size_req).
    destruct (rounded_bounds size_req Hpos) as [Hr Hmod].
    cbn [chained]. repeat split; try lia.
    replace (vram_physical_address device + pool_used device + rounded size_req)
      with (vram_physical_address device + (pool_used device + rounded size_req)) by lia.
    exact IH.
Qed.

(** Away from wrap-around, the successful calls of a run return addresses
    that increase strictly, with ranges of positive size, a multiple of 256,
    that lie inside the pool and do not overlap. *)
Theorem allocations_are_monotone_without_wrap
    (device : GibgoGPUDevice) (sizes : list Z) :
  pool_ok device -> Forall (request_ok device) sizes ->
  let ranges := granted_ranges sizes (fst (allocate_all device sizes)) in
  (forall (i : nat) (a n : Z), ranges !! i = Some (a, n) ->
     0 < n /\ n mod 256 = 0
     /\ vram_physical_address device + pool_used device <= a
     /\ a + n <= vram_physical_address device + pool_size device)
  /\ (forall (i j : nat) (a n b m : Z), (i < j)%nat ->
        ranges !! i = Some (a, n) -> ranges !! j = Some (b, m) ->
        a < b /\ a + n <= b).
Proof.
  intros Hok Hreq ranges.
  pose proof (granted_ranges_chained sizes device Hok Hreq) as Hch. fold ranges in Hch.
  split.
  - intros i a n Hi. destruct (chained_lookup _ _ _ _ _ _ Hch Hi) as (? & ? & ? & ?). auto.
  - intros i j a n b m Hij Hi Hj.
    pose proof (chained_ordered _ _ _ _ _ _ _ _ _ Hch Hij Hi Hj).
    destruct (chained_lookup _ _ _ _ _ _ Hch Hi) as (_ & ? & _). lia.
Qed.

Lemma small_device_ok : pool_ok small_device.
Proof. unfold pool_ok. cbn. lia. Qed.

Lemma allocations_are_monotone_without_wrap_witness :
  0x1000000 < 0x1000100 /\ 0x1000000 + 256 <= 0x1000100.
Proof.
  refine (proj2 (allocations_are_monotone_without_wrap small_device [100; 300; 0x100000; 1]
                   small_device_ok _) 0%nat 1%nat 0x1000000 256 0x1000100 512 _ _ _).
  - repeat constructor; cbn; lia.
  - lia.
  - vm_compute. reflexivity.
  - vm_compute. reflexivity.
Defined.

(** Away from wrap-around, a request whose rounded size exceeds what is left
    of the pool reports out-of-memory and returns the device unchanged: bump
    pointers, slot count and slot table. *)
Theorem exhausted_pool_is_left_unchanged (device : GibgoGPUDevice) (size_req : Z) :
  pool_ok device -> request_ok device size_req ->
  pool_size device < pool_used device + rounded size_req ->
  gibgo_allocate_gpu_memory device size_req
  = (GIBGO_RESULT_ERROR_OUT_OF_MEMORY, device, None).
Proof.
  intros Hok Hreq Hfull.
  destruct (allocate_step device size_req Hok Hreq) as [[Heq _] | (_ & Hfits & _)];
    [exact Heq | lia].
Qed.

Lemma exhausted_pool_is_left_unchanged_witness :
  gibgo_allocate_gpu_memory small_device 0x100001
  = (GIBGO_RESULT_ERROR_OUT_OF_MEMORY, small_device, None).
Proof.
  apply (exhausted_pool_is_left_unchanged small_device 0x100001 small_device_ok).
  - unfold request_ok. cbn. lia.
  - vm_compute. reflexivity.
Defined.

(** *** The slot table of a pool no request has wrapped *)

Lemma slots_chained_le base memory lo hi used :
  slots_chained base memory lo hi used -> lo <= hi.
Proof.
  revert lo. induction used as [|a rest IH]; intros lo; simpl; [tauto|].
  intros (_ & Hlo & Hsize & _ & Hrest). apply IH in Hrest. lia.
Qed.

Lemma slots_chained_snoc base memory lo hi used a :
  slots_chained base memory lo hi used ->
  in_use a = true -> hi <= gpu_address a -> 0 < size a ->
  cpu_pointer a = memory + (gpu_address a - base) ->
  slots_chained base memory lo (gpu_address a + size a) (used ++ [a]).
Proof.
  intros Hch Huse Hhi Hsize Hptr. revert lo Hch.
  induction used as [|b rest IH]; intros lo; simpl.
  - intros Hle. split; [assumption|]. split; [lia|]. split; [assumption|].
    split; [assumption|lia].
  - intros (Hb & Hlo & Hsz & Hp & Hrest). do 4 (split; [assumption|]).
    apply IH. assumption.
Qed.

Lemma slots_chained_lookup base memory lo hi used (i : nat) a :
  slots_chained base memory lo hi used -> used !! i = Some a ->
  in_use a = true /\ lo <= gpu_address a /\ 0 < size a
  /\ cpu_pointer a = memory + (gpu_address a - base)
  /\ gpu_address a + size a <= hi.
Proof.
  revert lo i. induction used as [|b rest IH]; intros lo i Hch Hlook; [discriminate|].
  simpl in Hch. destruct Hch as (Hb & Hlo & Hsz & Hp & Hrest).
  destruct i as [|i]; simpl in Hlook.
  - injection Hlook as <-. apply slots_chained_le in Hrest. auto 6.
  - destruct (IH _ _ Hrest Hlook) as (H1 & H2 & H3 & H4 & H5).
    split; [assumption|]. split; [lia|]. auto.
Qed.

Lemma slots_chained_ordered base memory lo hi used (j i : nat) b a :
  slots_chained base memory lo hi used ->
  used !! j = Some b -> used !! i = Some a -> (j < i)%nat ->
  gpu_address b < gpu_address a.
Proof.
  revert lo j i. induction used as [|c rest IH]; intros lo j i Hch Hj Hi Hlt; [discriminate|].
  simpl in Hch. destruct Hch as (_ & _ & Hsz & _ & Hrest).
  destruct i as [|i]; [lia|]. simpl in Hi.
  destruct j as [|j]; simpl in Hj.
  - injection Hj as <-.
    destruct (slots_chained_lookup _ _ _ _ _ _ _ Hrest Hi) as (_ & Hlo & _). lia.
  - apply (IH _ j i Hrest Hj Hi). lia.
Qed.

Lemma table_ok_fresh physical_address memory size0 :
  table_ok (fresh_device physical_address memory size0) [].
Proof.
  unfold table_ok, fresh_device. simpl.
  split; [reflexivity|]. split; [lia|]. split; [reflexivity|lia].
Qed.

(** The table has exactly [ALLOCATION_SLOTS] entries: the loops see all of it. *)
Lemma table_slots device used : table_ok device used -> slots device = allocations device.
Proof.
  intros (Hall & Hlen & _). unfold slots. apply take_ge.
  rewrite Hall, length_app, length_replicate. lia.
Qed.

(** The slot search stops right after the slots in use. *)
Lemma find_unused_slot_table device used :
  table_ok device used -> allocation_count device < ALLOCATION_SLOTS ->
  find_unused_slot (slots device) = length used.
Proof.
  intros Htab Hcount. rewrite (table_slots _ _ Htab).
  destruct Htab as (Hall & Hlen & Hcnt & Hch).
  assert (Hlt : (length used < Z.to_nat ALLOCATION_SLOTS)%nat)
    by (unfold ALLOCATION_SLOTS in *; lia).
  unfold find_unused_slot. rewrite Hall.
  assert (Hfind : list_find (fun a => in_use a = false)
                    (used ++ replicate (Z.to_nat ALLOCATION_SLOTS - length used) empty_slot)
                  = Some (length used, empty_slot)).
  { apply list_find_Some. split; [|split; [reflexivity|]].
    - rewrite lookup_app_r by lia. rewrite Nat.sub_diag.
      apply lookup_replicate_2. lia.
    - intros j b Hj Hjlt. rewrite lookup_app_l in Hj by exact Hjlt.
      destruct (slots_chained_lookup _ _ _ _ _ _ _ Hch Hj) as (Hb & _).
      rewrite Hb. discriminate. }
  rewrite Hfind. reflexivity.
Qed.

(** A successful call appends its record to the slots in use. *)
Lemma table_ok_after device used size_req :
  pool_ok device -> table_ok device used ->
  allocation_count device < ALLOCATION_SLOTS -> 0 < rounded size_req ->
  table_ok (device_after device size_req)
    (used ++ [mkAllocation (vram_physical_address device + pool_used device)
                           (pool_memory device + pool_used device)
                           (rounded size_req) B32_TRUE]).
Proof.
  intros Hok Htab Hcount Hpos.
  pose proof (find_unused_slot_table _ _ Htab Hcount) as Hslot.
  destruct Htab as (Hall & Hlen & Hcnt & Hch).
  assert (Hlt : (length used < Z.to_nat ALLOCATION_SLOTS)%nat)
    by (unfold ALLOCATION_SLOTS in *; lia).
  unfold table_ok, device_after.
  cbn [allocations allocation_count vram_physical_address pool_memory pool_used].
  rewrite Hslot, length_app. cbn [length]. split; [|split; [|split]].
  - rewrite Hall, insert_app_r_alt by lia. rewrite Nat.sub_diag, <- app_assoc. f_equal.
    replace (Z.to_nat ALLOCATION_SLOTS - length used)%nat
      with (S (Z.to_nat ALLOCATION_SLOTS - (length used + 1)))%nat by lia.
    reflexivity.
  - lia.
  - unfold wrap32, u32_modulus, ALLOCATION_SLOTS in *. rewrite Z.mod_small; lia.
  - replace (vram_physical_address device + (pool_used device + rounded size_req))
      with (vram_physical_address device + pool_used device + rounded size_req) by lia.
    apply (slots_chained_snoc (vram_physical_address device) (pool_memory device)
             (vram_physical_address device)
             (vram_physical_address device + pool_used device) used
             (mkAllocation (vram_physical_address device + pool_used device)
                           (pool_memory device + pool_used device)
                           (rounded size_req) B32_TRUE) Hch);
      cbn [in_use gpu_address size cpu_pointer]; [reflexivity | lia | assumption | lia].
Qed.

(** Every run of requests that cannot wrap keeps the table in that shape. *)
Lemma allocate_all_table (sizes : list Z) : forall device used,
  pool_ok device -> table_ok device used ->
  Forall (request_ok device) sizes ->
  exists used',
    table_ok (snd (allocate_all device sizes)) used'
    /\ pool_memory (snd (allocate_all device sizes)) = pool_memory device.
Proof.
  induction sizes as [|size_req rest IH]; intros device used Hok Htab Hall.
  - exists used. split; [exact Htab | reflexivity].
  - inversion Hall as [|? ? Hreq Hrest]; subst. simpl.
    destruct (allocate_step device size_req Hok Hreq)
      as [[Heq _] | (Heq & Hfits & Hcount & Hok')]; rewrite Heq.
    + destruct (IH device used Hok Htab Hrest) as [used' H'].
      exists used'. destruct (allocate_all device rest). exact H'.
    + assert (Hpos : 0 < rounded size_req).
      { destruct Hreq as [Hp _]. pose proof (rounded_bounds size_req Hp). lia. }
      destruct (IH (device_after device size_req) _ Hok'
                  (table_ok_after device used size_req Hok Htab Hcount Hpos) Hrest)
        as [used' H'].
      exists used'. destruct (allocate_all (device_after device size_req) rest). exact H'.
Qed.

(** In such a table every slot in use is the one the map loop stops at for
    its own address, and it has a positive size and a pointer into the pool. *)
Lemma table_selected device used (i : nat) a :
  table_ok device used -> slots device !! i = Some a -> in_use a = true ->
  selected device (gpu_address a) i a /\ 0 < size a
  /\ cpu_pointer a = pool_memory device + (gpu_address a - vram_physical_address device)
  /\ vram_physical_address device <= gpu_address a.
Proof.
  intros Htab Hlook Huse. pose proof (table_slots _ _ Htab) as Hslots.
  destruct Htab as (Hall & Hlen & Hcnt & Hch).
  rewrite Hslots, Hall in Hlook.
  assert (Hi : used !! i = Some a).
  { destruct (Nat.lt_ge_cases i (length used)) as [Hlt|Hge].
    - rewrite lookup_app_l in Hlook by exact Hlt. exact Hlook.
    - rewrite lookup_app_r in Hlook by exact Hge.
      apply lookup_replicate in Hlook as [-> _]. discriminate. }
  pose proof (lookup_lt_Some _ _ _ Hi) as Hilt.
  destruct (slots_chained_lookup _ _ _ _ _ _ _ Hch Hi) as (_ & Hlo & Hsz & Hp & _).
  split; [|auto].
  unfold selected. rewrite Hslots, Hall.
  split; [|split; [assumption|split; [reflexivity|]]].
  - rewrite lookup_app_l by exact Hilt. exact Hi.
  - intros j b Hj Hlt [_ Haddr].
    rewrite lookup_app_l in Hj by lia.
    pose proof (slots_chained_ordered _ _ _ _ _ _ _ _ _ Hch Hj Hi Hlt). lia.
Qed.

(** On every device reached from a fresh one by requests that cannot wrap,
    with a non-null pool, each slot in use round-trips: data that fits,
    written through the pointer [map] returns for the slot's address and
    size and followed by [unmap], is read back through a second [map]. *)
Theorem every_live_allocation_round_trips
    (physical_address memory size0 : Z) (sizes : list Z)
    (h : heap) (i : nat) (a : GibgoAllocation) (data : list Z) :
  0 <= physical_address -> 0 <= size0 -> physical_address + size0 < 2 ^ 64 ->
  0 < memory ->
  Forall (fun size_req => 0 < size_req /\ size_req + 255 + size0 < 2 ^ 64) sizes ->
  let device := snd (allocate_all (fresh_device physical_address memory size0) sizes) in
  slots device !! i = Some a -> in_use a = true ->
  Z.of_nat (length data) <= size a ->
  gibgo_map_gpu_memory device (gpu_address a) (size a)
    = (GIBGO_RESULT_SUCCESS, Some (cpu_pointer a))
  /\ write_then_read_back (mkWorld device h) (gpu_address a) (size a) data = Some data.
Proof.
  intros Hbase Hsize0 Htop Hmem Hsizes device Hlook Huse Hfits.
  destruct (allocate_all_table sizes (fresh_device physical_address memory size0) [])
    as (used & Htab & Hmemory).
  { unfold pool_ok, fresh_device. simpl. lia. }
  { apply table_ok_fresh. }
  { exact Hsizes. }
  fold device in Htab, Hmemory. simpl in Hmemory.
  destruct (table_selected device used i a Htab Hlook Huse) as (Hsel & Hsz & Hp & Hlo).
  assert (Hmap : gibgo_map_gpu_memory device (gpu_address a) (size a)
                 = (GIBGO_RESULT_SUCCESS, Some (cpu_pointer a))).
  { apply (map_of_selected device (gpu_address a) (size a) i a); [assumption|lia|lia]. }
  split; [exact Hmap|].
  apply (read_back_of_map_unmap device h _ _ (cpu_pointer a) data Hmap).
  apply (unmap_of_recorded _ i a); [exact Hlook | exact Huse | lia].
Qed.

Lemma every_live_allocation_round_trips_witness :
  write_then_read_back (mkWorld two_allocation_device (fun _ => 0)) 0x1000000 256 [4; 5]
  = Some [4; 5].
Proof.
  apply (proj2
    (every_live_allocation_round_trips 0x1000000 0x7F0000000000 0x100000 [100; 300]
       (fun _ => 0) 0%nat (mkAllocation 0x1000000 0x7F0000000000 256 true) [4; 5]
       ltac:(lia) ltac:(lia) ltac:(lia) ltac:(lia)
       ltac:(repeat constructor; lia)
       ltac:(vm_compute; reflexivity) ltac:(reflexivity) ltac:(simpl; lia))).
Defined.

End MemoryProperties.

(* ===================================================================== *)
(** ** The command ring *)
(* ===================================================================== *)

Section RingProperties.
Import CommandRing.

Lemma next_tail_value (ring : GibgoCommandRing) :
  ring_ok ring ->
  next_tail_of ring
  = if tail_offset ring + 1 =? capacity ring then 0 else tail_offset ring + 1.
Proof.
  intros (Hcap & Hhead & Htail). unfold next_tail_of, wrap32.
  unfold u32_modulus in *. rewrite (Z.mod_small (tail_offset ring + 1)) by lia.
  destruct (Z.eqb_spec (tail_offset ring + 1) (capacity ring)) as [->|Hne].
  - apply Z.mod_same. lia.
  - apply Z.mod_small. lia.
Qed.

Lemma free_slots_nonneg (ring : GibgoCommandRing) : ring_ok ring -> 0 <= free_slots ring.
Proof.
  intros (Hcap & Hhead & Htail). unfold free_slots.
  destruct (Z.ltb_spec (tail_offset ring) (head_offset ring)); lia.
Qed.

(** The loop's test holds exactly when no record fits. *)
Lemma ring_full_iff (ring : GibgoCommandRing) :
  ring_ok ring -> (ring_full ring = true <-> free_slots ring = 0).
Proof.
  intros Hok. unfold ring_full. rewrite (next_tail_value ring Hok).
  destruct Hok as (Hcap & Hhead & Htail). unfold free_slots.
  rewrite Z.eqb_eq.
  destruct (Z.eqb_spec (tail_offset ring + 1) (capacity ring));
    destruct (Z.ltb_spec (tail_offset ring) (head_offset ring)); lia.
Qed.

Lemma submit_timeout_pos : exists n, SUBMIT_TIMEOUT = S n.
Proof.
  exists (Nat.pred SUBMIT_TIMEOUT). unfold SUBMIT_TIMEOUT. lia.
Qed.

Lemma write_commands_not_full ring head_reg cmd rest i :
  ring_full ring = false ->
  write_commands ring head_reg (cmd :: rest) i
  = let '(r, ring3, events) :=
      write_commands (ring_after_write ring cmd) head_reg rest (i + 1) in
    (r, ring3, LOG_COMMAND i :: events).
Proof.
  intros Hfree. unfold write_commands; fold write_commands. rewrite Hfree.
  destruct submit_timeout_pos as [n ->]. reflexivity.
Qed.

Lemma write_commands_full ring head_reg cmd rest i :
  ring_full ring = true ->
  exists later, snd (write_commands ring head_reg (cmd :: rest) i) = LOG_RING_FULL :: later.
Proof.
  intros Hfull. unfold write_commands; fold write_commands. rewrite Hfull.
  destruct (wait_for_gpu _ _ _ _) as [h t]. destruct t as [|t'].
  - eexists. reflexivity.
  - destruct (write_commands _ _ _ _) as [[r ring3] events]. eexists. reflexivity.
Qed.

Lemma ring_after_write_ok ring cmd :
  ring_ok ring -> 0 < free_slots ring ->
  ring_ok (ring_after_write ring cmd)
  /\ free_slots (ring_after_write ring cmd) = free_slots ring - 1.
Proof.
  intros Hok Hfree. pose proof (next_tail_value ring Hok) as Hnext.
  destruct Hok as (Hcap & Hhead & Htail).
  unfold ring_ok, free_slots in *. cbn [ring_after_write capacity head_offset tail_offset].
  rewrite Hnext.
  destruct (Z.eqb_spec (tail_offset ring + 1) (capacity ring));
    destruct (Z.ltb_spec (tail_offset ring) (head_offset ring));
    repeat match goal with |- context [?a <? ?b] => destruct (Z.ltb_spec a b) end; lia.
Qed.

Lemma command_log_cons (i : Z) (n : nat) :
  command_log i (S n) = LOG_COMMAND i :: command_log (i + 1) n.
Proof.
  unfold command_log. cbn [List.seq List.map]. rewrite Z.add_0_r. f_equal.
  rewrite <- List.seq_shift, List.map_map. apply List.map_ext. intros k. f_equal. lia.
Qed.

Lemma command_log_has_no_wait (i : Z) (n : nat) :
  ~ In LOG_RING_FULL (command_log i n) /\ ~ In LOG_TIMEOUT (command_log i n).
Proof.
  unfold command_log. split; intros Hin; apply in_map_iff in Hin as (k & Hk & _);
    discriminate Hk.
Qed.

(** As long as the records fit, every one is written without the test ever
    holding. *)
Lemma write_commands_within_free (commands : list GibgoGPUCommand)
    (ring : GibgoCommandRing) (head_reg i : Z) :
  ring_ok ring -> Z.of_nat (length commands) <= free_slots ring ->
  exists ring',
    write_commands ring head_reg commands i
    = (GIBGO_RESULT_SUCCESS, ring', command_log i (length commands))
    /\ head_offset ring' = head_offset ring
    /\ capacity ring' = capacity ring
    /\ ring_ok ring'
    /\ free_slots ring' = free_slots ring - Z.of_nat (length commands).
Proof.
  revert ring i. induction commands as [|cmd rest IH]; intros ring i Hok Hlen.
  - exists ring. cbn. repeat split; try apply Hok; lia.
  - cbn [length] in Hlen.
    assert (Hfree : 0 < free_slots ring) by lia.
    assert (Hnot : ring_full ring = false).
    { destruct (ring_full ring) eqn:Hfull; [|reflexivity].
      apply (ring_full_iff ring Hok) in Hfull. lia. }
    destruct (ring_after_write_ok ring cmd Hok Hfree) as [Hok' Hfree'].
    destruct (IH (ring_after_write ring cmd) (i + 1) Hok' ltac:(lia))
      as (ring' & Heq & Hhead & Hcap & Hok'' & Hfree'').
    exists ring'. rewrite (write_commands_not_full _ _ _ _ _ Hnot), Heq.
    cbn [length]. rewrite command_log_cons.
    repeat split; try assumption; try apply Hok''. lia.
Qed.

(** One record more than fit: the records that fit are written without
    waiting, and the next iteration finds the ring full. *)
Lemma write_commands_beyond_free (commands : list GibgoGPUCommand)
    (ring : GibgoCommandRing) (head_reg i : Z) :
  ring_ok ring -> free_slots ring < Z.of_nat (length commands) ->
  exists later,
    snd (write_commands ring head_reg commands i)
    = command_log i (Z.to_nat (free_slots ring)) ++ LOG_RING_FULL :: later.
Proof.
  revert ring i. induction commands as [|cmd rest IH]; intros ring i Hok Hlen.
  - pose proof (free_slots_nonneg ring Hok). cbn in Hlen. lia.
  - destruct (ring_full ring) eqn:Hfull.
    + destruct (write_commands_full ring head_reg cmd rest i Hfull) as [later Heq].
      apply (ring_full_iff ring Hok) in Hfull. rewrite Hfull.
      exists later. exact Heq.
    + assert (Hfree : 0 < free_slots ring).
      { pose proof (free_slots_nonneg ring Hok).
        destruct (Z.eq_dec (free_slots ring) 0) as [Hz|]; [|lia].
        apply (ring_full_iff ring Hok) in Hz. congruence. }
      destruct (ring_after_write_ok ring cmd Hok Hfree) as [Hok' Hfree'].
      rewrite (write_commands_not_full _ _ _ _ _ Hfull).
      cbn [length] in Hlen.
      destruct (IH (ring_after_write ring cmd) (i + 1) Hok' ltac:(lia)) as [later Heq].
      destruct (write_commands _ _ _ _) as [[r ring3] events]. cbn [snd] in *.
      exists later. rewrite Heq, Hfree'.
      replace (Z.to_nat (free_slots ring)) with (S (Z.to_nat (free_slots ring - 1))) by lia.
      rewrite command_log_cons. reflexivity.
Qed.

Lemma submit_events device commands :
  snd (submit_commands_to_hardware device commands)
  = snd (write_commands (cmd_ring device) (gpu_head_ptr device) commands 0).
Proof.
  unfold submit_commands_to_hardware.
  destruct (write_commands _ _ _ _) as [[r ring] events]. destruct r; reflexivity.
Qed.

(** C3.  With no consumer moving the head, a submission is measured against
    the free slots of the ring, which are capacity-1 when head and tail
    coincide (as after [gibgo_create_device]).  A submission of at most that
    many commands succeeds with one "Command" message per record and nothing
    else: the test (tail+1) mod capacity == head holds at none of its
    evaluations and the wait path is never entered; the head is unchanged
    and the free slots shrink by the number of commands.  A submission of
    more commands (capacity of them on an empty ring) writes that many
    records the same way and then finds the ring full. *)
Theorem ring_is_reported_full_only_at_capacity (device : GibgoGPUDevice) :
  let ring := cmd_ring device in
  ring_ok ring ->
  (head_offset ring = tail_offset ring -> free_slots ring = capacity ring - 1)
  /\ (forall commands : list GibgoGPUCommand,
        Z.of_nat (length commands) <= free_slots ring ->
        let '(r, device', events) := submit_commands_to_hardware device commands in
        r = GIBGO_RESULT_SUCCESS
        /\ events = command_log 0 (length commands)
        /\ ~ In LOG_RING_FULL events
        /\ ~ In LOG_TIMEOUT events
        /\ ring_ok (cmd_ring device')
        /\ head_offset (cmd_ring device') = head_offset ring
        /\ free_slots (cmd_ring device') = free_slots ring - Z.of_nat (length commands))
  /\ (forall commands : list GibgoGPUCommand,
        free_slots ring < Z.of_nat (length commands) ->
        exists later,
          snd (submit_commands_to_hardware device commands)
          = command_log 0 (Z.to_nat (free_slots ring)) ++ LOG_RING_FULL :: later).
Proof.
  intros ring Hok. split; [|split].
  - intros Hempty. unfold free_slots. rewrite Hempty, Z.ltb_irrefl. lia.
  - intros commands Hlen.
    destruct (write_commands_within_free commands ring (gpu_head_ptr device) 0 Hok Hlen)
      as (ring' & Heq & Hhead & _ & Hok' & Hfree').
    unfold submit_commands_to_hardware. fold ring. rewrite Heq.
    destruct (command_log_has_no_wait 0 (length commands)) as [Hnofull Hnotime].
    cbn [cmd_ring]. repeat split; try assumption; apply Hok'.
  - intros commands Hlen. rewrite submit_events. fold ring.
    apply write_commands_beyond_free; assumption.
Qed.

Lemma ring_is_reported_full_only_at_capacity_witness :
  (let '(r, _, events) :=
     submit_commands_to_hardware (created_device (fun _ => 0) 0)
       [nop_command; nop_command; nop_command] in
   r = GIBGO_RESULT_SUCCESS /\ ~ In LOG_RING_FULL events)
  /\ In LOG_RING_FULL
       (snd (submit_commands_to_hardware (created_device (fun _ => 0) 0)
               (repeat nop_command 1024))).
Proof.
  assert (Hok : ring_ok (cmd_ring (created_device (fun _ => 0) 0)))
    by (unfold ring_ok, u32_modulus; cbn; lia).
  destruct (ring_is_reported_full_only_at_capacity (created_device (fun _ => 0) 0) Hok)
    as (Hempty & Hfew & Hmany).
  specialize (Hempty eq_refl).
  split.
  - specialize (Hfew [nop_command; nop_command; nop_command]
                  ltac:(rewrite Hempty; cbn; lia)).
    destruct (submit_commands_to_hardware _ _) as [[r device'] events].
    destruct Hfew as (Hr & _ & Hnofull & _). split; assumption.
  - destruct (Hmany (repeat nop_command 1024)
                ltac:(rewrite Hempty, repeat_length; cbn; lia)) as [later Heq].
    rewrite Heq. apply in_or_app. right. left. reflexivity.
Defined.

(** *** The extent of the command buffer *)

(** The buffer of the created ring has room for the records of the first
    256 slots only: capacity * sizeof(u32) bytes are a quarter of what 1024
    four-word records take. *)
Lemma command_words_in_buffer (contents : store Z) (ring_index : Z) :
  0 <= ring_index < 1024 ->
  (Forall (in_command_buffer (create_ring contents)) (command_words ring_index)
   <-> ring_index < 256).
Proof.
  intros Hidx. unfold command_words, in_command_buffer, wrap32, u32_modulus.
  change (buffer_size (create_ring contents)) with 4096. unfold sizeof_u32.
  rewrite !Z.mod_small by lia.
  rewrite !Forall_cons. rewrite Forall_nil. lia.
Qed.

(** C10 (the code departs from the claim).  On the created ring, a
    submission of 257 commands succeeds without waiting, and its last record
    goes to ring index 256: words 1024 to 1027 of [command_buffer], that is
    bytes 4096 to 4111 of an allocation of 4096 bytes. *)
Theorem command_write_overruns_buffer :
  let out := submit_commands_to_hardware (created_device (fun _ => 0) 0)
               (repeat fence_command 257) in
  let ring := cmd_ring (snd (fst out)) in
  fst (fst out) = GIBGO_RESULT_SUCCESS
  /\ ~ In LOG_RING_FULL (snd out)
  /\ capacity ring = 1024
  /\ buffer_size ring = 4096
  /\ tail_offset ring = 257
  /\ command_words 256 = [1024; 1025; 1026; 1027]
  /\ command_buffer ring 1024 = 0x0B
  /\ command_buffer ring 1025 = 7
  /\ ~ in_command_buffer ring 1024.
Proof.
  cbv zeta.
  assert (Hsize : buffer_size (cmd_ring (snd (fst
            (submit_commands_to_hardware (created_device (fun _ => 0) 0)
               (repeat fence_command 257))))) = 4096) by (vm_compute; reflexivity).
  split; [vm_compute; reflexivity|].
  split.
  { destruct (write_commands_within_free (repeat fence_command 257)
                (create_ring (fun _ => 0)) 0 0) as (ring' & Heq & _).
    - unfold ring_ok, u32_modulus. cbn. lia.
    - rewrite repeat_length. vm_compute. discriminate.
    - rewrite submit_events. cbn [cmd_ring gpu_head_ptr created_device]. rewrite Heq.
      apply command_log_has_no_wait. }
  split; [vm_compute; reflexivity|].
  split; [exact Hsize|].
  split; [vm_compute; reflexivity|].
  split; [vm_compute; reflexivity|].
  split; [vm_compute; reflexivity|].
  split; [vm_compute; reflexivity|].
  unfold in_command_buffer. rewrite Hsize. unfold sizeof_u32. lia.
Qed.

Lemma command_words_in_buffer_witness :
  Forall (in_command_buffer (create_ring (fun _ => 0))) (command_words 255)
  /\ ~ Forall (in_command_buffer (create_ring (fun _ => 0))) (command_words 256).
Proof.
  split.
  - apply (proj2 (command_words_in_buffer (fun _ => 0) 255 ltac:(lia))). lia.
  - intros H.
    apply (proj1 (command_words_in_buffer (fun _ => 0) 256 ltac:(lia))) in H. lia.
Defined.

(** Within the free space the submission loop is a fold of single writes. *)
Lemma write_commands_fold (commands : list GibgoGPUCommand) :
  forall (ring : GibgoCommandRing) (head_reg i : Z),
  ring_ok ring -> Z.of_nat (length commands) <= free_slots ring ->
  write_commands ring head_reg commands i
  = (GIBGO_RESULT_SUCCESS, List.fold_left ring_after_write commands ring,
     command_log i (length commands)).
Proof.
  induction commands as [|cmd rest IH]; intros ring head_reg i Hok Hlen.
  - reflexivity.
  - cbn [length] in Hlen.
    assert (Hfree : 0 < free_slots ring) by lia.
    assert (Hnot : ring_full ring = false).
    { destruct (ring_full ring) eqn:Hfull; [|reflexivity].
      apply (ring_full_iff ring Hok) in Hfull. lia. }
    destruct (ring_after_write_ok ring cmd Hok Hfree) as [Hok' Hfree'].
    rewrite (write_commands_not_full _ _ _ _ _ Hnot).
    rewrite (IH (ring_after_write ring cmd) head_reg (i + 1) Hok' ltac:(lia)).
    cbn [length List.fold_left]. rewrite command_log_cons. reflexivity.
Qed.

End RingProperties.

(* ===================================================================== *)
(** ** Register access and the framebuffer clear (gpu_device.c) *)
(* ===================================================================== *)

Section DeviceProperties.
Import Device.

(** The clear loop sets exactly the first [width * height] words, the
    product taken in [u32]. *)
Lemma clear_framebuffer_at (fb : store Z) (width height color j : Z) :
  clear_framebuffer_to_color fb width height color j
  = if (0 <=? j) && (j <? wrap32 (width * height)) then color else fb j.
Proof.
  unfold clear_framebuffer_to_color, for_range.
  assert (Hframe : forall (c : Z) (s : store Z) (j' : Z),
            ~ c = j' -> store_set s c color j' = s j').
  { intros c s j' Hne. apply store_set_ne. congruence. }
  destruct (Z.leb_spec 0 j) as [Hlo|Hlo]; cbn [andb].
  - destruct (Z.ltb_spec j (wrap32 (width * height))) as [Hhi|Hhi].
    + apply (fold_at (fun (s : store Z) k => s k) (fun i s => store_set s i color)
               (fun i k => i = k) Hframe _ j j (fun _ => color)).
      * apply NoDup_zrange.
      * apply in_zrange. lia.
      * intros c' _ Hne. exact Hne.
      * intros s'. apply store_set_eq.
    + apply (fold_frame (fun (s : store Z) k => s k) (fun i s => store_set s i color)
               (fun i k => i = k) Hframe).
      intros c Hc. apply in_zrange in Hc. lia.
  - apply (fold_frame (fun (s : store Z) k => s k) (fun i s => store_set s i color)
             (fun i k => i = k) Hframe).
    intros c Hc. apply in_zrange in Hc. lia.
Qed.

(** [clear_framebuffer_to_color] writes [color] to every word below
    [width * height] taken modulo 2^32 and leaves every other word alone;
    so a frame whose pixel count is a multiple of 2^32 is not cleared at
    all. *)
Theorem clear_covers_the_wrapped_pixel_count (fb : store Z) (width height color : Z) :
  (forall j, 0 <= j < wrap32 (width * height) ->
             clear_framebuffer_to_color fb width height color j = color)
  /\ (forall j, j < 0 \/ wrap32 (width * height) <= j ->
                clear_framebuffer_to_color fb width height color j = fb j)
  /\ (forall j, (width * height) mod 2 ^ 32 = 0 ->
                clear_framebuffer_to_color fb width height color j = fb j).
Proof.
  split; [|split]; intros j Hj; rewrite clear_framebuffer_at.
  - destruct (Z.leb_spec 0 j); [|lia].
    destruct (Z.ltb_spec j (wrap32 (width * height))); [reflexivity|lia].
  - destruct (Z.leb_spec 0 j); [|reflexivity].
    destruct (Z.ltb_spec j (wrap32 (width * height))); [lia|reflexivity].
  - unfold wrap32, u32_modulus. rewrite Hj.
    destruct (Z.leb_spec 0 j); [|reflexivity].
    destruct (Z.ltb_spec j 0); [lia|reflexivity].
Qed.

(** A register write followed by a read.  Offsets are byte offsets checked
    against the size of the register space; the access goes to the word
    [offset / 4], so a read at any accepted offset of the same word returns
    the value written, and every other word keeps its content.  An offset
    at or beyond the size is refused by both functions, and the refused
    write changes nothing. *)
Theorem register_write_then_read (device : GibgoGPUDevice) (offset offset' value : Z) :
  registers_address device <> 0 ->
  0 <= offset < register_space_size device ->
  0 <= offset' < register_space_size device ->
  (let '(r, device') := gibgo_write_gpu_register device offset value in
   r = GIBGO_RESULT_SUCCESS
   /\ gibgo_read_gpu_register device' offset'
      = (GIBGO_RESULT_SUCCESS,
         Some (if offset' / 4 =? offset / 4 then value
               else registers device (offset' / 4))))
  /\ (register_space_size device mod 4 = 0 ->
      0 <= 4 * (offset / 4) /\ 4 * (offset / 4) + 4 <= register_space_size device)
  /\ (forall beyond, register_space_size device <= beyond ->
        gibgo_write_gpu_register device beyond value
        = (GIBGO_RESULT_ERROR_INVALID_PARAMETER, device)
        /\ gibgo_read_gpu_register device beyond
           = (GIBGO_RESULT_ERROR_INVALID_PARAMETER, None)).
Proof.
  intros Hptr Ho Ho'. apply Z.eqb_neq in Hptr.
  unfold gibgo_write_gpu_register, gibgo_read_gpu_register. rewrite Hptr.
  split; [|split].
  - destruct (Z.leb_spec (register_space_size device) offset) as [|_]; [lia|].
    split; [reflexivity|]. cbn [registers_address register_space_size registers with_registers].
    rewrite Hptr.
    destruct (Z.leb_spec (register_space_size device) offset') as [|_]; [lia|].
    unfold store_set. reflexivity.
  - intros Hmod.
    pose proof (Z.div_mod offset 4 ltac:(lia)) as Hd.
    pose proof (Z.mod_pos_bound offset 4 ltac:(lia)) as Hb.
    pose proof (Z.div_mod (register_space_size device) 4 ltac:(lia)) as Hs.
    rewrite Hmod in Hs. lia.
  - intros beyond Hbeyond.
    destruct (Z.leb_spec (register_space_size device) beyond) as [_|]; [|lia].
    split; reflexivity.
Qed.

Lemma register_write_then_read_witness :
  gibgo_read_gpu_register
    (snd (gibgo_write_gpu_register
            (mkDevice 0x7F0000100000 (fun _ => 0) 1920000 0x2000
               GpuMemory.small_device (CommandRing.create_ring (fun _ => 0)) 1 0 0)
            0x2011 42))
    0x2010
  = (GIBGO_RESULT_SUCCESS, Some 42).
Proof.
  pose proof (register_write_then_read
                (mkDevice 0x7F0000100000 (fun _ => 0) 1920000 0x2000
                   GpuMemory.small_device (CommandRing.create_ring (fun _ => 0)) 1 0 0)
                0x2011 0x2010 42
                ltac:(discriminate) ltac:(cbn; lia) ltac:(cbn; lia)) as [H _].
  destruct (gibgo_write_gpu_register _ _ _) as [r device'].
  destruct H as [_ H]. exact H.
Defined.

End DeviceProperties.

(* ===================================================================== *)
(** ** Command recording (gpu_commands.c) *)
(* ===================================================================== *)

Section RecorderProperties.
Import Commands.

Lemma zrange_snoc (lo hi : Z) :
  lo <= hi + 1 -> zrange lo (hi + 1) = zrange lo hi ++ [hi + 1].
Proof.
  intros Hle. unfold zrange.
  replace (Z.to_nat (hi + 1 - lo + 1)) with (S (Z.to_nat (hi - lo + 1))) by lia.
  rewrite List.seq_S, List.map_app. cbn [List.map]. do 2 f_equal. lia.
Qed.

Lemma zrange_empty (lo hi : Z) : hi < lo -> zrange lo hi = [].
Proof.
  intros Hlt. unfold zrange.
  replace (Z.to_nat (hi - lo + 1)) with O by lia. reflexivity.
Qed.

(** A successful [add_command] appends its command to the recorded ones. *)
Lemma add_command_recorded (rec : Recording) (type p0 p1 p2 : Z) :
  recording_ok rec -> current_command_count rec < max_commands rec ->
  fst (add_command rec type p0 p1 p2) = GIBGO_RESULT_SUCCESS
  /\ recording_ok (snd (add_command rec type p0 p1 p2))
  /\ max_commands (snd (add_command rec type p0 p1 p2)) = max_commands rec
  /\ current_command_count (snd (add_command rec type p0 p1 p2))
     = current_command_count rec + 1
  /\ recorded (snd (add_command rec type p0 p1 p2))
     = recorded rec ++ [CommandRing.mkCommand type p0 p1 p2].
Proof.
  intros (Hbuf & Hcount & Hmax) Hroom. unfold add_command, recorded.
  destruct (current_commands rec) as [buffer|] eqn:Hcur; [|contradiction].
  destruct (Z.leb_spec (max_commands rec) (current_command_count rec)) as [|_]; [lia|].
  cbn [fst snd current_commands current_command_count max_commands].
  assert (Hw : wrap32 (current_command_count rec + 1) = current_command_count rec + 1).
  { unfold wrap32. apply Z.mod_small. lia. }
  rewrite Hw. split; [reflexivity|]. split.
  { unfold recording_ok. cbn [current_commands current_command_count max_commands].
    split; [discriminate|lia]. }
  split; [reflexivity|]. split; [reflexivity|].
  replace (current_command_count rec + 1 - 1) with (current_command_count rec - 1 + 1) by lia.
  rewrite zrange_snoc by lia. rewrite List.map_app. cbn [List.map].
  replace (current_command_count rec - 1 + 1) with (current_command_count rec) by lia.
  rewrite store_set_eq. f_equal.
  apply List.map_ext_in. intros k Hk. apply in_zrange in Hk.
  apply store_set_ne. lia.
Qed.

(** [add_command] on a full array fails and changes nothing. *)
Lemma add_command_full (rec : Recording) (type p0 p1 p2 : Z) :
  recording_ok rec -> current_command_count rec = max_commands rec ->
  add_command rec type p0 p1 p2 = (GIBGO_RESULT_ERROR_COMMAND_FAILED, rec).
Proof.
  intros (Hbuf & _) Hfull. unfold add_command.
  destruct (current_commands rec) as [buffer|]; [|contradiction].
  destruct (Z.leb_spec (max_commands rec) (current_command_count rec)); [reflexivity|lia].
Qed.

(** Recording a list keeps as many of its first commands as there is room. *)
Lemma record_all_recorded (commands : list CommandRing.GibgoGPUCommand) : forall rec : Recording,
  recording_ok rec ->
  recording_ok (record_all rec commands)
  /\ max_commands (record_all rec commands) = max_commands rec
  /\ current_command_count (record_all rec commands)
     = current_command_count rec + Z.of_nat (Nat.min (room rec) (length commands))
  /\ recorded (record_all rec commands) = recorded rec ++ take (room rec) commands.
Proof.
  induction commands as [|cmd rest IH]; intros rec Hok.
  - cbn [record_all List.fold_left length]. rewrite Nat.min_0_r, take_nil, app_nil_r.
    repeat split; try assumption; try apply Hok. lia.
  - unfold record_all. cbn [List.fold_left]. fold (record_all
      (snd (add_command rec (CommandRing.command_type cmd) (CommandRing.param0 cmd)
              (CommandRing.param1 cmd) (CommandRing.param2 cmd))) rest).
    pose proof Hok as (_ & Hcount & _).
    destruct (Z.eq_dec (current_command_count rec) (max_commands rec)) as [Hfull|Hroom].
    + rewrite add_command_full by assumption. cbn [snd].
      destruct (IH rec Hok) as (Hok' & Hmax' & Hcount' & Hrec').
      assert (Hzero : room rec = O) by (unfold room; lia).
      rewrite Hzero in *. cbn [Nat.min] in *. rewrite take_0 in *.
      split; [assumption|]. split; [assumption|]. split; assumption.
    + destruct (add_command_recorded rec (CommandRing.command_type cmd)
                  (CommandRing.param0 cmd) (CommandRing.param1 cmd)
                  (CommandRing.param2 cmd) Hok ltac:(lia))
        as (_ & Hok1 & Hmax1 & Hcount1 & Hrec1).
      destruct (IH _ Hok1) as (Hok' & Hmax' & Hcount' & Hrec').
      assert (Hroom1 : room rec = S (room (snd (add_command rec
                (CommandRing.command_type cmd) (CommandRing.param0 cmd)
                (CommandRing.param1 cmd) (CommandRing.param2 cmd))))).
      { unfold room. rewrite Hmax1, Hcount1. lia. }
      rewrite Hroom1. cbn [length Nat.min take].
      split; [assumption|]. split; [congruence|]. split; [lia|].
      rewrite Hrec', Hrec1, <- app_assoc. cbn [app]. do 2 f_equal.
      destruct cmd. reflexivity.
Qed.

Lemma begin_recording_ok (buffer : store CommandRing.GibgoGPUCommand) (rec0 : Recording) :
  let rec := snd (gibgo_begin_commands (Some buffer) rec0) in
  recording_ok rec /\ recorded rec = [] /\ room rec = 256%nat.
Proof.
  cbn. unfold recording_ok, recorded, room, u32_modulus. cbn.
  split; [split; [discriminate|lia]|].
  split; [rewrite zrange_empty by lia; reflexivity|reflexivity].
Qed.

(** After [gibgo_begin_commands] the recorder keeps the first 256 commands
    of any sequence of [add_command] calls, in order, and drops the rest:
    each call beyond the 256th returns COMMAND_FAILED and changes nothing,
    each earlier one succeeds. *)
Theorem recorder_keeps_the_first_256_commands
    (buffer : store CommandRing.GibgoGPUCommand) (rec0 : Recording) (commands : list CommandRing.GibgoGPUCommand) :
  let rec := record_all (snd (gibgo_begin_commands (Some buffer) rec0)) commands in
  recorded rec = take 256 commands
  /\ (forall type p0 p1 p2, (256 <= length commands)%nat ->
        add_command rec type p0 p1 p2 = (GIBGO_RESULT_ERROR_COMMAND_FAILED, rec))
  /\ (forall type p0 p1 p2, (length commands < 256)%nat ->
        fst (add_command rec type p0 p1 p2) = GIBGO_RESULT_SUCCESS
        /\ recorded (snd (add_command rec type p0 p1 p2))
           = commands ++ [CommandRing.mkCommand type p0 p1 p2]).
Proof.
  intros rec. subst rec.
  destruct (begin_recording_ok buffer rec0) as (Hok0 & Hrec0 & Hroom0).
  destruct (record_all_recorded commands _ Hok0) as (Hok & Hmax & Hcount & Hrec).
  rewrite Hrec0, Hroom0 in *. cbn [app] in Hrec.
  split; [exact Hrec|]. split.
  - intros type p0 p1 p2 Hlen. apply add_command_full; [exact Hok|].
    rewrite Hcount, Hmax.
    cbn [snd gibgo_begin_commands current_command_count max_commands]. lia.
  - intros type p0 p1 p2 Hlen.
    destruct (add_command_recorded _ type p0 p1 p2 Hok) as (Hr & _ & _ & _ & Happ).
    { rewrite Hcount, Hmax.
      cbn [snd gibgo_begin_commands current_command_count max_commands]. lia. }
    split; [exact Hr|]. rewrite Happ, Hrec, take_ge by lia. reflexivity.
Qed.

(** What a draw call records, given a recording in progress. *)
Lemma draw_call_recorded
    (c : GibgoContext) (rec : Recording) (count first_vertex : Z) :
  recording_ok rec ->
  recorded (snd (gibgo_draw_primitives_internal c rec count first_vertex))
  = recorded rec
    ++ take (room rec)
         [CommandRing.mkCommand GPU_CMD_SET_VERTEX_BUFFER (low_word (vertex_buffer_address c))
            (high_word (vertex_buffer_address c)) (vertex_buffer_stride c);
          CommandRing.mkCommand GPU_CMD_CLEAR_FRAMEBUFFER 0 0 0;
          CommandRing.mkCommand GPU_CMD_DRAW_PRIMITIVES count first_vertex 0].
Proof.
  intros Hok.
  apply (record_all_recorded
           [CommandRing.mkCommand GPU_CMD_SET_VERTEX_BUFFER (low_word (vertex_buffer_address c))
              (high_word (vertex_buffer_address c)) (vertex_buffer_stride c);
            CommandRing.mkCommand GPU_CMD_CLEAR_FRAMEBUFFER 0 0 0;
            CommandRing.mkCommand GPU_CMD_DRAW_PRIMITIVES count first_vertex 0] rec Hok).
Qed.

(** [gibgo_draw_primitives_internal] never looks at what [add_command]
    returns.  It reports SUCCESS in every state; without a recording in
    progress nothing is recorded, and with fewer than three free entries
    only the leading ones of its three commands (vertex buffer, clear, draw)
    are. *)
Theorem draw_call_reports_success_when_dropped
    (c : GibgoContext) (rec : Recording) (count first_vertex : Z) :
  let rec' := snd (gibgo_draw_primitives_internal c rec count first_vertex) in
  fst (gibgo_draw_primitives_internal c rec count first_vertex) = GIBGO_RESULT_SUCCESS
  /\ (current_commands rec = None -> rec' = rec)
  /\ (recording_ok rec ->
      recorded rec'
      = recorded rec
        ++ take (room rec)
             [CommandRing.mkCommand GPU_CMD_SET_VERTEX_BUFFER (low_word (vertex_buffer_address c))
                (high_word (vertex_buffer_address c)) (vertex_buffer_stride c);
              CommandRing.mkCommand GPU_CMD_CLEAR_FRAMEBUFFER 0 0 0;
              CommandRing.mkCommand GPU_CMD_DRAW_PRIMITIVES count first_vertex 0]).
Proof.
  intros rec'. split; [reflexivity|]. split.
  - intros Hnone. subst rec'. unfold gibgo_draw_primitives_internal, add_command.
    cbn [snd]. rewrite Hnone. cbn [snd]. rewrite Hnone. cbn [snd]. rewrite Hnone.
    reflexivity.
  - intros Hok.
    apply (record_all_recorded
             [CommandRing.mkCommand GPU_CMD_SET_VERTEX_BUFFER (low_word (vertex_buffer_address c))
                (high_word (vertex_buffer_address c)) (vertex_buffer_stride c);
              CommandRing.mkCommand GPU_CMD_CLEAR_FRAMEBUFFER 0 0 0;
              CommandRing.mkCommand GPU_CMD_DRAW_PRIMITIVES count first_vertex 0] rec Hok).
Qed.

(** *** The executor's view of the recorded commands *)

Lemma join_split_words (address type p2 : Z) :
  0 <= address < 2 ^ 64 ->
  join_words (CommandRing.mkCommand type (low_word address) (high_word address) p2) = address.
Proof.
  intros Ha. unfold join_words, low_word, high_word.
  cbn [CommandRing.param0 CommandRing.param1].
  change 0xFFFFFFFF with (Z.ones 32). rewrite Z.land_ones by lia.
  rewrite Z.shiftr_div_pow2 by lia.
  assert (Hhi : 0 <= address / 2 ^ 32 < 2 ^ 32).
  { split; [apply Z.div_pos; lia|]. apply Z.div_lt_upper_bound; lia. }
  pose proof (Z.mod_pos_bound address (2 ^ 32) ltac:(lia)) as Hlo.
  unfold wrap32, wrap64, u32_modulus, u64_modulus.
  rewrite (Z.mod_small (address / 2 ^ 32)) by lia.
  rewrite (Z.mod_small (address mod 2 ^ 32)) by lia.
  rewrite Z.shiftl_mul_pow2 by lia.
  rewrite (Z.mod_small (address / 2 ^ 32 * 2 ^ 32)) by lia.
  rewrite <- Z.lxor_lor, <- Z.add_nocarry_lxor.
  - pose proof (Z.div_mod address (2 ^ 32) ltac:(lia)). lia.
  - apply Z.bits_inj'. intros k Hk. rewrite Z.land_spec, Z.bits_0.
    destruct (Z.lt_ge_cases k 32) as [Hlt|Hge].
    + rewrite Z.mul_pow2_bits_low by lia. reflexivity.
    + rewrite (Z.mod_pow2_bits_high address 32 k) by lia. apply andb_false_r.
  - apply Z.bits_inj'. intros k Hk. rewrite Z.land_spec, Z.bits_0.
    destruct (Z.lt_ge_cases k 32) as [Hlt|Hge].
    + rewrite Z.mul_pow2_bits_low by lia. reflexivity.
    + rewrite (Z.mod_pow2_bits_high address 32 k) by lia. apply andb_false_r.
Qed.

Lemma parse_commands_app (l1 l2 : list CommandRing.GibgoGPUCommand) (st : RenderState) :
  parse_commands (l1 ++ l2) st = parse_commands l2 (parse_commands l1 st).
Proof. unfold parse_commands. apply List.fold_left_app. Qed.

(** Every 64-bit address survives the trip through a command: the two
    32-bit words [gibgo_set_uniform_buffer] records are joined back to the
    address by the executor, whatever was recorded before. *)
Theorem uniform_buffer_address_round_trip
    (c : GibgoContext) (rec : Recording) (address n : Z) (st : RenderState) :
  0 <= address < 2 ^ 64 ->
  recording_ok rec -> current_command_count rec < max_commands rec ->
  let '(r, c', rec') := gibgo_set_uniform_buffer c rec address n in
  r = GIBGO_RESULT_SUCCESS
  /\ uniform_buffer_address c' = address
  /\ recorded rec'
     = recorded rec
       ++ [CommandRing.mkCommand GPU_CMD_SET_UNIFORM_BUFFER (low_word address) (high_word address) n]
  /\ rs_uniform_buffer_address (parse_commands (recorded rec') st) = address.
Proof.
  intros Ha Hok Hroom. unfold gibgo_set_uniform_buffer.
  destruct (add_command_recorded rec GPU_CMD_SET_UNIFORM_BUFFER
              (low_word address) (high_word address) n Hok Hroom)
    as (Hr & _ & _ & _ & Hrec).
  destruct (add_command rec GPU_CMD_SET_UNIFORM_BUFFER _ _ _) as [r rec'].
  cbn [fst snd] in *. split; [exact Hr|]. split; [reflexivity|]. split; [exact Hrec|].
  rewrite Hrec, parse_commands_app. cbn [parse_commands List.fold_left].
  unfold parse_command at 1. cbn [CommandRing.command_type].
  change (CommandRing.command_type
            (CommandRing.mkCommand GPU_CMD_SET_UNIFORM_BUFFER (low_word address) (high_word address) n))
    with GPU_CMD_SET_UNIFORM_BUFFER.
  rewrite Z.eqb_refl. cbn [rs_uniform_buffer_address].
  apply join_split_words. exact Ha.
Qed.

Lemma uniform_buffer_address_round_trip_witness :
  rs_uniform_buffer_address
    (parse_commands
       (recorded
          (snd (gibgo_set_uniform_buffer
                  (mkContext 800 600 0 0 0 0 0 0 0 0 0 false F32_ZERO F32_ONE 1 0)
                  (snd (gibgo_begin_commands (Some (fun _ => CommandRing.nop_command))
                          no_recording))
                  0x123456789ABCDEF0 288)))
       (initial_state (fun _ => 0)))
  = 0x123456789ABCDEF0.
Proof.
  pose proof (uniform_buffer_address_round_trip
                (mkContext 800 600 0 0 0 0 0 0 0 0 0 false F32_ZERO F32_ONE 1 0)
                (snd (gibgo_begin_commands (Some (fun _ => CommandRing.nop_command))
                        no_recording))
                0x123456789ABCDEF0 288 (initial_state (fun _ => 0))
                ltac:(lia)
                (proj1 (begin_recording_ok (fun _ => CommandRing.nop_command) no_recording))
                ltac:(cbn; lia)) as H.
  destruct (gibgo_set_uniform_buffer _ _ _ _) as [[r c'] rec'].
  destruct H as (_ & _ & _ & H). exact H.
Defined.

Lemma parse_command_skip (st : RenderState) (cmd : CommandRing.GibgoGPUCommand) :
  is_state_command cmd = false -> parse_command st cmd = st.
Proof.
  unfold is_state_command, parse_command. intros H.
  apply orb_false_elim in H as [H H5]. apply orb_false_elim in H as [H H4].
  apply orb_false_elim in H as [H H3]. apply orb_false_elim in H as [H1 H2].
  rewrite H1, H2, H3, H4, H5. reflexivity.
Qed.

Lemma parse_commands_filter (commands : list CommandRing.GibgoGPUCommand) : forall st,
  parse_commands (List.filter is_state_command commands) st = parse_commands commands st.
Proof.
  induction commands as [|cmd rest IH]; intros st; [reflexivity|].
  cbn [List.filter]. destruct (is_state_command cmd) eqn:Hcmd.
  - cbn [parse_commands List.fold_left]. apply IH.
  - cbn [parse_commands List.fold_left]. rewrite parse_command_skip by exact Hcmd.
    apply IH.
Qed.

(** The executor acts on five command types only.  Viewport, shader,
    depth-test, present, fence and no-op commands, and any unknown type,
    have no effect on the frame it produces: executing a command list and
    executing it with all those commands removed give the same result.  In
    particular the frame is always 800x600 and never depth-tested. *)
Theorem executor_skips_all_but_five_commands
    (device : GpuMemory.GibgoGPUDevice) (h : GpuMemory.heap) (fb : store Z)
    (commands : list CommandRing.GibgoGPUCommand) :
  execute_3d_cube_rendering device h fb commands
  = execute_3d_cube_rendering device h fb (List.filter is_state_command commands)
  /\ (forall p0 p1 p2,
        is_state_command (CommandRing.mkCommand GPU_CMD_NOP p0 p1 p2) = false
        /\ is_state_command (CommandRing.mkCommand GPU_CMD_SET_VIEWPORT p0 p1 p2) = false
        /\ is_state_command (CommandRing.mkCommand GPU_CMD_SET_VERTEX_SHADER p0 p1 p2) = false
        /\ is_state_command (CommandRing.mkCommand GPU_CMD_SET_FRAGMENT_SHADER p0 p1 p2) = false
        /\ is_state_command (CommandRing.mkCommand GPU_CMD_ENABLE_DEPTH_TEST p0 p1 p2) = false
        /\ is_state_command (CommandRing.mkCommand GPU_CMD_PRESENT_FRAME p0 p1 p2) = false
        /\ is_state_command (CommandRing.mkCommand GPU_CMD_FENCE p0 p1 p2) = false)
  /\ (forall type p0 p1 p2, type < 0 \/ 0x0B < type ->
        is_state_command (CommandRing.mkCommand type p0 p1 p2) = false).
Proof.
  split; [|split].
  - unfold execute_3d_cube_rendering. rewrite parse_commands_filter. reflexivity.
  - intros p0 p1 p2. repeat split; reflexivity.
  - intros type p0 p1 p2 Htype. unfold is_state_command.
    cbn [CommandRing.command_type].
    unfold GPU_CMD_SET_UNIFORM_BUFFER, GPU_CMD_SET_VERTEX_BUFFER, GPU_CMD_DRAW_PRIMITIVES,
      GPU_CMD_ENABLE_FACE_CULLING, GPU_CMD_CLEAR_FRAMEBUFFER.
    repeat match goal with
           | |- context [?a =? ?b] => destruct (Z.eqb_spec a b); [lia|]
           end.
    reflexivity.
Qed.

Lemma parse_command_same_but_draw (s s' : RenderState) (cmd : CommandRing.GibgoGPUCommand) :
  same_but_draw s s' -> same_but_draw (parse_command s cmd) (parse_command s' cmd).
Proof.
  intros (Hv & Hu & Hc & Hf). unfold parse_command, same_but_draw.
  destruct (CommandRing.command_type cmd =? GPU_CMD_SET_UNIFORM_BUFFER);
    [cbn [rs_vertex_buffer_address rs_uniform_buffer_address rs_face_culling_enabled
          rs_framebuffer]; auto|].
  destruct (CommandRing.command_type cmd =? GPU_CMD_SET_VERTEX_BUFFER);
    [cbn [rs_vertex_buffer_address rs_uniform_buffer_address rs_face_culling_enabled
          rs_framebuffer]; auto|].
  destruct (CommandRing.command_type cmd =? GPU_CMD_DRAW_PRIMITIVES);
    [cbn [rs_vertex_buffer_address rs_uniform_buffer_address rs_face_culling_enabled
          rs_framebuffer]; auto|].
  destruct (CommandRing.command_type cmd =? GPU_CMD_ENABLE_FACE_CULLING);
    [cbn [rs_vertex_buffer_address rs_uniform_buffer_address rs_face_culling_enabled
          rs_framebuffer]; auto|].
  destruct (CommandRing.command_type cmd =? GPU_CMD_CLEAR_FRAMEBUFFER); [|auto].
  cbn [rs_vertex_buffer_address rs_uniform_buffer_address rs_face_culling_enabled
       rs_framebuffer].
  rewrite Hf. split; [assumption|]. split; [assumption|]. split; [assumption|reflexivity].
Qed.

Lemma parse_commands_same_but_draw (commands : list CommandRing.GibgoGPUCommand) : forall s s',
  same_but_draw s s' ->
  same_but_draw (parse_commands commands s) (parse_commands commands s').
Proof.
  induction commands as [|cmd rest IH]; intros s s' H; [exact H|].
  cbn [parse_commands List.fold_left]. apply IH, parse_command_same_but_draw, H.
Qed.

Lemma parse_draw_command (s : RenderState) (d : CommandRing.GibgoGPUCommand) :
  is_draw_command d = true ->
  parse_command s d
  = mkRenderState (rs_vertex_buffer_address s) (rs_uniform_buffer_address s)
      (CommandRing.param0 d) (CommandRing.param1 d) (rs_face_culling_enabled s)
      (rs_framebuffer s).
Proof.
  unfold is_draw_command, parse_command. intros H. apply Z.eqb_eq in H. rewrite H.
  reflexivity.
Qed.

(** *** The sample frame *)

Lemma frame_maps :
  GpuMemory.gibgo_map_gpu_memory GpuMemory.two_allocation_device 0x1000000 (wrap64 (3 * sizeof_GibgoVertex))
  = (GIBGO_RESULT_SUCCESS, Some 0x7F0000000000)
  /\ GpuMemory.gibgo_map_gpu_memory GpuMemory.two_allocation_device 0x1000100 sizeof_GibgoUniformBuffer
     = (GIBGO_RESULT_SUCCESS, Some 0x7F0000000100).
Proof. split; vm_compute; reflexivity. Qed.

Lemma frame_vertices (i : Z) :
  0 <= i < 3 ->
  DirectDrm.transform_vertex_to_screen (mapped_vertices frame_heap 0x7F0000000000 i)
    (read_mat4f frame_heap (0x7F0000000100 + offsetof_mvp_matrix)) 800 600
  = if i =? 0 then frame_v1 else if i =? 1 then frame_v2 else frame_v3.
Proof.
  intros Hi. assert (H : i = 0 \/ i = 1 \/ i = 2) by lia.
  destruct H as [->|[->| ->]]; vm_compute; reflexivity.
Qed.

Lemma frame_render (fb : store Z) :
  render_3d_cube_software GpuMemory.two_allocation_device frame_heap fb 800 600
    0x1000000 0x1000100 3 0 B32_TRUE
  = DirectDrm.rasterize_triangle fb 800 600 frame_v1 frame_v2 frame_v3.
Proof.
  unfold render_3d_cube_software.
  rewrite (proj1 frame_maps), (proj2 frame_maps).
  cbv iota beta.
  change (0x7F0000000000 =? 0) with false. change (0x7F0000000100 =? 0) with false.
  cbv iota.
  rewrite render_single_triangle. unfold DirectDrm.render_triangle.
  rewrite (frame_vertices 0), (frame_vertices 1), (frame_vertices 2) by lia.
  cbv iota beta.
  change (0 =? 0) with true. change (1 =? 0) with false. change (1 =? 1) with true.
  change (2 =? 0) with false. change (2 =? 1) with false. cbv iota.
  replace (DirectDrm.is_valid frame_v1) with true by (vm_compute; reflexivity).
  replace (DirectDrm.is_valid frame_v2) with true by (vm_compute; reflexivity).
  replace (DirectDrm.is_valid frame_v3) with true by (vm_compute; reflexivity).
  replace (DirectDrm.is_triangle_back_facing frame_v1 frame_v2 frame_v3) with false
    by (vm_compute; reflexivity).
  reflexivity.
Qed.

Lemma frame_box :
  DirectDrm.bounding_box 800 600 frame_v1 frame_v2 frame_v3 = (200, 600, 150, 450).
Proof. vm_compute. reflexivity. Qed.

Lemma frame_centroid (fb : store Z) :
  DirectDrm.rasterize_triangle fb 800 600 frame_v1 frame_v2 frame_v3 (350 * 800 + 400)
  = 0xFF555454.
Proof.
  change (350 * 800 + 400) with (DirectDrm.pixel_index_of 800 400 350).
  rewrite (rasterize_triangle_at fb 800 600 frame_v1 frame_v2 frame_v3 200 600 150 450
             400 350 frame_box) by (vm_compute; (discriminate || lia || (split; discriminate))).
  unfold DirectDrm.pixel_after.
  replace (DirectDrm.shade_pixel frame_v1 frame_v2 frame_v3 400 350)
    with (Some 0xFF555454) by (vm_compute; reflexivity).
  reflexivity.
Qed.

Lemma frame_corner (fb : store Z) :
  DirectDrm.rasterize_triangle fb 800 600 frame_v1 frame_v2 frame_v3 0 = fb 0.
Proof.
  apply (rasterize_triangle_frame fb 800 600 frame_v1 frame_v2 frame_v3 200 600 150 450 0
           frame_box).
  intros x y [Hx Hy]. unfold DirectDrm.pixel_index_of, wrap32, u32_modulus.
  rewrite Z.mod_small by lia. lia.
Qed.

Lemma frame_execute (fb : store Z) :
  execute_3d_cube_rendering GpuMemory.two_allocation_device frame_heap fb frame_commands
  = DirectDrm.rasterize_triangle fb 800 600 frame_v1 frame_v2 frame_v3.
Proof.
  unfold execute_3d_cube_rendering.
  replace (parse_commands frame_commands (initial_state fb))
    with (mkRenderState 0x1000000 0x1000100 3 0 B32_TRUE fb) by reflexivity.
  cbn [rs_vertex_buffer_address rs_uniform_buffer_address rs_vertex_count rs_first_vertex
       rs_face_culling_enabled rs_framebuffer].
  change (negb (0x1000000 =? 0) && (0 <? 3)) with true. cbv iota.
  exact (frame_render fb).
Qed.

(** The draw happens once, after all commands are parsed, with the
    parameters of the last draw command: a draw command that is followed by
    another one has no effect at all, whatever lies between and after. *)
Theorem only_the_last_draw_command_counts
    (device : GpuMemory.GibgoGPUDevice) (h : GpuMemory.heap) (fb : store Z)
    (before between later : list CommandRing.GibgoGPUCommand) (d d' : CommandRing.GibgoGPUCommand) :
  is_draw_command d = true -> is_draw_command d' = true ->
  execute_3d_cube_rendering device h fb (before ++ d :: between ++ d' :: later)
  = execute_3d_cube_rendering device h fb (before ++ between ++ d' :: later).
Proof.
  intros Hd Hd'. unfold execute_3d_cube_rendering.
  assert (E : parse_commands (before ++ d :: between ++ d' :: later) (initial_state fb)
              = parse_commands (before ++ between ++ d' :: later) (initial_state fb)).
  { unfold parse_commands. rewrite !List.fold_left_app. cbn [List.fold_left].
    rewrite !List.fold_left_app. cbn [List.fold_left]. f_equal.
    set (s0 := List.fold_left parse_command before (initial_state fb)).
    assert (R : same_but_draw (parse_commands between (parse_command s0 d))
                              (parse_commands between s0)).
    { apply parse_commands_same_but_draw. rewrite parse_draw_command by exact Hd.
      unfold same_but_draw. cbn. auto. }
    unfold parse_commands in R. destruct R as (Hv & Hu & Hc & Hf).
    rewrite (parse_draw_command (List.fold_left parse_command between (parse_command s0 d))
               d' Hd').
    rewrite (parse_draw_command (List.fold_left parse_command between s0) d' Hd').
    congruence. }
  rewrite E. reflexivity.
Qed.

Lemma only_the_last_draw_command_counts_witness :
  let set_vertices :=
    CommandRing.mkCommand GPU_CMD_SET_VERTEX_BUFFER (low_word 0x1000000) (high_word 0x1000000) 32 in
  let set_uniforms :=
    CommandRing.mkCommand GPU_CMD_SET_UNIFORM_BUFFER (low_word 0x1000100) (high_word 0x1000100) 288 in
  let draw_none := CommandRing.mkCommand GPU_CMD_DRAW_PRIMITIVES 0 0 0 in
  let draw_triangle := CommandRing.mkCommand GPU_CMD_DRAW_PRIMITIVES 3 0 0 in
  let execute :=
    execute_3d_cube_rendering GpuMemory.two_allocation_device frame_heap (fun _ => 0) in
  execute ([set_vertices; set_uniforms] ++ draw_none :: [] ++ draw_triangle :: [])
    (350 * 800 + 400) = 0xFF555454
  /\ execute ([set_vertices; set_uniforms] ++ draw_triangle :: [] ++ draw_none :: [])
       (350 * 800 + 400) = 0.
Proof.
  intros set_vertices set_uniforms draw_none draw_triangle execute. unfold execute.
  split.
  - rewrite (only_the_last_draw_command_counts GpuMemory.two_allocation_device frame_heap
               (fun _ => 0) [set_vertices; set_uniforms] [] [] draw_none draw_triangle
               eq_refl eq_refl).
    exact (eq_trans (f_equal (fun frame : store Z => frame (350 * 800 + 400))
                       (frame_execute (fun _ => 0)))
                    (frame_centroid (fun _ => 0))).
  - rewrite (only_the_last_draw_command_counts GpuMemory.two_allocation_device frame_heap
               (fun _ => 0) [set_vertices; set_uniforms] [] [] draw_triangle draw_none
               eq_refl eq_refl).
    reflexivity.
Defined.

Lemma length_recorded (rec : Commands.Recording) :
  Commands.recording_ok rec ->
  length (Commands.recorded rec) = Z.to_nat (Commands.current_command_count rec).
Proof.
  intros (Hbuf & Hcount & _). unfold Commands.recorded.
  destruct (Commands.current_commands rec); [|contradiction].
  rewrite length_map. unfold zrange. rewrite length_map, length_seq. f_equal. lia.
Qed.

End RecorderProperties.

(* ===================================================================== *)
(** ** Executing a submission (gpu_commands.c) *)
(* ===================================================================== *)

Section Agree.
Context {St A C : Type}.
Variable obs : St -> Z -> A.
Variable stp : C -> St -> St.
Hypothesis stp_agree : forall c s s' j,
  obs s j = obs s' j -> obs (stp c s) j = obs (stp c s') j.

(** A loop whose steps treat each cell on its own keeps two states that
    agree on a cell in agreement on it. *)
Lemma fold_agree (l : list C) : forall (s s' : St) (j : Z),
  obs s j = obs s' j ->
  obs (List.fold_left (fun acc c => stp c acc) l s) j
  = obs (List.fold_left (fun acc c => stp c acc) l s') j.
Proof.
  induction l as [|c l IH]; intros s s' j H; [exact H|].
  cbn [List.fold_left]. apply IH, stp_agree, H.
Qed.
End Agree.

Section RenderProperties.
Import Commands.

Lemma rasterize_pixel_agree width height v1 v2 v3 x y (fb fb' : store Z) (j : Z) :
  fb j = fb' j ->
  DirectDrm.rasterize_pixel width height v1 v2 v3 x y fb j
  = DirectDrm.rasterize_pixel width height v1 v2 v3 x y fb' j.
Proof.
  intros H. unfold DirectDrm.rasterize_pixel.
  destruct (DirectDrm.shade_pixel v1 v2 v3 x y) as [final_color|]; [|exact H].
  destruct (_ <? _); [|exact H].
  unfold store_set. destruct (j =? _); [reflexivity|exact H].
Qed.

Lemma rasterize_triangle_agree width height v1 v2 v3 (fb fb' : store Z) (j : Z) :
  fb j = fb' j ->
  DirectDrm.rasterize_triangle fb width height v1 v2 v3 j
  = DirectDrm.rasterize_triangle fb' width height v1 v2 v3 j.
Proof.
  intros H. unfold DirectDrm.rasterize_triangle.
  destruct (DirectDrm.bounding_box width height v1 v2 v3) as [[[sx ex] sy] ey].
  unfold raster, for_range at 1 3.
  apply (fold_agree (fun (s : store Z) k => s k)
           (fun y => for_range sx ex
                       (fun x => DirectDrm.rasterize_pixel width height v1 v2 v3 x y)));
    [|exact H].
  intros y s s' k Hk. unfold for_range.
  apply (fold_agree (fun (s : store Z) k => s k)
           (fun x => DirectDrm.rasterize_pixel width height v1 v2 v3 x y));
    [|exact Hk].
  intros x t t' k' Hk'. apply rasterize_pixel_agree, Hk'.
Qed.

Lemma render_triangle_agree width height mvp culling v1 v2 v3 (fb fb' : store Z) (j : Z) :
  fb j = fb' j ->
  DirectDrm.render_triangle fb width height mvp culling v1 v2 v3 j
  = DirectDrm.render_triangle fb' width height mvp culling v1 v2 v3 j.
Proof.
  intros H. unfold DirectDrm.render_triangle.
  destruct (_ || _); [exact H|]. destruct (_ && _); [exact H|].
  apply rasterize_triangle_agree, H.
Qed.

Lemma render_loop_agree (fuel : nat) width height vertices mvp count culling (j : Z) :
  forall (i : Z) (fb fb' : store Z),
  fb j = fb' j ->
  DirectDrm.render_loop fuel fb width height vertices mvp count i culling j
  = DirectDrm.render_loop fuel fb' width height vertices mvp count i culling j.
Proof.
  induction fuel as [|fuel IH]; intros i fb fb' H; [exact H|].
  cbn [DirectDrm.render_loop].
  destruct (i <? count); [|exact H]. destruct (count <=? _); [exact H|].
  apply IH, render_triangle_agree, H.
Qed.

(** What the renderer leaves in a pixel depends on the previous frame only
    through that pixel. *)
Lemma render_agree device h width height va ua count first culling
    (fb fb' : store Z) (j : Z) :
  fb j = fb' j ->
  render_3d_cube_software device h fb width height va ua count first culling j
  = render_3d_cube_software device h fb' width height va ua count first culling j.
Proof.
  intros H. unfold render_3d_cube_software.
  destruct (GpuMemory.gibgo_map_gpu_memory device va _) as [[] [vertex_memory|]];
    try exact H.
  destruct (vertex_memory =? 0); [exact H|].
  destruct (GpuMemory.gibgo_map_gpu_memory device ua _) as [[] [uniform_memory|]];
    try exact H.
  destruct (uniform_memory =? 0); [exact H|].
  apply render_loop_agree, H.
Qed.

Lemma parse_clear_command (st : RenderState) (cmd : CommandRing.GibgoGPUCommand) :
  is_clear_command cmd = true ->
  parse_command st cmd
  = mkRenderState (rs_vertex_buffer_address st) (rs_uniform_buffer_address st)
      (rs_vertex_count st) (rs_first_vertex st) (rs_face_culling_enabled st)
      (cleared (rs_framebuffer st)).
Proof.
  unfold is_clear_command, parse_command, cleared. intros H. apply Z.eqb_eq in H.
  rewrite H.
  destruct (Z.eqb_spec GPU_CMD_CLEAR_FRAMEBUFFER GPU_CMD_SET_UNIFORM_BUFFER) as [E|_];
    [discriminate E|].
  destruct (Z.eqb_spec GPU_CMD_CLEAR_FRAMEBUFFER GPU_CMD_SET_VERTEX_BUFFER) as [E|_];
    [discriminate E|].
  destruct (Z.eqb_spec GPU_CMD_CLEAR_FRAMEBUFFER GPU_CMD_DRAW_PRIMITIVES) as [E|_];
    [discriminate E|].
  destruct (Z.eqb_spec GPU_CMD_CLEAR_FRAMEBUFFER GPU_CMD_ENABLE_FACE_CULLING) as [E|_];
    [discriminate E|].
  rewrite Z.eqb_refl. reflexivity.
Qed.

Lemma parse_other_command (st : RenderState) (cmd : CommandRing.GibgoGPUCommand) :
  is_clear_command cmd = false ->
  rs_framebuffer (parse_command st cmd) = rs_framebuffer st.
Proof.
  unfold is_clear_command, parse_command. intros H. rewrite H.
  destruct (_ =? GPU_CMD_SET_UNIFORM_BUFFER); [reflexivity|].
  destruct (_ =? GPU_CMD_SET_VERTEX_BUFFER); [reflexivity|].
  destruct (_ =? GPU_CMD_DRAW_PRIMITIVES); [reflexivity|].
  destruct (_ =? GPU_CMD_ENABLE_FACE_CULLING); reflexivity.
Qed.

Lemma parse_command_same_but_framebuffer (s s' : RenderState) (cmd : CommandRing.GibgoGPUCommand) :
  same_but_framebuffer s s' ->
  same_but_framebuffer (parse_command s cmd) (parse_command s' cmd).
Proof.
  intros (Hv & Hu & Hn & Hf & Hc). unfold parse_command, same_but_framebuffer.
  destruct (_ =? GPU_CMD_SET_UNIFORM_BUFFER);
    [cbn [rs_vertex_buffer_address rs_uniform_buffer_address rs_vertex_count
          rs_first_vertex rs_face_culling_enabled]; auto 6|].
  destruct (_ =? GPU_CMD_SET_VERTEX_BUFFER);
    [cbn [rs_vertex_buffer_address rs_uniform_buffer_address rs_vertex_count
          rs_first_vertex rs_face_culling_enabled]; auto 6|].
  destruct (_ =? GPU_CMD_DRAW_PRIMITIVES);
    [cbn [rs_vertex_buffer_address rs_uniform_buffer_address rs_vertex_count
          rs_first_vertex rs_face_culling_enabled]; auto 6|].
  destruct (_ =? GPU_CMD_ENABLE_FACE_CULLING);
    [cbn [rs_vertex_buffer_address rs_uniform_buffer_address rs_vertex_count
          rs_first_vertex rs_face_culling_enabled]; auto 6|].
  destruct (_ =? GPU_CMD_CLEAR_FRAMEBUFFER);
    cbn [rs_vertex_buffer_address rs_uniform_buffer_address rs_vertex_count
         rs_first_vertex rs_face_culling_enabled]; auto 6.
Qed.

Lemma cleared_twice (fb : store Z) (j : Z) : cleared (cleared fb) j = cleared fb j.
Proof.
  unfold cleared. rewrite !clear_framebuffer_at.
  destruct (_ && _); reflexivity.
Qed.

Lemma initial_state_framebuffer (fb : store Z) : rs_framebuffer (initial_state fb) = fb.
Proof. reflexivity. Qed.

Lemma initial_states_same (fb fb' : store Z) :
  same_but_framebuffer (initial_state fb) (initial_state fb').
Proof. unfold same_but_framebuffer, initial_state. repeat split. Qed.

Lemma parse_framebuffer_at (commands : list CommandRing.GibgoGPUCommand) : forall (st : RenderState) (j : Z),
  rs_framebuffer (parse_commands commands st) j
  = if existsb is_clear_command commands then cleared (rs_framebuffer st) j
    else rs_framebuffer st j.
Proof.
  induction commands as [|cmd rest IH]; intros st j; [reflexivity|].
  cbn [parse_commands List.fold_left existsb].
  fold (parse_commands rest (parse_command st cmd)). rewrite IH.
  destruct (is_clear_command cmd) eqn:Hcmd; cbn [orb].
  - rewrite parse_clear_command by exact Hcmd. cbn [rs_framebuffer].
    destruct (existsb is_clear_command rest); [apply cleared_twice|reflexivity].
  - rewrite parse_other_command by exact Hcmd. reflexivity.
Qed.

Lemma parse_without_clears (commands : list CommandRing.GibgoGPUCommand) : forall (st st' : RenderState),
  same_but_framebuffer st st' ->
  same_but_framebuffer (parse_commands commands st)
                       (parse_commands (List.filter not_clear_command commands) st')
  /\ rs_framebuffer (parse_commands (List.filter not_clear_command commands) st')
     = rs_framebuffer st'.
Proof.
  induction commands as [|cmd rest IH]; intros st st' H; [split; [exact H|reflexivity]|].
  cbn [List.filter]. destruct (not_clear_command cmd) eqn:Hnot;
    unfold not_clear_command in Hnot.
  - apply negb_true_iff in Hnot.
    change (parse_commands (cmd :: rest) st)
      with (parse_commands rest (parse_command st cmd)).
    change (parse_commands (cmd :: List.filter not_clear_command rest) st')
      with (parse_commands (List.filter not_clear_command rest) (parse_command st' cmd)).
    destruct (IH (parse_command st cmd) (parse_command st' cmd)
                (parse_command_same_but_framebuffer st st' cmd H)) as [Hsame Hfb].
    split; [exact Hsame|].
    rewrite Hfb. apply parse_other_command, Hnot.
  - apply negb_false_iff in Hnot.
    change (parse_commands (cmd :: rest) st)
      with (parse_commands rest (parse_command st cmd)).
    apply IH. rewrite parse_clear_command by exact Hnot.
    destruct H as (Hv & Hu & Hn & Hf & Hc). unfold same_but_framebuffer.
    cbn [rs_vertex_buffer_address rs_uniform_buffer_address rs_vertex_count
         rs_first_vertex rs_face_culling_enabled]. auto 6.
Qed.

(** The clear acts before the draw wherever it stands in the list, even
    after the draw command: executing a command list that contains a clear
    gives, pixel for pixel, the frame that executing the list without its
    clear commands gives on the cleared framebuffer. *)
Theorem clear_command_applies_before_the_draw
    (device : GpuMemory.GibgoGPUDevice) (h : GpuMemory.heap) (fb : store Z)
    (commands : list CommandRing.GibgoGPUCommand) (j : Z) :
  existsb is_clear_command commands = true ->
  execute_3d_cube_rendering device h fb commands j
  = execute_3d_cube_rendering device h (cleared fb)
      (List.filter not_clear_command commands) j.
Proof.
  intros Hclear. unfold execute_3d_cube_rendering.
  destruct (parse_without_clears commands (initial_state fb) (initial_state (cleared fb))
              (initial_states_same fb (cleared fb)))
    as [(Hv & Hu & Hn & Hf & Hc) Hfb].
  pose proof (parse_framebuffer_at commands (initial_state fb) j) as Hat.
  rewrite Hclear, initial_state_framebuffer in Hat.
  rewrite initial_state_framebuffer in Hfb.
  rewrite <- Hv, <- Hu, <- Hn, <- Hf, <- Hc, Hfb.
  destruct (_ && _); [|exact Hat].
  apply render_agree, Hat.
Qed.

Lemma clear_command_applies_before_the_draw_witness :
  let commands :=
    [CommandRing.mkCommand GPU_CMD_SET_VERTEX_BUFFER (low_word 0x1000000) (high_word 0x1000000) 32;
     CommandRing.mkCommand GPU_CMD_SET_UNIFORM_BUFFER (low_word 0x1000100) (high_word 0x1000100) 288;
     CommandRing.mkCommand GPU_CMD_DRAW_PRIMITIVES 3 0 0;
     CommandRing.mkCommand GPU_CMD_CLEAR_FRAMEBUFFER 0 0 0] in
  let frame :=
    execute_3d_cube_rendering GpuMemory.two_allocation_device frame_heap (fun _ => 7)
      commands in
  frame (350 * 800 + 400) = 0xFF555454 /\ frame 0 = 0xFF111111.
Proof.
  intros commands frame. unfold frame. split.
  - rewrite (clear_command_applies_before_the_draw GpuMemory.two_allocation_device
               frame_heap (fun _ => 7) commands (350 * 800 + 400) eq_refl).
    change (List.filter not_clear_command _) with frame_commands.
    rewrite frame_execute. apply frame_centroid.
  - rewrite (clear_command_applies_before_the_draw GpuMemory.two_allocation_device
               frame_heap (fun _ => 7) commands 0 eq_refl).
    change (List.filter not_clear_command _) with frame_commands.
    rewrite frame_execute, frame_corner. unfold cleared.
    rewrite clear_framebuffer_at. reflexivity.
Defined.

Lemma parse_uniform_command (st : RenderState) (cmd : CommandRing.GibgoGPUCommand) :
  CommandRing.command_type cmd = GPU_CMD_SET_UNIFORM_BUFFER ->
  parse_command st cmd
  = mkRenderState (rs_vertex_buffer_address st) (join_words cmd)
      (rs_vertex_count st) (rs_first_vertex st) (rs_face_culling_enabled st)
      (rs_framebuffer st).
Proof. unfold parse_command. intros ->. reflexivity. Qed.

Lemma parse_vertex_command (st : RenderState) (cmd : CommandRing.GibgoGPUCommand) :
  CommandRing.command_type cmd = GPU_CMD_SET_VERTEX_BUFFER ->
  parse_command st cmd
  = mkRenderState (join_words cmd) (rs_uniform_buffer_address st)
      (rs_vertex_count st) (rs_first_vertex st) (rs_face_culling_enabled st)
      (rs_framebuffer st).
Proof. unfold parse_command. intros ->. reflexivity. Qed.

(** The state after the four commands of a recorded frame. *)
Lemma parse_frame_commands (st : RenderState) (U V C D : CommandRing.GibgoGPUCommand) :
  CommandRing.command_type U = GPU_CMD_SET_UNIFORM_BUFFER ->
  CommandRing.command_type V = GPU_CMD_SET_VERTEX_BUFFER ->
  is_clear_command C = true -> is_draw_command D = true ->
  parse_commands [U; V; C; D] st
  = mkRenderState (join_words V) (join_words U)
      (CommandRing.param0 D) (CommandRing.param1 D) (rs_face_culling_enabled st)
      (cleared (rs_framebuffer st)).
Proof.
  intros HU HV HC HD. unfold parse_commands. cbn [List.fold_left].
  rewrite (parse_draw_command (parse_command (parse_command (parse_command st U) V) C) D HD).
  rewrite (parse_clear_command (parse_command (parse_command st U) V) C HC).
  cbn [rs_vertex_buffer_address rs_uniform_buffer_address rs_vertex_count rs_first_vertex
       rs_face_culling_enabled rs_framebuffer].
  rewrite (parse_vertex_command (parse_command st U) V HV).
  cbn [rs_vertex_buffer_address rs_uniform_buffer_address rs_vertex_count rs_first_vertex
       rs_face_culling_enabled rs_framebuffer].
  rewrite (parse_uniform_command st U HU). reflexivity.
Qed.

(** A frame recorded through the API and executed.  After
    [gibgo_begin_commands], [gibgo_set_uniform_buffer] and
    [gibgo_draw_primitives_internal] record four commands; executing them
    clears the 800x600 frame to 0xFF111111 and then, if the context has a
    vertex buffer and the count is positive, renders [count] vertices of it
    with the recorded uniform buffer and with face culling on (its default);
    otherwise the cleared frame is the result. *)
Theorem recorded_frame_is_cleared_then_drawn
    (device : GpuMemory.GibgoGPUDevice) (h : GpuMemory.heap) (fb : store Z)
    (buffer : store CommandRing.GibgoGPUCommand) (rec0 : Recording) (c : GibgoContext)
    (ua n count first_vertex : Z) :
  0 <= ua < 2 ^ 64 -> 0 <= vertex_buffer_address c < 2 ^ 64 ->
  let rec := snd (gibgo_begin_commands (Some buffer) rec0) in
  let rec1 := snd (gibgo_set_uniform_buffer c rec ua n) in
  let c1 := snd (fst (gibgo_set_uniform_buffer c rec ua n)) in
  let rec2 := snd (gibgo_draw_primitives_internal c1 rec1 count first_vertex) in
  recorded rec2
  = [CommandRing.mkCommand GPU_CMD_SET_UNIFORM_BUFFER (low_word ua) (high_word ua) n;
     CommandRing.mkCommand GPU_CMD_SET_VERTEX_BUFFER (low_word (vertex_buffer_address c))
       (high_word (vertex_buffer_address c)) (vertex_buffer_stride c);
     CommandRing.mkCommand GPU_CMD_CLEAR_FRAMEBUFFER 0 0 0;
     CommandRing.mkCommand GPU_CMD_DRAW_PRIMITIVES count first_vertex 0]
  /\ execute_3d_cube_rendering device h fb (recorded rec2)
     = if negb (vertex_buffer_address c =? 0) && (0 <? count)
       then render_3d_cube_software device h (cleared fb)
              Device.FRAME_WIDTH Device.FRAME_HEIGHT
              (vertex_buffer_address c) ua count first_vertex B32_TRUE
       else cleared fb.
Proof.
  intros Hua Hva rec rec1 c1 rec2.
  destruct (begin_recording_ok buffer rec0) as (Hok & Hempty & Hroom).
  fold rec in Hok, Hempty, Hroom.
  assert (Hlt : current_command_count rec < max_commands rec).
  { unfold room in Hroom. lia. }
  destruct (add_command_recorded rec GPU_CMD_SET_UNIFORM_BUFFER (low_word ua)
              (high_word ua) n Hok Hlt) as (_ & Hok1 & Hmax1 & Hcount1 & Hrecorded1).
  assert (Hrec1 : rec1 = snd (add_command rec GPU_CMD_SET_UNIFORM_BUFFER (low_word ua)
                                (high_word ua) n)).
  { subst rec1. unfold gibgo_set_uniform_buffer. destruct (add_command _ _ _ _ _).
    reflexivity. }
  assert (Hc1 : c1 = with_uniform_buffer c ua n).
  { subst c1. unfold gibgo_set_uniform_buffer. destruct (add_command _ _ _ _ _).
    reflexivity. }
  rewrite <- Hrec1 in Hok1, Hmax1, Hcount1, Hrecorded1.
  pose proof (draw_call_recorded c1 rec1 count first_vertex Hok1) as Hdraw.
  fold rec2 in Hdraw.
  assert (Hroom1 : (3 <= room rec1)%nat).
  { unfold room in *. rewrite Hmax1, Hcount1. lia. }
  rewrite take_ge in Hdraw by (cbn [length]; lia).
  rewrite Hrecorded1, Hempty in Hdraw. cbn [app] in Hdraw.
  assert (Hvb : vertex_buffer_address c1 = vertex_buffer_address c)
    by (rewrite Hc1; reflexivity).
  assert (Hst : vertex_buffer_stride c1 = vertex_buffer_stride c)
    by (rewrite Hc1; reflexivity).
  rewrite Hvb, Hst in Hdraw. split; [exact Hdraw|].
  rewrite Hdraw. unfold execute_3d_cube_rendering.
  rewrite (parse_frame_commands (initial_state fb)
             (CommandRing.mkCommand GPU_CMD_SET_UNIFORM_BUFFER (low_word ua) (high_word ua) n)
             (CommandRing.mkCommand GPU_CMD_SET_VERTEX_BUFFER (low_word (vertex_buffer_address c))
                (high_word (vertex_buffer_address c)) (vertex_buffer_stride c))
             (CommandRing.mkCommand GPU_CMD_CLEAR_FRAMEBUFFER 0 0 0)
             (CommandRing.mkCommand GPU_CMD_DRAW_PRIMITIVES count first_vertex 0)
             eq_refl eq_refl eq_refl eq_refl).
  cbn [rs_vertex_buffer_address rs_uniform_buffer_address rs_vertex_count rs_first_vertex
       rs_face_culling_enabled rs_framebuffer initial_state].
  rewrite !join_split_words by assumption. reflexivity.
Qed.

Lemma recorded_frame_is_cleared_then_drawn_witness :
  let buffer : store CommandRing.GibgoGPUCommand := fun _ => CommandRing.nop_command in
  let c := mkContext 800 600 0 0 0 0 0x1000000 32 3 0 0 false F32_ZERO F32_ONE 1 0 in
  let rec := snd (gibgo_begin_commands (Some buffer) no_recording) in
  let rec1 := snd (gibgo_set_uniform_buffer c rec 0x1000100 288) in
  let c1 := snd (fst (gibgo_set_uniform_buffer c rec 0x1000100 288)) in
  let rec2 := snd (gibgo_draw_primitives_internal c1 rec1 3 0) in
  let frame :=
    execute_3d_cube_rendering GpuMemory.two_allocation_device frame_heap (fun _ => 7)
      (recorded rec2) in
  recorded rec2
  = [CommandRing.mkCommand GPU_CMD_SET_UNIFORM_BUFFER (low_word 0x1000100)
       (high_word 0x1000100) 288;
     CommandRing.mkCommand GPU_CMD_SET_VERTEX_BUFFER (low_word 0x1000000)
       (high_word 0x1000000) 32;
     CommandRing.mkCommand GPU_CMD_CLEAR_FRAMEBUFFER 0 0 0;
     CommandRing.mkCommand GPU_CMD_DRAW_PRIMITIVES 3 0 0]
  /\ frame (350 * 800 + 400) = 0xFF555454
  /\ frame 0 = 0xFF111111.
Proof.
  intros buffer c rec rec1 c1 rec2 frame.
  pose proof (recorded_frame_is_cleared_then_drawn GpuMemory.two_allocation_device
                frame_heap (fun _ => 7) buffer no_recording c 0x1000100 288 3 0
                ltac:(lia) ltac:(cbn; lia)) as H.
  cbv zeta in H. destruct H as [Hrecorded Hframe].
  split; [exact Hrecorded|]. unfold frame, rec2, rec1, c1, rec. rewrite Hframe.
  change (negb (vertex_buffer_address c =? 0) && (0 <? 3)) with true. cbv iota.
  change (vertex_buffer_address c) with 0x1000000.
  change Device.FRAME_WIDTH with 800. change Device.FRAME_HEIGHT with 600.
  rewrite frame_render. split.
  - apply frame_centroid.
  - rewrite frame_corner. unfold cleared. rewrite clear_framebuffer_at. reflexivity.
Defined.

(** *** The triangle loop *)

Lemma render_loop_ext (fuel : nat) width height (v v' : store DirectDrm.GibgoVertex)
    mvp count first culling :
  0 <= first -> count <= 2 ^ 32 - 3 ->
  (forall i, first <= i < count -> v i = v' i) ->
  forall (i : Z) (fb : store Z), first <= i ->
  DirectDrm.render_loop fuel fb width height v mvp count i culling
  = DirectDrm.render_loop fuel fb width height v' mvp count i culling.
Proof.
  intros Hfirst Hcount Hv. induction fuel as [|fuel IH]; intros i fb Hi; [reflexivity|].
  cbn [DirectDrm.render_loop].
  destruct (Z.ltb_spec i count) as [Hlt|]; [|reflexivity].
  assert (W1 : wrap32 (i + 1) = i + 1) by (unfold wrap32, u32_modulus; apply Z.mod_small; lia).
  assert (W2 : wrap32 (i + 2) = i + 2) by (unfold wrap32, u32_modulus; apply Z.mod_small; lia).
  assert (W3 : wrap32 (i + 3) = i + 3) by (unfold wrap32, u32_modulus; apply Z.mod_small; lia).
  rewrite W1, W2, W3.
  destruct (Z.leb_spec count (i + 2)) as [|Hin]; [reflexivity|].
  rewrite <- (Hv i), <- (Hv (i + 1)), <- (Hv (i + 2)) by lia.
  apply IH. lia.
Qed.

(** The triangle loop of [render_3d_cube_software] reads vertices with
    index from [first_vertex] up to [vertex_count - 1] only ([vertex_count]
    is an end index, not a number of vertices): two vertex buffers that
    agree on that range give the same frame.  When fewer than three
    vertices lie in the range nothing is drawn. *)
Theorem triangle_loop_reads_only_the_drawn_range
    (fb : store Z) (width height : Z) (v v' : store DirectDrm.GibgoVertex)
    (mvp : Mat4f) (count first : Z) (culling : b32) :
  0 <= first -> count <= 2 ^ 32 - 3 ->
  ((forall i, first <= i < count -> v i = v' i) ->
   DirectDrm.render_3d_cube_software fb width height v mvp count first culling
   = DirectDrm.render_3d_cube_software fb width height v' mvp count first culling)
  /\ (count < first + 3 ->
      DirectDrm.render_3d_cube_software fb width height v mvp count first culling = fb).
Proof.
  intros Hfirst Hcount. split.
  - intros Hv. unfold DirectDrm.render_3d_cube_software.
    apply (render_loop_ext _ width height v v' mvp count first culling Hfirst Hcount Hv).
    lia.
  - intros Hfew. unfold DirectDrm.render_3d_cube_software.
    destruct (Z.to_nat count) as [|fuel]; [reflexivity|].
    cbn [DirectDrm.render_loop].
    destruct (Z.ltb_spec first count) as [Hlt|]; [|reflexivity].
    replace (wrap32 (first + 2)) with (first + 2)
      by (unfold wrap32, u32_modulus; symmetry; apply Z.mod_small; lia).
    destruct (Z.leb_spec count (first + 2)); [reflexivity|lia].
Qed.

Lemma triangle_loop_reads_only_the_drawn_range_witness :
  DirectDrm.render_3d_cube_software (fun _ => 0) 800 600 DirectDrm.clockwise_vertices
    mat4f_identity 5 3 B32_FALSE
  = (fun _ => 0).
Proof.
  apply (proj2 (triangle_loop_reads_only_the_drawn_range (fun _ => 0) 800 600
                  DirectDrm.clockwise_vertices DirectDrm.clockwise_vertices
                  mat4f_identity 5 3 B32_FALSE ltac:(lia) ltac:(lia))).
  lia.
Defined.

End RenderProperties.

(* ===================================================================== *)
(** ** Uploads through the pool (part_001, gpu_commands.c) *)
(* ===================================================================== *)

Section UploadProperties.
Import GpuMemory PoolCalls Commands.

(** Every allocation either fails and leaves the device alone, or takes one
    more slot of a table that was not full. *)
Lemma allocate_counts (device : GibgoGPUDevice) (size_req : Z) :
  0 <= allocation_count device <= ALLOCATION_SLOTS ->
  let '(r, device', _) := gibgo_allocate_gpu_memory device size_req in
  (r <> GIBGO_RESULT_SUCCESS /\ device' = device)
  \/ (r = GIBGO_RESULT_SUCCESS /\ allocation_count device < ALLOCATION_SLOTS
      /\ allocation_count device' = allocation_count device + 1).
Proof.
  intros Hcount. unfold gibgo_allocate_gpu_memory.
  destruct (size_req =? 0); [left; split; [discriminate|reflexivity]|].
  destruct (_ <? _); [left; split; [discriminate|reflexivity]|].
  destruct (Z.leb_spec ALLOCATION_SLOTS (allocation_count device)) as [|Hfree];
    [left; split; [discriminate|reflexivity]|].
  right. split; [reflexivity|]. split; [assumption|].
  cbn [allocation_count]. unfold wrap32, u32_modulus, ALLOCATION_SLOTS in *.
  apply Z.mod_small. lia.
Qed.

Lemma run_counts (calls : list PoolCall) : forall device : GibgoGPUDevice,
  0 <= allocation_count device <= ALLOCATION_SLOTS ->
  let '(results, final) := run device calls in
  length results = length calls
  /\ allocation_count final
     = allocation_count device + Z.of_nat (granted calls results)
  /\ allocation_count final <= ALLOCATION_SLOTS.
Proof.
  induction calls as [|c rest IH]; intros device Hcount.
  - cbn. repeat split; lia.
  - cbn [run]. destruct c as [size_req|address size_req]; cbn [call].
    + pose proof (allocate_counts device size_req Hcount) as Hstep.
      destruct (gibgo_allocate_gpu_memory device size_req) as [[r device'] out].
      destruct Hstep as [[Hr ->] | (-> & Hfree & Hnext)].
      * specialize (IH device Hcount). destruct (run device rest) as [results final].
        destruct IH as (Hlen & Hfinal & Hle). cbn [length granted].
        split; [lia|]. split; [|assumption].
        destruct r; try assumption. contradiction.
      * specialize (IH device' ltac:(lia)). destruct (run device' rest) as [results final].
        destruct IH as (Hlen & Hfinal & Hle). cbn [length granted].
        split; [lia|]. split; [lia|assumption].
    + unfold gibgo_free_gpu_memory.
      specialize (IH device Hcount). destruct (run device rest) as [results final].
      destruct IH as (Hlen & Hfinal & Hle). cbn [length granted].
      split; [lia|]. split; assumption.
Qed.

(** Memory is never reclaimed.  In any sequence of allocate and free calls
    on a fresh device at most 256 allocations succeed, whatever their sizes
    and however many frees are interleaved: [gibgo_free_gpu_memory] returns
    SUCCESS without releasing a slot, and the allocation count after the run
    is the number of successful allocations. *)
Theorem at_most_256_allocations_ever_succeed
    (physical_address memory size0 : Z) (calls : list PoolCall) :
  let '(results, final) := run (fresh_device physical_address memory size0) calls in
  (granted calls results <= 256)%nat
  /\ allocation_count final = Z.of_nat (granted calls results)
  /\ (forall address size_req,
        gibgo_free_gpu_memory final address size_req = (GIBGO_RESULT_SUCCESS, final))
  /\ (allocation_count final = 256 ->
      forall size_req, fst (fst (gibgo_allocate_gpu_memory final size_req))
                       <> GIBGO_RESULT_SUCCESS).
Proof.
  pose proof (run_counts calls (fresh_device physical_address memory size0)) as H.
  cbn [fresh_device allocation_count] in H. specialize (H ltac:(unfold ALLOCATION_SLOTS; lia)).
  destruct (run (fresh_device physical_address memory size0) calls) as [results final].
  destruct H as (_ & Hfinal & Hle). unfold ALLOCATION_SLOTS in *.
  split; [lia|]. split; [lia|]. split; [reflexivity|].
  intros Hfull size_req.
  pose proof (allocate_counts final size_req ltac:(unfold ALLOCATION_SLOTS; lia)) as Hstep.
  destruct (gibgo_allocate_gpu_memory final size_req) as [[r device'] out]. cbn [fst].
  destruct Hstep as [[Hr _] | (_ & Hfree & _)]; [exact Hr|].
  unfold ALLOCATION_SLOTS in Hfree. lia.
Qed.

(** *** Uploading into a new or a recorded allocation *)

Lemma length_read_bytes (h : heap) (n : nat) : forall p, length (read_bytes h p n) = n.
Proof. induction n as [|n IH]; intros p; simpl; [reflexivity|]. now rewrite IH. Qed.

Lemma read_bytes_ext (h h' : heap) (n : nat) : forall p,
  (forall k, 0 <= k < Z.of_nat n -> h (p + k) = h' (p + k)) ->
  read_bytes h p n = read_bytes h' p n.
Proof.
  induction n as [|n IH]; intros p H; simpl; [reflexivity|]. f_equal.
  - specialize (H 0 ltac:(lia)). now rewrite Z.add_0_r in H.
  - apply IH. intros k Hk. replace (p + 1 + k) with (p + (1 + k)) by lia. apply H. lia.
Qed.

Lemma memcpy_above (data : list Z) : forall (h : heap) (dst j : Z),
  dst + Z.of_nat (length data) <= j -> memcpy h dst data j = h j.
Proof.
  induction data as [|b rest IH]; intros h dst j Hj; simpl; [reflexivity|].
  simpl in Hj. rewrite IH by lia. apply store_set_ne. lia.
Qed.

Lemma read_back_bytes (h : heap) (p : Z) (source : store Z) (n : Z) :
  read_bytes (memcpy h p (bytes_of source n)) p (Z.to_nat n) = bytes_of source n.
Proof.
  pose proof (read_back_memcpy (bytes_of source n) h p) as H.
  unfold bytes_of in *. rewrite length_read_bytes in H. exact H.
Qed.

(** A request a ready pool grants. *)
Lemma allocate_ready (device : GibgoGPUDevice) used (size_req : Z) :
  ready device used size_req ->
  gibgo_allocate_gpu_memory device size_req
  = (GIBGO_RESULT_SUCCESS, device_after device size_req,
     Some (vram_physical_address device + pool_used device))
  /\ pool_ok (device_after device size_req)
  /\ table_ok (device_after device size_req) (used ++ [new_slot device size_req])
  /\ size_req <= rounded size_req.
Proof.
  intros (Hok & Htab & Hreq & Hfits & Hcount & Hmem).
  destruct Hreq as [Hpos Hwrap]. pose proof (rounded_bounds size_req Hpos) as [Hr _].
  destruct (allocate_step device size_req Hok (conj Hpos Hwrap))
    as [[_ [Hbig|Hfull]] | (Heq & _ & _ & Hok')]; [lia|lia|].
  split; [exact Heq|]. split; [exact Hok'|]. split; [|lia].
  apply table_ok_after; [assumption|assumption|assumption|lia].
Qed.

(** Mapping a slot of the table at its own address. *)
Lemma map_recorded (device : GibgoGPUDevice) used (i : nat) (a : GibgoAllocation) (m : Z) :
  table_ok device used -> used !! i = Some a -> 0 < m <= size a ->
  gibgo_map_gpu_memory device (gpu_address a) m
  = (GIBGO_RESULT_SUCCESS, Some (cpu_pointer a)).
Proof.
  intros Htab Hi Hm.
  assert (Hslot : slots device !! i = Some a).
  { rewrite (table_slots _ _ Htab). destruct Htab as (Hall & _). rewrite Hall.
    rewrite lookup_app_l by (eapply lookup_lt_Some; exact Hi). exact Hi. }
  assert (Huse : in_use a = true).
  { destruct Htab as (_ & _ & _ & Hch).
    now destruct (slots_chained_lookup _ _ _ _ _ _ _ Hch Hi). }
  destruct (table_selected device used i a Htab Hslot Huse) as (Hsel & _).
  apply (map_of_selected device (gpu_address a) m i a); [assumption|lia|lia].
Qed.

Lemma map_new_slot (device : GibgoGPUDevice) used (size_req m : Z) :
  ready device used size_req -> 0 < m <= rounded size_req ->
  gibgo_map_gpu_memory (device_after device size_req)
    (vram_physical_address device + pool_used device) m
  = (GIBGO_RESULT_SUCCESS, Some (pool_memory device + pool_used device)).
Proof.
  intros Hready Hm. destruct (allocate_ready device used size_req Hready) as (_ & _ & Htab & _).
  apply (map_recorded _ _ (length used) (new_slot device size_req) m Htab).
  - apply list_lookup_middle. reflexivity.
  - exact Hm.
Qed.

(** The bytes of the slots already in use lie below the bump pointer. *)
Lemma recorded_slot_below (device : GibgoGPUDevice) used (i : nat) (a : GibgoAllocation) :
  table_ok device used -> used !! i = Some a ->
  0 < size a
  /\ pool_memory device <= cpu_pointer a
  /\ cpu_pointer a + size a <= pool_memory device + pool_used device.
Proof.
  intros (_ & _ & _ & Hch) Hi.
  destruct (slots_chained_lookup _ _ _ _ _ _ _ Hch Hi) as (_ & Hlo & Hsz & Hp & Hhi).
  lia.
Qed.

(** What the first upload of a context returns on a pool with room. *)
Lemma first_upload (c : GibgoContext) (w : World) (used : list GibgoAllocation)
    (vertex_data : store Z) (count stride : Z) :
  vertex_buffer_address c = 0 -> count <> 0 -> stride <> 0 ->
  ready (device_of w) used (wrap32 (count * stride)) ->
  gibgo_upload_vertices c w vertex_data count stride
  = (GIBGO_RESULT_SUCCESS,
     with_vertex_buffer c (vram_physical_address (device_of w) + pool_used (device_of w))
       stride count,
     mkWorld (device_after (device_of w) (wrap32 (count * stride)))
       (memcpy (heap_of w) (pool_memory (device_of w) + pool_used (device_of w))
          (bytes_of vertex_data (wrap32 (count * stride))))).
Proof.
  intros Hnew Hcount Hstride Hready.
  pose proof Hready as (_ & _ & [Hpos _] & _).
  destruct (allocate_ready _ used _ Hready) as (Halloc & _ & _ & Hround).
  pose proof (map_new_slot _ used _ (wrap32 (count * stride)) Hready ltac:(lia)) as Hmap.
  unfold gibgo_upload_vertices.
  apply Z.eqb_neq in Hcount as ->. apply Z.eqb_neq in Hstride as ->. cbn [orb].
  rewrite Hnew, Z.eqb_refl, Halloc.
  cbv beta iota zeta. cbn [vertex_buffer_address with_vertex_buffer].
  rewrite Hmap. reflexivity.
Qed.

(** The first upload of a context ([vertex_buffer_address] still 0) on a
    pool with room: a new allocation is made for [count * stride] bytes,
    the product taken modulo 2^32; the context records its address, the
    stride and the count; the bytes read back through a map of that address
    are the first [buffer_size] bytes of the vertex data; and no byte of
    any allocation made before has changed. *)
Theorem first_upload_is_read_back_and_spares_other_allocations
    (c : GibgoContext) (w : World) (used : list GibgoAllocation)
    (vertex_data : store Z) (count stride : Z) :
  vertex_buffer_address c = 0 -> count <> 0 -> stride <> 0 ->
  ready (device_of w) used (wrap32 (count * stride)) ->
  let buffer_size := wrap32 (count * stride) in
  let device := device_of w in
  let address := vram_physical_address device + pool_used device in
  let pointer := pool_memory device + pool_used device in
  let '(r, c', w') := gibgo_upload_vertices c w vertex_data count stride in
  r = GIBGO_RESULT_SUCCESS
  /\ c' = with_vertex_buffer c address stride count
  /\ device_of w' = device_after device buffer_size
  /\ gibgo_map_gpu_memory (device_of w') address buffer_size
     = (GIBGO_RESULT_SUCCESS, Some pointer)
  /\ read_bytes (heap_of w') pointer (Z.to_nat buffer_size)
     = bytes_of vertex_data buffer_size
  /\ (forall (i : nat) (a : GibgoAllocation) (k : Z),
        used !! i = Some a -> 0 <= k < size a ->
        heap_of w' (cpu_pointer a + k) = heap_of w (cpu_pointer a + k)).
Proof.
  intros Hnew Hcount Hstride Hready buffer_size device address pointer.
  pose proof Hready as (_ & Htab & [Hpos _] & _).
  destruct (allocate_ready device used buffer_size Hready) as (_ & _ & _ & Hround).
  pose proof (map_new_slot device used buffer_size buffer_size Hready ltac:(lia)) as Hmap.
  rewrite (first_upload c w used vertex_data count stride Hnew Hcount Hstride Hready).
  cbn [device_of heap_of].
  split; [reflexivity|]. split; [reflexivity|]. split; [reflexivity|].
  split; [exact Hmap|]. split; [apply read_back_bytes|].
  intros i a k Hi Hk.
  destruct (recorded_slot_below device used i a Htab Hi) as (_ & _ & Hbelow).
  apply memcpy_below. unfold device in Hbelow. lia.
Qed.

Lemma first_upload_is_read_back_and_spares_other_allocations_witness :
  let c := mkContext 800 600 0 0 0 0 0 0 0 0 0 false F32_ZERO F32_ONE 1 0 in
  let w := mkWorld small_device (fun _ => 0) in
  let '(r, c', w') := gibgo_upload_vertices c w (fun k => k mod 256) 3 32 in
  r = GIBGO_RESULT_SUCCESS
  /\ vertex_buffer_address c' = 0x1000000
  /\ read_bytes (heap_of w') 0x7F0000000000 (Z.to_nat 96)
     = bytes_of (fun k => k mod 256) 96.
Proof.
  intros c w.
  pose proof (first_upload_is_read_back_and_spares_other_allocations c w []
                (fun k => k mod 256) 3 32 eq_refl ltac:(lia) ltac:(lia)) as H.
  assert (Hready : ready (device_of w) [] (wrap32 (3 * 32))).
  { unfold ready. split; [apply small_device_ok|]. split; [apply table_ok_fresh|].
    vm_compute. repeat split; congruence. }
  specialize (H Hready). cbv zeta in H.
  destruct (gibgo_upload_vertices c w (fun k => k mod 256) 3 32) as [[r c'] w'].
  destruct H as (Hr & Hc & _ & _ & Hread & _).
  split; [exact Hr|]. split; [rewrite Hc; reflexivity|exact Hread].
Defined.

(** Later uploads reuse the buffer of the first one and never allocate.
    With the context's vertex buffer recorded in the table as slot [a]: an
    upload of at most [size a] bytes (the rounded size of the first upload)
    overwrites the buffer in place and succeeds; a larger one, and one whose
    byte count [count * stride] is a multiple of 2^32, returns
    INVALID_PARAMETER and changes neither the context, nor the device, nor
    the memory. *)
Theorem later_uploads_are_bounded_by_the_first_allocation
    (c : GibgoContext) (w : World) (used : list GibgoAllocation) (i : nat)
    (a : GibgoAllocation) (vertex_data : store Z) (count stride : Z) :
  count <> 0 -> stride <> 0 ->
  table_ok (device_of w) used -> used !! i = Some a ->
  vertex_buffer_address c = gpu_address a -> gpu_address a <> 0 ->
  let buffer_size := wrap32 (count * stride) in
  (0 < buffer_size <= size a ->
   gibgo_upload_vertices c w vertex_data count stride
   = (GIBGO_RESULT_SUCCESS,
      with_vertex_buffer c (gpu_address a) stride count,
      mkWorld (device_of w)
        (memcpy (heap_of w) (cpu_pointer a) (bytes_of vertex_data buffer_size))))
  /\ (size a < buffer_size \/ buffer_size = 0 ->
      gibgo_upload_vertices c w vertex_data count stride
      = (GIBGO_RESULT_ERROR_INVALID_PARAMETER, c, w)).
Proof.
  intros Hcount Hstride Htab Hi Hvb Hnz buffer_size.
  assert (Hslot : slots (device_of w) !! i = Some a).
  { rewrite (table_slots _ _ Htab). destruct Htab as (Hall & _). rewrite Hall.
    rewrite lookup_app_l by (eapply lookup_lt_Some; exact Hi). exact Hi. }
  assert (Huse : in_use a = true).
  { destruct Htab as (_ & _ & _ & Hch).
    now destruct (slots_chained_lookup _ _ _ _ _ _ _ Hch Hi). }
  destruct (table_selected (device_of w) used i a Htab Hslot Huse) as (Hsel & _).
  apply find_allocation_selected in Hsel.
  unfold gibgo_upload_vertices.
  apply Z.eqb_neq in Hcount as ->. apply Z.eqb_neq in Hstride as ->. cbn [orb].
  rewrite Hvb. apply Z.eqb_neq in Hnz as ->. fold buffer_size. cbv beta iota zeta.
  unfold gibgo_map_gpu_memory. rewrite !Hvb, Hsel.
  split.
  - intros [Hpos Hfits].
    destruct (Z.eqb_spec buffer_size 0) as [|_]; [lia|].
    destruct (Z.ltb_spec (size a) buffer_size) as [|_]; [lia|].
    reflexivity.
  - intros Hbad. destruct w as [device h]. cbn [device_of heap_of].
    destruct (Z.eqb_spec buffer_size 0) as [|Hnz']; [reflexivity|].
    destruct (Z.ltb_spec (size a) buffer_size) as [|]; [reflexivity|lia].
Qed.

Lemma later_uploads_are_bounded_by_the_first_allocation_witness :
  gibgo_upload_vertices
    (mkContext 800 600 0 0 0 0 0x1000000 32 3 0 0 false F32_ZERO F32_ONE 1 0)
    (mkWorld one_allocation_device (fun _ => 0)) (fun _ => 1) 9 32
  = (GIBGO_RESULT_ERROR_INVALID_PARAMETER,
     mkContext 800 600 0 0 0 0 0x1000000 32 3 0 0 false F32_ZERO F32_ONE 1 0,
     mkWorld one_allocation_device (fun _ => 0)).
Proof.
  apply (proj2 (later_uploads_are_bounded_by_the_first_allocation
                  (mkContext 800 600 0 0 0 0 0x1000000 32 3 0 0 false F32_ZERO F32_ONE 1 0)
                  (mkWorld one_allocation_device (fun _ => 0))
                  [mkAllocation 0x1000000 0x7F0000000000 256 true] 0%nat
                  (mkAllocation 0x1000000 0x7F0000000000 256 true)
                  (fun _ => 1) 9 32 ltac:(lia) ltac:(lia)
                  ltac:(split; [vm_compute; reflexivity|];
                        split; [unfold ALLOCATION_SLOTS; simpl; lia|];
                        vm_compute; repeat split; first [reflexivity | discriminate])
                  eq_refl eq_refl ltac:(cbn; lia))).
  left. vm_compute. reflexivity.
Defined.

(** Vertices past the uploaded bytes are read from whatever the pool held. *)
Lemma mapped_vertices_past_the_copy (h : heap) (p : Z) (data : list Z) (i : Z) :
  Z.of_nat (length data) <= sizeof_GibgoVertex * i ->
  mapped_vertices (memcpy h p data) p i = mapped_vertices h p i.
Proof.
  intros Hi. unfold mapped_vertices, read_vertex, read_vec3f, read_f32, read_u32.
  rewrite !memcpy_above by lia. reflexivity.
Qed.

(** The size check of a draw is made against the rounded size of the
    allocation, not against what was uploaded.  After a first upload of [n]
    vertices (32 bytes each) a draw of [m] vertices maps the vertex buffer
    successfully whenever [32 * m] is at most [32 * n] rounded up to 256,
    also for [m > n]: the vertices from index [n] on are then read from
    bytes the upload did not write.  A draw beyond the rounded size is not
    reported: the renderer returns the frame unchanged. *)
Theorem draw_size_is_checked_against_the_rounded_allocation
    (c : GibgoContext) (w : World) (used : list GibgoAllocation)
    (vertex_data : store Z) (n : Z) :
  vertex_buffer_address c = 0 -> 0 < n -> sizeof_GibgoVertex * n < 2 ^ 32 ->
  ready (device_of w) used (sizeof_GibgoVertex * n) ->
  let device := device_of w in
  let address := vram_physical_address device + pool_used device in
  let pointer := pool_memory device + pool_used device in
  let '(_, c', w') := gibgo_upload_vertices c w vertex_data n sizeof_GibgoVertex in
  vertex_buffer_address c' = address
  /\ (forall m, 0 < m -> sizeof_GibgoVertex * m <= rounded (sizeof_GibgoVertex * n) ->
        gibgo_map_gpu_memory (device_of w') address (wrap64 (m * sizeof_GibgoVertex))
        = (GIBGO_RESULT_SUCCESS, Some pointer))
  /\ (forall i, n <= i ->
        mapped_vertices (heap_of w') pointer i = mapped_vertices (heap_of w) pointer i)
  /\ (forall m fb width height ua first culling,
        rounded (sizeof_GibgoVertex * n) < sizeof_GibgoVertex * m < 2 ^ 64 ->
        render_3d_cube_software (device_of w') (heap_of w') fb width height
          address ua m first culling = fb).
Proof.
  intros Hnew Hn Hsmall Hready device address pointer.
  assert (Hsize : wrap32 (n * sizeof_GibgoVertex) = sizeof_GibgoVertex * n).
  { unfold wrap32, u32_modulus, sizeof_GibgoVertex in *.
    rewrite Z.mod_small by lia. lia. }
  assert (Hready' : ready (device_of w) used (wrap32 (n * sizeof_GibgoVertex)))
    by (rewrite Hsize; exact Hready).
  rewrite (first_upload c w used vertex_data n sizeof_GibgoVertex Hnew ltac:(lia)
             ltac:(unfold sizeof_GibgoVertex; lia) Hready').
  rewrite Hsize. cbn [device_of heap_of vertex_buffer_address with_vertex_buffer].
  fold device address pointer.
  pose proof Hready as (_ & _ & [Hpos Hwrap] & Hfits & _).
  pose proof (rounded_bounds _ Hpos) as [Hr _].
  destruct (allocate_ready device used _ Hready) as (_ & Hok' & Htab' & _).
  split; [reflexivity|]. split; [|split].
  - intros m Hm Hle.
    assert (Hw : wrap64 (m * sizeof_GibgoVertex) = sizeof_GibgoVertex * m).
    { unfold wrap64, u64_modulus, sizeof_GibgoVertex in *.
      destruct Hok' as (_ & _ & _ & Htop). unfold device_after in Htop.
      cbn [pool_size vram_physical_address] in Htop.
      rewrite Z.mod_small by lia. lia. }
    rewrite Hw. apply (map_new_slot device used _ _ Hready).
    unfold sizeof_GibgoVertex in *. lia.
  - intros i Hi. apply mapped_vertices_past_the_copy.
    unfold bytes_of. rewrite length_read_bytes. unfold sizeof_GibgoVertex in *. lia.
  - intros m fb width height ua first culling Hm.
    assert (Hw : wrap64 (m * sizeof_GibgoVertex) = sizeof_GibgoVertex * m).
    { unfold wrap64, u64_modulus, sizeof_GibgoVertex in *.
      rewrite Z.mod_small by lia. lia. }
    unfold render_3d_cube_software. rewrite Hw.
    assert (Hslot : slots (device_after device (sizeof_GibgoVertex * n)) !! length used
                    = Some (new_slot device (sizeof_GibgoVertex * n))).
    { rewrite (table_slots _ _ Htab'). destruct Htab' as (Hall & _). rewrite Hall.
      rewrite lookup_app_l by (rewrite length_app; cbn [length]; lia).
      apply list_lookup_middle. reflexivity. }
    destruct (table_selected _ _ _ _ Htab' Hslot eq_refl) as (Hsel & _).
    apply find_allocation_selected in Hsel.
    cbn [new_slot gpu_address] in Hsel. fold address in Hsel.
    unfold gibgo_map_gpu_memory. rewrite Hsel. cbn [new_slot size].
    destruct (Z.eqb_spec (sizeof_GibgoVertex * m) 0) as [|_]; [reflexivity|].
    destruct (Z.ltb_spec (rounded (sizeof_GibgoVertex * n)) (sizeof_GibgoVertex * m));
      [reflexivity|lia].
Qed.

Lemma draw_size_is_checked_against_the_rounded_allocation_witness :
  let c := mkContext 800 600 0 0 0 0 0 0 0 0 0 false F32_ZERO F32_ONE 1 0 in
  let w := mkWorld small_device (fun _ => 0) in
  let '(_, c', w') := gibgo_upload_vertices c w (fun k => k mod 256) 3 sizeof_GibgoVertex in
  gibgo_map_gpu_memory (device_of w') 0x1000000 (wrap64 (8 * sizeof_GibgoVertex))
  = (GIBGO_RESULT_SUCCESS, Some 0x7F0000000000).
Proof.
  intros c w.
  assert (Hready : ready (device_of w) [] (sizeof_GibgoVertex * 3)).
  { unfold ready. split; [apply small_device_ok|]. split; [apply table_ok_fresh|].
    vm_compute. repeat split; congruence. }
  pose proof (draw_size_is_checked_against_the_rounded_allocation c w []
                (fun k => k mod 256) 3 eq_refl ltac:(lia)
                ltac:(unfold sizeof_GibgoVertex; lia) Hready) as H.
  cbv zeta in H.
  destruct (gibgo_upload_vertices c w (fun k => k mod 256) 3 sizeof_GibgoVertex)
    as [[r c'] w'].
  destruct H as (_ & Hmap & _).
  apply (Hmap 8); [lia|]. vm_compute. discriminate.
Defined.

(** *** Shaders and uniform data *)

Lemma upload_bytes_new (device : GibgoGPUDevice) used (n : Z) (h : heap) (source : store Z) :
  ready device used n ->
  upload_bytes (device_after device n) h
    (vram_physical_address device + pool_used device) n source
  = memcpy h (pool_memory device + pool_used device) (bytes_of source n).
Proof.
  intros Hready. pose proof Hready as (_ & _ & [Hpos _] & _).
  destruct (allocate_ready device used n Hready) as (_ & _ & _ & Hround).
  unfold upload_bytes. rewrite (map_new_slot device used n n Hready) by lia. reflexivity.
Qed.

Lemma upload_bytes_recorded (device : GibgoGPUDevice) used (i : nat) (a : GibgoAllocation)
    (n : Z) (h : heap) (source : store Z) :
  table_ok device used -> used !! i = Some a -> 0 < n <= size a ->
  upload_bytes device h (gpu_address a) n source
  = memcpy h (cpu_pointer a) (bytes_of source n).
Proof.
  intros Htab Hi Hn. unfold upload_bytes.
  rewrite (map_recorded device used i a n Htab Hi Hn). reflexivity.
Qed.

(** [gibgo_load_shaders] on a pool with room for both shaders: two
    consecutive allocations are made, the context records their addresses,
    each shader is read back unchanged from its own allocation (the second
    copy does not reach into the first), and the two shader commands are
    recorded as far as the recorder has room. *)
Theorem loaded_shaders_are_read_back
    (c : GibgoContext) (w : World) (rec : Recording) (used : list GibgoAllocation)
    (vertex_spirv fragment_spirv : store Z) (vertex_size fragment_size : Z) :
  ready (device_of w) used vertex_size ->
  ready (device_after (device_of w) vertex_size)
        (used ++ [new_slot (device_of w) vertex_size]) fragment_size ->
  let device := device_of w in
  let vs := vram_physical_address device + pool_used device in
  let fs := vs + rounded vertex_size in
  let vertex_pointer := pool_memory device + pool_used device in
  let fragment_pointer := vertex_pointer + rounded vertex_size in
  let '(r, c', w', rec') :=
    gibgo_load_shaders c w rec vertex_spirv vertex_size fragment_spirv fragment_size in
  r = GIBGO_RESULT_SUCCESS
  /\ c' = with_shaders c vs fs
  /\ device_of w' = device_after (device_after device vertex_size) fragment_size
  /\ read_bytes (heap_of w') vertex_pointer (Z.to_nat vertex_size)
     = bytes_of vertex_spirv vertex_size
  /\ read_bytes (heap_of w') fragment_pointer (Z.to_nat fragment_size)
     = bytes_of fragment_spirv fragment_size
  /\ (recording_ok rec ->
      recorded rec'
      = recorded rec
        ++ take (room rec)
             [CommandRing.mkCommand GPU_CMD_SET_VERTEX_SHADER (low_word vs) (high_word vs)
                vertex_size;
              CommandRing.mkCommand GPU_CMD_SET_FRAGMENT_SHADER (low_word fs) (high_word fs)
                fragment_size]).
Proof.
  intros Hready1 Hready2 device vs fs vertex_pointer fragment_pointer.
  pose proof Hready1 as (_ & _ & [Hpos1 _] & _).
  pose proof Hready2 as (_ & _ & [Hpos2 _] & _).
  destruct (allocate_ready device used vertex_size Hready1) as (Halloc1 & _ & _ & Hround1).
  destruct (allocate_ready _ _ fragment_size Hready2) as (Halloc2 & _ & Htab2 & Hround2).
  cbn [device_after vram_physical_address pool_used pool_memory] in Halloc2.
  fold device in Halloc1, Halloc2.
  unfold gibgo_load_shaders. fold device. rewrite Halloc1. cbv beta iota zeta.
  rewrite Halloc2. cbv beta iota zeta.
  fold vs. replace (vram_physical_address device + (pool_used device + rounded vertex_size))
    with fs by (unfold fs, vs; lia).
  assert (Hup1 : forall h,
            upload_bytes (device_after (device_after device vertex_size) fragment_size) h
              vs vertex_size vertex_spirv
            = memcpy h vertex_pointer (bytes_of vertex_spirv vertex_size)).
  { intros h.
    apply (upload_bytes_recorded _ _ (length used) (new_slot device vertex_size)
             vertex_size h vertex_spirv Htab2).
    - rewrite lookup_app_l by (rewrite length_app; cbn [length]; lia).
      apply list_lookup_middle. reflexivity.
    - cbn [new_slot size]. lia. }
  assert (Hup2 : forall h,
            upload_bytes (device_after (device_after device vertex_size) fragment_size) h
              fs fragment_size fragment_spirv
            = memcpy h fragment_pointer (bytes_of fragment_spirv fragment_size)).
  { intros h.
    pose proof (upload_bytes_new _ _ fragment_size h fragment_spirv Hready2) as H.
    cbn [device_after vram_physical_address pool_used pool_memory] in H.
    fold device in H.
    replace (vram_physical_address device + (pool_used device + rounded vertex_size))
      with fs in H by (unfold fs, vs; lia).
    replace (pool_memory device + (pool_used device + rounded vertex_size))
      with fragment_pointer in H by (unfold fragment_pointer, vertex_pointer; lia).
    exact H. }
  rewrite Hup1, Hup2. cbn [device_of heap_of].
  split; [reflexivity|]. split; [reflexivity|]. split; [reflexivity|].
  split; [|split].
  - rewrite <- (read_back_bytes (heap_of w) vertex_pointer vertex_spirv vertex_size) at 2.
    apply read_bytes_ext. intros k Hk. apply memcpy_below.
    unfold fragment_pointer. lia.
  - apply read_back_bytes.
  - intros Hok.
    apply (record_all_recorded
             [CommandRing.mkCommand GPU_CMD_SET_VERTEX_SHADER (low_word vs) (high_word vs)
                vertex_size;
              CommandRing.mkCommand GPU_CMD_SET_FRAGMENT_SHADER (low_word fs) (high_word fs)
                fragment_size] rec Hok).
Qed.

Lemma loaded_shaders_are_read_back_witness :
  let c := mkContext 800 600 0 0 0 0 0 0 0 0 0 false F32_ZERO F32_ONE 1 0 in
  let w := mkWorld small_device (fun _ => 0) in
  let '(r, c', w', rec') :=
    gibgo_load_shaders c w no_recording (fun k => k mod 256) 8 (fun k => 255 - k mod 256) 12 in
  r = GIBGO_RESULT_SUCCESS
  /\ vertex_shader_address c' = 0x1000000
  /\ fragment_shader_address c' = 0x1000100
  /\ read_bytes (heap_of w') 0x7F0000000000 (Z.to_nat 8) = bytes_of (fun k => k mod 256) 8
  /\ read_bytes (heap_of w') 0x7F0000000100 (Z.to_nat 12)
     = bytes_of (fun k => 255 - k mod 256) 12.
Proof.
  intros c w.
  assert (Hready1 : ready (device_of w) [] 8).
  { unfold ready. split; [apply small_device_ok|]. split; [apply table_ok_fresh|].
    vm_compute. repeat split; congruence. }
  destruct (allocate_ready _ _ 8 Hready1) as (_ & Hok1 & Htab1 & _).
  assert (Hready2 : ready (device_after (device_of w) 8)
                          ([] ++ [new_slot (device_of w) 8]) 12).
  { unfold ready. split; [exact Hok1|]. split; [exact Htab1|].
    vm_compute. repeat split; congruence. }
  pose proof (loaded_shaders_are_read_back c w no_recording []
                (fun k => k mod 256) (fun k => 255 - k mod 256) 8 12 Hready1 Hready2) as H.
  cbv zeta in H.
  destruct (gibgo_load_shaders c w no_recording (fun k => k mod 256) 8
              (fun k => 255 - k mod 256) 12) as [[[r c'] w'] rec'].
  destruct H as (Hr & Hc & _ & Hv & Hf & _).
  split; [exact Hr|]. split; [rewrite Hc; reflexivity|].
  split; [rewrite Hc; reflexivity|]. split; [exact Hv|exact Hf].
Defined.

(** [gibgo_load_shaders] is not atomic.  When the vertex shader's allocation
    succeeds and the fragment shader's does not fit in what is left of the
    pool, the call reports OUT_OF_MEMORY, but the vertex shader's allocation
    stays: the device has moved on, the context already points at the new
    address, nothing was copied and nothing recorded. *)
Theorem failed_shader_load_keeps_the_first_allocation
    (c : GibgoContext) (w : World) (rec : Recording) (used : list GibgoAllocation)
    (vertex_spirv fragment_spirv : store Z) (vertex_size fragment_size : Z) :
  ready (device_of w) used vertex_size ->
  request_ok (device_after (device_of w) vertex_size) fragment_size ->
  pool_size (device_of w)
  < pool_used (device_of w) + rounded vertex_size + rounded fragment_size ->
  gibgo_load_shaders c w rec vertex_spirv vertex_size fragment_spirv fragment_size
  = (GIBGO_RESULT_ERROR_OUT_OF_MEMORY,
     with_shaders c (vram_physical_address (device_of w) + pool_used (device_of w))
       (fragment_shader_address c),
     mkWorld (device_after (device_of w) vertex_size) (heap_of w),
     rec)
  /\ pool_used (device_after (device_of w) vertex_size)
     = pool_used (device_of w) + rounded vertex_size
  /\ allocation_count (device_after (device_of w) vertex_size)
     = allocation_count (device_of w) + 1.
Proof.
  intros Hready Hreq Hfull.
  destruct (allocate_ready _ used vertex_size Hready) as (Halloc1 & Hok1 & _ & _).
  destruct (allocate_step _ fragment_size Hok1 Hreq) as [[Halloc2 _] | (_ & Hfits & _)].
  - split; [|split].
    + unfold gibgo_load_shaders. rewrite Halloc1. cbv beta iota zeta.
      rewrite Halloc2. reflexivity.
    + reflexivity.
    + destruct Hready as (_ & (_ & _ & Hc & _) & _ & _ & Hcount & _).
      cbn [device_after allocation_count]. unfold wrap32, u32_modulus.
      apply Z.mod_small. unfold ALLOCATION_SLOTS in Hcount. lia.
  - cbn [device_after pool_used pool_size] in Hfits. lia.
Qed.

Lemma failed_shader_load_keeps_the_first_allocation_witness :
  let c := mkContext 800 600 0 0 0 0 0 0 0 0 0 false F32_ZERO F32_ONE 1 0 in
  let w := mkWorld small_device (fun _ => 0) in
  fst (fst (fst (gibgo_load_shaders c w no_recording (fun _ => 0) 0x80000 (fun _ => 0) 0x80001)))
  = GIBGO_RESULT_ERROR_OUT_OF_MEMORY
  /\ pool_used (device_of (snd (fst (gibgo_load_shaders c w no_recording
                                        (fun _ => 0) 0x80000 (fun _ => 0) 0x80001))))
     = 0x80000.
Proof.
  intros c w.
  assert (Hready : ready (device_of w) [] 0x80000).
  { unfold ready. split; [apply small_device_ok|]. split; [apply table_ok_fresh|].
    vm_compute. repeat split; congruence. }
  assert (Hreq : request_ok (device_after (device_of w) 0x80000) 0x80001).
  { vm_compute. split; reflexivity. }
  destruct (failed_shader_load_keeps_the_first_allocation c w no_recording []
              (fun _ => 0) (fun _ => 0) 0x80000 0x80001 Hready Hreq ltac:(vm_compute; reflexivity))
    as (Heq & Hused & _).
  rewrite Heq. split; [reflexivity|]. exact Hused.
Defined.

(** [gibgo_set_uniform_buffer_data] takes a new allocation on every call and
    never returns an old one.  On a pool with room the data is copied to the
    new allocation, below which no byte changes, and the context points at
    it, whatever the recorder then says: the call reports success only if
    the command could be recorded, INVALID_PARAMETER outside a recording and
    DEVICE_LOST when the recorder is full, with the allocation made all the
    same. *)
Theorem uniform_update_allocates_on_every_call
    (c : GibgoContext) (w : World) (rec : Recording) (used : list GibgoAllocation)
    (data : store Z) (n : Z) :
  ready (device_of w) used n ->
  let device := device_of w in
  let address := vram_physical_address device + pool_used device in
  let pointer := pool_memory device + pool_used device in
  let '(r, c', w', rec') := gibgo_set_uniform_buffer_data c w rec data n in
  c' = with_uniform_buffer c address n
  /\ device_of w' = device_after device n
  /\ pool_used (device_of w') = pool_used device + rounded n
  /\ read_bytes (heap_of w') pointer (Z.to_nat n) = bytes_of data n
  /\ (forall j, j < pointer -> heap_of w' j = heap_of w j)
  /\ (recording_ok rec -> current_command_count rec < max_commands rec ->
      r = GIBGO_SUCCESS
      /\ recorded rec'
         = recorded rec
           ++ [CommandRing.mkCommand GPU_CMD_SET_UNIFORM_BUFFER
                 (low_word address) (high_word address) n])
  /\ (current_commands rec = None -> r = GIBGO_ERROR_INVALID_PARAMETER /\ rec' = rec)
  /\ (recording_ok rec -> current_command_count rec = max_commands rec ->
      r = GIBGO_ERROR_DEVICE_LOST /\ rec' = rec).
Proof.
  intros Hready device address pointer.
  destruct (allocate_ready device used n Hready) as (Halloc & _ & _ & _).
  unfold gibgo_set_uniform_buffer_data. fold device. rewrite Halloc. cbv beta iota zeta.
  rewrite (upload_bytes_new device used n (heap_of w) data Hready).
  fold address pointer. unfold gibgo_set_uniform_buffer.
  destruct (add_command rec GPU_CMD_SET_UNIFORM_BUFFER (low_word address)
              (high_word address) n) as [r rec'] eqn:Hadd.
  cbn [device_of heap_of].
  split; [reflexivity|]. split; [reflexivity|]. split; [reflexivity|].
  split; [apply read_back_bytes|]. split; [intros j Hj; apply memcpy_below; exact Hj|].
  split; [|split].
  - intros Hok Hroom.
    destruct (add_command_recorded rec GPU_CMD_SET_UNIFORM_BUFFER (low_word address)
                (high_word address) n Hok Hroom) as (Hr & _ & _ & _ & Hrec).
    rewrite Hadd in Hr, Hrec. cbn [fst snd] in Hr, Hrec. rewrite Hr. split; [reflexivity|exact Hrec].
  - intros Hnone. unfold add_command in Hadd. rewrite Hnone in Hadd.
    injection Hadd as <- <-. split; reflexivity.
  - intros Hok Hfull.
    rewrite (add_command_full rec _ _ _ _ Hok Hfull) in Hadd.
    injection Hadd as <- <-. split; reflexivity.
Qed.

Lemma uniform_update_allocates_on_every_call_witness :
  let c := mkContext 800 600 0 0 0 0 0 0 0 0 0 false F32_ZERO F32_ONE 1 0 in
  let w := mkWorld small_device (fun _ => 0) in
  let '(r, c', w', rec') :=
    gibgo_set_uniform_buffer_data c w no_recording (fun k => k mod 256) 288 in
  r = GIBGO_ERROR_INVALID_PARAMETER
  /\ uniform_buffer_address c' = 0x1000000
  /\ pool_used (device_of w') = 512
  /\ read_bytes (heap_of w') 0x7F0000000000 (Z.to_nat 288) = bytes_of (fun k => k mod 256) 288.
Proof.
  intros c w.
  assert (Hready : ready (device_of w) [] 288).
  { unfold ready. split; [apply small_device_ok|]. split; [apply table_ok_fresh|].
    vm_compute. repeat split; congruence. }
  pose proof (uniform_update_allocates_on_every_call c w no_recording []
                (fun k => k mod 256) 288 Hready) as H.
  cbv zeta in H.
  destruct (gibgo_set_uniform_buffer_data c w no_recording (fun k => k mod 256) 288)
    as [[[r c'] w'] rec'].
  destruct H as (Hc & _ & Hused & Hread & _ & _ & Hnone & _).
  split; [apply Hnone; reflexivity|]. split; [rewrite Hc; reflexivity|].
  split; [rewrite Hused; reflexivity|exact Hread].
Defined.

End UploadProperties.

(* --------------------------------------------------------------------- *)
(** ** Submission and completion *)
(* --------------------------------------------------------------------- *)

Section SubmissionProperties.
Import Device Commands.

Lemma wait_for_fence_spec (fence_value : Z) (reads : nat -> Z) : forall (timeout k : nat),
  wait_for_fence timeout reads k fence_value <> O
  <-> exists j, (j < timeout)%nat /\ fence_value <= reads (k + j)%nat.
Proof.
  induction timeout as [|timeout IH]; intros k.
  - cbn [wait_for_fence]. split; [congruence|]. intros (j & Hj & _). lia.
  - cbn [wait_for_fence]. destruct (Z.ltb_spec (reads k) fence_value) as [Hlt|Hge].
    + rewrite IH. split.
      * intros (j & Hj & Hr). exists (S j). split; [lia|].
        replace (k + S j)%nat with (S k + j)%nat by lia. exact Hr.
      * intros (j & Hj & Hr). destruct j as [|j].
        -- rewrite Nat.add_0_r in Hr. lia.
        -- exists j. split; [lia|].
           replace (S k + j)%nat with (k + S j)%nat by lia. exact Hr.
    + split; [|congruence]. intros _. exists O. split; [lia|].
      rewrite Nat.add_0_r. exact Hge.
Qed.

(** [gibgo_wait_for_completion] succeeds exactly when one of the first
    1,000,000 reads of the fence register shows a value that has reached
    [fence_value]; otherwise it reports a GPU timeout.  A value that shows
    up only at the read after the millionth is not accepted. *)
Theorem completion_is_decided_by_a_million_reads (reads : nat -> Z) (fence_value : Z) :
  (gibgo_wait_for_completion reads fence_value = GIBGO_RESULT_SUCCESS
   <-> exists j, (j < FENCE_TIMEOUT)%nat /\ fence_value <= reads j)
  /\ (gibgo_wait_for_completion reads fence_value = GIBGO_RESULT_ERROR_GPU_TIMEOUT
      <-> forall j, (j < FENCE_TIMEOUT)%nat -> reads j < fence_value).
Proof.
  pose proof (wait_for_fence_spec fence_value reads FENCE_TIMEOUT O) as Hspec.
  cbn [Nat.add] in Hspec. unfold gibgo_wait_for_completion.
  destruct (wait_for_fence FENCE_TIMEOUT reads 0 fence_value) as [|left].
  - split; split.
    + discriminate.
    + intros Hex. apply Hspec in Hex. congruence.
    + intros _ j Hj. destruct (Z.lt_ge_cases (reads j) fence_value) as [|Hge]; [assumption|].
      exfalso. apply (proj2 Hspec); [|reflexivity]. exists j. split; assumption.
    + reflexivity.
  - assert (Hex : exists j, (j < FENCE_TIMEOUT)%nat /\ fence_value <= reads j)
      by (apply Hspec; discriminate).
    split; split.
    + intros _. exact Hex.
    + reflexivity.
    + discriminate.
    + intros Hall. destruct Hex as (j & Hj & Hr). specialize (Hall j Hj). lia.
Qed.

Lemma wait_for_completion_success (reads : nat -> Z) (fence_value : Z) :
  gibgo_wait_for_completion reads fence_value = GIBGO_RESULT_SUCCESS
  <-> exists j, (j < FENCE_TIMEOUT)%nat /\ fence_value <= reads j.
Proof.
  pose proof (wait_for_fence_spec fence_value reads FENCE_TIMEOUT O) as Hspec.
  cbn [Nat.add] in Hspec. unfold gibgo_wait_for_completion.
  destruct (wait_for_fence FENCE_TIMEOUT reads 0 fence_value) as [|left].
  - split; [discriminate|]. intros Hex. apply Hspec in Hex. congruence.
  - split; [|reflexivity]. intros _. apply Hspec. discriminate.
Qed.

(** The fence register of a device as [gibgo_create_device] returns it is a
    word of the DRM framebuffer, inside the 800x600 area the function has
    just cleared: whatever the vendor, it reads 0xFF222222, the clear colour.
    Waiting on such a device, with nothing writing the register meanwhile,
    succeeds for every fence value up to 0xFF222222 and times out above. *)
Theorem fence_register_is_a_framebuffer_pixel
    (vendor : GibgoGPUVendor) (bar0_base fb_address fb_size : Z)
    (framebuffer ring_contents : store Z) (pool : GpuMemory.GibgoGPUDevice)
    (fence_value : Z) :
  let device :=
    created_device vendor bar0_base fb_address fb_size framebuffer ring_contents pool in
  0 <= fence_register device < FRAME_WIDTH * FRAME_HEIGHT
  /\ registers device (fence_register device) = 0xFF222222
  /\ (gibgo_wait_for_completion (steady_fence device) fence_value = GIBGO_RESULT_SUCCESS
      <-> fence_value <= 0xFF222222).
Proof.
  intros device.
  assert (Hidx : 0 <= fence_register device < FRAME_WIDTH * FRAME_HEIGHT).
  { unfold device, fence_register, created_device, FRAME_WIDTH, FRAME_HEIGHT.
    cbn [command_processor_offset].
    destruct vendor; vm_compute; (split; [discriminate|reflexivity]). }
  assert (Hreg : registers device (fence_register device) = 0xFF222222).
  { unfold device at 1. unfold created_device. cbn [registers].
    rewrite clear_framebuffer_at.
    replace (wrap32 (FRAME_WIDTH * FRAME_HEIGHT)) with (FRAME_WIDTH * FRAME_HEIGHT)
      by reflexivity.
    destruct (Z.leb_spec 0 (fence_register device)); [|lia].
    destruct (Z.ltb_spec (fence_register device) (FRAME_WIDTH * FRAME_HEIGHT)); [|lia].
    reflexivity. }
  split; [exact Hidx|]. split; [exact Hreg|].
  rewrite wait_for_completion_success. unfold steady_fence. rewrite Hreg. split.
  - intros (_ & _ & Hle). exact Hle.
  - intros Hle. exists O. split; [unfold FENCE_TIMEOUT; lia|exact Hle].
Qed.

Lemma wait_for_gpu_released (timeout : nat) (next_tail head_reg : Z) :
  next_tail <> head_reg ->
  CommandRing.wait_for_gpu (S (S timeout)) next_tail next_tail head_reg = (head_reg, S timeout).
Proof.
  intros Hne. cbn [CommandRing.wait_for_gpu]. rewrite Z.eqb_refl.
  destruct (Z.eqb_spec next_tail head_reg); [contradiction|reflexivity].
Qed.

Lemma wait_for_gpu_stuck (next_tail : Z) : forall timeout : nat,
  CommandRing.wait_for_gpu timeout next_tail next_tail next_tail = (next_tail, O).
Proof.
  induction timeout as [|timeout IH]; cbn [CommandRing.wait_for_gpu]; [reflexivity|].
  rewrite Z.eqb_refl. exact IH.
Qed.

(** The registers of the device are the framebuffer the software rasterizer
    draws into, so a submission that fits the ring overwrites two words of
    the frame it has just drawn: the word of GPU_COMMAND_START with 1 and
    the word of GPU_TAIL_PTR with the new tail offset.  Every other word
    holds what the rasterizer produced.  The ring is only filled, never
    drained. *)
Theorem submission_overwrites_two_framebuffer_words
    (device : Device.GibgoGPUDevice) (h : GpuMemory.heap)
    (commands : list CommandRing.GibgoGPUCommand) :
  CommandRing.ring_ok (Device.cmd_ring device) ->
  Z.of_nat (length commands) <= CommandRing.free_slots (Device.cmd_ring device) ->
  let executed :=
    execute_3d_cube_rendering (Device.memory device) h (Device.registers device) commands in
  let '(r, device', events) := Commands.submit_commands_to_hardware device h commands in
  r = GIBGO_RESULT_SUCCESS
  /\ Device.registers device' (cmd_reg device GPU_COMMAND_START) = 1
  /\ Device.registers device' (cmd_reg device GPU_TAIL_PTR)
     = CommandRing.tail_offset (Device.cmd_ring device')
  /\ (forall j, j <> cmd_reg device GPU_COMMAND_START -> j <> cmd_reg device GPU_TAIL_PTR ->
                Device.registers device' j = executed j)
  /\ CommandRing.head_offset (Device.cmd_ring device')
     = CommandRing.head_offset (Device.cmd_ring device)
  /\ CommandRing.free_slots (Device.cmd_ring device')
     = CommandRing.free_slots (Device.cmd_ring device) - Z.of_nat (length commands)
  /\ Device.commands_submitted device'
     = wrap64 (Device.commands_submitted device + Z.of_nat (length commands)).
Proof.
  intros Hok Hfits executed. unfold Commands.submit_commands_to_hardware.
  fold executed.
  destruct (write_commands_within_free commands (Device.cmd_ring device)
              (executed (cmd_reg device GPU_HEAD_PTR)) 0 Hok Hfits)
    as (ring' & Heq & Hhead & _ & _ & Hfree).
  rewrite Heq. cbv beta iota zeta.
  cbn [Device.registers Device.cmd_ring Device.commands_submitted].
  split; [reflexivity|]. split; [apply store_set_eq|]. split.
  { unfold cmd_reg, GPU_COMMAND_START, GPU_TAIL_PTR.
    rewrite store_set_ne by lia. apply store_set_eq. }
  split.
  { intros j Hstart Htail. rewrite store_set_ne by congruence.
    apply store_set_ne. congruence. }
  split; [exact Hhead|]. split; [exact Hfree|reflexivity].
Qed.

Lemma submission_overwrites_two_framebuffer_words_witness :
  let device :=
    Device.mkDevice 1 (fun _ => 0xFF222222) 1920000 0x2000 GpuMemory.small_device
      (CommandRing.create_ring (fun _ => 0)) 1 0 0 in
  let '(r, device', _) :=
    Commands.submit_commands_to_hardware device (fun _ => 0)
      [CommandRing.mkCommand GPU_CMD_NOP 0 0 0] in
  r = GIBGO_RESULT_SUCCESS
  /\ Device.registers device' 0x800 = 1
  /\ Device.registers device' 0x808 = CommandRing.tail_offset (Device.cmd_ring device')
  /\ Device.registers device' 0x801 = 0xFF222222.
Proof.
  intros device.
  assert (Hok : CommandRing.ring_ok (Device.cmd_ring device)).
  { unfold CommandRing.ring_ok, u32_modulus. cbn. lia. }
  pose proof (submission_overwrites_two_framebuffer_words device (fun _ => 0)
                [CommandRing.mkCommand GPU_CMD_NOP 0 0 0] Hok
                ltac:(vm_compute; discriminate)) as H.
  cbv zeta in H.
  destruct (Commands.submit_commands_to_hardware device (fun _ => 0)
              [CommandRing.mkCommand GPU_CMD_NOP 0 0 0]) as [[r device'] events].
  destruct H as (Hr & Hstart & Htail & Hrest & _).
  split; [exact Hr|]. split; [exact Hstart|]. split; [exact Htail|].
  rewrite (Hrest 0x801) by (vm_compute; discriminate). vm_compute. reflexivity.
Defined.

Lemma submit_timeout_two : exists n, CommandRing.SUBMIT_TIMEOUT = S (S n).
Proof.
  exists (CommandRing.SUBMIT_TIMEOUT - 2)%nat. unfold CommandRing.SUBMIT_TIMEOUT. lia.
Qed.

(** When the ring is full, the submission loop reads GPU_HEAD_PTR, a word of
    the frame the rasterizer has just drawn.  If that pixel differs from the
    next tail offset, the loop stops waiting at once: the pixel becomes the
    ring's head offset, the command is written and the submission succeeds.
    Only when the pixel happens to equal the next tail does the submission
    time out. *)
Theorem full_ring_takes_its_head_from_the_frame
    (device : Device.GibgoGPUDevice) (h : GpuMemory.heap)
    (cmd : CommandRing.GibgoGPUCommand) :
  CommandRing.ring_full (Device.cmd_ring device) = true ->
  let ring := Device.cmd_ring device in
  let pixel :=
    execute_3d_cube_rendering (Device.memory device) h (Device.registers device) [cmd]
      (cmd_reg device GPU_HEAD_PTR) in
  let '(r, device', events) := Commands.submit_commands_to_hardware device h [cmd] in
  (pixel <> CommandRing.next_tail_of ring ->
   r = GIBGO_RESULT_SUCCESS
   /\ CommandRing.head_offset (Device.cmd_ring device') = pixel
   /\ CommandRing.tail_offset (Device.cmd_ring device') = CommandRing.next_tail_of ring
   /\ events = [CommandRing.LOG_RING_FULL; CommandRing.LOG_COMMAND 0])
  /\ (pixel = CommandRing.next_tail_of ring ->
      r = GIBGO_RESULT_ERROR_GPU_TIMEOUT
      /\ Device.cmd_ring device'
         = CommandRing.mkRing (CommandRing.command_buffer ring) (CommandRing.buffer_size ring)
             (CommandRing.next_tail_of ring) (CommandRing.tail_offset ring)
             (CommandRing.capacity ring)
      /\ events = [CommandRing.LOG_RING_FULL; CommandRing.LOG_TIMEOUT]).
Proof.
  intros Hfull ring pixel. unfold Commands.submit_commands_to_hardware.
  fold pixel. fold ring. fold ring in Hfull.
  cbn [CommandRing.write_commands]. rewrite Hfull.
  unfold CommandRing.ring_full in Hfull. apply Z.eqb_eq in Hfull.
  rewrite <- Hfull.
  destruct (Z.eq_dec pixel (CommandRing.next_tail_of ring)) as [Heq|Hne].
  - rewrite Heq, wait_for_gpu_stuck. cbv beta iota zeta.
    cbn [Device.cmd_ring]. split; [intros Hne; contradiction|].
    intros _. split; [reflexivity|]. split; reflexivity.
  - destruct submit_timeout_two as [n ->].
    rewrite (wait_for_gpu_released n _ pixel) by congruence. cbv beta iota zeta.
    cbn [Device.cmd_ring CommandRing.head_offset CommandRing.tail_offset app].
    split; [|intros Heq; contradiction].
    intros _. split; [reflexivity|]. split; [reflexivity|]. split; reflexivity.
Qed.

Lemma full_ring_takes_its_head_from_the_frame_witness :
  let device :=
    Device.mkDevice 1 (fun _ => 0xFF222222) 1920000 0x2000 GpuMemory.small_device
      (CommandRing.mkRing (fun _ => 0) 4096 1 0 1024) 1 0 0 in
  let '(r, device', events) :=
    Commands.submit_commands_to_hardware device (fun _ => 0)
      [CommandRing.mkCommand GPU_CMD_NOP 0 0 0] in
  r = GIBGO_RESULT_SUCCESS
  /\ CommandRing.head_offset (Device.cmd_ring device') = 0xFF222222
  /\ events = [CommandRing.LOG_RING_FULL; CommandRing.LOG_COMMAND 0].
Proof.
  intros device.
  pose proof (full_ring_takes_its_head_from_the_frame device (fun _ => 0)
                (CommandRing.mkCommand GPU_CMD_NOP 0 0 0) eq_refl) as H.
  cbv zeta in H.
  destruct (Commands.submit_commands_to_hardware device (fun _ => 0)
              [CommandRing.mkCommand GPU_CMD_NOP 0 0 0]) as [[r device'] events].
  destruct H as [H _].
  destruct H as (Hr & Hhead & _ & Hevents); [vm_compute; discriminate|].
  split; [exact Hr|]. split; [rewrite Hhead; vm_compute; reflexivity|exact Hevents].
Defined.

End SubmissionProperties.

(* ===================================================================== *)
(** ** The command processor of gibgoGraphics *)
(* ===================================================================== *)

Section GraphicsRingProperties.
Import CommandRing GraphicsRing.

Variable drawing : store Z -> Z -> Z -> store Z.

Lemma mod_distance (capacity s t : Z) :
  0 <= s < capacity -> 0 <= t < capacity ->
  (s - t) mod capacity = if t <=? s then s - t else s - t + capacity.
Proof.
  intros Hs Ht. destruct (Z.leb_spec t s).
  - apply Z.mod_small. lia.
  - rewrite <- (Z.mod_add (s - t) 1 capacity) by lia. rewrite Z.mul_1_l.
    apply Z.mod_small. lia.
Qed.

Lemma mod_successor (capacity t : Z) :
  0 <= t < capacity ->
  (t + 1) mod capacity = if t + 1 =? capacity then 0 else t + 1.
Proof.
  intros Ht. destruct (Z.eqb_spec (t + 1) capacity) as [->|Hne].
  - apply Z.mod_same. lia.
  - apply Z.mod_small. lia.
Qed.

(** A write to slot [t] leaves every other slot alone. *)
Lemma read_after_write_other (buffer : store Z) (capacity s t : Z) (cmd : GibgoGPUCommand) :
  4 * capacity <= u32_modulus -> 0 <= s < capacity -> 0 <= t < capacity -> s <> t ->
  read_command (write_command buffer t cmd) s = read_command buffer s.
Proof.
  intros Hcap Hs Ht Hne. unfold read_command, write_command, wrap32, u32_modulus in *.
  rewrite !(Z.mod_small (s * 4 + _)) by lia.
  rewrite !(Z.mod_small (t * 4 + _)) by lia.
  rewrite !store_set_ne by lia. reflexivity.
Qed.

Lemma read_after_write_same (buffer : store Z) (capacity t : Z) (cmd : GibgoGPUCommand) :
  4 * capacity <= u32_modulus -> 0 <= t < capacity ->
  read_command (write_command buffer t cmd) t = cmd.
Proof.
  intros Hcap Ht. unfold read_command, write_command, wrap32, u32_modulus in *.
  rewrite !(Z.mod_small (t * 4 + _)) by lia.
  rewrite store_set_eq.
  rewrite (store_set_ne _ (t * 4 + 3) (t * 4 + 2)), store_set_eq by lia.
  rewrite 2(store_set_ne _ _ (t * 4 + 1)), store_set_eq by lia.
  rewrite 3(store_set_ne _ _ (t * 4 + 0)), store_set_eq by lia.
  destruct cmd. reflexivity.
Qed.

(** What a fold of writes leaves of the ring's bookkeeping. *)
Lemma fold_writes_ring (commands : list GibgoGPUCommand) : forall ring : GibgoCommandRing,
  0 < capacity ring < u32_modulus -> 0 <= tail_offset ring < capacity ring ->
  let ring' := List.fold_left ring_after_write commands ring in
  capacity ring' = capacity ring
  /\ head_offset ring' = head_offset ring
  /\ tail_offset ring' = (tail_offset ring + Z.of_nat (length commands)) mod capacity ring.
Proof.
  induction commands as [|cmd rest IH]; intros ring Hcap Htail; cbn [List.fold_left length].
  - cbv zeta. rewrite Z.add_0_r, Z.mod_small by lia. repeat split.
  - assert (Hnext : next_tail_of ring = (tail_offset ring + 1) mod capacity ring).
    { unfold next_tail_of, wrap32. unfold u32_modulus in *.
      rewrite (Z.mod_small (tail_offset ring + 1)) by lia. reflexivity. }
    destruct (IH (ring_after_write ring cmd)) as (Hc & Hh & Ht).
    + cbn [ring_after_write capacity]. exact Hcap.
    + cbn [ring_after_write capacity tail_offset]. rewrite Hnext.
      apply Z.mod_pos_bound. lia.
    + cbv zeta. rewrite Hc, Hh, Ht.
      cbn [ring_after_write capacity head_offset tail_offset].
      split; [reflexivity|]. split; [reflexivity|].
      rewrite Hnext, Z.add_mod_idemp_l by lia. f_equal. lia.
Qed.

(** A fold of [n] writes touches the [n] slots from the tail on only. *)
Lemma fold_writes_frame (commands : list GibgoGPUCommand) :
  forall (ring : GibgoCommandRing) (s : Z),
  0 < capacity ring -> 4 * capacity ring <= u32_modulus ->
  0 <= tail_offset ring < capacity ring -> 0 <= s < capacity ring ->
  Z.of_nat (length commands) <= (s - tail_offset ring) mod capacity ring ->
  read_command (command_buffer (List.fold_left ring_after_write commands ring)) s
  = read_command (command_buffer ring) s.
Proof.
  induction commands as [|cmd rest IH]; intros ring s Hpos Hcap Htail Hs Hfar;
    cbn [List.fold_left]; [reflexivity|].
  cbn [length] in Hfar.
  assert (Hnext : next_tail_of ring = (tail_offset ring + 1) mod capacity ring).
  { unfold next_tail_of, wrap32. unfold u32_modulus in *.
    rewrite (Z.mod_small (tail_offset ring + 1)) by lia. reflexivity. }
  rewrite (mod_distance _ s (tail_offset ring) Hs Htail) in Hfar.
  rewrite IH.
  - cbn [ring_after_write command_buffer].
    apply (read_after_write_other _ (capacity ring)); try assumption.
    destruct (Z.leb_spec (tail_offset ring) s); lia.
  - exact Hpos.
  - exact Hcap.
  - cbn [ring_after_write capacity tail_offset]. rewrite Hnext.
    apply Z.mod_pos_bound. lia.
  - exact Hs.
  - cbn [ring_after_write capacity tail_offset]. rewrite Hnext.
    rewrite (mod_successor _ _ Htail).
    destruct (Z.eqb_spec (tail_offset ring + 1) (capacity ring)).
    + rewrite (mod_distance _ s 0) by lia.
      destruct (Z.leb_spec (tail_offset ring) s); destruct (Z.leb_spec 0 s); lia.
    + rewrite (mod_distance _ s (tail_offset ring + 1)) by lia.
      destruct (Z.leb_spec (tail_offset ring) s);
        destruct (Z.leb_spec (tail_offset ring + 1) s); lia.
Qed.

(** After a fold of at most [capacity] writes the slots from the old tail on
    hold the commands written. *)
Lemma fold_writes_holds (commands : list GibgoGPUCommand) : forall ring : GibgoCommandRing,
  0 < capacity ring -> 4 * capacity ring <= u32_modulus ->
  0 <= tail_offset ring < capacity ring ->
  Z.of_nat (length commands) <= capacity ring ->
  holds (command_buffer (List.fold_left ring_after_write commands ring))
        (capacity ring) (tail_offset ring) commands.
Proof.
  induction commands as [|cmd rest IH]; intros ring Hpos Hcap Htail Hlen;
    cbn [List.fold_left holds]; [exact I|].
  cbn [length] in Hlen.
  assert (Hnext : next_tail_of ring = (tail_offset ring + 1) mod capacity ring).
  { unfold next_tail_of, wrap32. unfold u32_modulus in *.
    rewrite (Z.mod_small (tail_offset ring + 1)) by lia. reflexivity. }
  assert (Htail' : 0 <= tail_offset (ring_after_write ring cmd)
                   < capacity (ring_after_write ring cmd)).
  { cbn [ring_after_write capacity tail_offset]. rewrite Hnext.
    apply Z.mod_pos_bound. lia. }
  split.
  - rewrite fold_writes_frame; try assumption.
    + cbn [ring_after_write command_buffer].
      apply (read_after_write_same _ (capacity ring)); assumption.
    + cbn [ring_after_write capacity tail_offset]. rewrite Hnext.
      rewrite (mod_successor _ _ Htail).
      destruct (Z.eqb_spec (tail_offset ring + 1) (capacity ring)).
      * rewrite (mod_distance _ (tail_offset ring) 0) by lia.
        destruct (Z.leb_spec 0 (tail_offset ring)); lia.
      * rewrite (mod_distance _ (tail_offset ring) (tail_offset ring + 1)) by lia.
        destruct (Z.leb_spec (tail_offset ring + 1) (tail_offset ring)); lia.
  - pose proof (IH (ring_after_write ring cmd) Hpos Hcap Htail'
                  ltac:(cbn [ring_after_write capacity]; lia)) as H.
    cbn [ring_after_write capacity tail_offset] in H. rewrite Hnext in H. exact H.
Qed.

(** No command touches the ring, the register offsets or the counters of
    the submission. *)
Lemma execute_command_keeps (m : Machine) (type p0 p1 p2 : Z) :
  let m' := execute_command drawing m type p0 p1 p2 in
  cmd_ring m' = cmd_ring m
  /\ command_processor_offset m' = command_processor_offset m
  /\ fence_register m' = fence_register m
  /\ fence_counter m' = fence_counter m
  /\ commands_submitted m' = commands_submitted m.
Proof.
  cbv zeta. unfold execute_command.
  repeat match goal with
         | |- context [if ?b then _ else _] => destruct b
         end;
    try (destruct (fence_register m) eqn:Hfence); repeat split; try assumption.
Qed.

Lemma execute_command_with_ring (m : Machine) (ring : GibgoCommandRing) (type p0 p1 p2 : Z) :
  execute_command drawing (with_ring m ring) type p0 p1 p2
  = with_ring (execute_command drawing m type p0 p1 p2) ring.
Proof.
  unfold execute_command. cbn [with_ring gpu_state registers frames_rendered fence_register].
  repeat match goal with
         | |- context [if ?b then _ else _] => destruct b
         end;
    try (destruct (fence_register m) eqn:Hfence); reflexivity.
Qed.

Lemma run_commands_keeps (commands : list GibgoGPUCommand) : forall m : Machine,
  let m' := run_commands drawing m commands in
  cmd_ring m' = cmd_ring m
  /\ command_processor_offset m' = command_processor_offset m
  /\ fence_register m' = fence_register m
  /\ fence_counter m' = fence_counter m
  /\ commands_submitted m' = commands_submitted m.
Proof.
  induction commands as [|cmd rest IH]; intros m; cbn [run_commands List.fold_left].
  - repeat split.
  - fold (run_commands drawing
            (execute_command drawing m (command_type cmd) (param0 cmd) (param1 cmd) (param2 cmd))
            rest).
    destruct (IH (execute_command drawing m (command_type cmd) (param0 cmd) (param1 cmd)
                    (param2 cmd))) as (H1 & H2 & H3 & H4 & H5).
    destruct (execute_command_keeps m (command_type cmd) (param0 cmd) (param1 cmd) (param2 cmd))
      as (K1 & K2 & K3 & K4 & K5).
    cbv zeta. rewrite H1, H2, H3, H4, H5. repeat split; assumption.
Qed.

Lemma run_commands_with_ring (commands : list GibgoGPUCommand) :
  forall (m : Machine) (ring : GibgoCommandRing),
  run_commands drawing (with_ring m ring) commands
  = with_ring (run_commands drawing m commands) ring.
Proof.
  induction commands as [|cmd rest IH]; intros m ring; [reflexivity|].
  unfold run_commands. cbn [List.fold_left]. rewrite execute_command_with_ring. apply IH.
Qed.

Lemma with_ring_twice (m : Machine) (a b : GibgoCommandRing) :
  with_ring (with_ring m a) b = with_ring m b.
Proof. reflexivity. Qed.

Lemma with_head_twice (ring : GibgoCommandRing) (a b : Z) :
  with_head (with_head ring a) b = with_head ring b.
Proof. reflexivity. Qed.

(** The command processor executes the commands between head and tail, in
    order, and stops with the head at the tail. *)
Lemma command_ring_runs (commands : list GibgoGPUCommand) : forall (fuel : nat) (m : Machine),
  0 < capacity (cmd_ring m) < u32_modulus ->
  0 <= head_offset (cmd_ring m) < capacity (cmd_ring m) ->
  holds (command_buffer (cmd_ring m)) (capacity (cmd_ring m)) (head_offset (cmd_ring m))
        commands ->
  tail_offset (cmd_ring m)
  = (head_offset (cmd_ring m) + Z.of_nat (length commands)) mod capacity (cmd_ring m) ->
  Z.of_nat (length commands) < capacity (cmd_ring m) ->
  (length commands <= fuel)%nat ->
  gpu_execute_command_ring drawing fuel m
  = Some (with_ring (run_commands drawing m commands)
            (with_head (cmd_ring m) (tail_offset (cmd_ring m)))).
Proof.
  induction commands as [|cmd rest IH]; intros fuel m Hcap Hhead Hholds Htail Hlen Hfuel.
  - cbn [length] in Htail. rewrite Z.add_0_r, Z.mod_small in Htail by lia.
    assert (Hstop : gpu_execute_command_ring drawing fuel m = Some m).
    { destruct fuel; cbn [gpu_execute_command_ring]; rewrite <- Htail, Z.eqb_refl;
        reflexivity. }
    rewrite Hstop. f_equal. cbn [run_commands List.fold_left].
    destruct m as [regs cpo fr ring fc cs frs st]. destruct ring as [buf bs hd tl cp].
    cbn in Htail. subst tl. reflexivity.
  - cbn [length] in Htail, Hlen, Hfuel. destruct fuel as [|fuel]; [lia|].
    destruct Hholds as [Hread Hrest].
    assert (Hne : head_offset (cmd_ring m) <> tail_offset (cmd_ring m)).
    { rewrite Htail. intros Heq. symmetry in Heq.
      assert (Hd : (head_offset (cmd_ring m) + Z.of_nat (S (length rest))
                    - head_offset (cmd_ring m)) mod capacity (cmd_ring m) = 0).
      { rewrite Zminus_mod, Heq, (Z.mod_small (head_offset (cmd_ring m))) by lia.
        rewrite Z.sub_diag. apply Z.mod_0_l. lia. }
      rewrite Z.mod_small in Hd by lia. lia. }
    cbn [gpu_execute_command_ring].
    apply Z.eqb_neq in Hne. rewrite Hne, Hread.
    destruct (execute_command_keeps m (command_type cmd) (param0 cmd) (param1 cmd)
                (param2 cmd)) as (Hring & _).
    cbv zeta in Hring. rewrite Hring.
    assert (Hstep : wrap32 (head_offset (cmd_ring m) + 1) mod capacity (cmd_ring m)
                    = (head_offset (cmd_ring m) + 1) mod capacity (cmd_ring m)).
    { unfold wrap32. unfold u32_modulus in *.
      rewrite (Z.mod_small (head_offset (cmd_ring m) + 1)) by lia. reflexivity. }
    rewrite Hstep.
    rewrite IH.
    + rewrite run_commands_with_ring, with_ring_twice. reflexivity.
    + cbn [with_ring cmd_ring with_head capacity]. exact Hcap.
    + cbn [with_ring cmd_ring with_head capacity head_offset].
      apply Z.mod_pos_bound. lia.
    + cbn [with_ring cmd_ring with_head capacity head_offset command_buffer]. exact Hrest.
    + cbn [with_ring cmd_ring with_head capacity head_offset tail_offset].
      rewrite Htail, Z.add_mod_idemp_l by lia. f_equal. lia.
    + cbn [with_ring cmd_ring with_head capacity]. lia.
    + lia.
Qed.

(** A submission into an empty ring with room, written out. *)
Lemma submit_runs (m : Machine) (commands : list GibgoGPUCommand) (fuel : nat) :
  ring_ready (cmd_ring m) ->
  Z.of_nat (length commands) < capacity (cmd_ring m) ->
  (length commands <= fuel)%nat ->
  let ring := cmd_ring m in
  let tail' := (tail_offset ring + Z.of_nat (length commands)) mod capacity ring in
  let started :=
    with_registers m
      (store_set (store_set (registers m) (cmd_reg m Device.GPU_TAIL_PTR) tail')
                 (cmd_reg m Device.GPU_COMMAND_START) 1) in
  let finished := run_commands drawing started commands in
  GraphicsRing.submit_commands_to_hardware drawing fuel m commands
  = Some (GIBGO_RESULT_SUCCESS,
          mkMachine (registers finished) (command_processor_offset m) (fence_register m)
            (with_head (List.fold_left ring_after_write commands ring) tail')
            (fence_counter m)
            (wrap64 (commands_submitted m + Z.of_nat (length commands)))
            (frames_rendered finished) (gpu_state finished),
          command_log 0 (length commands)).
Proof.
  intros (Hok & Hempty & Hwords) Hlen Hfuel ring tail' started finished.
  pose proof Hok as (Hcap & Hhead & Htail). fold ring in Hcap, Hhead, Htail, Hempty, Hwords, Hlen.
  assert (Hfree : Z.of_nat (length commands) <= free_slots ring).
  { unfold free_slots. destruct (Z.ltb_spec (tail_offset ring) (head_offset ring)); lia. }
  destruct (fold_writes_ring commands ring Hcap Htail) as (Hc & Hh & Ht).
  cbv zeta in Hc, Hh, Ht. fold tail' in Ht.
  pose proof (fold_writes_holds commands ring ltac:(lia) Hwords Htail ltac:(lia)) as Hholds.
  unfold GraphicsRing.submit_commands_to_hardware. fold ring.
  rewrite (write_commands_fold commands ring _ 0 Hok Hfree). cbv beta iota zeta.
  rewrite Ht. fold started.
  rewrite (command_ring_runs commands fuel
             (with_ring started (List.fold_left ring_after_write commands ring))).
  - rewrite run_commands_with_ring, with_ring_twice. fold finished.
    cbn [with_ring registers command_processor_offset fence_register cmd_ring fence_counter
         commands_submitted frames_rendered gpu_state].
    destruct (run_commands_keeps commands started) as (_ & K2 & K3 & K4 & K5).
    cbv zeta in K2, K3, K4, K5. fold finished in K2, K3, K4, K5.
    rewrite K2, K3, K4, K5, Ht. reflexivity.
  - cbn [with_ring cmd_ring]. rewrite Hc. exact Hcap.
  - cbn [with_ring cmd_ring]. rewrite Hc, Hh. exact Hhead.
  - cbn [with_ring cmd_ring]. rewrite Hc, Hh, Hempty. exact Hholds.
  - cbn [with_ring cmd_ring]. rewrite Hc, Hh, Ht, Hempty. reflexivity.
  - cbn [with_ring cmd_ring]. rewrite Hc. exact Hlen.
  - exact Hfuel.
Qed.

(** The producer and the consumer of the ring agree.  A submission of fewer
    commands than the ring's capacity into an empty ring succeeds without
    waiting; the command processor then executes exactly the submitted
    commands, each once and in the order given, after the tail and start
    registers were written; the ring is left empty, head and tail both
    advanced by the number of commands modulo the capacity.  The loop ends
    within as many iterations as there are commands. *)
Theorem submitted_commands_are_executed_once_in_order
    (m : Machine) (commands : list GibgoGPUCommand) (fuel : nat) :
  ring_ready (cmd_ring m) ->
  Z.of_nat (length commands) < capacity (cmd_ring m) ->
  (length commands <= fuel)%nat ->
  let ring := cmd_ring m in
  let tail' := (tail_offset ring + Z.of_nat (length commands)) mod capacity ring in
  let started :=
    with_registers m
      (store_set (store_set (registers m) (cmd_reg m Device.GPU_TAIL_PTR) tail')
                 (cmd_reg m Device.GPU_COMMAND_START) 1) in
  let finished := run_commands drawing started commands in
  exists m',
    GraphicsRing.submit_commands_to_hardware drawing fuel m commands
    = Some (GIBGO_RESULT_SUCCESS, m', command_log 0 (length commands))
    /\ registers m' = registers finished
    /\ gpu_state m' = gpu_state finished
    /\ frames_rendered m' = frames_rendered finished
    /\ head_offset (cmd_ring m') = tail'
    /\ tail_offset (cmd_ring m') = tail'
    /\ ring_ready (cmd_ring m')
    /\ holds (command_buffer (cmd_ring m')) (capacity ring) (tail_offset ring) commands
    /\ commands_submitted m' = wrap64 (commands_submitted m + Z.of_nat (length commands)).
Proof.
  intros Hready Hlen Hfuel ring tail' started finished.
  pose proof (submit_runs m commands fuel Hready Hlen Hfuel) as Hsubmit.
  cbv zeta in Hsubmit. fold ring in Hsubmit. fold tail' in Hsubmit.
  fold started in Hsubmit. fold finished in Hsubmit.
  destruct Hready as (Hok & Hempty & Hwords).
  pose proof Hok as (Hcap & Hhead & Htail). fold ring in Hcap, Hhead, Htail, Hempty, Hwords, Hlen.
  destruct (fold_writes_ring commands ring Hcap Htail) as (Hc & Hh & Ht).
  cbv zeta in Hc, Hh, Ht. fold tail' in Ht.
  pose proof (fold_writes_holds commands ring ltac:(lia) Hwords Htail ltac:(lia)) as Hholds.
  eexists. split; [exact Hsubmit|].
  cbn [registers gpu_state frames_rendered cmd_ring commands_submitted with_head
       head_offset tail_offset command_buffer].
  assert (Htail' : 0 <= tail' < capacity ring) by (apply Z.mod_pos_bound; lia).
  repeat split; try reflexivity; try exact Hholds;
    cbn [with_head capacity head_offset tail_offset]; rewrite ?Hc, ?Ht; lia.
Qed.

Lemma execute_present (m : Machine) (p0 p1 p2 : Z) :
  execute_command drawing m GPU_CMD_PRESENT_FRAME p0 p1 p2
  = with_frames m (wrap64 (frames_rendered m + 1)).
Proof. reflexivity. Qed.

Lemma execute_fence (m : Machine) (r p0 p1 p2 : Z) :
  fence_register m = Some r ->
  execute_command drawing m GPU_CMD_FENCE p0 p1 p2
  = with_registers m (store_set (registers m) r p0).
Proof.
  intros Hfence. unfold execute_command.
  change (GPU_CMD_FENCE =? GPU_CMD_SET_VERTEX_BUFFER) with false.
  change (GPU_CMD_FENCE =? GPU_CMD_SET_INDEX_BUFFER) with false.
  change (GPU_CMD_FENCE =? GPU_CMD_SET_VERTEX_SHADER) with false.
  change (GPU_CMD_FENCE =? GPU_CMD_SET_FRAGMENT_SHADER) with false.
  change (GPU_CMD_FENCE =? GPU_CMD_SET_MATRICES) with false.
  change (GPU_CMD_FENCE =? GPU_CMD_ENABLE_DEPTH_TEST) with false.
  change (GPU_CMD_FENCE =? GPU_CMD_SET_DEPTH_COMPARE) with false.
  change (GPU_CMD_FENCE =? GPU_CMD_DRAW_INDEXED) with false.
  change (GPU_CMD_FENCE =? GPU_CMD_PRESENT_FRAME) with false.
  change (GPU_CMD_FENCE =? GPU_CMD_FENCE) with true.
  cbv beta iota. rewrite Hfence. reflexivity.
Qed.

Lemma execute_other_frames (m : Machine) (type p0 p1 p2 : Z) :
  (type =? GPU_CMD_PRESENT_FRAME) = false ->
  frames_rendered (execute_command drawing m type p0 p1 p2) = frames_rendered m.
Proof.
  intros Hother. unfold execute_command. rewrite Hother.
  repeat match goal with
         | |- context [if ?b then _ else _] => destruct b
         end;
    try (destruct (fence_register m)); reflexivity.
Qed.

(** Commands other than present leave the frame counter alone. *)
Lemma run_commands_frames (commands : list GibgoGPUCommand) : forall m : Machine,
  forallb (fun cmd => negb (is_present_command cmd)) commands = true ->
  frames_rendered (run_commands drawing m commands) = frames_rendered m.
Proof.
  induction commands as [|cmd rest IH]; intros m Hnone; [reflexivity|].
  cbn [forallb] in Hnone. apply andb_true_iff in Hnone as [Hcmd Hrest].
  apply negb_true_iff in Hcmd. unfold is_present_command in Hcmd.
  unfold run_commands. cbn [List.fold_left].
  fold (run_commands drawing
          (execute_command drawing m (command_type cmd) (param0 cmd) (param1 cmd) (param2 cmd))
          rest).
  rewrite (IH _ Hrest). apply execute_other_frames. exact Hcmd.
Qed.

Lemma run_commands_app (m : Machine) (first second : list GibgoGPUCommand) :
  run_commands drawing m (first ++ second)
  = run_commands drawing (run_commands drawing m first) second.
Proof. unfold run_commands. apply fold_left_app. Qed.

(** The last fence command of a list decides what the fence register holds. *)
Lemma run_ends_with_fence (m : Machine) (commands : list GibgoGPUCommand) (r v p1 p2 : Z) :
  fence_register m = Some r ->
  registers (run_commands drawing m (commands ++ [mkCommand GPU_CMD_FENCE v p1 p2])) r = v.
Proof.
  intros Hfence. rewrite run_commands_app.
  set (before := run_commands drawing m commands).
  change (run_commands drawing before [mkCommand GPU_CMD_FENCE v p1 p2])
    with (execute_command drawing before GPU_CMD_FENCE v p1 p2).
  rewrite (execute_fence before r).
  - cbn [with_registers registers]. apply store_set_eq.
  - destruct (run_commands_keeps commands m) as (_ & _ & K & _).
    cbv zeta in K. fold before in K. rewrite K. exact Hfence.
Qed.

Lemma run_present_then_fence (m : Machine) (commands : list GibgoGPUCommand)
    (a0 a1 a2 v p1 p2 : Z) :
  forallb (fun cmd => negb (is_present_command cmd)) commands = true ->
  frames_rendered
    (run_commands drawing m
       ((commands ++ [mkCommand GPU_CMD_PRESENT_FRAME a0 a1 a2])
        ++ [mkCommand GPU_CMD_FENCE v p1 p2]))
  = wrap64 (frames_rendered m + 1).
Proof.
  intros Hnone. rewrite !run_commands_app.
  set (before := run_commands drawing m commands).
  change (run_commands drawing before [mkCommand GPU_CMD_PRESENT_FRAME a0 a1 a2])
    with (execute_command drawing before GPU_CMD_PRESENT_FRAME a0 a1 a2).
  set (presented := execute_command drawing before GPU_CMD_PRESENT_FRAME a0 a1 a2).
  change (run_commands drawing presented [mkCommand GPU_CMD_FENCE v p1 p2])
    with (execute_command drawing presented GPU_CMD_FENCE v p1 p2).
  rewrite execute_other_frames by reflexivity.
  unfold presented. rewrite execute_present. cbn [with_frames frames_rendered].
  unfold before. rewrite (run_commands_frames _ m Hnone). reflexivity.
Qed.

(** A presented frame completes.  [gibgo_present_frame] ends the recording
    with a present and a fence command carrying the new fence counter; when
    the recording is submitted into an empty ring with room, the command
    processor leaves exactly that value in the fence register, so that
    [gibgo_wait_for_completion] on the frame's fence succeeds at its first
    read.  The frame is counted twice in [frames_rendered]: once when the
    present is recorded and once when it is executed. *)
Theorem presented_frame_reaches_its_fence
    (c : Commands.GibgoContext) (m : Machine) (rec : Commands.Recording) (r : Z)
    (fuel : nat) :
  Commands.recording_ok rec ->
  Commands.current_command_count rec + 2 <= Commands.max_commands rec ->
  ring_ready (cmd_ring m) ->
  Commands.current_command_count rec + 2 < capacity (cmd_ring m) ->
  fence_register m = Some r ->
  (Z.to_nat (Commands.current_command_count rec) + 2 <= fuel)%nat ->
  let '(result, c', m1, rec1) := gibgo_present_frame c m rec in
  result = GIBGO_RESULT_SUCCESS
  /\ Commands.frame_fence c' = wrap32 (fence_counter m + 1)
  /\ exists m2,
       GraphicsRing.gibgo_submit_commands drawing fuel m1 rec1
       = Some (GIBGO_RESULT_SUCCESS, m2, Commands.no_recording)
       /\ registers m2 r = Commands.frame_fence c'
       /\ Commands.gibgo_wait_for_completion (fun _ => registers m2 r)
            (Commands.frame_fence c') = GIBGO_RESULT_SUCCESS
       /\ (forallb (fun cmd => negb (is_present_command cmd)) (Commands.recorded rec) = true ->
           frames_rendered m2 = wrap64 (wrap64 (frames_rendered m + 1) + 1)).
Proof.
  intros Hok Hroom Hready Hfits Hfence Hfuel.
  unfold gibgo_present_frame. cbv zeta.
  set (fence := wrap32 (fence_counter m + 1)).
  set (present := Commands.add_command rec GPU_CMD_PRESENT_FRAME
                    (Commands.low_word (Commands.framebuffer_address c))
                    (Commands.high_word (Commands.framebuffer_address c))
                    (Commands.framebuffer_format c)).
  destruct (add_command_recorded rec GPU_CMD_PRESENT_FRAME
              (Commands.low_word (Commands.framebuffer_address c))
              (Commands.high_word (Commands.framebuffer_address c))
              (Commands.framebuffer_format c) Hok ltac:(lia))
    as (_ & Hok1 & Hmax1 & Hcount1 & Hrec1).
  fold present in Hok1, Hmax1, Hcount1, Hrec1.
  destruct (add_command_recorded (snd present) GPU_CMD_FENCE fence 0 0 Hok1 ltac:(lia))
    as (_ & Hok2 & _ & Hcount2 & Hrec2).
  set (rec2 := snd (Commands.add_command (snd present) GPU_CMD_FENCE fence 0 0)) in *.
  rewrite Hrec1 in Hrec2.
  set (m1 := mkMachine (registers m) (command_processor_offset m) (fence_register m)
               (cmd_ring m) fence (commands_submitted m) (wrap64 (frames_rendered m + 1))
               (gpu_state m)).
  split; [reflexivity|]. split; [reflexivity|].
  assert (Hlength : length (Commands.recorded rec2)
                    = (Z.to_nat (Commands.current_command_count rec) + 2)%nat).
  { rewrite Hrec2, !length_app, (length_recorded rec Hok). cbn [length]. lia. }
  pose proof (submit_runs m1 (Commands.recorded rec2) fuel Hready
                ltac:(rewrite Hlength; destruct Hok as (_ & ? & _);
                      cbn [m1 cmd_ring]; lia)
                ltac:(rewrite Hlength; exact Hfuel)) as Hsubmit.
  cbv zeta in Hsubmit.
  set (started := with_registers m1 _) in Hsubmit.
  set (finished := run_commands drawing started (Commands.recorded rec2)) in Hsubmit.
  eexists. split; [|split; [|split]].
  - unfold GraphicsRing.gibgo_submit_commands.
    destruct (Commands.current_commands rec2) eqn:Hcur;
      [|destruct Hok2 as (Hbuf & _); contradiction].
    rewrite Hsubmit. reflexivity.
  - cbn [registers Commands.with_frame Commands.frame_fence].
    unfold finished. rewrite Hrec2. apply run_ends_with_fence. exact Hfence.
  - apply wait_for_completion_success. exists O.
    split; [unfold Commands.FENCE_TIMEOUT; lia|].
    cbn [registers Commands.with_frame Commands.frame_fence].
    unfold finished. rewrite Hrec2, run_ends_with_fence by exact Hfence. lia.
  - intros Hnone. cbn [frames_rendered].
    unfold finished. rewrite Hrec2. rewrite (run_present_then_fence _ _ _ _ _ _ _ _ Hnone).
    reflexivity.
Qed.

End GraphicsRingProperties.

Lemma submitted_commands_are_executed_once_in_order_witness :
  let drawing := fun (fb : store Z) (n k : Z) => store_set fb 0 n in
  let m :=
    GraphicsRing.mkMachine (fun _ => 0) 0x2000 (Some 0x900)
      (CommandRing.create_ring (fun _ => 0)) 1 0 0
      (GraphicsRing.mkGPUState 0 0 0 0 0 0 0 0) in
  let commands :=
    [CommandRing.mkCommand GraphicsRing.GPU_CMD_SET_VERTEX_BUFFER 0x1000 0 0;
     CommandRing.mkCommand GraphicsRing.GPU_CMD_FENCE 7 0 0] in
  exists m',
    GraphicsRing.submit_commands_to_hardware drawing 2 m commands
    = Some (GIBGO_RESULT_SUCCESS, m', CommandRing.command_log 0 2)
    /\ GraphicsRing.registers m' 0x900 = 7
    /\ GraphicsRing.vertex_buffer_address (GraphicsRing.gpu_state m') = 0x1000
    /\ CommandRing.head_offset (GraphicsRing.cmd_ring m') = 2.
Proof.
  intros drawing m commands.
  assert (Hready : GraphicsRing.ring_ready (GraphicsRing.cmd_ring m)).
  { unfold GraphicsRing.ring_ready, CommandRing.ring_ok, u32_modulus. cbn. lia. }
  destruct (submitted_commands_are_executed_once_in_order drawing m commands 2 Hready
              ltac:(cbn; lia) ltac:(cbn; lia))
    as (m' & Hsubmit & Hregs & Hstate & _ & Hhead & _).
  exists m'. split; [exact Hsubmit|].
  rewrite Hregs, Hstate, Hhead. vm_compute. repeat split.
Defined.

Lemma presented_frame_reaches_its_fence_witness :
  let drawing := fun (fb : store Z) (n k : Z) => store_set fb 0 n in
  let c := Commands.mkContext 800 600 0 0 0 0 0 0 0 0 0 false F32_ZERO F32_ONE 1 0 in
  let m :=
    GraphicsRing.mkMachine (fun _ => 0) 0x2000 (Some 0x900)
      (CommandRing.create_ring (fun _ => 0)) 1 0 0
      (GraphicsRing.mkGPUState 0 0 0 0 0 0 0 0) in
  let rec :=
    snd (Commands.gibgo_begin_commands (Some (fun _ => CommandRing.mkCommand 0 0 0 0))
           Commands.no_recording) in
  let '(_, _, m1, rec1) := GraphicsRing.gibgo_present_frame c m rec in
  exists m2,
    GraphicsRing.gibgo_submit_commands drawing 2 m1 rec1
    = Some (GIBGO_RESULT_SUCCESS, m2, Commands.no_recording)
    /\ GraphicsRing.registers m2 0x900 = 2
    /\ GraphicsRing.frames_rendered m2 = 2.
Proof.
  intros drawing c m rec.
  assert (Hready : GraphicsRing.ring_ready (GraphicsRing.cmd_ring m)).
  { unfold GraphicsRing.ring_ready, CommandRing.ring_ok, u32_modulus. cbn. lia. }
  pose proof (presented_frame_reaches_its_fence drawing c m rec 0x900 2
                (proj1 (begin_recording_ok _ _)) ltac:(cbn; lia) Hready ltac:(cbn; lia)
                eq_refl ltac:(cbn; lia)) as H.
  destruct (GraphicsRing.gibgo_present_frame c m rec) as [[[result c'] m1] rec1].
  destruct H as (_ & Hfence & m2 & Hsubmit & Hreg & _ & Hframes).
  exists m2. split; [exact Hsubmit|]. split.
  - rewrite Hreg, Hfence. vm_compute. reflexivity.
  - rewrite Hframes by (vm_compute; reflexivity). vm_compute. reflexivity.
Defined.

(* ===================================================================== *)
(** ** A frame of the directDrm API *)
(* ===================================================================== *)

Section FrameProperties.
Import Commands.

(** A submission that fits the ring, written out. *)
Lemma submit_within_free (device : Device.GibgoGPUDevice) (h : GpuMemory.heap)
    (commands : list CommandRing.GibgoGPUCommand) :
  CommandRing.ring_ok (Device.cmd_ring device) ->
  Z.of_nat (length commands) <= CommandRing.free_slots (Device.cmd_ring device) ->
  let executed :=
    execute_3d_cube_rendering (Device.memory device) h (Device.registers device) commands in
  let ring := List.fold_left CommandRing.ring_after_write commands (Device.cmd_ring device) in
  Commands.submit_commands_to_hardware device h commands
  = (GIBGO_RESULT_SUCCESS,
     Device.mkDevice (Device.registers_address device)
       (store_set
          (store_set executed (Device.cmd_reg device Device.GPU_TAIL_PTR)
             (CommandRing.tail_offset ring))
          (Device.cmd_reg device Device.GPU_COMMAND_START) 1)
       (Device.register_space_size device) (Device.command_processor_offset device)
       (Device.memory device) ring (Device.fence_counter device)
       (wrap64 (Device.commands_submitted device + Z.of_nat (length commands)))
       (Device.frames_rendered device),
     CommandRing.command_log 0 (length commands)).
Proof.
  intros Hok Hfits executed ring. unfold Commands.submit_commands_to_hardware.
  fold executed.
  rewrite (write_commands_fold commands (Device.cmd_ring device) _ 0 Hok Hfits).
  reflexivity.
Qed.

(** The executor does not look at the present and fence commands. *)
Lemma execute_ignores_present_and_fence (device : GpuMemory.GibgoGPUDevice)
    (h : GpuMemory.heap) (fb : store Z) (commands : list CommandRing.GibgoGPUCommand)
    (a0 a1 a2 f0 f1 f2 : Z) :
  execute_3d_cube_rendering device h fb
    ((commands ++ [CommandRing.mkCommand GPU_CMD_PRESENT_FRAME a0 a1 a2])
     ++ [CommandRing.mkCommand GPU_CMD_FENCE f0 f1 f2])
  = execute_3d_cube_rendering device h fb commands.
Proof.
  unfold execute_3d_cube_rendering. rewrite !parse_commands_app.
  set (st := parse_commands commands (initial_state fb)).
  change (parse_commands [CommandRing.mkCommand GPU_CMD_PRESENT_FRAME a0 a1 a2] st)
    with (parse_command st (CommandRing.mkCommand GPU_CMD_PRESENT_FRAME a0 a1 a2)).
  rewrite (parse_command_skip st) by reflexivity.
  change (parse_commands [CommandRing.mkCommand GPU_CMD_FENCE f0 f1 f2] st)
    with (parse_command st (CommandRing.mkCommand GPU_CMD_FENCE f0 f1 f2)).
  rewrite (parse_command_skip st) by reflexivity.
  reflexivity.
Qed.

(** [gibgo_end_frame_and_present], the end of a frame of the API.  Outside
    a recording the call fails with INVALID_PARAMETER, but only after
    [gibgo_present_frame] has advanced the fence counter, the frame index
    and [frames_rendered].  In a recording with room for the present and
    fence commands and a ring with room for the frame, it succeeds: the
    recorder is reset, the three counters and [current_frame] go up by one,
    every recorded command is counted as submitted, and the frame drawn is
    the one the recorded commands alone produce, the words of the two
    command-processor registers apart. *)
Theorem frame_end_presents_and_submits
    (c : GibgoContext) (device : Device.GibgoGPUDevice) (h : GpuMemory.heap)
    (rec : Recording) (current_frame : Z) :
  let fence := wrap32 (Device.fence_counter device + 1) in
  let presented :=
    Device.mkDevice (Device.registers_address device) (Device.registers device)
      (Device.register_space_size device) (Device.command_processor_offset device)
      (Device.memory device) (Device.cmd_ring device) fence
      (Device.commands_submitted device) (wrap64 (Device.frames_rendered device + 1)) in
  (current_commands rec = None ->
   gibgo_end_frame_and_present c device h rec current_frame
   = (GIBGO_ERROR_INVALID_PARAMETER,
      with_frame c fence (wrap32 (current_frame_index c + 1)),
      presented, rec, current_frame))
  /\ (recording_ok rec -> current_command_count rec + 2 <= max_commands rec ->
      CommandRing.ring_ok (Device.cmd_ring device) ->
      current_command_count rec + 2 <= CommandRing.free_slots (Device.cmd_ring device) ->
      let '(r, c', device', rec', current_frame') :=
        gibgo_end_frame_and_present c device h rec current_frame in
      r = GIBGO_SUCCESS
      /\ rec' = no_recording
      /\ current_frame' = wrap32 (current_frame + 1)
      /\ c' = with_frame c fence (wrap32 (current_frame_index c + 1))
      /\ Device.fence_counter device' = fence
      /\ Device.frames_rendered device' = wrap64 (Device.frames_rendered device + 1)
      /\ Device.commands_submitted device'
         = wrap64 (Device.commands_submitted device + (current_command_count rec + 2))
      /\ (forall j, j <> Device.cmd_reg device Device.GPU_COMMAND_START ->
                    j <> Device.cmd_reg device Device.GPU_TAIL_PTR ->
                    Device.registers device' j
                    = execute_3d_cube_rendering (Device.memory device) h
                        (Device.registers device) (recorded rec) j)).
Proof.
  intros fence presented. split.
  - intros Hnone. unfold gibgo_end_frame_and_present, gibgo_present_frame.
    assert (Hadd : forall type p0 p1 p2,
              add_command rec type p0 p1 p2 = (GIBGO_RESULT_ERROR_INVALID_PARAMETER, rec)).
    { intros. unfold add_command. rewrite Hnone. reflexivity. }
    rewrite !Hadd. cbn [snd].
    unfold gibgo_end_commands. rewrite Hnone. reflexivity.
  - intros Hok Hroom Hring Hfits.
    unfold gibgo_end_frame_and_present, gibgo_present_frame.
    fold fence. fold presented.
    set (present := add_command rec GPU_CMD_PRESENT_FRAME
                      (low_word (framebuffer_address c))
                      (high_word (framebuffer_address c)) (framebuffer_format c)).
    destruct (add_command_recorded rec GPU_CMD_PRESENT_FRAME
                (low_word (framebuffer_address c)) (high_word (framebuffer_address c))
                (framebuffer_format c) Hok ltac:(lia))
      as (_ & Hok1 & Hmax1 & Hcount1 & Hrec1).
    fold present in Hok1, Hmax1, Hcount1, Hrec1.
    destruct (add_command_recorded (snd present) GPU_CMD_FENCE fence 0 0 Hok1 ltac:(lia))
      as (_ & Hok2 & _ & Hcount2 & Hrec2).
    set (rec2 := snd (add_command (snd present) GPU_CMD_FENCE fence 0 0)) in *.
    rewrite Hrec1 in Hrec2.
    assert (Hcur : exists buffer, current_commands rec2 = Some buffer).
    { destruct Hok2 as (Hbuf & _). destruct (current_commands rec2) as [buffer|];
        [exists buffer; reflexivity|contradiction]. }
    destruct Hcur as [buffer Hcur].
    assert (Hlength : Z.of_nat (length (recorded rec2)) = current_command_count rec + 2).
    { rewrite Hrec2, !length_app, (length_recorded rec Hok). cbn [length].
      destruct Hok as (_ & ? & _). lia. }
    pose proof (submit_within_free presented h (recorded rec2) Hring
                  ltac:(rewrite Hlength; exact Hfits)) as Hsubmit.
    cbv zeta in Hsubmit. cbv beta iota zeta.
    unfold gibgo_end_commands, gibgo_submit_commands. rewrite Hcur, Hsubmit.
    cbv beta iota zeta.
    cbn [Device.fence_counter Device.frames_rendered Device.commands_submitted
         Device.registers presented Device.memory Device.cmd_reg
         Device.command_processor_offset].
    rewrite Hlength.
    repeat (split; [reflexivity|]).
    intros j Hstart Htail.
    rewrite store_set_ne by exact Hstart. rewrite store_set_ne by exact Htail.
    rewrite Hrec2, execute_ignores_present_and_fence. reflexivity.
Qed.

Lemma frame_end_presents_and_submits_witness :
  let c := mkContext 800 600 0 0 0 0 0 0 0 0 0 false F32_ZERO F32_ONE 1 0 in
  let device :=
    Device.mkDevice 1 (fun _ => 0xFF222222) 1920000 0x2000 GpuMemory.small_device
      (CommandRing.create_ring (fun _ => 0)) 1 0 0 in
  let rec :=
    snd (gibgo_begin_commands (Some (fun _ => CommandRing.mkCommand 0 0 0 0)) no_recording) in
  let '(r, _, device', rec', current_frame') :=
    gibgo_end_frame_and_present c device (fun _ => 0) rec 0 in
  r = GIBGO_SUCCESS
  /\ rec' = no_recording
  /\ current_frame' = 1
  /\ Device.fence_counter device' = 2
  /\ Device.frames_rendered device' = 1
  /\ Device.commands_submitted device' = 2
  /\ Device.registers device' 0x900 = 0xFF222222.
Proof.
  intros c device rec.
  assert (Hring : CommandRing.ring_ok (Device.cmd_ring device)).
  { unfold CommandRing.ring_ok, u32_modulus. cbn. lia. }
  pose proof (proj2 (frame_end_presents_and_submits c device (fun _ => 0) rec 0)
                (proj1 (begin_recording_ok _ _)) ltac:(cbn; lia) Hring
                ltac:(vm_compute; discriminate)) as H.
  destruct (gibgo_end_frame_and_present c device (fun _ => 0) rec 0)
    as [[[[r c'] device'] rec'] current_frame'].
  destruct H as (Hr & Hrec & Hframe & _ & Hfence & Hframes & Hsubmitted & Hregs).
  split; [exact Hr|]. split; [exact Hrec|]. split; [rewrite Hframe; reflexivity|].
  split; [rewrite Hfence; reflexivity|]. split; [rewrite Hframes; reflexivity|].
  split; [rewrite Hsubmitted; reflexivity|].
  rewrite Hregs by (vm_compute; discriminate). vm_compute. reflexivity.
Defined.

End FrameProperties.
